(* ===== verification/_CoqProject ===== *)
-Q . S2P
Prelude.v
ByteMem.v
Kmem.v
Heap.v
Paging.v
VmRegion.v
Cow.v
Pipe.v
FdInv.v
Alloc.v
Io.v
Vga.v
Cmos.v
Disk.v
Ata.v
TinyFS.v
Vfs.v
FsHeap.v
FsPure.v
FsCalls.v
FsSpec.v
FsProps.v
VfsPath.v
FsRead.v
Tools.v
ToolsProps.v
ToolsAdd.v
Task.v
Fd.v
Sched.v
SchedProps.v
KernelInv.v
Keyboard.v
Signal.v
Elf.v
Syscall.v
Idt.v
Kernel.v
Boot.v
ElfLoad.v
KShell.v
Debug.v
ElfProps.v
LibcString.v
LibcStdio.v
Malloc.v
User.v
LibcFile.v
Ed.v
EdProps.v
Programs.v
Shell.v
ShellProps.v
ShellEnv.v
Userland.v
