(* ===== verification/Prelude.v ===== *)
(** * some-tiny-os: a verification development

    some-tiny-os is a small x86-64 operating system in C: a kernel
    ([src/kernel]), a C library for its programs ([src/some-libc]), the
    programs ([src/userspace]) and two programs of the host that make disk
    images ([src/tools]).  This library models the C code, one file per part,
    and proves what each part is meant to guarantee.

    ** The program and how its parts interact

    The kernel runs one processor.  Everything it does after booting starts
    with an interrupt: [handle_interrupt] (idt.c) calls the timer, keyboard,
    page-fault or system-call handler, and on the way back to user mode
    delivers a pending signal.  The timer's handler is the scheduler; the
    system calls use the scheduler, the pipes, the file system, the program
    loader and the memory manager.  Kernel data lives in the heap of memory.c,
    page tables and user pages in its page pool.  The file system (vfs.c on
    tinyfs.c) borrows heap buffers and reads and writes the disk through
    ata.c, which uses the ports.  User programs reach all of this through
    interrupt 0x80 only, mostly by way of the C library.

    ** The files and what they model

    - Prelude (this file): machine integers, tactics, general lemmas.
    - Memory (memory.c, memory.h): ByteMem is physical memory by bytes, Kmem
      the state of the memory manager with the page pool and its reference
      counts, Heap the kernel heap, Paging the page tables, VmRegion the
      regions of a task, Cow the address spaces (fork's copies, copy-on-write
      and demand faults).
    - Pipes (pipe.c): Pipe; FdInv is the accounting of references.
    - Devices: Io (io.h, serial.c), Vga (vga.c), Cmos (cmos.c, timer.c),
      Ata (ata.c), Keyboard (keyboard.c).
    - File system: TinyFS (tinyfs.c), Vfs (vfs.c); FsHeap, FsPure, FsCalls,
      FsSpec, FsProps, VfsPath and FsRead are its proofs.
    - Program loading: Elf and ElfLoad (elf.c), ElfProps.
    - Image tools: Tools (mkfs.tinyfs.c, tinyfs-add.c), ToolsProps, ToolsAdd.
    - Tasks: Task (scheduler.c), Fd (descriptor calls of syscall.c), Signal
      (signals of scheduler.c and syscall.c); Sched, SchedProps and KernelInv
      are proofs.
    - The joined kernel: Syscall (syscall.c), Idt (idt.c, gdt.c);
      Kernel is the invariant of all interrupts.  Boot (kernel.c) is the boot
      and that invariant from power-on.
    - The kernel's own shell: KShell (kernel/shell.c).  Debug has the spin
      lock and the page-table dump of memory.c, which nothing calls.
    - C library: LibcString (string.c), LibcStdio (stdio.c), Malloc
      (stdlib.c), LibcFile (file.c); User has the calls programs make and
      signal.c.
    - Programs: Ed and EdProps (ed.c), Programs (the small ones), Shell
      (userspace/shell.c); ShellProps (line editor, history) and ShellEnv
      (environment, expansion, pipes) are its proofs.  Userland runs programs
      on the kernel.

    A C [struct] or the static data of a file is a Record, a C function the
    Definition of its name; where a function is long, the parts it is made of
    are definitions of their own, named after what they do.  Machine integers
    are [Z] with the truncation of the type written out.  Kernel code that
    threads state is in the state monad of this file or passes its state by
    hand; programs are interaction trees of system calls (User).

    ** Interfaces

    A class states what one part promises to another, or what the code relies
    on in something that is not C: [PortIO] (the port instructions) and
    [AtaDrive] (a drive that follows the ATA protocol) below the disk driver;
    [Disk]/[DiskLaws] between the driver and the file system, discharged by
    [Ata] and by a RAM disk; [Allocator]/[AllocLaws] between the heap and the
    file system, discharged by [kmem_laws]; [Sbrk]/[SbrkLaws] below [malloc];
    [Mmu] and [UserMem] for accesses through the processor's translation (the
    walk of the page tables is [walk_umem] of Userland);
    [Hlt] for the interrupts that end a [hlt] of the kernel's shell.
    Every set of laws has a concrete instance.

    ** What the theorems show

    - Tasks and descriptors: the kernel invariant from power-on over all
      interrupts (Boot), round robin, fairness, the outcomes of fork and of waiting
      (SchedProps), delivery of and return from signals (Signal).
    - Memory: the heap refines a list of tiles and its clients never overlap
      (Heap); mapping a page changes that page's translation only (Paging); a
      copy-on-write fault isolates the writer of a frame that is counted, and
      does not isolate the frames below the pool (Cow); the loaders put a program
      at its place byte for byte (ElfProps, ElfLoad).
    - Pipes are FIFO under every interleaving of their operations; a writer
      that falls asleep displaces one that slept before it (Pipe).
    - File system: directories are finite maps, the bitmaps allocators, path
      resolution is a walk over components, no call leaks or frees a buffer
      twice, and under stated conditions none leaves its buffers (FsProps,
      VfsPath, FsCalls); what the driver writes it reads back
      (Ata); an image made by the tools mounts and its files read back
      (ToolsProps, ToolsAdd).
    - From the program to the devices: a program whose calls read and write
      the console does on the kernel, by way of registers, user memory,
      [syscall_handler], the keyboard's queue and the screen, what it does in
      the world its own theorems are about (Userland).
    - Programs: [malloc]'s blocks keep their contents (Malloc); the editor's
      commands are the operations on a list of lines, within its array, and a
      saved text loads again (EdProps); [grep] is a filter (Programs); the
      shell's line editor is a text with a cursor and its history a bounded log
      (ShellProps); its environment is a map, [echo] prints the expansion of
      its line, and a pipe connects its two sides (ShellEnv).  These theorems
      are about the programs' code, given system calls that answer as the world
      of User says; ed.c itself reports a fault that its own code does not make.
    - Error behaviour: the code's own mistakes that modelling showed are
      theorems too ([fopen] opens nothing, [s/pat/r/] does nothing, counts a
      failed fork leaks).

    ** Bounds and fuel

    A C loop with a bound known from its data is a [Fixpoint] on that bound.
    A loop that follows pointers or polls takes fuel, and [None] is running
    out of it: the theorems about such a function give the fuel that is
    enough (the number of blocks for the heap, the number of tasks plus one
    for the scheduler's ring, the length of the string for C strings).  Loops
    that wait for input without end are [ITree.iter] and have no fuel.

    ** Accesses outside an array

    Where the kernel's file system indexes a buffer without a check, the model
    notes an access outside it ([fs_wild], [o_wild] in the joined kernel) and
    goes on with the buffer unchanged, which C does not: what is said of a
    state is about the program while the note is unset.  [fs_calls_keep_heap]
    gives the conditions under which it stays unset.  In the shell's line
    editor such a store makes the list longer than the array.

    ** Not modelled

    - Interruption of a call.  A system call runs to its end or to the point
      where it sleeps, and the timer comes in between; the trap gate of
      interrupt 0x80 in fact lets the timer interrupt a call half way.
    - The rights in page-table entries when the kernel itself accesses user
      memory: an access goes to the frame that is mapped, read-only or not.
    - Assembly: boot sectors, interrupt stubs, the switch of stacks, and the
      processor's tables behind [lgdt], [lidt] and [cr3].
    - Interrupts during the boot, and what the kernel's shell would meet after
      [kmain] has left for user mode. *)

From Stdlib Require Export ZArith Lia.
From Stdlib Require Ascii String.
Export String.StringSyntax.
From stdpp Require Export base numbers list gmap.

#[global] Open Scope Z_scope.

(** ** Machine integers

    C integers are [Z] values; every operation of the source that can leave
    the range of its type is followed by the truncation of that type. *)

Definition u8 (z : Z) : Z := z mod 2 ^ 8.
Definition u16 (z : Z) : Z := z mod 2 ^ 16.
Definition u32 (z : Z) : Z := z mod 2 ^ 32.
Definition u64 (z : Z) : Z := z mod 2 ^ 64.
Definition i8 (z : Z) : Z := (z + 2 ^ 7) mod 2 ^ 8 - 2 ^ 7.
Definition i32 (z : Z) : Z := (z + 2 ^ 31) mod 2 ^ 32 - 2 ^ 31.
Definition i64 (z : Z) : Z := (z + 2 ^ 63) mod 2 ^ 64 - 2 ^ 63.

(** The tactics of the development: [zlia] is [lia] with [/] and [mod] by
    constants expanded, [cint] unfolds the truncations first. *)
Ltac zlia := Z.div_mod_to_equations; lia.
Ltac cint := unfold u8, u16, u32, u64, i8, i32, i64 in *; zlia.

Lemma u8_range z : 0 <= u8 z < 256.
Proof. cint. Qed.

Lemma u16_range z : 0 <= u16 z < 65536.
Proof. cint. Qed.

Lemma u32_range z : 0 <= u32 z < 4294967296.
Proof. cint. Qed.

Lemma u64_range z : 0 <= u64 z < 18446744073709551616.
Proof. cint. Qed.

Lemma i32_range z : -2147483648 <= i32 z < 2147483648.
Proof. cint. Qed.

Lemma u8_small z : 0 <= z < 256 -> u8 z = z.
Proof. intros. apply Z.mod_small. lia. Qed.

Lemma u16_small z : 0 <= z < 65536 -> u16 z = z.
Proof. intros. apply Z.mod_small. lia. Qed.

Lemma u32_small z : 0 <= z < 4294967296 -> u32 z = z.
Proof. intros. apply Z.mod_small. lia. Qed.

Lemma u64_small z : 0 <= z < 18446744073709551616 -> u64 z = z.
Proof. intros. apply Z.mod_small. lia. Qed.

Lemma i32_small z : -2147483648 <= z < 2147483648 -> i32 z = z.
Proof. intros. cint. Qed.

Lemma i8_small z : -128 <= z < 128 -> i8 z = z.
Proof. intros. cint. Qed.

Lemma u8_idemp z : u8 (u8 z) = u8 z.
Proof. apply u8_small, u8_range. Qed.

Lemma u32_idemp z : u32 (u32 z) = u32 z.
Proof. apply u32_small, u32_range. Qed.

Lemma u64_idemp z : u64 (u64 z) = u64 z.
Proof. apply u64_small, u64_range. Qed.

(** A [char] of the kernel is signed; reading it back through
    [(unsigned char)] gives the byte that was stored. *)
Lemma u8_i8 z : u8 (i8 z) = u8 z.
Proof. cint. Qed.

Create HintDb cint.
Create Rewrite HintDb cint.
#[export] Hint Rewrite u8_idemp u32_idemp u64_idemp u8_i8 : cint.
#[export] Hint Resolve u8_range u16_range u32_range u64_range i32_range : cint.

(** [z_true b] is C's truth value of an integer. *)
Definition z_true (z : Z) : bool := negb (z =? 0).
Definition b2z (b : bool) : Z := if b then 1 else 0.

(** ** Bits

    Masks and flags as arithmetic: a mask of low bits is a remainder, a mask
    of high bits rounds down, and [|] adds bits that do not overlap. *)

Lemma land_low_ones a n : 0 <= n -> Z.land a (Z.ones n) = a mod 2 ^ n.
Proof. apply Z.land_ones. Qed.

Lemma land_high_ones e k n :
  0 <= e < 2 ^ n -> 0 <= k <= n -> Z.land e (Z.shiftl (Z.ones (n - k)) k) = e / 2 ^ k * 2 ^ k.
Proof.
  intros He Hk. rewrite <- Z.shiftr_div_pow2, <- Z.shiftl_mul_pow2 by lia.
  apply Z.bits_inj'. intros b Hb. rewrite Z.land_spec.
  destruct (Z.ltb_spec b k).
  - rewrite !(Z.shiftl_spec_low _ _ b) by lia. apply andb_false_r.
  - rewrite !Z.shiftl_spec, Z.shiftr_spec by lia. replace (b - k + k) with b by lia.
    destruct (Z.ltb_spec b n).
    + rewrite Z.ones_spec_low by lia. apply andb_true_r.
    + rewrite Z.ones_spec_high by lia. rewrite andb_false_r. symmetry.
      destruct (Z.eqb_spec e 0) as [->|]; [apply Z.bits_0|].
      apply Z.bits_above_log2; [lia|]. apply Z.log2_lt_pow2; [lia|].
      eapply Z.lt_le_trans; [apply He|]. apply Z.pow_le_mono_r; lia.
Qed.

Lemma lor_range a b n : 0 <= n -> 0 <= a < 2 ^ n -> 0 <= b < 2 ^ n -> 0 <= Z.lor a b < 2 ^ n.
Proof.
  intros Hn Ha Hb.
  rewrite <- (Z.mod_small a (2 ^ n)), <- (Z.mod_small b (2 ^ n)) by lia.
  rewrite <- !Z.land_ones, <- Z.land_lor_distr_l, Z.land_ones by lia.
  apply Z.mod_pos_bound. lia.
Qed.

Lemma land_range a b n : 0 <= n -> 0 <= a -> 0 <= b < 2 ^ n -> 0 <= Z.land a b < 2 ^ n.
Proof.
  intros Hn Ha Hb. rewrite <- (Z.mod_small b (2 ^ n)) by lia.
  rewrite <- Z.land_ones, Z.land_assoc, Z.land_ones by lia. apply Z.mod_pos_bound. lia.
Qed.

(** [|] of a multiple of [2^n] and a number below [2^n]. *)
Lemma lor_disjoint a f n : 0 <= n -> a mod 2 ^ n = 0 -> 0 <= f < 2 ^ n -> Z.lor a f = a + f.
Proof.
  intros Hn Ha Hf.
  assert (Hland : Z.land a f = 0).
  { rewrite <- (Z.mod_small f (2 ^ n)) by lia.
    rewrite <- Z.land_ones, (Z.land_comm f), Z.land_assoc, Z.land_ones, Ha by lia.
    apply Z.land_0_l. }
  rewrite Z.add_nocarry_lxor by done. by rewrite Z.lxor_lor.
Qed.

Lemma lor_low a f g n :
  0 <= n -> a mod 2 ^ n = 0 -> 0 <= f < 2 ^ n -> 0 <= g < 2 ^ n ->
  Z.lor (a + f) g = a + Z.lor f g.
Proof.
  intros Hn Ha Hf Hg. pose proof (lor_range f g n Hn Hf Hg).
  rewrite <- (lor_disjoint a f n), <- (lor_disjoint a (Z.lor f g) n) by done.
  by rewrite Z.lor_assoc.
Qed.

Lemma land_low a f g n :
  0 <= n -> a mod 2 ^ n = 0 -> 0 <= f < 2 ^ n -> 0 <= g < 2 ^ n ->
  Z.land (a + f) g = Z.land f g.
Proof.
  intros Hn Ha Hf Hg. rewrite <- (Z.mod_small g (2 ^ n)) by lia.
  rewrite <- Z.land_ones, (Z.land_comm g), !Z.land_assoc, !Z.land_ones by lia. f_equal.
  rewrite <- Z.add_mod_idemp_l, Ha by lia. done.
Qed.

(** ** State passing

    A C function over a state [S] is [S -> A * S].  The [let*] notation
    sequences two calls. *)

Definition ST (S A : Type) : Type := S -> A * S.

Definition ret {S A} (a : A) : ST S A := fun s => (a, s).
Definition bind {S A B} (m : ST S A) (k : A -> ST S B) : ST S B :=
  fun s => let '(a, s') := m s in k a s'.
Definition get {S} : ST S S := fun s => (s, s).
Definition gets {S A} (f : S -> A) : ST S A := fun s => (f s, s).
Definition modify {S} (f : S -> S) : ST S unit := fun s => (tt, f s).

Declare Scope st_scope.
Delimit Scope st_scope with st.
Notation "'let*' x ':=' m 'in' k" := (bind m (fun x => k))
  (at level 10, x name, m at level 100, k at level 200) : st_scope.
Notation "'let*' ' p ':=' m 'in' k" := (bind m (fun x => let 'p := x in k))
  (at level 10, p strict pattern, m at level 100, k at level 200) : st_scope.
Notation "'do*' m 'in' k" := (bind m (fun _ => k))
  (at level 10, m at level 100, k at level 200) : st_scope.
(** [if (f(..., &x) < 0) return r;] where [None] is the negative result, and
    [if (f(...) < 0) return r;]. *)
Notation "'try*' x ':=' m 'else' r 'in' k" :=
  (bind m (fun o => match o with None => ret r | Some x => k end))
  (at level 10, x name, m at level 100, r at level 100, k at level 200) : st_scope.
Notation "'chk*' m 'else' r 'in' k" := (bind m (fun v => if v <? 0 then ret r else k))
  (at level 10, m at level 100, r at level 100, k at level 200) : st_scope.
#[global] Open Scope st_scope.

Lemma bind_run {S A B} (m : ST S A) (k : A -> ST S B) s a s' :
  m s = (a, s') -> bind m k s = k a s'.
Proof. unfold bind. intros ->. done. Qed.

(** [for (i = i0; rounds left; i++) body], where the body may return from the
    function: [Some r] is [return r], [None] goes on (also for [continue]). *)
Fixpoint for_ret {S R} (rounds : nat) (i : Z) (body : Z -> ST S (option R)) : ST S (option R) :=
  match rounds with
  | O => ret None
  | Datatypes.S n =>
      let* r := body i in
      match r with
      | Some v => ret (Some v)
      | None => for_ret n (i + 1) body
      end
  end.

(** The same for a body that never returns from the function. *)
Fixpoint for_loop {S} (rounds : nat) (i : Z) (body : Z -> ST S unit) : ST S unit :=
  match rounds with
  | O => ret tt
  | Datatypes.S n => do* body i in for_loop n (i + 1) body
  end.

(** ** Byte strings *)

(** Little-endian encoding of the low [n] bytes of [v], and its inverse. *)
Fixpoint le_bytes (n : nat) (v : Z) : list Z :=
  match n with
  | O => []
  | S n' => v mod 256 :: le_bytes n' (v / 256)
  end.

Fixpoint le_val (bs : list Z) : Z :=
  match bs with
  | [] => 0
  | b :: bs' => b + 256 * le_val bs'
  end.

Definition is_byte (b : Z) : Prop := 0 <= b < 256.
#[export] Instance is_byte_dec b : Decision (is_byte b).
Proof. unfold is_byte. apply _. Defined.
Abbreviation bytes_ok := (Forall is_byte).

Lemma length_le_bytes n v : length (le_bytes n v) = n.
Proof. revert v. induction n; simpl; auto. Qed.

Lemma le_bytes_ok n v : bytes_ok (le_bytes n v).
Proof.
  revert v. induction n as [|n IH]; intros v; simpl; constructor; auto.
  unfold is_byte. zlia.
Qed.

Lemma le_val_bytes n v : le_val (le_bytes n v) = v mod 256 ^ Z.of_nat n.
Proof.
  revert v. induction n as [|n IH]; intros v; simpl le_bytes; cbn [le_val].
  - change (256 ^ Z.of_nat 0) with 1. by rewrite Z.mod_1_r.
  - rewrite IH. replace (Z.of_nat (S n)) with (Z.of_nat n + 1) by lia.
    rewrite Z.pow_add_r, Z.mul_comm with (m := 256 ^ 1) by lia.
    change (256 ^ 1) with 256.
    rewrite Z.rem_mul_r by lia. done.
Qed.

Lemma le_val_range bs : bytes_ok bs -> 0 <= le_val bs < 256 ^ Z.of_nat (length bs).
Proof.
  induction 1 as [|b bs Hb Hbs IH]; cbn [le_val length].
  - done.
  - unfold is_byte in Hb. replace (Z.of_nat (S (length bs))) with (Z.of_nat (length bs) + 1) by lia.
    rewrite Z.pow_add_r by lia. lia.
Qed.

Lemma le_bytes_val bs : bytes_ok bs -> le_bytes (length bs) (le_val bs) = bs.
Proof.
  induction 1 as [|b bs Hb Hbs IH]; cbn [le_val length le_bytes]; [done|].
  unfold is_byte in Hb. f_equal; [zlia|].
  replace ((b + 256 * le_val bs) / 256) with (le_val bs) by zlia. done.
Qed.

(** The [n] bytes of [bs] from offset [off], and [bs] with the bytes at
    [off] replaced by [v]. *)
Definition slice (off n : nat) (bs : list Z) : list Z := take n (drop off bs).
Definition splice (off : nat) (v bs : list Z) : list Z :=
  take off bs ++ v ++ drop (off + length v) bs.

Lemma length_slice off n bs : (off + n <= length bs)%nat -> length (slice off n bs) = n.
Proof. intros. unfold slice. rewrite length_take, length_drop. lia. Qed.

Lemma length_splice off v bs :
  (off + length v <= length bs)%nat -> length (splice off v bs) = length bs.
Proof.
  intros. unfold splice. rewrite !length_app, length_take, length_drop. lia.
Qed.

Lemma slice_splice_eq off n v bs :
  n = length v -> (off + n <= length bs)%nat -> slice off n (splice off v bs) = v.
Proof.
  intros -> ?. unfold slice, splice.
  rewrite drop_app_length' by (rewrite length_take; lia).
  by rewrite take_app_length.
Qed.

Lemma slice_lookup off n bs i :
  slice off n bs !! i = if decide (i < n)%nat then bs !! (off + i)%nat else None.
Proof.
  unfold slice. case_decide.
  - rewrite lookup_take_lt by done. by rewrite lookup_drop.
  - by rewrite lookup_take_ge by lia.
Qed.

Lemma splice_lookup off v bs i :
  (off + length v <= length bs)%nat ->
  splice off v bs !! i =
    if decide (off <= i < off + length v)%nat then v !! (i - off)%nat else bs !! i.
Proof.
  intros H. unfold splice. case_decide as Hi.
  - rewrite lookup_app_r by (rewrite length_take; lia).
    rewrite lookup_app_l by (rewrite length_take; lia).
    f_equal. rewrite length_take. lia.
  - destruct (decide (i < off)%nat).
    + rewrite lookup_app_l by (rewrite length_take; lia). by rewrite lookup_take_lt.
    + rewrite lookup_app_r by (rewrite length_take; lia).
      rewrite lookup_app_r by (rewrite length_take; lia).
      rewrite lookup_drop, length_take. f_equal. lia.
Qed.

Lemma slice_splice_ne off n off' v bs :
  (off' + length v <= length bs)%nat ->
  (off + n <= off' \/ off' + length v <= off)%nat ->
  slice off n (splice off' v bs) = slice off n bs.
Proof.
  intros H Hd. apply list_eq. intros i. rewrite !slice_lookup.
  case_decide; [|done]. rewrite splice_lookup by done.
  case_decide; [lia|done].
Qed.

Lemma slice_cat a n m bs : slice a n bs ++ slice (a + n) m bs = slice a (n + m) bs.
Proof. unfold slice. rewrite <- drop_drop, <- take_take_drop. done. Qed.

Lemma slice_all bs : slice 0 (length bs) bs = bs.
Proof. unfold slice. by rewrite drop_0, firstn_all. Qed.

Lemma slice_ok off n bs : bytes_ok bs -> bytes_ok (slice off n bs).
Proof. intros. by apply Forall_take, Forall_drop. Qed.

Lemma splice_ok off v bs : bytes_ok v -> bytes_ok bs -> bytes_ok (splice off v bs).
Proof.
  intros. apply Forall_app; split; [by apply Forall_take|].
  apply Forall_app; split; [done|by apply Forall_drop].
Qed.

Create HintDb bytes.
#[export] Hint Resolve le_bytes_ok slice_ok splice_ok : bytes.

(** ** C strings

    A [const char*] argument is the list of its bytes before the terminating
    zero; [cstr] reads such a list out of a buffer. *)

Fixpoint cstr (buf : list Z) : list Z :=
  match buf with
  | [] => []
  | c :: buf' => if c =? 0 then [] else c :: cstr buf'
  end.

(** [char_at s i] is [s[i]], where the terminator is at the end. *)
Definition char_at (s : list Z) (i : nat) : Z := default 0 (s !! i).

(** [while ( *p == c) p++]. *)
Fixpoint skip (c : Z) (s : list Z) : list Z :=
  match s with
  | x :: rest => if x =? c then skip c rest else s
  | [] => []
  end.

(** [nd] is a prefix of [s]. *)
Fixpoint prefixb (nd s : list Z) : bool :=
  match nd, s with
  | [], _ => true
  | x :: nd', y :: s' => (x =? y) && prefixb nd' s'
  | _ :: _, [] => false
  end.

(** Where the first [c] is. *)
Fixpoint index_of (c : Z) (l : list Z) : option nat :=
  match l with
  | [] => None
  | x :: rest => if x =? c then Some 0%nat else S <$> index_of c rest
  end.

Definition cstr_ok (s : list Z) : Prop := Forall (fun c => 0 < c < 256) s.
#[export] Instance cstr_ok_dec s : Decision (cstr_ok s).
Proof. unfold cstr_ok. apply _. Defined.

Lemma cstr_app_0 s t : cstr_ok s -> cstr (s ++ 0 :: t) = s.
Proof.
  induction 1 as [|c s Hc Hs IH]; simpl; [done|].
  destruct (Z.eqb_spec c 0); [lia|]. by rewrite IH.
Qed.

Lemma cstr_id s : cstr_ok s -> cstr s = s.
Proof.
  induction 1 as [|c s Hc Hs IH]; simpl; [done|].
  destruct (Z.eqb_spec c 0); [lia|]. by rewrite IH.
Qed.

Lemma cstr_cstr_ok buf : bytes_ok buf -> cstr_ok (cstr buf).
Proof.
  unfold cstr_ok. induction 1 as [|c buf Hc Hb IH]; simpl; [constructor|].
  unfold is_byte in *. destruct (Z.eqb_spec c 0); constructor; [lia|done].
Qed.

(** The comparison loop of [string_compare], [name_match], [strcmp]: advance
    while both strings have the same non-zero byte, then subtract the bytes
    (as unsigned chars) at which the loop stopped. *)
Fixpoint str_diff (a b : list Z) : Z :=
  match a, b with
  | [], [] => 0
  | [], y :: _ => 0 - y
  | x :: _, [] => x - 0
  | x :: a', y :: b' => if x =? y then str_diff a' b' else x - y
  end.

Lemma str_diff_0 a b : cstr_ok a -> cstr_ok b -> (str_diff a b = 0 <-> a = b).
Proof.
  intros Ha. revert b. induction Ha as [|x a Hx Ha IH]; intros b Hb; destruct Hb as [|y b Hy Hb];
    simpl; try (split; intros; (lia || congruence)).
  destruct (Z.eqb_spec x y) as [->|].
  - rewrite IH by done. split; congruence.
  - split; [lia|congruence].
Qed.

(** ASCII literals. *)
Fixpoint str (s : String.string) : list Z :=
  match s with
  | String.EmptyString => []
  | String.String c s' => Z.of_N (Ascii.N_of_ascii c) :: str s'
  end.
Arguments str _%_string_scope.

