(* ===== verification/ByteMem.v ===== *)
(** * Byte-addressed physical memory

    The memory the kernel code of [src/kernel/memory.c] works on: a finite map
    from addresses to bytes (an address the map lacks holds 0), little-endian
    32- and 64-bit accesses, and the byte loops [memory_copy] and
    [memory_set].  The kernel maps physical memory one to one, so a pointer
    and a physical address are the same number.  The laws at the end (a load
    after a store at the same or at a disjoint place) are the interface the
    heap and the page tables are verified against. *)

From S2P Require Import Prelude.

Abbreviation mem := (gmap Z Z).

Definition load8 (m : mem) (a : Z) : Z := u8 (default 0 (m !! a)).
Definition store8 (m : mem) (a v : Z) : mem := <[a := u8 v]> m.

Fixpoint load_bytes (m : mem) (a : Z) (n : nat) : list Z :=
  match n with
  | O => []
  | S n' => load8 m a :: load_bytes m (a + 1) n'
  end.

Fixpoint store_bytes (m : mem) (a : Z) (bs : list Z) : mem :=
  match bs with
  | [] => m
  | b :: bs' => store_bytes (store8 m a b) (a + 1) bs'
  end.

Definition load32 (m : mem) (a : Z) : Z := le_val (load_bytes m a 4).
Definition store32 (m : mem) (a v : Z) : mem := store_bytes m a (le_bytes 4 v).
Definition load64 (m : mem) (a : Z) : Z := le_val (load_bytes m a 8).
Definition store64 (m : mem) (a v : Z) : mem := store_bytes m a (le_bytes 8 v).

(** [for (size_t i = 0; i < n; i++) d[i] = s[i];] with [n - i] rounds left. *)
Fixpoint copy_loop (rounds : nat) (i d s : Z) (m : mem) : mem :=
  match rounds with
  | O => m
  | S r => copy_loop r (i + 1) d s (store8 m (d + i) (load8 m (s + i)))
  end.

Definition memory_copy (dest src n : Z) (m : mem) : mem :=
  copy_loop (Z.to_nat n) 0 dest src m.

Fixpoint set_loop (rounds : nat) (i d val : Z) (m : mem) : mem :=
  match rounds with
  | O => m
  | S r => set_loop r (i + 1) d val (store8 m (d + i) (u8 val))
  end.

Definition memory_set (dest val n : Z) (m : mem) : mem :=
  set_loop (Z.to_nat n) 0 dest val m.

(** ** Single bytes *)

Lemma load8_range m a : is_byte (load8 m a).
Proof. apply u8_range. Qed.

Lemma load8_store8 m a v x :
  load8 (store8 m a v) x = if decide (a = x) then u8 v else load8 m x.
Proof.
  unfold load8, store8. rewrite lookup_insert. case_decide; simpl; [apply u8_idemp|done].
Qed.

Lemma load8_store8_ne m a v x : a <> x -> load8 (store8 m a v) x = load8 m x.
Proof. intros. rewrite load8_store8. by rewrite decide_False. Qed.

(** ** Byte ranges *)

Lemma length_load_bytes m a n : length (load_bytes m a n) = n.
Proof. revert a. induction n; simpl; auto. Qed.

Lemma load_bytes_ok m a n : bytes_ok (load_bytes m a n).
Proof. revert a. induction n; simpl; constructor; auto using load8_range. Qed.

Lemma lookup_load_bytes m a n i :
  (i < n)%nat -> load_bytes m a n !! i = Some (load8 m (a + Z.of_nat i)).
Proof.
  revert a i. induction n as [|n IH]; intros a i Hi; [lia|].
  destruct i as [|i]; simpl.
  - by rewrite Z.add_0_r.
  - rewrite IH by lia. do 2 f_equal. lia.
Qed.

Lemma load_bytes_ext m m' a n :
  (forall x, a <= x < a + Z.of_nat n -> load8 m x = load8 m' x) ->
  load_bytes m a n = load_bytes m' a n.
Proof.
  revert a. induction n as [|n IH]; intros a H; [done|]. cbn [load_bytes].
  rewrite (H a) by lia. f_equal. apply IH. intros. apply H. lia.
Qed.

Lemma load8_store_bytes m a bs x :
  load8 (store_bytes m a bs) x =
    if decide (a <= x < a + Z.of_nat (length bs))
    then u8 (default 0 (bs !! Z.to_nat (x - a))) else load8 m x.
Proof.
  revert m a. induction bs as [|b bs IH]; intros m a; cbn [store_bytes length].
  - rewrite decide_False by lia. done.
  - rewrite IH, load8_store8. destruct (decide (a = x)) as [<-|Hne].
    + rewrite decide_False, decide_True by lia. by rewrite Z.sub_diag.
    + destruct (decide (a + 1 <= x < a + 1 + Z.of_nat (length bs))).
      * rewrite decide_True by lia.
        by replace (Z.to_nat (x - a)) with (S (Z.to_nat (x - (a + 1)))) by lia.
      * by rewrite decide_False by lia.
Qed.

Lemma load8_store_bytes_ne m a bs x :
  x < a \/ a + Z.of_nat (length bs) <= x -> load8 (store_bytes m a bs) x = load8 m x.
Proof. intros. rewrite load8_store_bytes. by rewrite decide_False by lia. Qed.

Lemma load_store_bytes_eq m a bs :
  bytes_ok bs -> load_bytes (store_bytes m a bs) a (length bs) = bs.
Proof.
  intros Hbs. apply list_eq. intros i. destruct (decide (i < length bs)%nat) as [Hi|Hi].
  - rewrite lookup_load_bytes by done. rewrite load8_store_bytes, decide_True by lia.
    replace (Z.to_nat (a + Z.of_nat i - a)) with i by lia.
    destruct (lookup_lt_is_Some_2 bs i Hi) as [b Hb]. rewrite Hb. simpl. f_equal.
    apply u8_small. by apply (Forall_lookup_1 _ _ _ _ Hbs Hb).
  - rewrite !lookup_ge_None_2; [done|lia|rewrite length_load_bytes; lia].
Qed.

(** ** Words *)

Lemma load64_ext m m' a :
  (forall x, a <= x < a + 8 -> load8 m x = load8 m' x) -> load64 m a = load64 m' a.
Proof. intros H. unfold load64. f_equal. apply load_bytes_ext. exact H. Qed.

Lemma load32_ext m m' a :
  (forall x, a <= x < a + 4 -> load8 m x = load8 m' x) -> load32 m a = load32 m' a.
Proof. intros H. unfold load32. f_equal. apply load_bytes_ext. exact H. Qed.

Lemma load64_range m a : 0 <= load64 m a < 2 ^ 64.
Proof.
  unfold load64. pose proof (le_val_range _ (load_bytes_ok m a 8)) as H.
  rewrite length_load_bytes in H. exact H.
Qed.

Lemma load32_range m a : 0 <= load32 m a < 2 ^ 32.
Proof.
  unfold load32. pose proof (le_val_range _ (load_bytes_ok m a 4)) as H.
  rewrite length_load_bytes in H. exact H.
Qed.

Lemma load64_store64_eq m a v : load64 (store64 m a v) a = u64 v.
Proof.
  unfold load64, store64. change 8%nat with (length (le_bytes 8 v)) at 2.
  rewrite load_store_bytes_eq by apply le_bytes_ok. by rewrite le_val_bytes.
Qed.

Lemma load32_store32_eq m a v : load32 (store32 m a v) a = u32 v.
Proof.
  unfold load32, store32. change 4%nat with (length (le_bytes 4 v)) at 2.
  rewrite load_store_bytes_eq by apply le_bytes_ok. by rewrite le_val_bytes.
Qed.

Lemma load8_store64_ne m a v x : x < a \/ a + 8 <= x -> load8 (store64 m a v) x = load8 m x.
Proof. intros. apply load8_store_bytes_ne. rewrite length_le_bytes. lia. Qed.

Lemma load8_store32_ne m a v x : x < a \/ a + 4 <= x -> load8 (store32 m a v) x = load8 m x.
Proof. intros. apply load8_store_bytes_ne. rewrite length_le_bytes. lia. Qed.

Lemma load64_store64_ne m a b v :
  a + 8 <= b \/ b + 8 <= a -> load64 (store64 m a v) b = load64 m b.
Proof. intros. apply load64_ext. intros. apply load8_store64_ne. lia. Qed.

Lemma load64_store32_ne m a b v :
  a + 4 <= b \/ b + 8 <= a -> load64 (store32 m a v) b = load64 m b.
Proof. intros. apply load64_ext. intros. apply load8_store32_ne. lia. Qed.

Lemma load32_store64_ne m a b v :
  a + 8 <= b \/ b + 4 <= a -> load32 (store64 m a v) b = load32 m b.
Proof. intros. apply load32_ext. intros. apply load8_store64_ne. lia. Qed.

Lemma load32_store32_ne m a b v :
  a + 4 <= b \/ b + 4 <= a -> load32 (store32 m a v) b = load32 m b.
Proof. intros. apply load32_ext. intros. apply load8_store32_ne. lia. Qed.

(** [mem_step] rewrites loads over stores, deciding the overlaps by [lia]. *)
Create Rewrite HintDb mem.
#[export] Hint Rewrite load64_store64_eq load32_store32_eq : mem.
#[export] Hint Rewrite load64_store64_ne load64_store32_ne load32_store64_ne load32_store32_ne
  load8_store64_ne load8_store32_ne load8_store8_ne using lia : mem.
Ltac mem_step := autorewrite with mem.

(** ** The byte loops *)

Lemma load8_set_loop r i d val m x :
  load8 (set_loop r i d val m) x =
    if decide (d + i <= x < d + i + Z.of_nat r) then u8 val else load8 m x.
Proof.
  revert i m. induction r as [|r IH]; intros i m; cbn [set_loop].
  - by rewrite decide_False by lia.
  - rewrite IH, load8_store8, u8_idemp. repeat case_decide; (done || lia).
Qed.

(** [memory_set] writes the byte [val] at exactly the [n] addresses from [dest]. *)
Lemma load8_memory_set d val n m x :
  load8 (memory_set d val n m) x =
    if decide (d <= x < d + n) then u8 val else load8 m x.
Proof.
  unfold memory_set. rewrite load8_set_loop. repeat case_decide; (done || lia).
Qed.

Lemma load8_copy_loop r i d s m x :
  (d + i + Z.of_nat r <= s + i \/ s + i + Z.of_nat r <= d + i) ->
  load8 (copy_loop r i d s m) x =
    if decide (d + i <= x < d + i + Z.of_nat r) then load8 m (s + (x - d)) else load8 m x.
Proof.
  revert i m. induction r as [|r IH]; intros i m Hd; cbn [copy_loop].
  - by rewrite decide_False by lia.
  - rewrite IH by lia. rewrite !load8_store8.
    repeat case_decide; subst; try lia; try done.
    replace (d + i - d) with i by lia. apply u8_small, load8_range.
Qed.

(** [memory_copy] on disjoint ranges copies [n] bytes and changes nothing else. *)
Lemma load8_memory_copy d s n m x :
  0 <= n -> (d + n <= s \/ s + n <= d) ->
  load8 (memory_copy d s n m) x =
    if decide (d <= x < d + n) then load8 m (s + (x - d)) else load8 m x.
Proof.
  intros Hn Hd. unfold memory_copy. rewrite load8_copy_loop by lia.
  repeat case_decide; (done || lia).
Qed.

Lemma load64_memory_set_zero d n m a :
  d <= a -> a + 8 <= d + n -> load64 (memory_set d 0 n m) a = 0.
Proof.
  intros. unfold load64. cbn [load_bytes]. rewrite !load8_memory_set, !decide_True by lia. done.
Qed.

Lemma load64_memory_set_ne d v n m a :
  a + 8 <= d \/ d + n <= a -> load64 (memory_set d v n m) a = load64 m a.
Proof.
  intros. apply load64_ext. intros. rewrite load8_memory_set. by rewrite decide_False by lia.
Qed.

#[export] Hint Rewrite load64_memory_set_zero load64_memory_set_ne using lia : mem.
