(* ===== verification/Kmem.v ===== *)
(** * The memory manager's state, the page allocator and the page reference counts

    [kmem] is the static data of [src/kernel/memory.c] together with the
    physical memory it manages.  This file models the bump allocator of
    4096-byte pages ([memory_page_init], [memory_alloc_page]) and the
    reference counts of the pages of its pool ([page_ref_*]). *)

From S2P Require Import Prelude.
From S2P Require Import ByteMem.

Record kmem := Kmem {
  phys : mem;                    (* physical memory *)
  heap_start : Z;                (* static block_t* heap_start *)
  page_alloc_cur : Z;
  page_alloc_end : Z;
  page_refcounts : list Z        (* static uint32_t page_refcounts[MAX_PHYS_PAGES] *)
}.

Definition set_phys (m : mem) (k : kmem) : kmem :=
  Kmem m (heap_start k) (page_alloc_cur k) (page_alloc_end k) (page_refcounts k).
Definition set_page_cur (c : Z) (k : kmem) : kmem :=
  Kmem (phys k) (heap_start k) c (page_alloc_end k) (page_refcounts k).
Definition set_refcounts (r : list Z) (k : kmem) : kmem :=
  Kmem (phys k) (heap_start k) (page_alloc_cur k) (page_alloc_end k) r.

(** Loads and stores as actions on the state. *)
Definition ld64 (a : Z) : ST kmem Z := gets (fun k => load64 (phys k) a).
Definition st64 (a v : Z) : ST kmem unit := modify (fun k => set_phys (store64 (phys k) a v) k).

(** Their equations under [bind]. *)
Lemma bind_ld64 {A} a (f : Z -> ST kmem A) k : bind (ld64 a) f k = f (load64 (phys k) a) k.
Proof. done. Qed.

Lemma bind_st64 {A} a v (f : unit -> ST kmem A) k :
  bind (st64 a v) f k = f tt (set_phys (store64 (phys k) a v) k).
Proof. done. Qed.

(** ** The page allocator *)

Definition memory_page_init : ST kmem unit :=
  modify (fun k => Kmem (phys k) (heap_start k) 0x600000 0x800000 (page_refcounts k)).

Definition memory_alloc_page : ST kmem Z := fun k =>
  if page_alloc_end k <=? page_alloc_cur k then (0, k)
  else
    let addr := page_alloc_cur k in
    let k1 := set_phys (memory_set addr 0 4096 (phys k)) k in
    (addr, set_page_cur (u64 (page_alloc_cur k1 + 4096)) k1).

(** ** Reference counts *)

Definition PAGE_ALLOC_START : Z := 0x600000.
Definition PAGE_ALLOC_END : Z := 0x800000.
Definition MAX_PHYS_PAGES : Z := (PAGE_ALLOC_END - PAGE_ALLOC_START) / 4096.

Definition phys_to_idx (p : Z) : Z :=
  if (p <? PAGE_ALLOC_START) || (PAGE_ALLOC_END <=? p) then -1
  else i32 ((p - PAGE_ALLOC_START) / 4096).

Definition page_ref_init : ST kmem unit :=
  modify (set_refcounts (replicate (Z.to_nat MAX_PHYS_PAGES) 0)).

Definition refcount_at (k : kmem) (idx : Z) : Z := default 0 (page_refcounts k !! Z.to_nat idx).

Definition page_ref_inc (p : Z) : ST kmem unit := modify (fun k =>
  let idx := phys_to_idx p in
  if 0 <=? idx
  then set_refcounts (<[Z.to_nat idx := u32 (refcount_at k idx + 1)]> (page_refcounts k)) k
  else k).

Definition page_ref_dec (p : Z) : ST kmem unit := modify (fun k =>
  let idx := phys_to_idx p in
  if (0 <=? idx) && (0 <? refcount_at k idx)
  then set_refcounts (<[Z.to_nat idx := u32 (refcount_at k idx - 1)]> (page_refcounts k)) k
  else k).

Definition page_ref_get (p : Z) : ST kmem Z := gets (fun k =>
  let idx := phys_to_idx p in
  if idx <? 0 then 0 else refcount_at k idx).

(** ** Invariant of the pool

    The allocator hands out the pages of [PAGE_ALLOC_START, PAGE_ALLOC_END)
    in order; there is a count for each of them. *)
Record kmem_wf (k : kmem) : Prop := {
  wf_end : page_alloc_end k = PAGE_ALLOC_END;
  wf_cur : PAGE_ALLOC_START <= page_alloc_cur k <= PAGE_ALLOC_END;
  wf_align : page_alloc_cur k mod 4096 = 0;
  wf_refs : length (page_refcounts k) = Z.to_nat MAX_PHYS_PAGES;
  wf_refs_range : Forall (fun c => 0 <= c < 2 ^ 32) (page_refcounts k)
}.

Lemma phys_to_idx_range p : -1 <= phys_to_idx p < MAX_PHYS_PAGES.
Proof.
  unfold phys_to_idx, MAX_PHYS_PAGES, PAGE_ALLOC_START, PAGE_ALLOC_END.
  destruct (Z.ltb_spec p 0x600000); simpl; [zlia|].
  destruct (Z.leb_spec 0x800000 p); simpl; [zlia|].
  rewrite i32_small by zlia. zlia.
Qed.

(** Two pool pages share a count only if they are the same page. *)
Lemma phys_to_idx_inj p q :
  0 <= phys_to_idx p -> phys_to_idx p = phys_to_idx q -> p / 4096 = q / 4096.
Proof.
  unfold phys_to_idx, PAGE_ALLOC_START, PAGE_ALLOC_END.
  destruct (Z.ltb_spec p 0x600000), (Z.leb_spec 0x800000 p),
    (Z.ltb_spec q 0x600000), (Z.leb_spec 0x800000 q); simpl; try lia;
    rewrite ?i32_small by zlia; zlia.
Qed.

Lemma alloc_page_wf k r k' : kmem_wf k -> memory_alloc_page k = (r, k') -> kmem_wf k'.
Proof.
  intros [He Hc Ha Hr Hrr]. unfold memory_alloc_page.
  destruct (Z.leb_spec (page_alloc_end k) (page_alloc_cur k)); intros [= <- <-].
  - by constructor.
  - unfold PAGE_ALLOC_START, PAGE_ALLOC_END in *. constructor; simpl; try done.
    + unfold PAGE_ALLOC_START, PAGE_ALLOC_END. rewrite u64_small by lia. zlia.
    + rewrite u64_small by lia. zlia.
Qed.

(** What a successful page allocation promises its callers. *)
Lemma alloc_page_fresh k r k' :
  kmem_wf k -> memory_alloc_page k = (r, k') -> r <> 0 ->
  r = page_alloc_cur k /\ page_alloc_cur k' = r + 4096 /\ r mod 4096 = 0
  /\ PAGE_ALLOC_START <= r /\ r + 4096 <= PAGE_ALLOC_END
  /\ (forall a, load8 (phys k') a = if decide (r <= a < r + 4096) then 0 else load8 (phys k) a)
  /\ page_refcounts k' = page_refcounts k /\ heap_start k' = heap_start k.
Proof.
  intros [He Hc Ha Hr Hrr]. unfold memory_alloc_page.
  destruct (Z.leb_spec (page_alloc_end k) (page_alloc_cur k)); intros [= <- <-] Hnz; [lia|].
  unfold PAGE_ALLOC_START, PAGE_ALLOC_END in *. simpl.
  rewrite u64_small by lia. split_and!; try done; try zlia.
  intros a. apply load8_memory_set.
Qed.

Lemma zeroed_load64 m m' q a :
  (forall a, load8 m' a = if decide (q <= a < q + 4096) then 0 else load8 m a) ->
  q <= a -> a + 8 <= q + 4096 -> load64 m' a = 0.
Proof.
  intros H Ha Hb. unfold load64. cbn [load_bytes]. rewrite !H, !decide_True by lia. done.
Qed.

Lemma kept_load64 m m' q a :
  (forall a, load8 m' a = if decide (q <= a < q + 4096) then 0 else load8 m a) ->
  a + 8 <= q \/ q + 4096 <= a -> load64 m' a = load64 m a.
Proof. intros H Hd. apply load64_ext. intros x Hx. by rewrite H, decide_False by lia. Qed.

Lemma alloc_page_null k k' :
  kmem_wf k -> memory_alloc_page k = (0, k') -> k' = k /\ page_alloc_cur k = PAGE_ALLOC_END.
Proof.
  intros [He Hc Ha Hr Hrr]. unfold memory_alloc_page, PAGE_ALLOC_START, PAGE_ALLOC_END in *.
  destruct (Z.leb_spec (page_alloc_end k) (page_alloc_cur k)); intros Heq; simplify_eq; try lia.
  split; [done|lia].
Qed.

Lemma refcount_at_range k idx : kmem_wf k -> 0 <= refcount_at k idx < 2 ^ 32.
Proof.
  intros [_ _ _ _ Hr]. unfold refcount_at. destruct (_ !! _) as [c|] eqn:E; simpl; [|lia].
  by apply (Forall_lookup_1 _ _ _ _ Hr E).
Qed.

Lemma page_ref_inc_wf p k : kmem_wf k -> kmem_wf (page_ref_inc p k).2.
Proof.
  intros Hk. pose proof Hk as [He Hc Ha Hr Hrr]. unfold page_ref_inc, modify. simpl.
  destruct (Z.leb_spec 0 (phys_to_idx p)); [|done].
  constructor; simpl; try done.
  - by rewrite length_insert.
  - apply Forall_insert; [done|]. apply u32_range.
Qed.

Lemma page_ref_dec_wf p k : kmem_wf k -> kmem_wf (page_ref_dec p k).2.
Proof.
  intros Hk. pose proof Hk as [He Hc Ha Hr Hrr]. unfold page_ref_dec, modify. simpl.
  destruct (_ && _); [|done].
  constructor; simpl; try done.
  - by rewrite length_insert.
  - apply Forall_insert; [done|]. apply u32_range.
Qed.

Lemma lookup_refcounts k idx :
  kmem_wf k -> 0 <= idx < MAX_PHYS_PAGES ->
  page_refcounts k !! Z.to_nat idx = Some (refcount_at k idx).
Proof.
  intros Hk Hi. unfold refcount_at.
  destruct (lookup_lt_is_Some_2 (page_refcounts k) (Z.to_nat idx)) as [c Hc].
  - rewrite (wf_refs k Hk). lia.
  - by rewrite Hc.
Qed.

(** Counting is per page: [page_ref_inc] and [page_ref_dec] add and subtract
    one from the count of their own page, saturating at zero below, and leave
    every other page's count alone. *)
Lemma ref_get_inc p q k :
  kmem_wf k ->
  (page_ref_get q (page_ref_inc p k).2).1 =
    if decide (phys_to_idx p = phys_to_idx q /\ 0 <= phys_to_idx q)
    then u32 ((page_ref_get q k).1 + 1) else (page_ref_get q k).1.
Proof.
  intros Hk. unfold page_ref_get, page_ref_inc, gets, modify. simpl.
  pose proof (phys_to_idx_range p). pose proof (phys_to_idx_range q).
  destruct (Z.ltb_spec (phys_to_idx q) 0); [rewrite decide_False by lia; done|].
  destruct (Z.leb_spec 0 (phys_to_idx p)); [|rewrite decide_False by lia; done].
  unfold refcount_at at 1. simpl. destruct (decide (phys_to_idx p = phys_to_idx q)) as [->|Hne].
  - rewrite list_lookup_insert_eq by (rewrite (wf_refs k Hk); lia).
    rewrite decide_True by lia. done.
  - rewrite list_lookup_insert_ne by lia. rewrite decide_False by lia. done.
Qed.

Lemma ref_get_dec p q k :
  kmem_wf k ->
  (page_ref_get q (page_ref_dec p k).2).1 =
    if decide (phys_to_idx p = phys_to_idx q /\ 0 < (page_ref_get q k).1)
    then (page_ref_get q k).1 - 1 else (page_ref_get q k).1.
Proof.
  intros Hk. unfold page_ref_get, page_ref_dec, gets, modify. simpl.
  pose proof (phys_to_idx_range p). pose proof (phys_to_idx_range q).
  pose proof (refcount_at_range k (phys_to_idx p) Hk) as Hp.
  destruct (Z.ltb_spec (phys_to_idx q) 0); [rewrite decide_False by lia; done|].
  destruct (decide (phys_to_idx p = phys_to_idx q)) as [Heq|Hne].
  - rewrite Heq in *. destruct (Z.leb_spec 0 (phys_to_idx q)); [|lia]. simpl.
    destruct (Z.ltb_spec 0 (refcount_at k (phys_to_idx q))).
    + unfold refcount_at at 1. simpl.
      rewrite list_lookup_insert_eq by (rewrite (wf_refs k Hk); lia).
      rewrite decide_True by lia. simpl. rewrite u32_small by lia. done.
    + rewrite decide_False by lia. done.
  - rewrite decide_False by lia.
    destruct (Z.leb_spec 0 (phys_to_idx p)); simpl; [|done].
    destruct (Z.ltb_spec 0 (refcount_at k (phys_to_idx p))); simpl; [|done].
    unfold refcount_at at 1. simpl. rewrite list_lookup_insert_ne by lia. done.
Qed.
