(* ===== verification/Heap.v ===== *)
(** * The kernel heap ([memory_init], [memory_alloc], [heap_merge], [memory_free])

    [src/kernel/memory.c] keeps a singly linked list of blocks inside the
    heap itself: each block is a 24-byte header ([size], [free], [next])
    followed by its payload.  The definitions below run on the bytes of
    [Kmem.phys]; [Module Spec] is the abstract allocator (a list of sizes and
    free flags that tiles the heap) they are proved to refine. *)

From S2P Require Import Prelude.
From S2P Require Import ByteMem.
From S2P Require Import Kmem.

Definition SIZEOF_BLOCK : Z := 24.

(** [typedef struct block { size_t size; int free; struct block* next; } block_t;] *)
Definition blk_size (m : mem) (b : Z) : Z := load64 m b.
Definition blk_free (m : mem) (b : Z) : bool := z_true (load32 m (b + 8)).
Definition blk_next (m : mem) (b : Z) : Z := load64 m (b + 16).
Definition set_blk_size (b v : Z) (m : mem) : mem := store64 m b v.
Definition set_blk_free (b v : Z) (m : mem) : mem := store32 m (b + 8) v.
Definition set_blk_next (b v : Z) (m : mem) : mem := store64 m (b + 16) v.

Definition memory_init (heap_start_ptr heap_size : Z) : ST kmem unit :=
  do* modify (fun k =>
        let m1 := set_blk_size heap_start_ptr (u64 (heap_size - SIZEOF_BLOCK)) (phys k) in
        let m2 := set_blk_free heap_start_ptr 1 m1 in
        let m3 := set_blk_next heap_start_ptr 0 m2 in
        Kmem m3 heap_start_ptr (page_alloc_cur k) (page_alloc_end k) (page_refcounts k)) in
  do* memory_page_init in
  page_ref_init.

(** Cut [curr] at [size] and insert the remainder as a free block. *)
Definition split_block (curr size : Z) (m : mem) : mem :=
  let new_block := u64 (curr + SIZEOF_BLOCK + size) in
  let m1 := set_blk_size new_block (u64 (blk_size m curr - size - SIZEOF_BLOCK)) m in
  let m2 := set_blk_free new_block 1 m1 in
  let m3 := set_blk_next new_block (blk_next m2 curr) m2 in
  let m4 := set_blk_size curr size m3 in
  set_blk_next curr new_block m4.

(** The [while (curr)] loop of [memory_alloc]; [None] when the fuel runs out. *)
Fixpoint alloc_loop (fuel : nat) (m : mem) (curr size : Z) : option (Z * mem) :=
  match fuel with
  | O => None
  | S f =>
      if curr =? 0 then Some (0, m)
      else if blk_free m curr && (size <=? blk_size m curr) then
        let m1 :=
          if u64 (size + SIZEOF_BLOCK + 8) <? blk_size m curr
          then split_block curr size m else m in
        Some (u64 (curr + SIZEOF_BLOCK), set_blk_free curr 0 m1)
      else alloc_loop f m (blk_next m curr) size
  end.

(** A heap of 0x200000 bytes (what [kmain] passes to [memory_init]) has at
    most 0x200000 / 24 blocks; one more round reaches the end of the list. *)
Definition HEAP_BYTES : Z := 0x200000.
Definition heap_fuel : nat := Z.to_nat (HEAP_BYTES / SIZEOF_BLOCK + 1).

Definition memory_alloc (size : Z) (k : kmem) : option (Z * kmem) :=
  match alloc_loop heap_fuel (phys k) (heap_start k) size with
  | Some (p, m) => Some (p, set_phys m k)
  | None => None
  end.

Fixpoint merge_loop (fuel : nat) (m : mem) (curr : Z) : option mem :=
  match fuel with
  | O => None
  | S f =>
      if (curr =? 0) || (blk_next m curr =? 0) then Some m
      else if blk_free m curr && blk_free m (blk_next m curr) then
        let m1 := set_blk_size curr
                    (u64 (blk_size m curr + (SIZEOF_BLOCK + blk_size m (blk_next m curr)))) m in
        let m2 := set_blk_next curr (blk_next m1 (blk_next m1 curr)) m1 in
        merge_loop f m2 curr
      else merge_loop f m (blk_next m curr)
  end.

Definition heap_merge (k : kmem) : option kmem :=
  match merge_loop heap_fuel (phys k) (heap_start k) with
  | Some m => Some (set_phys m k)
  | None => None
  end.

Definition memory_free (ptr : Z) (k : kmem) : option kmem :=
  if ptr =? 0 then Some k
  else
    let block := u64 (ptr - SIZEOF_BLOCK) in
    heap_merge (set_phys (set_blk_free block 1 (phys k)) k).

(** ** The abstract allocator *)

Module Spec.

(** The blocks of a heap in address order: payload size and free flag. *)
Definition blocks := list (Z * bool).

(** First fit; the block is cut when more than 32 bytes would be left over. *)
Fixpoint alloc (n a : Z) (l : blocks) : option (Z * blocks) :=
  match l with
  | [] => None
  | (sz, fr) :: t =>
      if fr && (n <=? sz)
      then Some (a + 24, if n + 32 <? sz then (n, false) :: (sz - n - 24, true) :: t
                         else (sz, false) :: t)
      else match alloc n (a + 24 + sz) t with
           | Some (p, t') => Some (p, (sz, fr) :: t')
           | None => None
           end
  end.

(** Coalesce neighbouring free blocks, with [c] the block the scan stands on. *)
Fixpoint merge_into (c : Z * bool) (l : blocks) : blocks :=
  match l with
  | [] => [c]
  | b :: t =>
      if c.2 && b.2 then merge_into (c.1 + 24 + b.1, true) t else c :: merge_into b t
  end.
Definition merge (l : blocks) : blocks :=
  match l with [] => [] | c :: t => merge_into c t end.

(** Set the free flag of the block whose payload is at [p]. *)
Fixpoint mark (p a : Z) (l : blocks) : blocks :=
  match l with
  | [] => []
  | (sz, fr) :: t =>
      if p =? a + 24 then (sz, true) :: t else (sz, fr) :: mark p (a + 24 + sz) t
  end.
Definition free (p a : Z) (l : blocks) : blocks := merge (mark p a l).

(** The payloads in use: address and size. *)
Fixpoint live (a : Z) (l : blocks) : list (Z * Z) :=
  match l with
  | [] => []
  | (sz, fr) :: t => (if fr then [] else [(a + 24, sz)]) ++ live (a + 24 + sz) t
  end.

(** No two neighbours are free. *)
Fixpoint normal (l : blocks) : bool :=
  match l with
  | b :: ((c :: _) as t) => negb (b.2 && c.2) && normal t
  | _ => true
  end.

Definition sizes_ok (l : blocks) : Prop := Forall (fun b => 0 <= b.1) l.

(** *** Facts about the abstract allocator *)

Lemma live_above a l p s : sizes_ok l -> (p, s) ∈ live a l -> a + 24 <= p /\ 0 <= s.
Proof.
  revert a. induction l as [|[sz fr] t IH]; intros a Hs; cbn [live].
  - by intros ?%not_elem_of_nil.
  - inversion_clear Hs as [|? ? Hsz Ht]. cbn in Hsz. rewrite elem_of_app. intros [H|H].
    + destruct fr; [by apply not_elem_of_nil in H|].
      apply list_elem_of_singleton in H. simplify_eq. lia.
    + apply IH in H; [lia|done].
Qed.

Lemma alloc_sizes n a l p l' :
  0 <= n -> sizes_ok l -> alloc n a l = Some (p, l') -> sizes_ok l'.
Proof.
  intros Hn. revert a l'. induction l as [|[sz fr] t IH]; intros a l' Hs; [done|].
  inversion_clear Hs as [|? ? Hsz Ht]. cbn in Hsz. cbn [alloc].
  destruct (fr && (n <=? sz)) eqn:Hfit.
  - intros [= <- <-]. destruct (Z.ltb_spec (n + 32) sz); repeat constructor; simpl; (done || lia).
  - destruct (alloc n _ t) as [[p0 t']|] eqn:E; [|done]. intros [= <- <-].
    constructor; [done|]. by eapply IH.
Qed.

Lemma alloc_live n a l p l' :
  0 <= n -> alloc n a l = Some (p, l') ->
  exists s, n <= s <= n + 32 /\ live a l' ≡ₚ (p, s) :: live a l.
Proof.
  intros Hn. revert a l'. induction l as [|[sz fr] t IH]; intros a l'; [done|].
  cbn [alloc]. destruct (fr && (n <=? sz)) eqn:Hfit.
  - apply andb_prop in Hfit as [-> Hle%Z.leb_le]. intros [= <- <-].
    destruct (Z.ltb_spec (n + 32) sz).
    + exists n. split; [lia|]. cbn [live app].
      replace (a + 24 + n + 24 + (sz - n - 24)) with (a + 24 + sz) by lia. done.
    + exists sz. split; [lia|]. done.
  - destruct (alloc n _ t) as [[p0 t']|] eqn:E; [|done]. intros [= <- <-].
    destruct (IH _ _ E) as (s & Hs & Hp). exists s. split; [done|].
    cbn [live]. rewrite Hp. by rewrite Permutation_middle.
Qed.

Lemma alloc_none n a l :
  alloc n a l = None <-> Forall (fun b => b.2 = false \/ b.1 < n) l.
Proof.
  revert a. induction l as [|[sz fr] t IH]; intros a; cbn [alloc]; [by split|].
  destruct fr, (Z.leb_spec n sz); cbn [andb];
    try (specialize (IH (a + 24 + sz)); destruct (alloc n _ t) as [[p0 t']|]);
    split; intros Hx; try done; try (constructor; [simpl; lia || by left|by apply IH]);
    inversion_clear Hx as [|? ? Hb Ht]; cbn in Hb; try (by apply IH in Ht); destruct Hb; (done || lia).
Qed.

Lemma merge_into_live c l a : live a (merge_into c l) = live a (c :: l).
Proof.
  revert c a. induction l as [|[sz fr] t IH]; intros [cs cf] a; [done|].
  cbn [merge_into fst snd]. destruct (cf && fr) eqn:E.
  - apply andb_prop in E as [-> ->]. rewrite IH. cbn [live app].
    by replace (a + 24 + (cs + 24 + sz)) with (a + 24 + cs + 24 + sz) by lia.
  - cbn [live]. by rewrite IH.
Qed.

Lemma merge_live a l : live a (merge l) = live a l.
Proof. destruct l; [done|]. apply merge_into_live. Qed.

Lemma normal_cons b c l :
  normal (b :: c :: l) = negb (b.2 && c.2) && normal (c :: l).
Proof. done. Qed.

Lemma merge_into_head c l : exists s t, merge_into c l = (s, c.2) :: t.
Proof.
  revert c. induction l as [|b t IH]; intros [cs cf]; cbn [merge_into fst snd]; [by eauto|].
  destruct cf; [destruct (b.2)|]; cbn [andb]; eauto.
Qed.

Lemma merge_into_normal c l : normal (merge_into c l) = true.
Proof.
  revert c. induction l as [|b t IH]; intros c; [done|]. cbn [merge_into].
  destruct (c.2 && b.2) eqn:E; [apply IH|].
  specialize (IH b). destruct (merge_into_head b t) as (s & t' & Hm). rewrite Hm in *.
  rewrite normal_cons. cbn [snd]. by rewrite E, IH.
Qed.

Lemma merge_normal l : normal (merge l) = true.
Proof. destruct l; [done|]. apply merge_into_normal. Qed.

Lemma normal_merge_into c l : normal (c :: l) = true -> merge_into c l = c :: l.
Proof.
  revert c. induction l as [|b t IH]; intros c; [done|].
  cbn [normal merge_into]. destruct (c.2 && b.2); [done|]. cbn [negb andb].
  intros H. by rewrite IH.
Qed.

Lemma mark_live p a l s :
  sizes_ok l -> (p, s) ∈ live a l -> (p, s) :: live a (mark p a l) ≡ₚ live a l.
Proof.
  revert a. induction l as [|[sz fr] t IH]; intros a Hs; cbn [live mark].
  - by intros ?%not_elem_of_nil.
  - inversion_clear Hs as [|? ? Hsz Ht]. cbn in Hsz. rewrite elem_of_app. intros Hin.
    destruct (Z.eqb_spec p (a + 24)) as [->|Hne].
    + destruct fr.
      * destruct Hin as [Hin|Hin]; [by apply not_elem_of_nil in Hin|].
        apply live_above in Hin; [lia|done].
      * destruct Hin as [Hin|Hin].
        -- apply list_elem_of_singleton in Hin. simplify_eq. done.
        -- apply live_above in Hin; [lia|done].
    + destruct Hin as [Hin|Hin].
      * destruct fr; [by apply not_elem_of_nil in Hin|].
        apply list_elem_of_singleton in Hin. simplify_eq.
      * cbn [live]. rewrite Permutation_middle. by rewrite (IH _ Ht Hin).
Qed.

Lemma mark_sizes p a l : sizes_ok l -> sizes_ok (mark p a l).
Proof.
  revert a. induction l as [|[sz fr] t IH]; intros a Hs; [done|].
  inversion_clear Hs as [|? ? Hsz Ht]. cbn [mark].
  destruct (p =? a + 24); constructor; try done. by apply IH.
Qed.

Lemma merge_into_sizes c l : sizes_ok (c :: l) -> sizes_ok (merge_into c l).
Proof.
  revert c. induction l as [|b t IH]; intros c Hs; [done|].
  inversion_clear Hs as [|? ? Hc Hbt]. inversion Hbt as [|? ? Hb Ht]; subst.
  cbn [merge_into]. destruct (c.2 && b.2).
  - apply IH. constructor; [simpl in *; lia|done].
  - constructor; [done|]. by apply IH.
Qed.

Lemma free_live p a l s :
  sizes_ok l -> (p, s) ∈ live a l -> (p, s) :: live a (free p a l) ≡ₚ live a l.
Proof. intros. unfold free. rewrite merge_live. by apply mark_live. Qed.

Lemma free_sizes p a l : sizes_ok l -> sizes_ok (free p a l).
Proof.
  intros H. unfold free, merge. pose proof (mark_sizes p a l H).
  destruct (mark p a l); [done|]. by apply merge_into_sizes.
Qed.

Lemma normal_tail b l : normal (b :: l) = true -> normal l = true.
Proof. destruct l; [done|]. cbn [normal]. by intros [_ ?]%andb_prop. Qed.

Lemma alloc_normal n a l p l' :
  normal l = true -> alloc n a l = Some (p, l') -> normal l' = true.
Proof.
  revert a l'. induction l as [|[sz fr] t IH]; intros a l' Hn; [done|]. cbn [alloc].
  destruct (fr && (n <=? sz)) eqn:Hfit.
  - apply andb_prop in Hfit as [-> _]. intros [= <- <-]. destruct (n + 32 <? sz).
    + rewrite normal_cons. cbn [andb snd negb].
      destruct t as [|[s2 f2] t2]; [done|]. rewrite normal_cons in *. exact Hn.
    + destruct t as [|[s2 f2] t2]; [done|]. rewrite normal_cons in *. cbn [fst snd andb negb] in *.
      by apply andb_prop in Hn as [_ ?].
  - destruct (alloc n _ t) as [[p0 t']|] eqn:E; [|done]. intros [= <- <-].
    pose proof (IH _ _ (normal_tail _ _ Hn) E) as Ht'.
    destruct t as [|[s2 f2] t2]; [done|]. cbn [alloc] in E.
    rewrite normal_cons in Hn. apply andb_prop in Hn as [Hb _].
    destruct (f2 && (n <=? s2)) eqn:Hf2.
    + destruct (n + 32 <? s2); simplify_eq; rewrite normal_cons; cbn [snd] in *;
        rewrite andb_false_r; done.
    + destruct (alloc n (a + 24 + sz + 24 + s2) t2) as [[p1 t2']|]; simplify_eq.
      rewrite normal_cons. cbn [snd] in *. by rewrite Hb.
Qed.

Lemma alloc_addr n a l p l' :
  sizes_ok l -> alloc n a l = Some (p, l') -> a + 24 <= p.
Proof.
  revert a l'. induction l as [|[sz fr] t IH]; intros a l' Hs; [done|]. cbn [alloc].
  inversion_clear Hs as [|? ? Hsz Ht]. cbn in Hsz.
  destruct (fr && (n <=? sz)); [intros [= <- <-]; lia|].
  destruct (alloc n _ t) as [[p1 t']|] eqn:E; [|done]. intros [= -> <-].
  specialize (IH _ _ Ht E). lia.
Qed.

(** Marking the allocated block free again gives the old list, up to the cut. *)
Lemma mark_alloc n a l p l' :
  sizes_ok l -> alloc n a l = Some (p, l') ->
  mark p a l' = l \/
  exists l1 l2 sz, l = l1 ++ (sz, true) :: l2
    /\ mark p a l' = l1 ++ (n, true) :: (sz - n - 24, true) :: l2.
Proof.
  revert a l'. induction l as [|[sz fr] t IH]; intros a l' Hs; [done|]. cbn [alloc].
  inversion_clear Hs as [|? ? Hsz Ht]. cbn in Hsz.
  destruct (fr && (n <=? sz)) eqn:Hfit.
  - apply andb_prop in Hfit as [-> _]. intros [= <- <-]. destruct (n + 32 <? sz).
    + right. exists [], t, sz. split; [done|]. cbn [mark]. by rewrite Z.eqb_refl.
    + left. cbn [mark]. by rewrite Z.eqb_refl.
  - destruct (alloc n _ t) as [[p0 t']|] eqn:E; [|done]. intros [= -> <-].
    pose proof (alloc_addr _ _ _ _ _ Ht E). cbn [mark].
    destruct (Z.eqb_spec p (a + 24)); [lia|].
    destruct (IH _ _ Ht E) as [->|(l1 & l2 & s & -> & ->)]; [by left|].
    right. by exists ((sz, fr) :: l1), l2, s.
Qed.

Lemma merge_cut n sz l1 l2 :
  normal (l1 ++ (sz, true) :: l2) = true ->
  merge (l1 ++ (n, true) :: (sz - n - 24, true) :: l2) = l1 ++ (sz, true) :: l2.
Proof.
  assert (Hm : normal ((sz, true) :: l2) = true ->
            merge_into (n, true) ((sz - n - 24, true) :: l2) = (sz, true) :: l2).
  { intros Hl. cbn [merge_into fst snd andb].
    replace (n + 24 + (sz - n - 24)) with sz by lia. by apply normal_merge_into. }
  destruct l1 as [|c l1]; [exact Hm|]. cbn [merge app].
  revert c. induction l1 as [|d l1 IH]; intros c Hn; cbn [app] in *;
    rewrite normal_cons in Hn; apply andb_prop in Hn as [Hc Hl]; cbn [merge_into].
  - cbn [snd] in *. rewrite andb_true_r in *. destruct (c.2); [done|].
    f_equal. by apply Hm.
  - destruct (c.2 && d.2); [done|]. f_equal. by apply IH.
Qed.

(** On a coalesced heap, freeing the block just allocated restores the heap. *)
Lemma free_alloc n a l p l' :
  sizes_ok l -> normal l = true -> alloc n a l = Some (p, l') -> free p a l' = l.
Proof.
  intros Hs Hn Ha. unfold free.
  destruct (mark_alloc _ _ _ _ _ Hs Ha) as [->|(l1 & l2 & sz & -> & ->)].
  - destruct l; [done|]. by apply normal_merge_into.
  - by apply merge_cut.
Qed.

End Spec.

(** ** The heap in memory

    [chain m a l e]: the bytes of [m] from [a] to [e] are the blocks [l], one
    after the other, each with the header of [memory.c]. *)

Definition next_addr (b : Z) (l : Spec.blocks) : Z := match l with [] => 0 | _ => b end.

Definition hdr (m : mem) (a sz : Z) (fr : bool) (nx : Z) : Prop :=
  blk_size m a = sz /\ blk_free m a = fr /\ blk_next m a = nx.

Fixpoint chain (m : mem) (a : Z) (l : Spec.blocks) (e : Z) : Prop :=
  match l with
  | [] => a = e
  | (sz, fr) :: t =>
      0 <= sz /\ hdr m a sz fr (next_addr (a + 24 + sz) t) /\ chain m (a + 24 + sz) t e
  end.

(** Stores outside the headers and the payloads of live blocks. *)
Definition same_on (P : Z -> Prop) (m m' : mem) : Prop :=
  forall x, P x -> load8 m' x = load8 m x.

Lemma same_on_trans P m1 m2 m3 : same_on P m1 m2 -> same_on P m2 m3 -> same_on P m1 m3.
Proof. intros H1 H2 x Hx. by rewrite H2, H1. Qed.

Lemma same_on_mono (P Q : Z -> Prop) m m' :
  (forall x, P x -> Q x) -> same_on Q m m' -> same_on P m m'.
Proof. intros HPQ H x Hx. by apply H, HPQ. Qed.

Definition outside (a e x : Z) : Prop := x < a \/ e <= x.
Definition in_live (a : Z) (l : Spec.blocks) (x : Z) : Prop :=
  exists p s, (p, s) ∈ Spec.live a l /\ p <= x < p + s.

Lemma in_live_cons a sz fr l x :
  in_live a ((sz, fr) :: l) x <->
  (fr = false /\ a + 24 <= x < a + 24 + sz) \/ in_live (a + 24 + sz) l x.
Proof.
  unfold in_live. cbn [Spec.live]. split.
  - intros (p & s & [Hin|Hin]%elem_of_app & Hx).
    + destruct fr; [by apply not_elem_of_nil in Hin|].
      apply list_elem_of_singleton in Hin. simplify_eq. left. done.
    + right. by exists p, s.
  - intros [[-> Hx]|(p & s & Hin & Hx)].
    + exists (a + 24), sz. split; [|done]. apply elem_of_app. left. by apply list_elem_of_singleton.
    + exists p, s. split; [|done]. apply elem_of_app. by right.
Qed.

Lemma chain_sizes m a l e : chain m a l e -> Spec.sizes_ok l.
Proof.
  revert a. induction l as [|[sz fr] t IH]; intros a; [constructor|].
  intros (Hsz & _ & Ht). constructor; [done|]. by eapply IH.
Qed.

Lemma chain_bound m a l e : chain m a l e -> a + 24 * Z.of_nat (length l) <= e.
Proof.
  revert a. induction l as [|[sz fr] t IH]; intros a; cbn [chain length]; [lia|].
  intros (Hsz & _ & Ht). specialize (IH _ Ht). lia.
Qed.

Lemma in_live_bound m a l e x : chain m a l e -> in_live a l x -> a + 24 <= x < e.
Proof.
  revert a. induction l as [|[sz fr] t IH]; intros a.
  - intros _ (p & s & Hin & _). by apply not_elem_of_nil in Hin.
  - intros (Hsz & _ & Ht). pose proof (chain_bound _ _ _ _ Ht).
    rewrite in_live_cons. intros [[_ ?]|Hin]; [lia|]. specialize (IH _ Ht Hin). lia.
Qed.

Lemma hdr_ext m m' a sz fr nx :
  (forall x, a <= x < a + 24 -> load8 m' x = load8 m x) -> hdr m a sz fr nx -> hdr m' a sz fr nx.
Proof.
  unfold hdr, blk_size, blk_free, blk_next. intros H (<- & <- & <-).
  split_and!; [apply load64_ext|unfold z_true; do 2 f_equal; apply load32_ext|apply load64_ext];
    intros; apply H; lia.
Qed.

Lemma chain_ext m m' a l e :
  (forall x, a <= x < e -> load8 m' x = load8 m x) -> chain m a l e -> chain m' a l e.
Proof.
  revert a. induction l as [|[sz fr] t IH]; intros a H; [done|].
  intros (Hsz & Hh & Ht). pose proof (chain_bound _ _ _ _ Ht) as Hb. split; [done|]. split.
  - eapply hdr_ext, Hh. intros. apply H. lia.
  - apply IH; [|done]. intros. apply H. lia.
Qed.

(** ** One block: the headers written by the split, the mark and the merge *)

Ltac hdr_unfold := unfold hdr, blk_size, blk_free, blk_next, set_blk_size, set_blk_free,
  set_blk_next, SIZEOF_BLOCK in *.

Lemma split_hdr m a n sz nx :
  0 < a -> 0 <= n -> n + 32 < sz -> a + 24 + sz < 2 ^ 63 -> 0 <= nx < 2 ^ 63 ->
  hdr m a sz true nx ->
  let m' := set_blk_free a 0 (split_block a n m) in
  hdr m' a n false (a + 24 + n) /\ hdr m' (a + 24 + n) (sz - n - 24) true nx
  /\ same_on (outside a (a + 24 + sz)) m m'.
Proof.
  intros Ha Hn Hsz He Hnx (H1 & H2 & H3) m'. unfold m', split_block. hdr_unfold.
  rewrite !(u64_small (a + 24 + n)) by lia. split_and!; mem_step.
  - rewrite u64_small by lia. done.
  - done.
  - by rewrite u64_small by lia.
  - rewrite H1, !u64_small by (rewrite ?u64_small; lia). done.
  - done.
  - rewrite H3, u64_small by lia. done.
  - intros x Hx. unfold outside in Hx. by mem_step.
Qed.

Lemma mark_hdr m a sz fr nx v :
  hdr m a sz fr nx -> 0 <= v < 2 ^ 32 ->
  let m' := set_blk_free a v m in
  hdr m' a sz (z_true v) nx /\ same_on (outside (a + 8) (a + 12)) m m'.
Proof.
  intros (H1 & H2 & H3) Hv m'. unfold m'. hdr_unfold. split_and!; mem_step.
  - done.
  - by rewrite u32_small by lia.
  - done.
  - intros x Hx. unfold outside in Hx. by mem_step.
Qed.

(** ** [memory_alloc] refines first fit *)

Lemma chain_nonempty_addr a l : l <> [] -> next_addr a l = a.
Proof. by destruct l. Qed.

Lemma alloc_nonempty n a l p l' : Spec.alloc n a l = Some (p, l') -> l' <> [].
Proof.
  destruct l as [|[sz fr] t]; [done|]. cbn [Spec.alloc].
  destruct (fr && _); [destruct (_ <? sz); intros [= <- <-]; done|].
  destruct (Spec.alloc _ _ t) as [[]|]; [|done]. by intros [= <- <-].
Qed.

Lemma alloc_loop_hit fuel m a sz t e n :
  0 < a -> 0 <= n < 2 ^ 62 -> e < 2 ^ 63 -> n <= sz -> chain m a ((sz, true) :: t) e ->
  exists m',
    alloc_loop (S fuel) m a n = Some (a + 24, m')
    /\ chain m' a (if n + 32 <? sz then (n, false) :: (sz - n - 24, true) :: t
                   else (sz, false) :: t) e
    /\ same_on (outside a (a + 24 + sz)) m m'.
Proof.
  intros Ha Hn He Hle (Hsz & Hh & Ht). pose proof (chain_bound _ _ _ _ Ht).
  pose proof Hh as (H1 & H2 & H3). cbn [alloc_loop].
  destruct (Z.eqb_spec a 0); [lia|]. rewrite H1, H2.
  destruct (Z.leb_spec n sz); [|lia]. cbn [andb]. unfold SIZEOF_BLOCK.
  replace (n + 24 + 8) with (n + 32) by lia. rewrite !u64_small by lia.
  assert (Hnx : 0 <= next_addr (a + 24 + sz) t < 2 ^ 63)
    by (destruct t; unfold next_addr; lia).
  destruct (Z.ltb_spec (n + 32) sz) as [Hs|Hs].
  - destruct (split_hdr m a n sz _ Ha ltac:(lia) Hs ltac:(lia) Hnx Hh) as (Ha' & Hb' & Hsame).
    eexists. split; [done|]. split; [|exact Hsame]. cbn [chain].
    replace (a + 24 + n + 24 + (sz - n - 24)) with (a + 24 + sz) by lia.
    split_and!; [lia|exact Ha'|lia|exact Hb'|].
    eapply chain_ext, Ht. intros x Hx. apply Hsame. unfold outside. lia.
  - destruct (mark_hdr m a sz true _ 0 Hh ltac:(lia)) as (Ha' & Hsame).
    eexists. split; [done|]. cbn [chain]. split; [split_and!; [lia|exact Ha'|]|].
    + eapply chain_ext, Ht. intros x Hx. apply Hsame. unfold outside. lia.
    + eapply same_on_mono, Hsame. unfold outside. intros; lia.
Qed.

Lemma alloc_loop_refines fuel m a l e n :
  (length l < fuel)%nat -> 0 < a -> 0 <= n < 2 ^ 62 -> e < 2 ^ 63 -> chain m a l e ->
  match Spec.alloc n a l with
  | None => alloc_loop fuel m (next_addr a l) n = Some (0, m)
  | Some (p, l') => exists m',
      alloc_loop fuel m (next_addr a l) n = Some (p, m')
      /\ chain m' a l' e /\ same_on (outside a e) m m' /\ same_on (in_live a l) m m'
  end.
Proof.
  revert fuel a. induction l as [|[sz fr] t IH]; intros fuel a Hf Ha Hn He Hc;
    (destruct fuel as [|fuel]; [cbn [length] in Hf; lia|]); [done|].
  cbn [Spec.alloc next_addr]. destruct (fr && (n <=? sz)) eqn:Hfit.
  - apply andb_prop in Hfit as [-> Hle%Z.leb_le].
    destruct (alloc_loop_hit fuel m a sz t e n Ha Hn He Hle Hc) as (m' & Hrun & Hc' & Hsame).
    destruct Hc as (Hsz & Hh & Ht). pose proof (chain_bound _ _ _ _ Ht).
    exists m'. split_and!; try done.
    + eapply same_on_mono, Hsame. unfold outside. intros; lia.
    + eapply same_on_mono, Hsame. intros x [[? _]|Hin]%in_live_cons; [done|].
      eapply in_live_bound in Hin; [|done]. unfold outside. lia.
  - cbn [chain] in Hc. destruct Hc as (Hsz & Hh & Ht). pose proof (chain_bound _ _ _ _ Ht).
    pose proof Hh as (H1 & H2 & H3).
    assert (Hrun : alloc_loop (S fuel) m a n
                   = alloc_loop fuel m (next_addr (a + 24 + sz) t) n).
    { cbn [alloc_loop]. destruct (Z.eqb_spec a 0); [lia|]. by rewrite H1, H2, Hfit, H3. }
    specialize (IH fuel (a + 24 + sz) ltac:(cbn [length] in Hf; lia) ltac:(lia) Hn He Ht).
    destruct (Spec.alloc n (a + 24 + sz) t) as [[p t']|] eqn:E; [|by rewrite Hrun].
    destruct IH as (m' & Hr' & Hc' & Hs1 & Hs2). exists m'. split; [by rewrite Hrun|].
    split_and!.
    + cbn [chain]. split; [done|]. split; [|done].
      rewrite (chain_nonempty_addr _ t') by (by eapply alloc_nonempty).
      rewrite (chain_nonempty_addr _ t) in Hh by (intros ->; done).
      eapply hdr_ext, Hh. intros x Hx. apply Hs1. unfold outside. lia.
    + eapply same_on_mono, Hs1. unfold outside. intros; lia.
    + intros x [[_ ?]|Hin]%in_live_cons; [apply Hs1; unfold outside; lia|by apply Hs2].
Qed.

(** ** [memory_free] refines mark-and-coalesce *)

Lemma merge_hdr m a cs bs nx :
  0 < a -> 0 <= cs -> 0 <= bs -> a + 48 + cs + bs < 2 ^ 63 -> 0 <= nx < 2 ^ 63 ->
  hdr m a cs true (a + 24 + cs) -> hdr m (a + 24 + cs) bs true nx ->
  let m1 := set_blk_size a (u64 (blk_size m a + (SIZEOF_BLOCK + blk_size m (blk_next m a)))) m in
  let m2 := set_blk_next a (blk_next m1 (blk_next m1 a)) m1 in
  hdr m2 a (cs + 24 + bs) true nx /\ same_on (outside a (a + 24)) m m2.
Proof.
  intros Ha Hcs Hbs He Hnx (H1 & H2 & H3) (H4 & H5 & H6) m1 m2. unfold m2, m1. hdr_unfold.
  split_and!; mem_step.
  - rewrite H1, H3, H4, !u64_small by (rewrite ?u64_small; lia). lia.
  - done.
  - rewrite (load64_store64_ne _ a (a + 16)), H3 by lia. mem_step. by rewrite H6, u64_small by lia.
  - intros x Hx. unfold outside in Hx. by mem_step.
Qed.

Lemma next_addr_range m a t e b :
  chain m b t e -> 0 < b -> e < 2 ^ 63 -> a = next_addr b t -> 0 <= a < 2 ^ 63.
Proof.
  intros Hc Hb He ->. pose proof (chain_bound _ _ _ _ Hc). destruct t; unfold next_addr; lia.
Qed.

Lemma merge_loop_refines fuel m a c l e :
  (length l < fuel)%nat -> 0 < a -> e < 2 ^ 63 -> chain m a (c :: l) e ->
  exists m', merge_loop fuel m a = Some m' /\ chain m' a (Spec.merge_into c l) e
    /\ same_on (outside a e) m m' /\ same_on (in_live a (c :: l)) m m'.
Proof.
  revert m fuel a c. induction l as [|[bs bf] t IH]; intros m fuel a [cs cf] Hf Ha He Hc;
    (destruct fuel as [|fuel]; [cbn [length] in Hf; lia|]);
    cbn [chain] in Hc; destruct Hc as (Hcs & Hh & Ht);
    pose proof Hh as (H1 & H2 & H3); cbn [merge_loop next_addr] in *; rewrite H3.
  { cbn [chain] in Ht. exists m. destruct (Z.eqb_spec a 0); [lia|]. split; [done|].
    split; [by split_and!|]. by split. }
  destruct Ht as (Hbs & Hh2 & Ht). pose proof (chain_bound _ _ _ _ Ht).
  pose proof Hh2 as (H4 & H5 & H6).
  destruct (Z.eqb_spec a 0); [lia|]. destruct (Z.eqb_spec (a + 24 + cs) 0); [lia|].
  cbn [orb Spec.merge_into fst snd]. rewrite H2, H5. destruct (cf && bf) eqn:E.
  - apply andb_prop in E as [-> ->].
    assert (Hnx := next_addr_range m _ t e _ Ht ltac:(lia) He eq_refl).
    destruct (merge_hdr m a cs bs _ Ha Hcs Hbs ltac:(lia) Hnx Hh Hh2) as (Hm & Hsame).
    rewrite H3 in Hm, Hsame. cbv zeta. set (m2 := set_blk_next a _ _) in *.
    destruct (IH m2 fuel a (cs + 24 + bs, true)) as (m' & Hr & Hc' & Hs1 & Hs2);
      [cbn [length] in Hf; lia|done|done| |].
    + cbn [chain]. replace (a + 24 + (cs + 24 + bs)) with (a + 24 + cs + 24 + bs) by lia.
      split; [lia|]. split; [done|].
      eapply chain_ext, Ht. intros x Hx. apply Hsame. unfold outside. lia.
    + exists m'. split_and!; [done|done| |].
      * eapply same_on_trans; [|exact Hs1]. eapply same_on_mono, Hsame. unfold outside. intros; lia.
      * intros x Hx. apply in_live_cons in Hx as [[? _]|Hx]; [done|].
        apply in_live_cons in Hx as [[? _]|Hx]; [done|].
        pose proof (in_live_bound _ _ _ _ _ Ht Hx).
        rewrite Hs2; [apply Hsame; unfold outside; lia|]. apply in_live_cons. right.
        by replace (a + 24 + (cs + 24 + bs)) with (a + 24 + cs + 24 + bs) by lia.
  - destruct (IH m fuel (a + 24 + cs) (bs, bf)) as (m' & Hr & Hc' & Hs1 & Hs2);
      [cbn [length] in Hf; lia|lia|done|by cbn [chain]|].
    exists m'. split; [done|]. split_and!.
    + cbn [chain]. split; [done|]. split; [|done].
      destruct (Spec.merge_into_head (bs, bf) t) as (s & t' & ->). cbn [next_addr].
      eapply hdr_ext, Hh. intros x Hx. apply Hs1. unfold outside. lia.
    + eapply same_on_mono, Hs1. unfold outside. intros; lia.
    + intros x [[_ ?]|Hin]%in_live_cons; [apply Hs1; unfold outside; lia|by apply Hs2].
Qed.

Lemma mark_refines m a l e p s :
  0 < a -> e < 2 ^ 63 -> chain m a l e -> (p, s) ∈ Spec.live a l ->
  let m' := set_blk_free (p - 24) 1 m in
  chain m' a (Spec.mark p a l) e /\ a <= p - 24 /\ p <= e
  /\ same_on (outside (p - 16) (p - 12)) m m'.
Proof.
  intros Ha He. revert a Ha. induction l as [|[sz fr] t IH]; intros a Ha Hc Hin m'.
  { by apply not_elem_of_nil in Hin. }
  pose proof (chain_sizes _ _ _ _ Hc) as Hs. destruct Hc as (Hsz & Hh & Ht).
  pose proof (chain_bound _ _ _ _ Ht).
  assert (Hsame : same_on (outside (p - 16) (p - 12)) m m').
  { unfold m', set_blk_free. intros x Hx. unfold outside in Hx.
    by rewrite load8_store32_ne by lia. }
  cbn [Spec.live Spec.mark] in *. apply elem_of_app in Hin.
  assert (Hcases : p = a + 24 /\ fr = false \/ (p, s) ∈ Spec.live (a + 24 + sz) t).
  { destruct Hin as [Hin|Hin]; [|by right]. left.
    destruct fr; [by apply not_elem_of_nil in Hin|].
    apply list_elem_of_singleton in Hin. by simplify_eq. }
  destruct Hcases as [[-> ->]|Hin'].
  - rewrite Z.eqb_refl. cbn [chain]. split_and!; try lia; try done.
    + destruct (mark_hdr m a sz false _ 1 Hh ltac:(lia)) as (Hh' & _).
      unfold m'. replace (a + 24 - 24) with a by lia. exact Hh'.
    + eapply chain_ext, Ht. intros x Hx. apply Hsame. unfold outside. lia.
  - inversion_clear Hs as [|? ? _ Hs']. pose proof (Spec.live_above _ _ _ _ Hs' Hin').
    destruct (Z.eqb_spec p (a + 24)); [lia|].
    destruct (IH (a + 24 + sz) ltac:(lia) Ht Hin') as (Hc' & ? & ? & _).
    cbn [chain]. split_and!; try lia; try done.
    assert (Hna : forall b, next_addr b (Spec.mark p b t) = next_addr b t).
    { intros b. destruct t as [|[] ?]; [done|]. cbn [Spec.mark]. by destruct (_ =? _). }
    rewrite Hna. eapply hdr_ext, Hh. intros x Hx. apply Hsame. unfold outside. lia.
Qed.

(** A byte that is live once [p] is freed is not in the header of [p]'s block. *)
Lemma live_outside_freed m a l e p s x :
  chain m a l e -> (p, s) ∈ Spec.live a l -> in_live a (Spec.mark p a l) x ->
  outside (p - 16) (p - 12) x.
Proof.
  intros Hc Hin (q & s' & Hq & Hx). unfold outside. revert a Hc Hin Hq.
  induction l as [|[sz fr] t IH]; intros a Hc Hin Hq; [by apply not_elem_of_nil in Hin|].
  pose proof (chain_sizes _ _ _ _ Hc) as Hsz. destruct Hc as (Hsz0 & _ & Hc).
  inversion_clear Hsz as [|? ? _ Ht]. cbn [Spec.mark Spec.live] in *.
  apply elem_of_app in Hin. destruct (Z.eqb_spec p (a + 24)).
  - cbn [Spec.live app] in Hq. apply Spec.live_above in Hq; [lia|done].
  - destruct Hin as [Hin|Hin].
    { destruct fr; [by apply not_elem_of_nil in Hin|].
      apply list_elem_of_singleton in Hin. simplify_eq. }
    cbn [Spec.live] in Hq. apply elem_of_app in Hq as [Hq|Hq]; [|by eapply IH].
    destruct fr; [by apply not_elem_of_nil in Hq|].
    apply list_elem_of_singleton in Hq. simplify_eq.
    apply Spec.live_above in Hin; [lia|done].
Qed.

(** ** The heap invariant on the state *)

(** The heap of [k] is the block list [l]: it tiles [heap_start, e). *)
Record heap_is (k : kmem) (l : Spec.blocks) (e : Z) : Prop := {
  hi_chain : chain (phys k) (heap_start k) l e;
  hi_start : 0 < heap_start k;
  hi_end : e <= heap_start k + HEAP_BYTES;
  hi_wrap : e < 2 ^ 63;
  hi_nonempty : l <> []
}.

Lemma heap_is_fuel k l e : heap_is k l e -> (length l < heap_fuel)%nat.
Proof.
  intros [Hc Hs He Hw _]. pose proof (chain_bound _ _ _ _ Hc).
  unfold heap_fuel, HEAP_BYTES, SIZEOF_BLOCK in *. zlia.
Qed.

Lemma memory_alloc_run k l e n :
  heap_is k l e -> 0 <= n < 2 ^ 62 ->
  match Spec.alloc n (heap_start k) l with
  | None => memory_alloc n k = Some (0, k)
  | Some (p, l') => exists k',
      memory_alloc n k = Some (p, k') /\ heap_is k' l' e
      /\ heap_start k' = heap_start k /\ k' = set_phys (phys k') k
      /\ same_on (outside (heap_start k) e) (phys k) (phys k')
      /\ same_on (in_live (heap_start k) l) (phys k) (phys k')
  end.
Proof.
  intros Hh Hn. pose proof (heap_is_fuel _ _ _ Hh) as Hf. destruct Hh as [Hc Hs He Hw Hne].
  pose proof (alloc_loop_refines heap_fuel (phys k) (heap_start k) l e n Hf Hs Hn Hw Hc) as H.
  rewrite chain_nonempty_addr in H by done. unfold memory_alloc.
  destruct (Spec.alloc n (heap_start k) l) as [[p l']|] eqn:E.
  - destruct H as (m' & -> & Hc' & H1 & H2). exists (set_phys m' k).
    split_and!; try done. split; simpl; try done. by eapply alloc_nonempty.
  - rewrite H. by destruct k.
Qed.

Lemma memory_free_run k l e p s :
  heap_is k l e -> (p, s) ∈ Spec.live (heap_start k) l ->
  exists k',
    memory_free p k = Some k' /\ heap_is k' (Spec.free p (heap_start k) l) e
    /\ heap_start k' = heap_start k /\ k' = set_phys (phys k') k
    /\ same_on (outside (heap_start k) e) (phys k) (phys k')
    /\ same_on (in_live (heap_start k) (Spec.mark p (heap_start k) l)) (phys k) (phys k').
Proof.
  intros Hh Hin. pose proof (heap_is_fuel _ _ _ Hh) as Hf. destruct Hh as [Hc Hs He Hw Hne].
  destruct (mark_refines _ _ _ _ _ _ Hs Hw Hc Hin) as (Hc' & Hlo & Hhi & Hsame).
  unfold memory_free. destruct (Z.eqb_spec p 0); [lia|]. unfold SIZEOF_BLOCK.
  rewrite u64_small by lia. set (m1 := set_blk_free (p - 24) 1 (phys k)) in *.
  unfold heap_merge. cbn [phys set_phys Kmem.heap_start].
  assert (Hlen : length (Spec.mark p (heap_start k) l) = length l).
  { generalize (heap_start k). clear. induction l as [|[sz fr] t IH]; intros a; [done|].
    cbn [Spec.mark]. destruct (_ =? _); cbn [length]; auto. }
  unfold Spec.free. destruct (Spec.mark p (heap_start k) l) as [|c t] eqn:E;
    [by destruct l|]. cbn [length Spec.merge] in *.
  destruct (merge_loop_refines heap_fuel m1 (heap_start k) c t e ltac:(lia) Hs Hw Hc')
    as (m' & -> & Hc2 & H1 & H2).
  exists (set_phys m' (set_phys m1 k)). split_and!; try done.
  - split; simpl; try done. destruct (Spec.merge_into_head c t) as (? & ? & ->). done.
  - eapply same_on_trans; [|exact H1]. eapply same_on_mono, Hsame.
    unfold outside. intros; lia.
  - intros x Hx. simpl. rewrite H2 by done. apply Hsame.
    rewrite <- E in Hx. exact (live_outside_freed _ _ _ _ _ _ _ Hc Hin Hx).
Qed.

(** Bytes of live payloads are the clients': writing them keeps the heap. *)
Lemma chain_client_write m m' a l e :
  (forall x, a <= x -> ~ in_live a l x -> load8 m' x = load8 m x) -> chain m a l e ->
  chain m' a l e.
Proof.
  revert a. induction l as [|[sz fr] t IH]; intros a H Hc; [done|].
  destruct Hc as (Hsz & Hh & Ht). split; [done|]. split.
  - eapply hdr_ext, Hh. intros x Hx. apply H; [lia|]. rewrite in_live_cons.
    intros [[_ ?]|Hin]; [lia|]. eapply in_live_bound in Hin; [|done]. lia.
  - apply IH; [|done]. intros x Hx Hnl. apply H; [lia|]. rewrite in_live_cons.
    intros [[_ ?]|Hin]; [lia|done].
Qed.

Lemma live_below m a l e p s : chain m a l e -> (p, s) ∈ Spec.live a l -> p + s <= e.
Proof.
  revert a. induction l as [|[sz fr] t IH]; intros a Hc Hin; [by apply not_elem_of_nil in Hin|].
  destruct Hc as (Hsz & _ & Ht). pose proof (chain_bound _ _ _ _ Ht).
  cbn [Spec.live] in Hin. apply elem_of_app in Hin as [Hin|Hin]; [|by eapply IH].
  destruct fr; [by apply not_elem_of_nil in Hin|].
  apply list_elem_of_singleton in Hin. simplify_eq. lia.
Qed.

(** Live payloads lie inside the heap and do not overlap. *)
Lemma live_disjoint m a l e i j p s q t :
  chain m a l e -> Spec.live a l !! i = Some (p, s) -> Spec.live a l !! j = Some (q, t) ->
  (i < j)%nat -> a + 24 <= p /\ p + s <= q /\ q + t <= e.
Proof.
  revert a i j. induction l as [|[sz fr] r IH]; intros a i j Hc Hi Hj Hij; [done|].
  pose proof (chain_sizes _ _ _ _ Hc) as Hsz. inversion_clear Hsz as [|? ? _ Hs].
  destruct Hc as (Hsz & Hh & Ht). cbn [Spec.live] in *. destruct fr; cbn [app] in *.
  - destruct (IH _ _ _ Ht Hi Hj Hij) as (? & ? & ?). lia.
  - destruct j as [|j]; [lia|]. cbn in Hj. destruct i as [|i]; cbn in Hi.
    + simplify_eq. apply list_elem_of_lookup_2 in Hj.
      pose proof (Spec.live_above _ _ _ _ Hs Hj). pose proof (live_below _ _ _ _ _ _ Ht Hj). lia.
    + destruct (IH _ _ _ Ht Hi Hj ltac:(lia)) as (? & ? & ?). lia.
Qed.

(** ** Boot *)

Lemma memory_init_eq start size k :
  (memory_init start size k).2 =
    Kmem (set_blk_next start 0 (set_blk_free start 1
            (set_blk_size start (u64 (size - SIZEOF_BLOCK)) (phys k))))
      start 0x600000 0x800000 (replicate (Z.to_nat MAX_PHYS_PAGES) 0).
Proof. reflexivity. Qed.

Lemma memory_init_heap start size k :
  0 < start -> 24 <= size <= HEAP_BYTES -> start + size < 2 ^ 63 ->
  let k' := (memory_init start size k).2 in
  heap_is k' [(size - 24, true)] (start + size) /\ kmem_wf k' /\ heap_start k' = start.
Proof.
  intros Hs Hsz He k'. unfold k'. rewrite memory_init_eq. split_and!; [| |done].
  - split; cbn [phys Kmem.heap_start]; try done; [|lia].
    hdr_unfold. rewrite u64_small by lia. unfold chain, hdr. hdr_unfold. split_and!.
    + lia.
    + mem_step. by rewrite u64_small by lia.
    + by mem_step.
    + by mem_step.
    + lia.
  - split; cbn [page_alloc_cur page_alloc_end page_refcounts]; try done.
    apply Forall_replicate. lia.
Qed.

(** ** Clients of the heap

    The states a correct client can reach from [memory_init]: it allocates,
    frees payloads it owns, and writes the bytes of payloads it owns.  [own]
    is the list of its pointers. *)

Inductive heap_reach (start : Z) : kmem -> list Z -> Prop :=
| reach_init k : heap_reach start (memory_init start HEAP_BYTES k).2 []
| reach_alloc k own n p k' :
    heap_reach start k own -> 0 <= n < 2 ^ 62 -> memory_alloc n k = Some (p, k') ->
    heap_reach start k' (if p =? 0 then own else p :: own)
| reach_free k own1 own2 p k' :
    heap_reach start k (own1 ++ p :: own2) -> memory_free p k = Some k' ->
    heap_reach start k' (own1 ++ own2)
| reach_write k own m' :
    heap_reach start k own ->
    (forall x, load8 m' x <> load8 (phys k) x ->
       exists p, p ∈ own /\ p <= x < p + blk_size (phys k) (p - SIZEOF_BLOCK)) ->
    heap_reach start (set_phys m' k) own.

Lemma chain_live_size m a l e p s :
  chain m a l e -> (p, s) ∈ Spec.live a l -> blk_size m (p - 24) = s.
Proof.
  revert a. induction l as [|[sz fr] t IH]; intros a Hc Hin; [by apply not_elem_of_nil in Hin|].
  destruct Hc as (Hsz & (H1 & _) & Ht). cbn [Spec.live] in Hin.
  apply elem_of_app in Hin as [Hin|Hin]; [|by eapply IH].
  destruct fr; [by apply not_elem_of_nil in Hin|].
  apply list_elem_of_singleton in Hin. simplify_eq.
  by replace (a + 24 - 24) with a by lia.
Qed.

Lemma reach_inv start k own :
  0 < start < 2 ^ 62 -> heap_reach start k own ->
  exists l, heap_is k l (start + HEAP_BYTES) /\ heap_start k = start
    /\ Spec.normal l = true /\ own ≡ₚ (Spec.live start l).*1.
Proof.
  intros Hst. induction 1 as [k|k own n p k' _ IH Hn Ha|k own1 own2 p k' _ IH Hf|k own m' _ IH Hw].
  - exists [(HEAP_BYTES - 24, true)].
    destruct (memory_init_heap start HEAP_BYTES k) as (Hh & _ & Hs);
      [lia|unfold HEAP_BYTES; lia|unfold HEAP_BYTES; lia|]. by split_and!.
  - destruct IH as (l & Hh & Hs & Hnorm & Hown).
    pose proof (memory_alloc_run _ _ _ n Hh Hn) as H. rewrite Hs in H.
    destruct (Spec.alloc n start l) as [[q l']|] eqn:E.
    + destruct H as (k2 & Heq & Hh' & Hs' & _). rewrite Ha in Heq. simplify_eq.
      pose proof (Spec.alloc_addr _ _ _ _ _ (chain_sizes _ _ _ _ (hi_chain _ _ _ Hh)) E).
      destruct (Z.eqb_spec q 0); [lia|].
      exists l'. split_and!; [done|by rewrite Hs'|by eapply Spec.alloc_normal|].
      destruct (Spec.alloc_live _ _ _ _ _ (proj1 Hn) E) as (s & _ & Hp).
      rewrite Hp, Hown. done.
    + rewrite Ha in H. simplify_eq. exists l. by split_and!.
  - destruct IH as (l & Hh & Hs & Hnorm & Hown).
    assert (Hin : p ∈ (Spec.live start l).*1)
      by (rewrite <- Hown; apply elem_of_app; right; by left).
    apply list_elem_of_fmap in Hin as ([p' s] & -> & Hin). cbn in *.
    rewrite <- Hs in Hin. destruct (memory_free_run _ _ _ _ _ Hh Hin) as (k2 & Heq & Hh' & Hs' & _).
    rewrite Hf in Heq. simplify_eq. eexists. split_and!; [done|done|apply Spec.merge_normal|].
    pose proof (Spec.free_live _ _ _ _ (chain_sizes _ _ _ _ (hi_chain _ _ _ Hh)) Hin) as Hp.
    apply (Permutation_cons_inv (a := p')). rewrite Permutation_middle, Hown.
    by rewrite <- Hp.
  - destruct IH as (l & Hh & Hs & Hnorm & Hown). exists l. split_and!; try done.
    destruct Hh as [Hc H1 H2 H3 H4]. split; try done. cbn [phys set_phys Kmem.heap_start].
    eapply chain_client_write, Hc. intros x _ Hnl.
    destruct (decide (load8 m' x = load8 (phys k) x)) as [|Hne]; [done|]. exfalso.
    destruct (Hw x Hne) as (p & Hp & Hx). apply Hnl.
    rewrite Hown in Hp. apply list_elem_of_fmap in Hp as ([p' s] & -> & Hin). cbn [fst] in *.
    rewrite <- Hs in Hin. unfold SIZEOF_BLOCK in Hx.
    rewrite (chain_live_size _ _ _ _ _ _ Hc Hin) in Hx. by exists p', s.
Qed.

(** A payload that some client owns, as the memory shows it: [p] with the
    size its header states. *)
Definition payload_size (k : kmem) (p : Z) : Z := blk_size (phys k) (p - SIZEOF_BLOCK).

Lemma own_disjoint start k own l e :
  heap_is k l e -> heap_start k = start -> own ≡ₚ (Spec.live start l).*1 ->
  forall i j p q, own !! i = Some p -> own !! j = Some q -> i <> j ->
    p + payload_size k p <= q \/ q + payload_size k q <= p.
Proof.
  intros Hh Hs Hown i j p q Hi Hj Hij. pose proof (hi_chain _ _ _ Hh) as Hc. rewrite Hs in Hc.
  apply Permutation_inj in Hown as (_ & f & Hinj & Hf).
  rewrite Hf, list_lookup_fmap in Hi, Hj.
  destruct (Spec.live start l !! f i) as [[p' sp]|] eqn:Ei; [|done].
  destruct (Spec.live start l !! f j) as [[q' sq]|] eqn:Ej; [|done]. cbn in Hi, Hj. simplify_eq.
  assert (f i <> f j) by (intros He; by apply Hij, Hinj).
  unfold payload_size, SIZEOF_BLOCK.
  rewrite (chain_live_size _ _ _ _ _ _ Hc (list_elem_of_lookup_2 _ _ _ Ei)).
  rewrite (chain_live_size _ _ _ _ _ _ Hc (list_elem_of_lookup_2 _ _ _ Ej)).
  destruct (decide (f i < f j)%nat).
  - destruct (live_disjoint _ _ _ _ _ _ _ _ _ _ Hc Ei Ej) as (? & ? & ?); lia.
  - destruct (live_disjoint _ _ _ _ _ _ _ _ _ _ Hc Ej Ei) as (? & ? & ?); lia.
Qed.

(** ** Properties *)

(** C2: every state a correct client reaches from [memory_init] is a well-formed
    heap: the blocks tile it, free neighbours are coalesced, the client's
    pointers are exactly the payloads in use, no two of them overlap, and
    neither [memory_alloc] nor [memory_free] of an owned pointer can loop. *)
Theorem heap_clients_safe start k own :
  0 < start < 2 ^ 62 -> heap_reach start k own ->
  (exists l, heap_is k l (start + HEAP_BYTES) /\ Spec.normal l = true
     /\ own ≡ₚ (Spec.live start l).*1)
  /\ (forall i j p q, own !! i = Some p -> own !! j = Some q -> i <> j ->
        p + payload_size k p <= q \/ q + payload_size k q <= p)
  /\ (forall n, 0 <= n < 2 ^ 62 -> is_Some (memory_alloc n k))
  /\ (forall p, p ∈ own -> is_Some (memory_free p k)).
Proof.
  intros Hst Hr. destruct (reach_inv _ _ _ Hst Hr) as (l & Hh & Hs & Hn & Hown).
  split_and!; [by exists l|by eapply own_disjoint| |].
  - intros n Hb. pose proof (memory_alloc_run _ _ _ n Hh Hb) as H.
    destruct (Spec.alloc _ _ _) as [[p l']|]; [|by rewrite H].
    destruct H as (k' & -> & _). done.
  - intros p Hp. rewrite Hown in Hp. apply list_elem_of_fmap in Hp as ([p' s] & -> & Hin).
    rewrite <- Hs in Hin. cbn [fst]. destruct (memory_free_run _ _ _ _ _ Hh Hin) as (k' & -> & _). done.
Qed.

Definition boot_kmem : kmem := (memory_init 0x200000 HEAP_BYTES (Kmem ∅ 0 0 0 [])).2.

Lemma boot_heap : heap_is boot_kmem [(HEAP_BYTES - 24, true)] (0x200000 + HEAP_BYTES).
Proof. apply memory_init_heap; unfold HEAP_BYTES; lia. Qed.

Lemma boot_alloc : exists k1,
  memory_alloc 4096 boot_kmem = Some (0x200018, k1)
  /\ heap_is k1 [(4096, false); (HEAP_BYTES - 24 - 4096 - 24, true)] (0x200000 + HEAP_BYTES)
  /\ heap_start k1 = 0x200000.
Proof.
  pose proof (memory_alloc_run _ _ _ 4096 boot_heap ltac:(lia)) as H.
  change (Spec.alloc 4096 (heap_start boot_kmem) [(HEAP_BYTES - 24, true)]) with
    (Some (0x200018, [(4096, false); (HEAP_BYTES - 24 - 4096 - 24, true)])) in H.
  destruct H as (k1 & H1 & Hh & Hs & _). by exists k1.
Qed.

Lemma heap_clients_safe_witness :
  exists k, heap_reach 0x200000 k [0x200018] /\ is_Some (memory_alloc 64 k).
Proof.
  destruct boot_alloc as (k1 & H1 & _).
  assert (H : heap_reach 0x200000 k1 [0x200018])
    by (exact (reach_alloc 0x200000 boot_kmem [] 4096 0x200018 _ (reach_init _ _) ltac:(lia) H1)).
  exists k1. split; [exact H|]. apply (heap_clients_safe 0x200000 _ _ ltac:(lia) H). lia.
Defined.

(** C21: [memory_alloc] refines first fit.  On a heap that holds the blocks [l]
    it answers NULL exactly when no free block has [n] bytes, and then
    changes nothing; otherwise the heap holds the blocks [Spec.alloc] gives,
    the new payload has between [n] and [n + 32] bytes, and no byte outside
    the heap or inside a payload in use has changed. *)
Theorem memory_alloc_first_fit k l e n :
  heap_is k l e -> 0 <= n < 2 ^ 62 ->
  exists p k', memory_alloc n k = Some (p, k')
  /\ (p = 0 <-> Forall (fun b => b.2 = false \/ b.1 < n) l)
  /\ (p = 0 -> k' = k)
  /\ (p <> 0 -> exists l' s,
        Spec.alloc n (heap_start k) l = Some (p, l') /\ heap_is k' l' e
        /\ n <= s <= n + 32
        /\ Spec.live (heap_start k) l' ≡ₚ (p, s) :: Spec.live (heap_start k) l
        /\ same_on (outside (heap_start k) e) (phys k) (phys k')
        /\ same_on (in_live (heap_start k) l) (phys k) (phys k')).
Proof.
  intros Hh Hn. pose proof (memory_alloc_run _ _ _ n Hh Hn) as H.
  pose proof (chain_sizes _ _ _ _ (hi_chain _ _ _ Hh)) as Hsz.
  destruct (Spec.alloc n (heap_start k) l) as [[p l']|] eqn:E.
  - destruct H as (k' & Hrun & Hh' & _ & _ & Hs1 & Hs2).
    pose proof (Spec.alloc_addr _ _ _ _ _ Hsz E). pose proof (hi_start _ _ _ Hh).
    exists p, k'. split_and!; [done| |lia|].
    + split; [lia|]. intros Hnone. apply (Spec.alloc_none n (heap_start k)) in Hnone. congruence.
    + intros _. destruct (Spec.alloc_live _ _ _ _ _ (proj1 Hn) E) as (s & Hs & Hp).
      by exists l', s.
  - exists 0, k. split_and!; [done| |done|done].
    split; [intros _|done]. by apply (Spec.alloc_none n (heap_start k)).
Qed.

(** C33: [memory_free] of a live payload refines mark-and-coalesce: exactly that
    payload leaves the live list, the result has no two neighbouring free
    blocks, and the bytes of the other payloads are unchanged. *)
Theorem memory_free_coalesces k l e p s :
  heap_is k l e -> (p, s) ∈ Spec.live (heap_start k) l ->
  exists k' l', memory_free p k = Some k' /\ l' = Spec.free p (heap_start k) l
    /\ heap_is k' l' e /\ Spec.normal l' = true
    /\ (p, s) :: Spec.live (heap_start k) l' ≡ₚ Spec.live (heap_start k) l
    /\ same_on (outside (heap_start k) e) (phys k) (phys k')
    /\ same_on (in_live (heap_start k) (Spec.mark p (heap_start k) l)) (phys k) (phys k').
Proof.
  intros Hh Hin. destruct (memory_free_run _ _ _ _ _ Hh Hin) as (k' & Hrun & Hh' & _ & _ & H1 & H2).
  exists k', (Spec.free p (heap_start k) l). split_and!; try done.
  - apply Spec.merge_normal.
  - by apply Spec.free_live; [eapply chain_sizes, Hh|].
Qed.

(** On a coalesced heap, [memory_free] undoes [memory_alloc]: the heap
    holds the same blocks as before the allocation. *)
Theorem memory_free_undoes_alloc k l e n p k1 :
  heap_is k l e -> Spec.normal l = true -> 0 <= n < 2 ^ 62 ->
  memory_alloc n k = Some (p, k1) -> p <> 0 ->
  exists k2, memory_free p k1 = Some k2 /\ heap_is k2 l e /\ heap_start k2 = heap_start k.
Proof.
  intros Hh Hnorm Hn Hrun Hp. pose proof (memory_alloc_run _ _ _ n Hh Hn) as H.
  pose proof (chain_sizes _ _ _ _ (hi_chain _ _ _ Hh)) as Hsz.
  destruct (Spec.alloc n (heap_start k) l) as [[q l']|] eqn:E; [|by simplify_eq].
  destruct H as (k' & Hrun' & Hh' & Hs & _). rewrite Hrun in Hrun'. simplify_eq.
  destruct (Spec.alloc_live _ _ _ _ _ (proj1 Hn) E) as (s & _ & Hlive).
  assert (Hin : (q, s) ∈ Spec.live (heap_start k') l') by (rewrite Hs, Hlive; by left).
  destruct (memory_free_run _ _ _ _ _ Hh' Hin) as (k2 & Hf & Hh2 & Hs2 & _).
  exists k2. rewrite Hs, (Spec.free_alloc _ _ _ _ _ Hsz Hnorm E) in Hh2.
  split_and!; [done|done|congruence].
Qed.

Lemma memory_alloc_first_fit_witness :
  exists p k', memory_alloc 4096 boot_kmem = Some (p, k')
    /\ (p = 0 <-> Forall (fun b => b.2 = false \/ b.1 < 4096) [(HEAP_BYTES - 24, true)]).
Proof.
  destruct (memory_alloc_first_fit _ _ _ 4096 boot_heap ltac:(lia)) as (p & k' & H1 & H2 & _).
  by exists p, k'.
Defined.

Lemma memory_free_coalesces_witness :
  exists k1 k2 l', memory_alloc 4096 boot_kmem = Some (0x200018, k1)
    /\ memory_free 0x200018 k1 = Some k2 /\ heap_is k2 l' (0x200000 + HEAP_BYTES).
Proof.
  destruct boot_alloc as (k1 & H1 & Hh & Hs).
  destruct (memory_free_coalesces k1 _ _ 0x200018 4096 Hh) as (k2 & l' & H2 & _ & H3 & _).
  { rewrite Hs. by left. }
  by exists k1, k2, l'.
Defined.
