(* ===== verification/Paging.v ===== *)
(** * Page tables: the walk, mapping, unmapping and reading flags

    [paging_walk_4kb], [paging_map_4kb], [paging_unmap_4kb],
    [paging_unmap_2mb], [paging_get_flags], [paging_map_2mb] and the
    [memory_*] wrappers of [src/kernel/memory.c], on the physical memory of
    [Kmem].  [invlpg] and the load of [cr3] change only the processor, which
    is not modelled.  The second half relates the bytes to an address space:
    [phys_of] is the translation the tables give, and [pt_wf] the invariant
    (the tables form a tree) under which mapping one page changes the
    translation of that page only. *)

From S2P Require Import Prelude.
From S2P Require Import ByteMem.
From S2P Require Import Kmem.

Definition PAGE_PRESENT : Z := 0x001.
Definition PAGE_RW : Z := 0x002.
Definition PAGE_USER : Z := 0x004.
Definition PAGE_HUGE : Z := 0x080.
Definition PAGE_COW : Z := 0x200.
Definition PML4_ADDR : Z := 0x1000.

(** [e & PAGE_X] as a condition. *)
Definition has (e flag : Z) : bool := z_true (Z.land e flag).

(** [e & ~0xFFF] and [e & 0xFFF] on 64-bit values. *)
Definition frame (e : Z) : Z := Z.land e (u64 (Z.lnot 0xFFF)).
Definition low12 (e : Z) : Z := Z.land e 0xFFF.
(** [e & ~0x1FFFFFULL]. *)
Definition huge_frame (e : Z) : Z := Z.land e (u64 (Z.lnot 0x1FFFFF)).

Definition pml4_i (virt : Z) : Z := Z.land (Z.shiftr virt 39) 0x1FF.
Definition pdpt_i (virt : Z) : Z := Z.land (Z.shiftr virt 30) 0x1FF.
Definition pd_i (virt : Z) : Z := Z.land (Z.shiftr virt 21) 0x1FF.
Definition pt_i (virt : Z) : Z := Z.land (Z.shiftr virt 12) 0x1FF.

(** The address of entry [i] of the table at [t]. *)
Definition ent (t i : Z) : Z := t + 8 * i.

(** The upper two levels of the walk: use the table an entry points to, or,
    with [alloc], allocate one ([extra] is the [flags & PAGE_USER] of
    [paging_map_2mb]).  [false] is the C code's [return -1]. *)
Definition ensure_table (ea : Z) (alloc : bool) (extra : Z) : ST kmem bool :=
  let* e := ld64 ea in
  if has e PAGE_PRESENT then ret true
  else if negb alloc then ret false
  else
    let* new := memory_alloc_page in
    if new =? 0 then ret false
    else
      do* st64 ea (Z.lor (Z.lor (Z.lor new PAGE_PRESENT) PAGE_RW) extra) in
      ret true.

(** Fill the page table [pt] with the 512 small pages of a huge page. *)
Fixpoint split_huge_loop (rounds : nat) (i pt huge_phys huge_flags : Z) : ST kmem unit :=
  match rounds with
  | O => ret tt
  | S r =>
      do* st64 (ent pt i)
            (Z.lor (Z.lor (Z.lor (u64 (huge_phys + i * 4096))
                                 (Z.land huge_flags (u64 (Z.lnot PAGE_HUGE))))
                          PAGE_PRESENT) PAGE_RW) in
      split_huge_loop r (i + 1) pt huge_phys huge_flags
  end.

(** The page-directory level: the address of the page-table entry. *)
Definition walk_pd (pd_ea virt : Z) (alloc : bool) : ST kmem (option Z) :=
  let* pd_entry := ld64 pd_ea in
  if negb (has pd_entry PAGE_PRESENT) then
    if negb alloc then ret None
    else
      let* new_pt := memory_alloc_page in
      if new_pt =? 0 then ret None
      else
        do* st64 pd_ea (Z.lor (Z.lor new_pt PAGE_PRESENT) PAGE_RW) in
        ret (Some (ent new_pt (pt_i virt)))
  else if has pd_entry PAGE_HUGE then
    if negb alloc then ret None
    else
      let* new_pt := memory_alloc_page in
      if new_pt =? 0 then ret None
      else
        do* split_huge_loop 512 0 new_pt (huge_frame pd_entry) (low12 pd_entry) in
        do* st64 pd_ea (Z.lor (Z.lor new_pt (Z.land pd_entry (Z.lor PAGE_USER PAGE_RW)))
                              PAGE_PRESENT) in
        ret (Some (ent new_pt (pt_i virt)))
  else ret (Some (ent (frame pd_entry) (pt_i virt))).

(** [Some a]: the C function returns 0 with [*pt_entry_out = a]; [None]: -1. *)
Definition paging_walk_4kb (pml4_phys virt : Z) (alloc : bool) : ST kmem (option Z) :=
  let* ok4 := ensure_table (ent pml4_phys (pml4_i virt)) alloc 0 in
  if negb ok4 then ret None
  else
    let* e4 := ld64 (ent pml4_phys (pml4_i virt)) in
    let pdpt := frame e4 in
    let* ok3 := ensure_table (ent pdpt (pdpt_i virt)) alloc 0 in
    if negb ok3 then ret None
    else
      let* e3 := ld64 (ent pdpt (pdpt_i virt)) in
      walk_pd (ent (frame e3) (pd_i virt)) virt alloc.

Definition paging_map_4kb (pml4_phys virt phys flags : Z) : ST kmem Z :=
  let* pte := paging_walk_4kb pml4_phys virt true in
  match pte with
  | None => ret (-1)
  | Some pte =>
      do* st64 pte (Z.lor (Z.lor (Z.lor phys flags) PAGE_PRESENT) PAGE_RW) in
      ret 0
  end.

Definition paging_unmap_4kb (pml4_phys virt : Z) : ST kmem unit :=
  let* pte := paging_walk_4kb pml4_phys virt false in
  match pte with
  | None => ret tt
  | Some pte => st64 pte 0
  end.

(** Descend to the page directory without allocating. *)
Definition find_pd (pml4_phys virt : Z) : ST kmem (option Z) :=
  let* e4 := ld64 (ent pml4_phys (pml4_i virt)) in
  if negb (has e4 PAGE_PRESENT) then ret None
  else
    let* e3 := ld64 (ent (frame e4) (pdpt_i virt)) in
    if negb (has e3 PAGE_PRESENT) then ret None
    else ret (Some (frame e3)).

Definition paging_unmap_2mb (pml4_phys virt : Z) : ST kmem unit :=
  let* pd := find_pd pml4_phys virt in
  match pd with
  | None => ret tt
  | Some pd => st64 (ent pd (pd_i virt)) 0
  end.

Definition paging_get_flags (pml4_phys virt : Z) : ST kmem Z :=
  let* pd := find_pd pml4_phys virt in
  match pd with
  | None => ret 0
  | Some pd =>
      let* pd_entry := ld64 (ent pd (pd_i virt)) in
      if negb (has pd_entry PAGE_PRESENT) then ret 0
      else if has pd_entry PAGE_HUGE then ret (low12 pd_entry)
      else
        let* pte := ld64 (ent (frame pd_entry) (pt_i virt)) in
        ret (low12 pte)
  end.

Definition paging_map_2mb (pml4_phys virt phys flags : Z) : ST kmem Z :=
  let user := Z.land flags PAGE_USER in
  let* ok4 := ensure_table (ent pml4_phys (pml4_i virt)) true user in
  if negb ok4 then ret (-1)
  else
    let* e4 := ld64 (ent pml4_phys (pml4_i virt)) in
    let* ok3 := ensure_table (ent (frame e4) (pdpt_i virt)) true user in
    if negb ok3 then ret (-1)
    else
      let* e3 := ld64 (ent (frame e4) (pdpt_i virt)) in
      do* st64 (ent (frame e3) (pd_i virt))
            (Z.lor (Z.lor (Z.lor (Z.lor phys PAGE_PRESENT) PAGE_RW) PAGE_HUGE) user) in
      ret 0.

Definition memory_map_2mb (virt phys flags : Z) : ST kmem Z :=
  paging_map_2mb PML4_ADDR virt phys flags.

Definition memory_unmap_2mb (virt : Z) : ST kmem Z :=
  do* paging_unmap_2mb PML4_ADDR virt in ret 0.

Definition memory_get_flags (virt : Z) : ST kmem Z := paging_get_flags PML4_ADDR virt.

(** ** Entries as numbers

    An entry is a 4096-aligned frame plus twelve flag bits. *)

Definition aligned (a : Z) : Prop := a mod 4096 = 0.

Lemma aligned_apart p q : aligned p -> aligned q -> p <> q -> p + 4096 <= q \/ q + 4096 <= p.
Proof.
  unfold aligned. intros [a ->]%Z.mod_divide [b ->]%Z.mod_divide ?; lia.
Qed.

Lemma frame_div e : 0 <= e < 2 ^ 64 -> frame e = e / 4096 * 4096.
Proof. intros. exact (land_high_ones e 12 64 ltac:(lia) ltac:(lia)). Qed.

Lemma huge_frame_div e : 0 <= e < 2 ^ 64 -> huge_frame e = e / 0x200000 * 0x200000.
Proof. intros. exact (land_high_ones e 21 64 ltac:(lia) ltac:(lia)). Qed.

Lemma low12_mod e : low12 e = e mod 4096.
Proof. exact (Z.land_ones e 12 ltac:(lia)). Qed.

Lemma frame_entry a f : aligned a -> 0 <= a < 2 ^ 63 -> 0 <= f < 4096 -> frame (a + f) = a.
Proof. intros. unfold aligned in *. rewrite frame_div by lia. zlia. Qed.

Lemma low12_entry a f : aligned a -> 0 <= f < 4096 -> low12 (a + f) = f.
Proof. intros. unfold aligned in *. rewrite low12_mod. zlia. Qed.

Lemma has_entry a f flag :
  aligned a -> 0 <= f < 4096 -> 0 <= flag < 4096 -> has (a + f) flag = has f flag.
Proof. intros. unfold has. by rewrite (land_low a f flag 12). Qed.

Lemma has_low12 e flag : 0 <= flag < 4096 -> has e flag = has (low12 e) flag.
Proof.
  intros. rewrite low12_mod. rewrite (Z.div_mod e 4096) at 1 by lia.
  apply has_entry; [unfold aligned; zlia|zlia|done].
Qed.

(** [|] of flags into an entry. *)
Lemma lor_entry a f g :
  aligned a -> 0 <= f < 4096 -> 0 <= g < 4096 -> Z.lor (a + f) g = a + Z.lor f g.
Proof. intros. by apply (lor_low a f g 12). Qed.

Lemma lor_entry0 a g : aligned a -> 0 <= g < 4096 -> Z.lor a g = a + g.
Proof. intros. by apply (lor_disjoint a g 12). Qed.

Lemma lor_flags f g : 0 <= f < 4096 -> 0 <= g < 4096 -> 0 <= Z.lor f g < 4096.
Proof. intros. by apply (lor_range f g 12). Qed.

Lemma has_lor f g flag : has (Z.lor f g) flag = has f flag || has g flag.
Proof.
  unfold has, z_true. rewrite Z.land_lor_distr_l.
  destruct (Z.eqb_spec (Z.lor (Z.land f flag) (Z.land g flag)) 0) as [E|E].
  - apply Z.lor_eq_0_iff in E as [-> ->]. done.
  - destruct (Z.eqb_spec (Z.land f flag) 0) as [H1|]; [|done].
    destruct (Z.eqb_spec (Z.land g flag) 0) as [H2|]; [|done].
    by rewrite H1, H2 in E.
Qed.

Lemma has_zero flag : has 0 flag = false.
Proof. unfold has. by rewrite Z.land_0_l. Qed.

(** The entry that links a new table. *)
Lemma link_entry a extra :
  aligned a -> extra = 0 \/ extra = PAGE_USER ->
  Z.lor (Z.lor (Z.lor a PAGE_PRESENT) PAGE_RW) extra = a + (3 + extra).
Proof.
  intros Ha He. unfold PAGE_PRESENT, PAGE_RW.
  rewrite (lor_entry0 a 1), (lor_entry a 1 2) by (done || lia).
  destruct He as [->| ->]; unfold PAGE_USER; by rewrite lor_entry by (done || lia).
Qed.

(** The entry of a mapped page. *)
Lemma map_entry a f :
  aligned a -> 0 <= f < 4096 ->
  Z.lor (Z.lor (Z.lor a f) PAGE_PRESENT) PAGE_RW = a + Z.lor f 3.
Proof.
  intros Ha Hf. rewrite (lor_entry0 a f) by done. rewrite <- Z.lor_assoc.
  by rewrite lor_entry by (done || lia).
Qed.

Lemma map_entry_huge a f :
  aligned a -> 0 <= f < 4096 ->
  Z.lor (Z.lor (Z.lor (Z.lor a PAGE_PRESENT) PAGE_RW) PAGE_HUGE) f = a + Z.lor 0x83 f.
Proof.
  intros Ha Hf. unfold PAGE_PRESENT, PAGE_RW, PAGE_HUGE.
  rewrite (lor_entry0 a 1), !(lor_entry a) by (done || (cbv; done)). done.
Qed.

(** ** The translation the tables give

    [resolve m L t v] is the frame the processor finds for [v] from the table
    at [t] of level [L] (4 is the PML4, 1 a page table); the page directory
    may hold 2-megabyte pages. *)

(** The index of [v] in a table of level [S n]. *)
Definition idx (L : nat) (v : Z) : Z := Z.land (Z.shiftr v (12 + 9 * (Z.of_nat L - 1))) 0x1FF.

Fixpoint resolve (m : mem) (L : nat) (t v : Z) : option Z :=
  match L with
  | O => None
  | S L' =>
      let e := load64 m (ent t (idx L v)) in
      if negb (has e PAGE_PRESENT) then None
      else if Nat.eqb L 1 then Some (frame e)
      else if Nat.eqb L 2 && has e PAGE_HUGE then Some (huge_frame e + idx 1 v * 4096)
      else resolve m L' (frame e) v
  end.

Definition phys_of (k : kmem) (root v : Z) : option Z := resolve (phys k) 4 root v.

(** The upper bits of [v], which select the table of level [L] on its path. *)
Definition pre (L : nat) (v : Z) : Z := v / 2 ^ (12 + 9 * Z.of_nat L) mod 2 ^ (9 * (4 - Z.of_nat L)).

(** The page number of [v] in the 48-bit address space. *)
Definition page_no (v : Z) : Z := v / 4096 mod 2 ^ 36.

Lemma idx_div L v :
  (1 <= L)%nat -> idx L v = v / 2 ^ (12 + 9 * (Z.of_nat L - 1)) mod 512.
Proof.
  intros. unfold idx. change 0x1FF with (Z.ones 9).
  by rewrite Z.land_ones, Z.shiftr_div_pow2 by lia.
Qed.

Lemma idx_range L v : 0 <= idx L v < 512.
Proof. unfold idx. change 0x1FF with (Z.ones 9). rewrite Z.land_ones by lia. zlia. Qed.

Lemma walk_indices v :
  pml4_i v = idx 4 v /\ pdpt_i v = idx 3 v /\ pd_i v = idx 2 v /\ pt_i v = idx 1 v.
Proof. done. Qed.

Lemma pre_4 v : pre 4 v = 0.
Proof. unfold pre. apply Z.mod_1_r. Qed.

Ltac level_cases L := destruct L as [|[|[|[|[|?]]]]]; try lia.

Lemma pre_step L v : (1 <= L <= 3)%nat -> pre L v = pre (S L) v * 512 + idx (S L) v.
Proof.
  intros HL. rewrite idx_div by lia. unfold pre. level_cases L.
  - change (12 + 9 * Z.of_nat 1) with 21. change (9 * (4 - Z.of_nat 1)) with 27.
    change (12 + 9 * Z.of_nat 2) with 30. change (9 * (4 - Z.of_nat 2)) with 18.
    change (12 + 9 * (Z.of_nat 2 - 1)) with 21. zlia.
  - change (12 + 9 * Z.of_nat 2) with 30. change (9 * (4 - Z.of_nat 2)) with 18.
    change (12 + 9 * Z.of_nat 3) with 39. change (9 * (4 - Z.of_nat 3)) with 9.
    change (12 + 9 * (Z.of_nat 3 - 1)) with 30. zlia.
  - change (12 + 9 * Z.of_nat 3) with 39. change (9 * (4 - Z.of_nat 3)) with 9.
    change (12 + 9 * Z.of_nat 4) with 48. change (9 * (4 - Z.of_nat 4)) with 0.
    change (12 + 9 * (Z.of_nat 4 - 1)) with 39. change (2 ^ 0) with 1.
    rewrite Z.mod_1_r. zlia.
Qed.

Lemma page_no_pre v : page_no v = pre 1 v * 512 + idx 1 v.
Proof.
  rewrite idx_div by lia. unfold pre, page_no.
  change (12 + 9 * Z.of_nat 1) with 21. change (9 * (4 - Z.of_nat 1)) with 27.
  change (12 + 9 * (Z.of_nat 1 - 1)) with 12. zlia.
Qed.

Lemma same_page_path v w :
  page_no v = page_no w -> pre 1 v = pre 1 w /\ idx 1 v = idx 1 w.
Proof.
  rewrite !page_no_pre. pose proof (idx_range 1 v). pose proof (idx_range 1 w). lia.
Qed.

Lemma pre_inj L v w :
  (1 <= L <= 3)%nat -> pre L v = pre L w -> pre (S L) v = pre (S L) w /\ idx (S L) v = idx (S L) w.
Proof.
  intros HL. rewrite (pre_step L v), (pre_step L w) by done. intros H.
  pose proof (idx_range (S L) v). pose proof (idx_range (S L) w). split; lia.
Qed.

(** ** The tables form a tree

    [own] says which pages hold the tables of the tree at [root]: the level
    of each and the upper address bits it serves. *)

Definition pool_free (k : kmem) (p : Z) : Prop := page_alloc_cur k <= p < PAGE_ALLOC_END.

Record pt_wf (k : kmem) (root : Z) (own : gmap Z (nat * Z)) : Prop := {
  pw_root : own !! root = Some (4%nat, 0);
  pw_page p lx : own !! p = Some lx -> aligned p /\ 0 <= p < 2 ^ 52 /\ ~ pool_free k p;
  pw_level p L x : own !! p = Some (L, x) -> (1 <= L <= 4)%nat;
  pw_tree p L x i :
    own !! p = Some (S L, x) -> (1 <= L)%nat -> 0 <= i < 512 ->
    let e := load64 (phys k) (ent p i) in
    has e PAGE_PRESENT = true -> ~ (L = 1%nat /\ has e PAGE_HUGE = true) ->
    own !! frame e = Some (L, x * 512 + i)
}.

Lemma ent_disjoint t t' i i' :
  aligned t -> aligned t' -> 0 <= i < 512 -> 0 <= i' < 512 ->
  (t <> t' \/ i <> i') -> ent t i + 8 <= ent t' i' \/ ent t' i' + 8 <= ent t i.
Proof. unfold aligned, ent. intros. zlia. Qed.

Lemma ent_in_page t i : 0 <= i < 512 -> t <= ent t i /\ ent t i + 8 <= t + 4096.
Proof. unfold ent. lia. Qed.

Lemma ld_st_ne m t t' i i' e :
  aligned t -> aligned t' -> 0 <= i < 512 -> 0 <= i' < 512 -> (t <> t' \/ i <> i') ->
  load64 (store64 m (ent t i) e) (ent t' i') = load64 m (ent t' i').
Proof. intros. apply load64_store64_ne. by apply ent_disjoint. Qed.

(** *** Reading the translation *)

#[local] Opaque load64 store64 load8 memory_set memory_alloc_page.

Lemma load64_u64 m a : 0 <= load64 m a < 2 ^ 64.
Proof. apply load64_range. Qed.

Lemma frame_aligned e : 0 <= e < 2 ^ 64 -> aligned (frame e).
Proof. intros. rewrite frame_div by done. unfold aligned. zlia. Qed.

(** The tables on the path of [v] decide its translation: if each of them has
    the same entry for [v] in [m'], or resolves [v] to the same frame there,
    the translation of [v] is the same. *)
Lemma resolve_agree k root own m' v :
  pt_wf k root own ->
  (forall L t, own !! t = Some (L, pre L v) ->
     load64 m' (ent t (idx L v)) = load64 (phys k) (ent t (idx L v))
     \/ resolve m' L t v = resolve (phys k) L t v) ->
  forall L t, own !! t = Some (L, pre L v) -> resolve m' L t v = resolve (phys k) L t v.
Proof.
  intros Hw Hag. induction L as [|L IH]; intros t Ht; [done|].
  destruct (Hag _ _ Ht) as [He|He]; [|done].
  pose proof (pw_level _ _ _ Hw _ _ _ Ht) as HL.
  cbn [resolve]. rewrite He. set (e := load64 (phys k) (ent t (idx (S L) v))).
  destruct (has e PAGE_PRESENT) eqn:Hp; cbn [negb]; [|done].
  destruct (Nat.eqb_spec (S L) 1); [done|].
  destruct (Nat.eqb (S L) 2 && has e PAGE_HUGE) eqn:Hh; [done|].
  apply IH. rewrite pre_step by lia.
  apply (pw_tree _ _ _ Hw t L _ (idx (S L) v) Ht); [lia|apply idx_range|done|].
  intros [-> Hhuge]. change (Nat.eqb 2 2) with true in Hh. fold e in Hhuge. by rewrite Hhuge in Hh.
Qed.

Lemma resolve_absent m L t v :
  has (load64 m (ent t (idx L v))) PAGE_PRESENT = false -> resolve m L t v = None.
Proof. intros H. destruct L; [done|]. cbn [resolve]. by rewrite H. Qed.

(** The walk from the table [t] of level [L] reaches the page table [t1]. *)
Fixpoint reaches (m : mem) (L : nat) (t v t1 : Z) : Prop :=
  match L with
  | O => False
  | S L' =>
      if Nat.eqb L 1 then t = t1
      else
        let e := load64 m (ent t (idx L v)) in
        has e PAGE_PRESENT = true /\ (L = 2%nat -> has e PAGE_HUGE = false)
        /\ reaches m L' (frame e) v t1
  end.

Lemma pre_up v w : pre 1 v = pre 1 w ->
  forall L, (2 <= L <= 4)%nat -> pre L v = pre L w /\ idx L v = idx L w.
Proof.
  intros H1. assert (H2 := pre_inj 1 v w ltac:(lia) H1). destruct H2 as [H2 I2].
  assert (H3 := pre_inj 2 v w ltac:(lia) H2). destruct H3 as [H3 I3].
  assert (H4 := pre_inj 3 v w ltac:(lia) H3). destruct H4 as [H4 I4].
  intros L HL. level_cases L; done.
Qed.

Lemma reaches_resolve m L t v t1 w :
  (L <= 4)%nat -> reaches m L t v t1 -> pre 1 w = pre 1 v -> resolve m L t w = resolve m 1 t1 w.
Proof.
  revert t. induction L as [|L IH]; intros t HL Hr Hpre; [done|].
  cbn [reaches] in Hr. destruct (Nat.eqb_spec (S L) 1) as [HL1|HL1].
  - by replace L with O by lia; subst.
  - destruct Hr as (Hp & Hh & Hr). destruct (pre_up w v Hpre (S L) ltac:(lia)) as [_ Hidx].
    rewrite <- (IH _ ltac:(lia) Hr Hpre).
    change (resolve m (S L) t w) with
      (let e := load64 m (ent t (idx (S L) w)) in
       if negb (has e PAGE_PRESENT) then None
       else if Nat.eqb (S L) 1 then Some (frame e)
       else if Nat.eqb (S L) 2 && has e PAGE_HUGE then Some (huge_frame e + idx 1 w * 4096)
       else resolve m L (frame e) w).
    cbv zeta. rewrite Hidx, Hp. cbn [negb]. destruct (Nat.eqb_spec (S L) 1); [lia|].
    destruct (Nat.eqb_spec (S L) 2) as [E2|]; cbn [andb]; [by rewrite (Hh E2)|done].
Qed.

Lemma reaches_own k root own L t v t1 :
  pt_wf k root own -> own !! t = Some (L, pre L v) -> reaches (phys k) L t v t1 ->
  own !! t1 = Some (1%nat, pre 1 v).
Proof.
  intros Hw. revert t. induction L as [|L IH]; intros t Ht Hr; [done|].
  pose proof (pw_level _ _ _ Hw _ _ _ Ht) as HL.
  cbn [reaches] in Hr. destruct (Nat.eqb_spec (S L) 1) as [HL1|HL1].
  - subst. by replace (S L) with 1%nat in Ht by lia.
  - destruct Hr as (Hp & Hh & Hr). eapply IH, Hr. rewrite pre_step by lia.
    apply (pw_tree _ _ _ Hw t L _ (idx (S L) v) Ht); [lia|apply idx_range|done|].
    intros [-> Hhuge]. by rewrite Hh in Hhuge.
Qed.

(** ** How an operation may change the tables

    [grows root k own k' own']: from [k] to [k'] the tree may have gained
    tables, but no address is translated differently, no entry that points
    to a table has changed, and no byte outside the tables and the free pool
    has changed. *)
Record grows (root : Z) (k : kmem) (own : gmap Z (nat * Z)) (k' : kmem) (own' : gmap Z (nat * Z))
  : Prop := {
  gr_kmem : kmem_wf k';
  gr_wf : pt_wf k' root own';
  gr_sub : own ⊆ own';
  gr_phys w : phys_of k' root w = phys_of k root w;
  gr_keep p L x i :
    own !! p = Some (L, x) -> (2 <= L)%nat -> 0 <= i < 512 ->
    let e := load64 (phys k) (ent p i) in
    has e PAGE_PRESENT = true -> (L = 2%nat -> has e PAGE_HUGE = false) ->
    load64 (phys k') (ent p i) = e;
  gr_new p lx : own' !! p = Some lx -> own !! p = None ->
    page_alloc_cur k <= p /\ p + 4096 <= PAGE_ALLOC_END;
  gr_cur : page_alloc_cur k <= page_alloc_cur k';
  gr_refs : page_refcounts k' = page_refcounts k;
  gr_heap : heap_start k' = heap_start k;
  gr_frame a :
    ~ page_alloc_cur k <= a < PAGE_ALLOC_END ->
    (forall p lx, own !! p = Some lx -> ~ p <= a < p + 4096) ->
    load8 (phys k') a = load8 (phys k) a
}.

Lemma grows_refl root k own : kmem_wf k -> pt_wf k root own -> grows root k own k own.
Proof. intros. split; intros; (done || lia || congruence). Qed.

Lemma grows_trans root k own k1 own1 k2 own2 :
  grows root k own k1 own1 -> grows root k1 own1 k2 own2 -> grows root k own k2 own2.
Proof.
  intros [A1 A2 A3 A4 A5 A6 A7 A8 A9 A10] [B1 B2 B3 B4 B5 B6 B7 B8 B9 B10].
  split; [done|done|by etrans| | | |lia|congruence|congruence|].
  - intros w. by rewrite B4.
  - intros p L x i Hp HL Hi e He Hh. unfold e in *.
    pose proof (A5 p L x i Hp HL Hi He Hh) as HA. cbv zeta in HA.
    rewrite <- HA. apply (B5 p L x i); try done.
    + eapply lookup_weaken; done.
    + by rewrite HA.
    + intros. rewrite HA. auto.
  - intros p lx Hp Hn. destruct (own1 !! p) as [lx1|] eqn:E1; [by eapply A6|].
    destruct (B6 _ _ Hp E1). lia.
  - intros a Ha Ho. rewrite B10; [by apply A10|lia|].
    intros p lx Hp. destruct (own !! p) as [lx0|] eqn:E0; [by eapply Ho|].
    destruct (A6 _ _ Hp E0). lia.
Qed.

(** An owned table and a page just allocated do not overlap. *)
Lemma fresh_page root k own q k1 :
  kmem_wf k -> pt_wf k root own -> memory_alloc_page k = (q, k1) -> q <> 0 ->
  own !! q = None /\ (forall p lx, own !! p = Some lx -> p + 4096 <= q \/ q + 4096 <= p).
Proof.
  intros Hk Hw Ha Hq. destruct (alloc_page_fresh _ _ _ Hk Ha Hq) as (H1 & H2 & H3 & H4 & H5 & _).
  assert (Hpf : pool_free k q) by (unfold pool_free; lia). split.
  - destruct (own !! q) as [lx|] eqn:E; [|done].
    by destruct (pw_page _ _ _ Hw _ _ E) as (_ & _ & []).
  - intros p lx Hp. destruct (pw_page _ _ _ Hw _ _ Hp) as (Hal & _ & Hn).
    unfold pool_free in *. apply aligned_apart; [done|done|lia].
Qed.

Lemma fresh_load root k own q k1 p lx i :
  kmem_wf k -> pt_wf k root own -> memory_alloc_page k = (q, k1) -> q <> 0 ->
  own !! p = Some lx -> 0 <= i < 512 ->
  load64 (phys k1) (ent p i) = load64 (phys k) (ent p i).
Proof.
  intros Hk Hw Ha Hq Hp Hi. destruct (fresh_page _ _ _ _ _ Hk Hw Ha Hq) as [_ Hd].
  destruct (alloc_page_fresh _ _ _ Hk Ha Hq) as (_ & _ & _ & _ & _ & Hz & _).
  eapply kept_load64; [exact Hz|]. specialize (Hd _ _ Hp). unfold ent. lia.
Qed.

(** Linking the fresh page [q] as a table below entry [i] of [t]. *)
Section Link.
Context (root : Z) (k : kmem) (own : gmap Z (nat * Z)) (q : Z) (k1 : kmem) (L : nat) (t x i e : Z) (m' : mem).
Hypothesis Hk : kmem_wf k.
Hypothesis Hw : pt_wf k root own.
Hypothesis Ha : memory_alloc_page k = (q, k1).
Hypothesis Hq : q <> 0.
Hypothesis Ht : own !! t = Some (S L, x).
Hypothesis HL : (1 <= L)%nat.
Hypothesis Hi : 0 <= i < 512.
Hypothesis Hold : has (load64 (phys k) (ent t i)) PAGE_PRESENT = false
   \/ L = 1%nat /\ has (load64 (phys k) (ent t i)) PAGE_HUGE = true.
Hypothesis Hep : has e PAGE_PRESENT = true.
Hypothesis Heh : L = 1%nat -> has e PAGE_HUGE = false.
Hypothesis Hef : frame e = q.
Hypothesis Hset : load64 m' (ent t i) = e.
Hypothesis Hother : forall p lx j, own !! p = Some lx -> 0 <= j < 512 -> p <> t \/ j <> i ->
     load64 m' (ent p j) = load64 (phys k) (ent p j).
Hypothesis Hzero : (2 <= L)%nat -> forall j, 0 <= j < 512 -> load64 m' (ent q j) = 0.
Hypothesis Hres : forall w, pre (S L) w = x -> idx (S L) w = i ->
     resolve m' L q w = resolve (phys k) (S L) t w.
Hypothesis Hframe : forall a, ~ q <= a < q + 4096 -> ~ t <= a < t + 4096 -> load8 m' a = load8 (phys k) a.

Lemma link_phys w : phys_of (set_phys m' k1) root w = phys_of k root w.
Proof.
  unfold phys_of. cbn [phys set_phys].
  apply (resolve_agree k root own m' w Hw); [|rewrite pre_4; apply Hw].
  intros L' t' Ht'. pose proof (pw_level _ _ _ Hw _ _ _ Ht').
  destruct (decide (t' = t /\ idx L' w = i)) as [[-> Hwi]|Hne].
  - right. rewrite Ht in Ht'. injection Ht' as <- Ex.
    cbn [resolve]. rewrite Hwi, Hset, Hep. cbn [negb].
    destruct (Nat.eqb_spec (S L) 1); [lia|].
    assert (Hnh : Nat.eqb (S L) 2 && has e PAGE_HUGE = false).
    { destruct (Nat.eqb_spec (S L) 2); [|done]. apply Heh. lia. }
    rewrite Hnh, Hef. rewrite (Hres w (eq_sym Ex) Hwi). cbn [resolve]. rewrite Hwi.
    destruct (Nat.eqb_spec (S L) 1); [lia|]. done.
  - left. eapply Hother; [done|apply idx_range|].
    destruct (decide (t' = t)); [right|by left]. tauto.
Qed.

Lemma link_sub : own ⊆ <[q := (L, x * 512 + i)]> own.
Proof. apply insert_subseteq. apply (fresh_page _ _ _ _ _ Hk Hw Ha Hq). Qed.

Lemma link_wf : pt_wf (set_phys m' k1) root (<[q := (L, x * 512 + i)]> own).
Proof.
  destruct (alloc_page_fresh _ _ _ Hk Ha Hq) as (H1 & H2 & H3 & H4 & H5 & H6 & H7 & H8).
  destruct (fresh_page _ _ _ _ _ Hk Hw Ha Hq) as [Hnq _]. pose proof (pw_level _ _ _ Hw _ _ _ Ht) as HtL.
  split.
  - rewrite lookup_insert_ne; [apply Hw|]. intros ->. by rewrite (pw_root _ _ _ Hw) in Hnq.
  - intros p lx Hp. unfold pool_free. cbn [page_alloc_cur set_phys].
    destruct (decide (p = q)) as [->|Hne].
    + unfold aligned, PAGE_ALLOC_START, PAGE_ALLOC_END in *. split; [exact H3|]. lia.
    + rewrite lookup_insert_ne in Hp by done.
      destruct (pw_page _ _ _ Hw _ _ Hp) as (A & B & C). unfold pool_free in C.
      split_and!; [exact A|apply B|apply B|lia].
  - intros p L' x' Hp. destruct (decide (p = q)) as [->|Hne].
    + rewrite lookup_insert_eq in Hp. injection Hp as <- _. lia.
    + rewrite lookup_insert_ne in Hp by done. by eapply (pw_level _ _ _ Hw).
  - intros p L' x' j Hp HL' Hj. cbn [phys set_phys]. cbv zeta. intros Hpr Hnh.
    destruct (decide (p = q)) as [->|Hne].
    + rewrite lookup_insert_eq in Hp. injection Hp as -> _.
      rewrite Hzero in Hpr by lia. by rewrite has_zero in Hpr.
    + rewrite lookup_insert_ne in Hp by done.
      destruct (decide (p = t /\ j = i)) as [[-> ->]|Hpj].
      * rewrite Ht in Hp. injection Hp as -> ->. rewrite Hset, Hef. apply lookup_insert_eq.
      * assert (Hpj' : p <> t \/ j <> i) by (destruct (decide (p = t)); tauto).
        rewrite (Hother p _ j Hp Hj Hpj') in Hpr, Hnh |- *.
        eapply lookup_weaken; [|exact link_sub]. by apply (pw_tree _ _ _ Hw p L' x' j).
Qed.

Lemma grows_link : grows root k own (set_phys m' k1) (<[q := (L, x * 512 + i)]> own).
Proof.
  destruct (alloc_page_fresh _ _ _ Hk Ha Hq) as (H1 & H2 & H3 & H4 & H5 & H6 & H7 & H8).
  pose proof (alloc_page_wf _ _ _ Hk Ha) as Hk1.
  split; cbn [page_alloc_cur page_refcounts heap_start phys set_phys];
    [ |exact link_wf|exact link_sub|exact link_phys| | | |exact H7|exact H8| ].
  - destruct Hk1. constructor; assumption.
  - intros p L' x' j Hp HL' Hj Hpr Hh.
    eapply Hother; [exact Hp|exact Hj|].
    destruct (decide (p = t)) as [->|Hpt]; [right|left; exact Hpt].
    intros ->. rewrite Ht in Hp. injection Hp as <- <-.
    destruct Hold as [Hold'|[-> Hold']]; [congruence|].
    rewrite (Hh eq_refl) in Hold'. discriminate Hold'.
  - intros p lx Hp Hn. destruct (decide (p = q)) as [->|]; [lia|].
    rewrite lookup_insert_ne in Hp by done. congruence.
  - lia.
  - intros a Hpool Hown. apply Hframe; [lia|by eapply Hown].
Qed.

End Link.

(** ** The walk *)

Lemma entry_u64 a f : aligned a -> 0 <= a < 2 ^ 64 -> 0 <= f < 4096 -> 0 <= a + f < 2 ^ 64.
Proof. unfold aligned. intros [b ->]%Z.mod_divide; lia. Qed.

Lemma frame_entry64 a f : aligned a -> 0 <= a < 2 ^ 64 -> 0 <= f < 4096 -> frame (a + f) = a.
Proof.
  intros Ha Hr Hf. rewrite frame_div by (by apply entry_u64).
  unfold aligned in *. apply Z.mod_divide in Ha as [b ->]; [|done].
  replace ((b * 4096 + f) / 4096) with b by zlia. done.
Qed.

(** A fresh, empty table below an absent entry. *)
Lemma grows_new_table root k own q k1 L t v g :
  kmem_wf k -> pt_wf k root own -> memory_alloc_page k = (q, k1) -> q <> 0 ->
  own !! t = Some (S L, pre (S L) v) -> (1 <= L <= 3)%nat ->
  has (load64 (phys k) (ent t (idx (S L) v))) PAGE_PRESENT = false ->
  0 <= g < 4096 -> has g PAGE_PRESENT = true -> has g PAGE_HUGE = false ->
  let k' := set_phys (store64 (phys k1) (ent t (idx (S L) v)) (q + g)) k1 in
  let e := load64 (phys k') (ent t (idx (S L) v)) in
  exists own', grows root k own k' own' /\ e = q + g /\ has e PAGE_PRESENT = true
    /\ has e PAGE_HUGE = false /\ frame e = q /\ own' !! q = Some (L, pre L v).
Proof.
  intros Hk Hw Ha Hq Ht HL Hp Hg Hgp Hgh. cbn [phys set_phys]. cbv zeta.
  set (i := idx (S L) v) in *. pose proof (idx_range (S L) v : 0 <= i < 512) as Hi.
  destruct (alloc_page_fresh _ _ _ Hk Ha Hq) as (H1 & H2 & H3 & H4 & H5 & H6 & _).
  destruct (fresh_page _ _ _ _ _ Hk Hw Ha Hq) as [Hnq Hdq].
  assert (Hqr : 0 <= q < 2 ^ 63) by (unfold PAGE_ALLOC_START, PAGE_ALLOC_END in *; lia).
  assert (Hset : load64 (store64 (phys k1) (ent t i) (q + g)) (ent t i) = q + g)
    by (rewrite load64_store64_eq; apply u64_small; lia).
  assert (Hfr : frame (q + g) = q) by (by apply frame_entry).
  rewrite Hset, Hfr, !has_entry, Hgp, Hgh by (done || (cbv; done)).
  exists (<[q := (L, pre (S L) v * 512 + i)]> own).
  split_and!; try done; [|rewrite (pre_step L v) by lia; apply lookup_insert_eq].
  assert (Hzero : forall j, 0 <= j < 512 -> load64 (store64 (phys k1) (ent t i) (q + g)) (ent q j) = 0).
  { intros j Hj. specialize (Hdq _ _ Ht). rewrite load64_store64_ne by (unfold ent; lia).
    apply (zeroed_load64 _ _ _ _ H6); unfold ent; lia. }
  eapply (grows_link root k own q k1 L t _ i (q + g)); try done; try lia.
  - by left.
  - by rewrite has_entry.
  - intros _. by rewrite has_entry.
  - intros p lx j Hpo Hj Hd. destruct (pw_page _ _ _ Hw _ _ Hpo) as (Hpa & _).
    destruct (pw_page _ _ _ Hw _ _ Ht) as (Hta & _).
    rewrite ld_st_ne by (done || tauto || (destruct Hd; [left|right]; congruence)).
    by eapply fresh_load.
  - intros w Hwp Hwi. rewrite !resolve_absent; [done| |].
    + rewrite Hwi. exact Hp.
    + by rewrite Hzero by apply idx_range.
  - intros a Ha1 Ha2. pose proof (ent_in_page t i Hi).
    rewrite load8_store64_ne by lia. by rewrite H6, decide_False.
Qed.

Lemma ensure_table_spec root k own t L v extra r k' :
  kmem_wf k -> pt_wf k root own -> own !! t = Some (S L, pre (S L) v) -> (2 <= L <= 3)%nat ->
  extra = 0 \/ extra = PAGE_USER ->
  ensure_table (ent t (idx (S L) v)) true extra k = (r, k') ->
  exists own', grows root k own k' own' /\
    if r then
      let e := load64 (phys k') (ent t (idx (S L) v)) in
      has e PAGE_PRESENT = true /\ own' !! frame e = Some (L, pre L v)
    else k' = k /\ page_alloc_cur k = PAGE_ALLOC_END.
Proof.
  intros Hk Hw Ht HL Hex. unfold ensure_table. rewrite bind_ld64.
  destruct (has _ PAGE_PRESENT) eqn:Hp.
  { intros [= <- <-]. exists own. split; [by apply grows_refl|]. split; [done|].
    rewrite (pre_step L v) by lia.
    apply (pw_tree _ _ _ Hw t L _ _ Ht); [lia|apply idx_range|done|].
    intros [-> _]. lia. }
  cbn [negb]. destruct (memory_alloc_page k) as [q k1] eqn:Ha.
  rewrite (bind_run _ _ _ _ _ Ha). destruct (Z.eqb_spec q 0) as [->|Hq].
  { intros [= <- <-]. destruct (alloc_page_null _ _ Hk Ha) as [-> ?].
    exists own. split; [by apply grows_refl|done]. }
  rewrite bind_st64. intros [= <- <-].
  destruct (alloc_page_fresh _ _ _ Hk Ha Hq) as (_ & _ & H3 & _).
  rewrite link_entry by done.
  destruct (grows_new_table root k own q k1 L t v (3 + extra) Hk Hw Ha Hq Ht)
    as (own' & Hgr & He & H5 & H6 & H7 & H8);
    [lia|done|unfold PAGE_USER in Hex; lia|by destruct Hex as [-> | ->]|by destruct Hex as [-> | ->]|].
  exists own'. split; [done|]. cbv zeta in *. by rewrite H7.
Qed.

Lemma split_loop_run r i pt hp hf k :
  exists m', split_huge_loop r i pt hp hf k = (tt, set_phys m' k)
  /\ (forall j, i <= j < i + Z.of_nat r ->
        load64 m' (ent pt j) =
          u64 (Z.lor (Z.lor (Z.lor (u64 (hp + j * 4096)) (Z.land hf (u64 (Z.lnot PAGE_HUGE))))
                            PAGE_PRESENT) PAGE_RW))
  /\ (forall a, a + 8 <= ent pt i \/ ent pt (i + Z.of_nat r) <= a -> load64 m' a = load64 (phys k) a)
  /\ (forall a, a < ent pt i \/ ent pt (i + Z.of_nat r) <= a -> load8 m' a = load8 (phys k) a).
Proof.
  revert i k. induction r as [|r IH]; intros i k; cbn [split_huge_loop].
  - exists (phys k). split_and!; try done; [by destruct k|lia].
  - rewrite bind_st64.
    edestruct (IH (i + 1)) as (m' & -> & H1 & H2 & H3).
    cbn [phys set_phys] in H2, H3. exists m'.
    split_and!; [by destruct k| | |].
    + intros j Hj. destruct (decide (j = i)) as [->|].
      * rewrite H2 by (unfold ent; lia). by rewrite load64_store64_eq.
      * rewrite H1 by lia. done.
    + intros a Ha. rewrite H2 by (unfold ent in *; lia).
      apply load64_store64_ne. unfold ent in *. lia.
    + intros a Ha. rewrite H3 by (unfold ent in *; lia).
      apply load8_store64_ne. unfold ent in *. lia.
Qed.

(** The page-table entries a huge page is split into. *)
Definition split_flags (hf : Z) : Z := Z.lor (Z.land hf (u64 (Z.lnot PAGE_HUGE))) 3.

Lemma split_flags_range hf : 0 <= hf < 4096 -> 0 <= split_flags hf < 4096.
Proof.
  intros. apply lor_flags; [|lia]. rewrite Z.land_comm.
  apply (land_range _ _ 12); [lia| |lia]. apply u64_range.
Qed.

Lemma split_entry hp hf j :
  hp mod 0x200000 = 0 -> 0 <= hp < 2 ^ 64 -> 0 <= hf < 4096 -> 0 <= j < 512 ->
  u64 (Z.lor (Z.lor (Z.lor (u64 (hp + j * 4096)) (Z.land hf (u64 (Z.lnot PAGE_HUGE))))
                    PAGE_PRESENT) PAGE_RW) = hp + j * 4096 + split_flags hf
  /\ aligned (hp + j * 4096) /\ 0 <= hp + j * 4096 < 2 ^ 64.
Proof.
  intros Hal Hr Hf Hj.
  assert (Hb : aligned (hp + j * 4096) /\ 0 <= hp + j * 4096 < 2 ^ 64).
  { apply Z.mod_divide in Hal as [b ->]; [|done]. unfold aligned. split; [|lia].
    replace (b * 2097152 + j * 4096) with ((b * 512 + j) * 4096) by lia. by apply Z.mod_mul. }
  destruct Hb as [Hb1 Hb2]. split_and!; [|done|lia|lia].
  assert (Hg : 0 <= Z.land hf (u64 (Z.lnot PAGE_HUGE)) < 4096).
  { rewrite Z.land_comm. apply (land_range _ _ 12); [lia| |lia]. apply u64_range. }
  rewrite (u64_small (hp + _)) by lia. rewrite map_entry by done.
  fold (split_flags hf). pose proof (split_flags_range hf Hf).
  apply u64_small. by apply entry_u64.
Qed.

Lemma huge_frame_aligned e : 0 <= e < 2 ^ 64 -> huge_frame e mod 0x200000 = 0 /\ 0 <= huge_frame e < 2 ^ 64.
Proof. intros. rewrite huge_frame_div by done. split; [by apply Z.mod_mul|]. zlia. Qed.

(** Splitting a huge page leaves every translation as it was. *)
Lemma grows_split root k own q k1 t v m1 g :
  let e := load64 (phys k) (ent t (idx 2 v)) in
  kmem_wf k -> pt_wf k root own -> memory_alloc_page k = (q, k1) -> q <> 0 ->
  own !! t = Some (2%nat, pre 2 v) ->
  has e PAGE_PRESENT = true -> has e PAGE_HUGE = true ->
  split_huge_loop 512 0 q (huge_frame e) (low12 e) k1 = (tt, set_phys m1 k1) ->
  0 <= g < 4096 -> has g PAGE_PRESENT = true -> has g PAGE_HUGE = false ->
  let k' := set_phys (store64 m1 (ent t (idx 2 v)) (q + g)) k1 in
  exists own', grows root k own k' own' /\ reaches (phys k') 2 t v q.
Proof.
  intros e Hk Hw Ha Hq Ht Hp Hh Hrun Hg Hgp Hgh. cbn [phys set_phys]. cbv zeta.
  set (i := idx 2 v) in *. pose proof (idx_range 2 v : 0 <= i < 512) as Hi.
  destruct (alloc_page_fresh _ _ _ Hk Ha Hq) as (H1 & H2 & H3 & H4 & H5 & H6 & _).
  destruct (fresh_page _ _ _ _ _ Hk Hw Ha Hq) as [Hnq Hdq].
  assert (Hqr : 0 <= q < 2 ^ 63) by (unfold PAGE_ALLOC_START, PAGE_ALLOC_END in *; lia).
  destruct (split_loop_run 512 0 q (huge_frame e) (low12 e) k1) as (m1' & Hrun' & S1 & S2 & S3).
  rewrite Hrun in Hrun'. injection Hrun' as Hm. clear Hrun.
  assert (Hset : load64 (store64 m1 (ent t i) (q + g)) (ent t i) = q + g)
    by (rewrite load64_store64_eq; apply u64_small; lia).
  assert (Hfr : frame (q + g) = q) by (by apply frame_entry).
  pose proof (huge_frame_aligned e (load64_u64 _ _)) as [Hf1 Hf2].
  pose proof (Hdq _ _ Ht) as Hqt.
  assert (He12 : 0 <= low12 e < 4096) by (rewrite low12_mod; zlia).
  assert (Hnew : forall j, 0 <= j < 512 ->
            load64 (store64 m1 (ent t i) (q + g)) (ent q j)
              = huge_frame e + j * 4096 + split_flags (low12 e)).
  { intros j Hj. rewrite load64_store64_ne by (unfold ent; lia).
    subst m1'. rewrite S1 by lia. by apply split_entry. }
  exists (<[q := (1%nat, pre 2 v * 512 + i)]> own). split.
  - eapply (grows_link root k own q k1 1 t _ i (q + g)); try done; try lia.
    + by right.
    + by rewrite has_entry.
    + intros _. by rewrite has_entry.
    + intros p lx j Hpo Hj Hd. destruct (pw_page _ _ _ Hw _ _ Hpo) as (Hpa & _).
      destruct (pw_page _ _ _ Hw _ _ Ht) as (Hta & _).
      rewrite ld_st_ne by (done || tauto || (destruct Hd; [left|right]; congruence)).
      specialize (Hdq _ _ Hpo). subst m1'. rewrite S2 by (unfold ent; lia). by eapply fresh_load.
    + intros w Hwp Hwi. cbn [resolve]. rewrite Hwi. fold e. rewrite Hp, Hh. cbn [negb Nat.eqb andb].
      pose proof (idx_range 1 w) as Hj. rewrite Hnew by done.
      destruct (split_entry _ (low12 e) (idx 1 w) Hf1 Hf2 He12 Hj) as (_ & A1 & A2).
      pose proof (split_flags_range _ He12) as Hsf.
      rewrite has_entry by (done || (cbv; done)).
      unfold split_flags at 1. rewrite has_lor, orb_true_r. cbn [negb].
      by rewrite frame_entry64.
    + intros a Ha1 Ha2. pose proof (ent_in_page t i Hi).
      rewrite load8_store64_ne by lia. subst m1'. rewrite S3 by (unfold ent; lia).
      by rewrite H6, decide_False.
  - cbn [reaches Nat.eqb]. fold i. rewrite Hset, Hfr, !has_entry by (done || (cbv; done)). done.
Qed.

(** The link that replaces a huge entry keeps its user and write bits. *)
Definition split_link (e : Z) : Z := Z.lor (Z.land e (Z.lor PAGE_USER PAGE_RW)) 1.

Lemma split_link_spec q e :
  aligned q ->
  Z.lor (Z.lor q (Z.land e (Z.lor PAGE_USER PAGE_RW))) PAGE_PRESENT = q + split_link e
  /\ 0 <= split_link e < 4096
  /\ has (split_link e) PAGE_PRESENT = true /\ has (split_link e) PAGE_HUGE = false.
Proof.
  intros Hq. change (Z.lor PAGE_USER PAGE_RW) with 6.
  assert (Hr : 0 <= Z.land e 6 < 4096).
  { change 6 with (Z.land 6 (Z.ones 3)). rewrite Z.land_assoc, Z.land_ones by lia. zlia. }
  unfold split_link. change (Z.lor PAGE_USER PAGE_RW) with 6. split_and!.
  - rewrite (lor_entry0 q (Z.land e 6)) by done. by rewrite lor_entry by (done || (cbv; done)).
  - apply lor_flags; [done|lia].
  - apply (lor_flags (Z.land e 6) 1); [done|lia].
  - rewrite has_lor. apply orb_true_r.
  - rewrite has_lor. unfold has at 1. rewrite <- Z.land_assoc.
    change (Z.land 6 PAGE_HUGE) with 0. by rewrite Z.land_0_r.
Qed.

Lemma walk_pd_spec root k own t v r k' :
  kmem_wf k -> pt_wf k root own -> own !! t = Some (2%nat, pre 2 v) ->
  walk_pd (ent t (idx 2 v)) v true k = (r, k') ->
  exists own', grows root k own k' own' /\
    match r with
    | Some a => exists t1, a = ent t1 (idx 1 v) /\ reaches (phys k') 2 t v t1
    | None => k' = k /\ page_alloc_cur k = PAGE_ALLOC_END
    end.
Proof.
  intros Hk Hw Ht. unfold walk_pd. rewrite bind_ld64.
  set (e := load64 (phys k) (ent t (idx 2 v))).
  destruct (has e PAGE_PRESENT) eqn:Hp; cbn [negb];
    [destruct (has e PAGE_HUGE) eqn:Hh|].
  2: { intros [= <- <-]. exists own. split; [by apply grows_refl|].
       exists (frame e). by cbn [reaches Nat.eqb]. }
  all: destruct (memory_alloc_page k) as [q k1] eqn:Ha;
    rewrite (bind_run _ _ _ _ _ Ha); (destruct (Z.eqb_spec q 0) as [->|Hq];
    [intros [= <- <-]; destruct (alloc_page_null _ _ Hk Ha) as [-> ?];
     exists own; split; [by apply grows_refl|done]|]);
    destruct (alloc_page_fresh _ _ _ Hk Ha Hq) as (_ & _ & H3 & _).
  - destruct (split_loop_run 512 0 q (huge_frame e) (low12 e) k1) as (m1 & Hrun & _).
    rewrite (bind_run _ _ _ _ _ Hrun), bind_st64. intros [= <- <-].
    destruct (split_link_spec q e H3) as (E & S1 & S2 & S3). rewrite E.
    destruct (grows_split root k own q k1 t v m1 (split_link e) Hk Hw Ha Hq Ht Hp Hh Hrun S1 S2 S3)
      as (own' & Hgr & Hre).
    exists own'. split; [exact Hgr|]. exists q. split; [reflexivity|exact Hre].
  - rewrite bind_st64. intros [= <- <-].
    destruct (grows_new_table root k own q k1 1 t v 3 Hk Hw Ha Hq Ht)
      as (own' & Hgr & He & H5 & H6 & H7 & H8); [lia|done|lia|done|done|].
    rewrite <- (Z.lor_0_r (Z.lor _ PAGE_RW)), link_entry by (done || by left). change (3 + 0) with 3.
    exists own'. split; [done|]. exists q. split; [done|].
    cbn [reaches Nat.eqb]. cbv zeta in *. rewrite H5, H6, H7. done.
Qed.

(** The whole walk, allocating. *)
Lemma walk_spec root k own v r k' :
  kmem_wf k -> pt_wf k root own -> paging_walk_4kb root v true k = (r, k') ->
  exists own', grows root k own k' own' /\
    match r with
    | Some a => exists t1, a = ent t1 (idx 1 v) /\ reaches (phys k') 4 root v t1
    | None => page_alloc_cur k' = PAGE_ALLOC_END
    end.
Proof.
  intros Hk Hw. unfold paging_walk_4kb.
  change (pml4_i v) with (idx 4 v). change (pdpt_i v) with (idx 3 v). change (pd_i v) with (idx 2 v).
  assert (Hroot : own !! root = Some (4%nat, pre 4 v)) by (rewrite pre_4; apply Hw).
  destruct (ensure_table (ent root (idx 4 v)) true 0 k) as [ok4 k1] eqn:E4. rewrite (bind_run _ _ _ _ _ E4).
  destruct (ensure_table_spec root k own root 3 v 0 ok4 k1) as (own1 & G1 & H4);
    [done|done|done|lia|by left|done|].
  destruct ok4; cbn [negb]; [|destruct H4 as [-> H4]; intros [= <- <-]; by exists own1].
  cbv zeta in H4. destruct H4 as [P4 O4]. rewrite bind_ld64.
  set (e4 := load64 (phys k1) (ent root (idx 4 v))) in *. cbv zeta.
  destruct (ensure_table (ent (frame e4) (idx 3 v)) true 0 k1) as [ok3 k2] eqn:E3. rewrite (bind_run _ _ _ _ _ E3).
  destruct (ensure_table_spec root k1 own1 (frame e4) 2 v 0 ok3 k2) as (own2 & G2 & H3);
    [apply G1|apply G1|done|lia|by left|done|].
  destruct ok3; cbn [negb].
  2: { destruct H3 as [-> H3]; intros [= <- <-]; exists own2. split; [by eapply grows_trans|done]. }
  cbv zeta in H3. destruct H3 as [P3 O3]. rewrite bind_ld64.
  set (e3 := load64 (phys k2) (ent (frame e4) (idx 3 v))) in *.
  intros Hrun. destruct (walk_pd_spec root k2 own2 (frame e3) v r k') as (own3 & G3 & H2);
    [apply G2|apply G2|done|done|].
  assert (G : grows root k1 own1 k' own3) by (by eapply grows_trans).
  exists own3. split; [by eapply grows_trans|].
  destruct r as [a|]; [|by destruct H2 as [-> ?]].
  destruct H2 as (t1 & -> & Hre). exists t1. split; [done|].
  assert (Hroot1 : own1 !! root = Some (4%nat, 0)) by (apply G1).
  assert (K4 : load64 (phys k') (ent root (idx 4 v)) = e4)
    by (apply (gr_keep _ _ _ _ _ G root 4 0 (idx 4 v)); (done || lia || apply idx_range)).
  assert (K3 : load64 (phys k') (ent (frame e4) (idx 3 v)) = e3).
  { apply (gr_keep _ _ _ _ _ G3 (frame e4) 3 (pre 3 v) (idx 3 v)); try (done || lia || apply idx_range).
    eapply lookup_weaken; [exact O4|apply G2]. }
  split; [|split]; [by rewrite K4|done|]. rewrite K4.
  split; [|split]; [by rewrite K3|done|]. by rewrite K3.
Qed.

(** The walk without allocation only looks. *)
Lemma walk_lookup root k v :
  exists r, paging_walk_4kb root v false k = (r, k) /\
    match r with
    | Some a => exists t1, a = ent t1 (idx 1 v) /\ reaches (phys k) 4 root v t1
    | None => forall t1, ~ reaches (phys k) 4 root v t1
    end.
Proof.
  unfold paging_walk_4kb, ensure_table, walk_pd.
  change (pml4_i v) with (idx 4 v). change (pdpt_i v) with (idx 3 v). change (pd_i v) with (idx 2 v).
  cbn [reaches Nat.eqb]. unfold bind, ld64, gets, ret. cbn [negb].
  destruct (has (load64 (phys k) (ent root (idx 4 v))) PAGE_PRESENT); cbn [negb];
    [|exists None; split; [done|by intros t1 (? & _)]].
  set (t3 := frame (load64 (phys k) (ent root (idx 4 v)))).
  destruct (has (load64 (phys k) (ent t3 (idx 3 v))) PAGE_PRESENT); cbn [negb];
    [|exists None; split; [done|by intros t1 (_ & _ & ? & _)]].
  set (t2 := frame (load64 (phys k) (ent t3 (idx 3 v)))).
  destruct (has (load64 (phys k) (ent t2 (idx 2 v))) PAGE_PRESENT); cbn [negb];
    [|exists None; split; [done|by intros t1 (_ & _ & _ & _ & ? & _)]].
  destruct (has (load64 (phys k) (ent t2 (idx 2 v))) PAGE_HUGE); cbn [negb].
  - exists None; split; [done|]. intros t1 (_ & _ & _ & _ & _ & H & _). by specialize (H eq_refl).
  - eexists (Some _). split; [done|]. by eexists.
Qed.

(** ** Writing a page-table entry *)

Lemma reaches_store k root own L t v t1 t' i e :
  pt_wf k root own -> own !! t = Some (L, pre L v) -> own !! t' = Some (1%nat, pre 1 v) ->
  0 <= i < 512 -> reaches (phys k) L t v t1 ->
  reaches (store64 (phys k) (ent t' i) e) L t v t1.
Proof.
  intros Hw Ht Ht' Hi. revert t Ht. induction L as [|L IH]; intros t Ht Hr; [done|].
  cbn [reaches] in *. destruct (Nat.eqb_spec (S L) 1) as [|HL]; [done|].
  pose proof (pw_level _ _ _ Hw _ _ _ Ht).
  destruct (pw_page _ _ _ Hw _ _ Ht) as (Ha & _). destruct (pw_page _ _ _ Hw _ _ Ht') as (Ha' & _).
  assert (t' <> t) by (intros ->; rewrite Ht in Ht'; injection Ht' as ? _; lia).
  rewrite ld_st_ne by (apply idx_range || tauto || done).
  destruct Hr as (H1 & H2 & H3). split_and!; [done|done|]. apply IH; [|done].
  rewrite (pre_step L v) by lia.
  apply (pw_tree _ _ _ Hw t L _ (idx (S L) v) Ht); [lia|apply idx_range|done|].
  intros [-> Hh]. by rewrite H2 in Hh.
Qed.

Definition leaf (e : Z) : option Z := if has e PAGE_PRESENT then Some (frame e) else None.

Lemma pte_store root k own v t1 e :
  kmem_wf k -> pt_wf k root own -> reaches (phys k) 4 root v t1 -> 0 <= e < 2 ^ 64 ->
  let k' := set_phys (store64 (phys k) (ent t1 (idx 1 v)) e) k in
  kmem_wf k' /\ pt_wf k' root own /\ reaches (phys k') 4 root v t1
  /\ load64 (phys k') (ent t1 (idx 1 v)) = e
  /\ (forall w, phys_of k' root w =
        if decide (page_no w = page_no v) then leaf e else phys_of k root w)
  /\ (forall a, (forall p lx, own !! p = Some lx -> ~ p <= a < p + 4096) ->
        load8 (phys k') a = load8 (phys k) a).
Proof.
  intros Hk Hw Hr He. cbn [phys set_phys]. cbv zeta.
  assert (Hroot : own !! root = Some (4%nat, pre 4 v)) by (rewrite pre_4; apply Hw).
  pose proof (reaches_own _ _ _ _ _ _ _ Hw Hroot Hr) as Ht1.
  destruct (pw_page _ _ _ Hw _ _ Ht1) as (Ha1 & _). pose proof (idx_range 1 v) as Hi.
  assert (Hr' : reaches (store64 (phys k) (ent t1 (idx 1 v)) e) 4 root v t1)
    by (by eapply reaches_store).
  assert (Hld : load64 (store64 (phys k) (ent t1 (idx 1 v)) e) (ent t1 (idx 1 v)) = e)
    by (rewrite load64_store64_eq; by apply u64_small).
  split_and!; try done.
  - destruct Hk. constructor; assumption.
  - split; [apply Hw|apply Hw|apply Hw|].
    intros p L x i Hp HL Hi'. cbn [phys set_phys]. destruct (pw_page _ _ _ Hw _ _ Hp) as (Ha & _).
    assert (t1 <> p) by (intros <-; rewrite Ht1 in Hp; injection Hp as ? _; lia).
    rewrite ld_st_ne by (done || tauto). by apply (pw_tree _ _ _ Hw p L x i).
  - intros w. unfold phys_of. cbn [phys set_phys]. case_decide as Hpg.
    + destruct (same_page_path _ _ Hpg) as [Hp1 Hi1].
      rewrite (reaches_resolve _ 4 _ _ _ w ltac:(lia) Hr' Hp1). cbn [resolve].
      rewrite Hi1, Hld. unfold leaf. by destruct (has e PAGE_PRESENT).
    + apply (resolve_agree k root own _ w Hw); [|rewrite pre_4; apply Hw].
      intros L t Ht. left. destruct (pw_page _ _ _ Hw _ _ Ht) as (Ha & _).
      apply ld_st_ne; try (done || apply idx_range).
      destruct (decide (t1 = t)) as [<-|]; [right|by left]. intros Hii.
      rewrite Ht1 in Ht. injection Ht as <- Hpre. apply Hpg. rewrite !page_no_pre. congruence.
  - intros a Ho. pose proof (ent_in_page t1 _ Hi). apply load8_store64_ne.
    specialize (Ho _ _ Ht1). lia.
Qed.

Lemma find_pd_reaches root k v t1 :
  reaches (phys k) 4 root v t1 ->
  exists pd, find_pd root v k = (Some pd, k) /\ reaches (phys k) 2 pd v t1.
Proof.
  intros (P4 & _ & P3 & _ & H). unfold find_pd.
  change (pml4_i v) with (idx 4 v). change (pdpt_i v) with (idx 3 v).
  rewrite bind_ld64, P4. cbn [negb]. rewrite bind_ld64, P3. cbn [negb]. by eexists.
Qed.

Lemma get_flags_reaches root k v t1 :
  reaches (phys k) 4 root v t1 ->
  paging_get_flags root v k = (low12 (load64 (phys k) (ent t1 (idx 1 v))), k).
Proof.
  intros Hr. destruct (find_pd_reaches _ _ _ _ Hr) as (pd & Hf & P2 & Hh & Ht).
  unfold paging_get_flags. rewrite (bind_run _ _ _ _ _ Hf), bind_ld64.
  change (pd_i v) with (idx 2 v). rewrite P2, Hh by done. cbn [negb].
  rewrite bind_ld64. cbn [reaches Nat.eqb] in Ht. by rewrite Ht.
Qed.

(** ** Changes outside the tables *)

Definition tables_same (m m' : mem) (own : gmap Z (nat * Z)) : Prop :=
  forall p lx i, own !! p = Some lx -> 0 <= i < 512 -> load64 m' (ent p i) = load64 m (ent p i).

Lemma tables_same_bytes m m' own :
  (forall p lx a, own !! p = Some lx -> p <= a < p + 4096 -> load8 m' a = load8 m a) ->
  tables_same m m' own.
Proof.
  intros H p lx i Hp Hi. apply load64_ext. intros a Ha. eapply H; [exact Hp|].
  pose proof (ent_in_page p i Hi). lia.
Qed.

Lemma phys_of_same k k' root own w :
  pt_wf k root own -> tables_same (phys k) (phys k') own -> phys_of k' root w = phys_of k root w.
Proof.
  intros Hw Hs. apply (resolve_agree k root own _ w Hw); [|rewrite pre_4; apply Hw].
  intros L t Ht. left. eapply Hs; [exact Ht|apply idx_range].
Qed.

Lemma pt_wf_same k k' root own :
  pt_wf k root own -> tables_same (phys k) (phys k') own ->
  page_alloc_cur k <= page_alloc_cur k' -> pt_wf k' root own.
Proof.
  intros Hw Hs Hc. split; [apply Hw| |apply Hw|].
  - intros p lx Hp. destruct (pw_page _ _ _ Hw _ _ Hp) as (A & B & C). unfold pool_free in *.
    split_and!; [exact A|lia|lia|lia].
  - intros p L x i Hp HL Hi. cbv zeta. rewrite (Hs p _ i Hp Hi). by apply (pw_tree _ _ _ Hw p L x i).
Qed.

Lemma reaches_same k m' root own L t v t1 :
  pt_wf k root own -> tables_same (phys k) m' own -> own !! t = Some (L, pre L v) ->
  reaches (phys k) L t v t1 -> reaches m' L t v t1.
Proof.
  intros Hw Hs. revert t. induction L as [|L IH]; intros t Ht; [done|].
  cbn [reaches]. destruct (Nat.eqb_spec (S L) 1) as [|HL]; [done|].
  pose proof (pw_level _ _ _ Hw _ _ _ Ht).
  rewrite (Hs t _ _ Ht (idx_range (S L) v)). intros (H1 & H2 & H3).
  split_and!; [exact H1|exact H2|]. apply IH; [|exact H3].
  rewrite (pre_step L v) by lia.
  apply (pw_tree _ _ _ Hw t L _ (idx (S L) v) Ht); [lia|apply idx_range|exact H1|].
  intros [-> Hh]. by rewrite H2 in Hh.
Qed.

Lemma reaches_det m L t v a b : reaches m L t v a -> reaches m L t v b -> a = b.
Proof.
  revert t. induction L as [|L IH]; intros t; cbn [reaches]; [done|].
  destruct (Nat.eqb (S L) 1); [congruence|]. intros (_ & _ & H1) (_ & _ & H2). by eapply IH.
Qed.

(** Taking a page from the pool leaves the tables alone. *)
Lemma alloc_same root k own q k1 :
  kmem_wf k -> pt_wf k root own -> memory_alloc_page k = (q, k1) -> q <> 0 ->
  tables_same (phys k) (phys k1) own /\ pt_wf k1 root own.
Proof.
  intros Hk Hw Ha Hq.
  assert (Hs : tables_same (phys k) (phys k1) own).
  { intros p lx i Hp Hi. by eapply fresh_load. }
  split; [exact Hs|]. eapply pt_wf_same; [exact Hw|exact Hs|].
  destruct (alloc_page_fresh _ _ _ Hk Ha Hq) as (H1 & H2 & _). lia.
Qed.

(** ** Operations *)

Lemma map_4kb_run root k own virt pa flags r k' :
  kmem_wf k -> pt_wf k root own -> aligned pa -> 0 <= pa < 2 ^ 52 -> 0 <= flags < 4096 ->
  paging_map_4kb root virt pa flags k = (r, k') ->
  exists own', kmem_wf k' /\ pt_wf k' root own' /\ own ⊆ own' /\
    (forall p lx, own' !! p = Some lx -> own !! p = None ->
       page_alloc_cur k <= p /\ p + 4096 <= PAGE_ALLOC_END) /\
    (r = 0 /\ (forall w, phys_of k' root w =
                 if decide (page_no w = page_no virt) then Some pa else phys_of k root w)
           /\ (exists t1, reaches (phys k') 4 root virt t1
                 /\ load64 (phys k') (ent t1 (idx 1 virt)) = pa + Z.lor flags 3)
     \/ r = -1 /\ page_alloc_cur k' = PAGE_ALLOC_END
           /\ forall w, phys_of k' root w = phys_of k root w)
    /\ page_refcounts k' = page_refcounts k
    /\ (forall a, ~ page_alloc_cur k <= a < PAGE_ALLOC_END ->
          (forall p lx, own !! p = Some lx -> ~ p <= a < p + 4096) ->
          load8 (phys k') a = load8 (phys k) a).
Proof.
  intros Hk Hw Hal Hpa Hfl. unfold paging_map_4kb.
  destruct (paging_walk_4kb root virt true k) as [pte k1] eqn:Ew.
  rewrite (bind_run _ _ _ _ _ Ew).
  destruct (walk_spec _ _ _ _ _ _ Hk Hw Ew) as (own' & G & Hr).
  destruct pte as [a|].
  2: { intros [= <- <-]. exists own'. split_and!; try apply G.
       right. split_and!; [done|done|apply G]. }
  destruct Hr as (t1 & -> & Hre). rewrite bind_st64. intros [= <- <-].
  rewrite map_entry by done.
  assert (Hf : 0 <= Z.lor flags 3 < 4096) by (apply lor_flags; lia).
  destruct (pte_store root k1 own' virt t1 (pa + Z.lor flags 3)) as (K1 & K2 & K3 & K4 & K5 & K6);
    [apply G|apply G|done|lia|]. cbn [phys set_phys page_refcounts] in *.
  assert (Hleaf : leaf (pa + Z.lor flags 3) = Some pa).
  { unfold leaf. rewrite has_entry, has_lor, orb_true_r by (done || (cbv; done)).
    by rewrite frame_entry by (done || lia). }
  exists own'. split_and!; try (exact K1 || exact K2 || apply G).
  - left. split_and!; [done| |by exists t1].
    intros w. rewrite K5, Hleaf. by rewrite (gr_phys _ _ _ _ _ G).
  - intros a Hpool Ho. rewrite K6; [by apply G|]. intros p lx Hp.
    destruct (own !! p) as [lx0|] eqn:E0; [by eapply Ho|].
    destruct (gr_new _ _ _ _ _ G _ _ Hp E0). lia.
Qed.

Lemma unmap_4kb_run root k own virt :
  kmem_wf k -> pt_wf k root own ->
  let k' := (paging_unmap_4kb root virt k).2 in
  kmem_wf k' /\ pt_wf k' root own
  /\ (forall w, page_no w <> page_no virt -> phys_of k' root w = phys_of k root w)
  /\ (forall t1, reaches (phys k) 4 root virt t1 ->
        reaches (phys k') 4 root virt t1 /\ load64 (phys k') (ent t1 (idx 1 virt)) = 0
        /\ phys_of k' root virt = None)
  /\ ((forall t1, ~ reaches (phys k) 4 root virt t1) -> k' = k)
  /\ (forall a, (forall p lx, own !! p = Some lx -> ~ p <= a < p + 4096) ->
        load8 (phys k') a = load8 (phys k) a).
Proof.
  intros Hk Hw. unfold paging_unmap_4kb.
  destruct (walk_lookup root k virt) as (r & Ew & Hr). rewrite (bind_run _ _ _ _ _ Ew).
  destruct r as [a|].
  - destruct Hr as (t1 & -> & Hr). unfold st64, modify. cbn [snd].
    destruct (pte_store root k own virt t1 0 Hk Hw Hr) as (K1 & K2 & K3 & K4 & K5 & K6); [lia|].
    split_and!; try done.
    + intros w Hpg. by rewrite K5, decide_False.
    + intros t1' Hr'.
      assert (t1' = t1) as -> by (by eapply reaches_det).
      split_and!; [done|done|]. by rewrite K5, decide_True.
    + intros Hn. by destruct (Hn t1).
  - cbn [snd ret]. split_and!; try done. intros t1 Ht. by destruct (Hr t1).
Qed.

(** ** Two-megabyte entries *)

Definition at_pd (m : mem) (root v pd : Z) : Prop :=
  let e4 := load64 m (ent root (idx 4 v)) in
  let e3 := load64 m (ent (frame e4) (idx 3 v)) in
  has e4 PAGE_PRESENT = true /\ has e3 PAGE_PRESENT = true /\ pd = frame e3.

Definition leaf2 (e w : Z) : option Z :=
  if has e PAGE_PRESENT then Some (huge_frame e + idx 1 w * 4096) else None.

Lemma at_pd_own k root own v pd :
  pt_wf k root own -> at_pd (phys k) root v pd ->
  own !! pd = Some (2%nat, pre 2 v)
  /\ own !! frame (load64 (phys k) (ent root (idx 4 v))) = Some (3%nat, pre 3 v).
Proof.
  intros Hw (P4 & P3 & ->).
  assert (H3 : own !! frame (load64 (phys k) (ent root (idx 4 v))) = Some (3%nat, pre 3 v)).
  { rewrite (pre_step 3 v), pre_4 by lia.
    apply (pw_tree _ _ _ Hw root 3 0 _ (pw_root _ _ _ Hw)); [lia|apply idx_range|done|].
    intros [? _]; lia. }
  split; [|done]. rewrite (pre_step 2 v) by lia.
  apply (pw_tree _ _ _ Hw _ 2 _ _ H3); [lia|apply idx_range|done|]. intros [? _]; lia.
Qed.

Lemma at_pd_resolve m root v pd w :
  at_pd m root v pd -> pre 2 w = pre 2 v -> resolve m 4 root w = resolve m 2 pd w.
Proof.
  intros (P4 & P3 & ->) H2. destruct (pre_inj 2 w v ltac:(lia) H2) as [H3 I3].
  destruct (pre_inj 3 w v ltac:(lia) H3) as [_ I4].
  change (resolve m 4 root w) with
    (let e := load64 m (ent root (idx 4 w)) in
     if negb (has e PAGE_PRESENT) then None else
     let e' := load64 m (ent (frame e) (idx 3 w)) in
     if negb (has e' PAGE_PRESENT) then None else resolve m 2 (frame e') w).
  cbv zeta. rewrite I3, I4, P4. cbn [negb]. by rewrite P3.
Qed.

Lemma pde_store root k own v pd e :
  kmem_wf k -> pt_wf k root own -> at_pd (phys k) root v pd -> 0 <= e < 2 ^ 64 ->
  has e PAGE_PRESENT = false \/ has e PAGE_HUGE = true ->
  let k' := set_phys (store64 (phys k) (ent pd (idx 2 v)) e) k in
  kmem_wf k' /\ pt_wf k' root own
  /\ (forall w, phys_of k' root w =
        if decide (pre 1 w = pre 1 v) then leaf2 e w else phys_of k root w)
  /\ (forall a, (forall p lx, own !! p = Some lx -> ~ p <= a < p + 4096) ->
        load8 (phys k') a = load8 (phys k) a).
Proof.
  intros Hk Hw Hpd He Hleaf. destruct (at_pd_own _ _ _ _ _ Hw Hpd) as [Ho2 Ho3].
  pose proof (idx_range 2 v) as Hi. pose proof (pw_root _ _ _ Hw) as Hroot.
  assert (Hld : load64 (store64 (phys k) (ent pd (idx 2 v)) e) (ent pd (idx 2 v)) = e)
    by (rewrite load64_store64_eq; by apply u64_small).
  assert (Hne : forall p lx j, own !! p = Some lx -> 0 <= j < 512 -> pd <> p \/ idx 2 v <> j ->
            load64 (store64 (phys k) (ent pd (idx 2 v)) e) (ent p j) = load64 (phys k) (ent p j)).
  { intros p lx j Hp Hj Hd. apply ld_st_ne; try done; by eapply (pw_page _ _ _ Hw). }
  cbn [phys set_phys]. cbv zeta. split_and!.
  - destruct Hk. constructor; assumption.
  - split; [apply Hw|apply Hw|apply Hw|].
    intros p L x i Hp HL Hi'. cbn [phys set_phys]. cbv zeta.
    destruct (decide (pd = p /\ idx 2 v = i)) as [[<- <-]|Hd].
    + rewrite Hld. rewrite Ho2 in Hp. injection Hp as <- <-. intros Hp' Hn.
      exfalso. destruct Hleaf as [E|E]; [congruence|]. apply Hn. by split.
    + rewrite (Hne p _ i Hp Hi') by (destruct (decide (pd = p)); tauto).
      by apply (pw_tree _ _ _ Hw p L x i).
  - assert (Hpd' : at_pd (store64 (phys k) (ent pd (idx 2 v)) e) root v pd).
    { destruct Hpd as (P4 & P3 & E). unfold at_pd.
      rewrite (Hne root _ _ Hroot (idx_range 4 v))
        by (left; intros <-; rewrite Ho2 in Hroot; discriminate).
      rewrite (Hne _ _ _ Ho3 (idx_range 3 v))
        by (left; intros E'; rewrite <- E', Ho2 in Ho3; discriminate).
      done. }
    intros w. unfold phys_of. cbn [phys set_phys]. case_decide as Hpg.
    + destruct (pre_inj 1 w v ltac:(lia) Hpg) as [H2 I2].
      rewrite (at_pd_resolve _ _ _ _ _ Hpd' H2). cbn [resolve Nat.eqb andb].
      rewrite I2, Hld. unfold leaf2. destruct (has e PAGE_PRESENT) eqn:Ep; cbn [negb]; [|done].
      destruct Hleaf as [E|E]; [congruence|]. by rewrite E.
    + apply (resolve_agree k root own _ w Hw); [|by rewrite pre_4].
      intros L t Ht. left. apply (Hne _ _ _ Ht (idx_range L w)).
      destruct (decide (pd = t)) as [<-|]; [right|by left]. intros Hii.
      rewrite Ho2 in Ht. injection Ht as <- Hpre. apply Hpg. rewrite !(pre_step 1) by lia. congruence.
  - intros a Ho. pose proof (ent_in_page pd _ Hi). apply load8_store64_ne.
    specialize (Ho _ _ Ho2). lia.
Qed.

Lemma find_pd_run root k v :
  exists r, find_pd root v k = (r, k) /\
    match r with
    | Some pd => at_pd (phys k) root v pd
    | None => phys_of k root v = None /\ forall pd, ~ at_pd (phys k) root v pd
    end.
Proof.
  unfold find_pd, phys_of, at_pd.
  change (pml4_i v) with (idx 4 v). change (pdpt_i v) with (idx 3 v). cbv zeta.
  rewrite bind_ld64. destruct (has _ PAGE_PRESENT) eqn:P4; cbn [negb].
  2: { exists None. split; [done|]. split; [by apply resolve_absent|]. by intros pd (? & _). }
  rewrite bind_ld64. destruct (has (load64 (phys k) (ent (frame _) _)) PAGE_PRESENT) eqn:P3; cbn [negb].
  - eexists (Some _). split; [done|]. done.
  - exists None. split; [done|]. split; [|by intros pd (_ & ? & _)].
    cbn [resolve]. rewrite P4. cbn [negb Nat.eqb andb]. by rewrite P3.
Qed.

Lemma map_2mb_entry pa user :
  pa mod 0x200000 = 0 -> 0 <= pa < 2 ^ 52 -> user = 0 \/ user = PAGE_USER ->
  let e := Z.lor (Z.lor (Z.lor (Z.lor pa PAGE_PRESENT) PAGE_RW) PAGE_HUGE) user in
  e = pa + (0x83 + user) /\ 0 <= e < 2 ^ 64 /\ has e PAGE_PRESENT = true
  /\ has e PAGE_HUGE = true /\ huge_frame e = pa.
Proof.
  intros Hal Hpa Hu e.
  assert (Ha : aligned pa) by (apply Z.mod_divide in Hal as [b ->]; [|done];
    unfold aligned; replace (b * 2097152) with (b * 512 * 4096) by lia; by apply Z.mod_mul).
  assert (Hu' : 0 <= user < 4096) by (unfold PAGE_USER in Hu; lia).
  assert (He : e = pa + (0x83 + user)).
  { unfold e. rewrite map_entry_huge by done. destruct Hu as [-> | ->]; reflexivity. }
  rewrite He. clearbody e. assert (Hr : 0 <= 0x83 + user < 4096) by (unfold PAGE_USER in Hu; lia).
  split_and!; try done; try lia.
  - rewrite has_entry by (done || (cbv; done)). by destruct Hu as [-> | ->].
  - rewrite has_entry by (done || (cbv; done)). by destruct Hu as [-> | ->].
  - rewrite huge_frame_div by lia. apply Z.mod_divide in Hal as [b ->]; [|done].
    replace ((b * 2097152 + (131 + user)) / 2097152) with b; [done|]. zlia.
Qed.

Lemma land_user flags : Z.land flags PAGE_USER = 0 \/ Z.land flags PAGE_USER = PAGE_USER.
Proof.
  change PAGE_USER with (2 ^ 2). destruct (Z.testbit flags 2) eqn:E; [right|left];
    apply Z.bits_inj'; intros n Hn; rewrite Z.land_spec, Z.pow2_bits_eqb by lia;
    rewrite ?Z.bits_0; destruct (Z.eqb_spec 2 n) as [<-|]; rewrite ?E, ?andb_false_r; done.
Qed.

(** Reading the flags, before and after a change outside the tables. *)
Lemma get_flags_run root k v : paging_get_flags root v k = ((paging_get_flags root v k).1, k).
Proof.
  unfold paging_get_flags. destruct (find_pd_run root k v) as (r & E & _). rewrite (bind_run _ _ _ _ _ E).
  destruct r as [pd|]; [|done]. rewrite bind_ld64. destruct (negb _); [done|]. destruct (has _ PAGE_HUGE); [done|].
  by rewrite bind_ld64.
Qed.

Lemma get_flags_same k k' root own v :
  pt_wf k root own -> tables_same (phys k) (phys k') own ->
  (paging_get_flags root v k').1 = (paging_get_flags root v k).1.
Proof.
  intros Hw Hs. unfold paging_get_flags, find_pd. change (pml4_i v) with (idx 4 v). change (pdpt_i v) with (idx 3 v).
  change (pd_i v) with (idx 2 v). change (pt_i v) with (idx 1 v).
  set (e4 := load64 (phys k) (ent root (idx 4 v))).
  assert (E4 : load64 (phys k') (ent root (idx 4 v)) = e4) by (eapply Hs; [apply Hw|apply idx_range]).
  unfold bind, ld64, gets. rewrite E4. fold e4. destruct (has e4 PAGE_PRESENT) eqn:P4; cbn [negb]; [|done].
  set (e3 := load64 (phys k) (ent (frame e4) (idx 3 v))).
  assert (O3 : own !! frame e4 = Some (3%nat, pre 3 v)).
  { rewrite (pre_step 3 v), pre_4 by lia. apply (pw_tree _ _ _ Hw root 3 0 _ (pw_root _ _ _ Hw)); [lia|apply idx_range|done|].
    by intros [? _]. }
  assert (E3 : load64 (phys k') (ent (frame e4) (idx 3 v)) = e3) by (eapply Hs; [exact O3|apply idx_range]).
  rewrite E3. destruct (has e3 PAGE_PRESENT) eqn:P3; cbn [negb]; [|done].
  assert (Hpd : at_pd (phys k) root v (frame e3)) by done.
  destruct (at_pd_own _ _ _ _ _ Hw Hpd) as [O2 _]. unfold ret.
  set (e2 := load64 (phys k) (ent (frame e3) (idx 2 v))).
  assert (E2 : load64 (phys k') (ent (frame e3) (idx 2 v)) = e2) by (eapply Hs; [exact O2|apply idx_range]).
  rewrite E2. destruct (has e2 PAGE_PRESENT) eqn:P2; cbn [negb]; [|done].
  destruct (has e2 PAGE_HUGE) eqn:H2; [done|]. cbn [fst]. f_equal.
  apply (Hs _ (1%nat, pre 1 v)); [|apply idx_range].
  rewrite (pre_step 1 v) by lia. apply (pw_tree _ _ _ Hw (frame e3) 1 _ (idx 2 v) O2); [lia|apply idx_range|exact P2|].
  intros [_ Hh]. fold e2 in Hh. congruence.
Qed.

(** Only pages of tables change, and new ones come from the pool. *)
Record only_tables (k : kmem) (own : gmap Z (nat * Z)) (k' : kmem) (own' : gmap Z (nat * Z)) : Prop := {
  ot_new p lx : own' !! p = Some lx -> own !! p = None -> page_alloc_cur k <= p /\ p + 4096 <= PAGE_ALLOC_END;
  ot_cur : page_alloc_cur k <= page_alloc_cur k';
  ot_frame a :
    ~ page_alloc_cur k <= a < PAGE_ALLOC_END ->
    (forall p lx, own !! p = Some lx -> ~ p <= a < p + 4096) ->
    load8 (phys k') a = load8 (phys k) a
}.

Lemma grows_only_tables root k own k' own' : grows root k own k' own' -> only_tables k own k' own'.
Proof. intros G. split; apply G. Qed.

Lemma map_2mb_run root k own virt pa flags r k' :
  kmem_wf k -> pt_wf k root own -> pa mod 0x200000 = 0 -> 0 <= pa < 2 ^ 52 ->
  paging_map_2mb root virt pa flags k = (r, k') ->
  exists own', kmem_wf k' /\ pt_wf k' root own' /\ own ⊆ own' /\ only_tables k own k' own' /\
    (r = 0 /\ (forall w, phys_of k' root w =
                 if decide (pre 1 w = pre 1 virt) then Some (pa + idx 1 w * 4096)
                 else phys_of k root w)
     \/ r = -1 /\ page_alloc_cur k' = PAGE_ALLOC_END
           /\ forall w, phys_of k' root w = phys_of k root w).
Proof.
  intros Hk Hw Hal Hpa. unfold paging_map_2mb. cbv zeta.
  pose proof (land_user flags) as Hu. set (user := Z.land flags PAGE_USER) in *.
  change (pml4_i virt) with (idx 4 virt). change (pdpt_i virt) with (idx 3 virt).
  change (pd_i virt) with (idx 2 virt).
  assert (Hroot : own !! root = Some (4%nat, pre 4 virt)) by (rewrite pre_4; apply Hw).
  destruct (ensure_table (ent root (idx 4 virt)) true user k) as [ok4 k1] eqn:E4.
  rewrite (bind_run _ _ _ _ _ E4).
  destruct (ensure_table_spec root k own root 3 virt user ok4 k1) as (own1 & G1 & H4);
    [done|done|done|lia|done|done|].
  destruct ok4; cbn [negb].
  2: { destruct H4 as [-> H4]; intros [= <- <-]; exists own1.
       split_and!; try apply G1; [by eapply grows_only_tables|by right]. }
  cbv zeta in H4. destruct H4 as [P4 O4]. rewrite bind_ld64.
  set (e4 := load64 (phys k1) (ent root (idx 4 virt))) in *.
  destruct (ensure_table (ent (frame e4) (idx 3 virt)) true user k1) as [ok3 k2] eqn:E3.
  rewrite (bind_run _ _ _ _ _ E3).
  destruct (ensure_table_spec root k1 own1 (frame e4) 2 virt user ok3 k2) as (own2 & G2 & H3);
    [apply G1|apply G1|done|lia|done|done|].
  assert (G : grows root k own k2 own2) by (by eapply grows_trans).
  destruct ok3; cbn [negb].
  2: { destruct H3 as [-> H3]; intros [= <- <-]; exists own2. split_and!; try apply G; [by eapply grows_only_tables|].
       right. split_and!; [done|done|apply G]. }
  cbv zeta in H3. destruct H3 as [P3 O3]. rewrite bind_ld64.
  assert (K4 : load64 (phys k2) (ent root (idx 4 virt)) = e4)
    by (apply (gr_keep _ _ _ _ _ G2 root 4 0 (idx 4 virt)); (done || lia || apply idx_range || apply G1)).
  rewrite bind_st64. intros [= <- <-].
  destruct (map_2mb_entry pa user Hal Hpa Hu) as (_ & Hr & Hp & Hh & Hf). cbv zeta in *.
  set (e := Z.lor _ user) in *.
  destruct (pde_store root k2 own2 virt (frame (load64 (phys k2) (ent (frame e4) (idx 3 virt)))) e)
    as (A1 & A2 & A3 & A4); [apply G|apply G| |done|by right|].
  { unfold at_pd. rewrite K4. done. }
  exists own2. split_and!; [exact A1|exact A2|apply G| |].
  { split; [apply G|apply G|]. intros a Ha Ho. rewrite A4; [by apply G|]. intros q lx Hq.
    destruct (own !! q) as [lx'|] eqn:Eo; [by eapply Ho|]. pose proof (gr_new _ _ _ _ _ G q lx Hq Eo). lia. }
  left. split; [done|]. intros w. rewrite A3. unfold leaf2. rewrite Hp, Hf.
  case_decide; [done|]. apply G.
Qed.

Lemma unmap_2mb_run root k own virt :
  kmem_wf k -> pt_wf k root own ->
  let k' := (paging_unmap_2mb root virt k).2 in
  kmem_wf k' /\ pt_wf k' root own
  /\ (forall w, phys_of k' root w = if decide (pre 1 w = pre 1 virt) then None else phys_of k root w)
  /\ (forall a, (forall p lx, own !! p = Some lx -> ~ p <= a < p + 4096) ->
        load8 (phys k') a = load8 (phys k) a).
Proof.
  intros Hk Hw. unfold paging_unmap_2mb.
  destruct (find_pd_run root k virt) as (r & Ef & Hr). rewrite (bind_run _ _ _ _ _ Ef).
  destruct r as [pd|].
  - change (pd_i virt) with (idx 2 virt). unfold st64, modify. cbn [snd].
    destruct (pde_store root k own virt pd 0 Hk Hw Hr) as (A1 & A2 & A3 & A4);
      [lia|by left|]. split_and!; [exact A1|exact A2| |exact A4].
    intros w. rewrite A3. unfold leaf2. by rewrite has_zero.
  - cbn [snd ret]. split_and!; try done. intros w. case_decide as Hpg; [|done].
    destruct Hr as [_ Hno]. unfold phys_of.
    destruct (pre_inj 1 w virt ltac:(lia) Hpg) as [H2 I2].
    destruct (pre_inj 2 w virt ltac:(lia) H2) as [H3 I3].
    destruct (pre_inj 3 w virt ltac:(lia) H3) as [_ I4].
    destruct (has (load64 (phys k) (ent root (idx 4 virt))) PAGE_PRESENT) eqn:P4;
      [|apply resolve_absent; by rewrite I4].
    destruct (has (load64 (phys k)
      (ent (frame (load64 (phys k) (ent root (idx 4 virt)))) (idx 3 virt))) PAGE_PRESENT) eqn:P3;
      [by destruct (Hno _ (conj P4 (conj P3 eq_refl)))|].
    change (resolve (phys k) 4 root w) with
      (let e := load64 (phys k) (ent root (idx 4 w)) in
       if negb (has e PAGE_PRESENT) then None else resolve (phys k) 3 (frame e) w).
    cbv zeta. rewrite I4, P4. cbn [negb]. apply resolve_absent. by rewrite I3.
Qed.

(** ** A concrete tree: the boot tables

    The tables [stage2.asm] builds at 0x1000: four 2-megabyte pages, the
    third of them for user code. *)

Definition entry_ok (m : mem) (own : gmap Z (nat * Z)) (p : Z) (L : nat) (x i : Z) : bool :=
  let e := load64 m (ent p i) in
  negb (has e PAGE_PRESENT) || (Nat.eqb L 2 && has e PAGE_HUGE)
  || bool_decide (own !! frame e = Some (pred L, x * 512 + i)).

Definition table_ok (k : kmem) (own : gmap Z (nat * Z)) (t : Z * (nat * Z)) : bool :=
  let '(p, (L, x)) := t in
  (p mod 4096 =? 0) && (0 <=? p) && (p <? 2 ^ 52)
  && negb ((page_alloc_cur k <=? p) && (p <? PAGE_ALLOC_END))
  && Nat.leb 1 L && Nat.leb L 4
  && (Nat.eqb L 1 || forallb (fun i => entry_ok (phys k) own p L x (Z.of_nat i)) (seq 0 512)).

Definition pt_check (k : kmem) (root : Z) (own : gmap Z (nat * Z)) : bool :=
  bool_decide (own !! root = Some (4%nat, 0)) && forallb (table_ok k own) (map_to_list own).

Lemma pt_check_sound k root own : pt_check k root own = true -> pt_wf k root own.
Proof.
  unfold pt_check. intros [Hr Hall]%andb_prop. apply bool_decide_eq_true in Hr.
  rewrite forallb_forall in Hall.
  assert (H : forall p L x, own !! p = Some (L, x) -> table_ok k own (p, (L, x)) = true).
  { intros p L x Hp. apply Hall, list_elem_of_In. by apply elem_of_map_to_list. }
  split; [done| | |].
  - intros p [L x] Hp. specialize (H _ _ _ Hp). unfold table_ok in H.
    repeat (apply andb_prop in H as [H ?]). unfold aligned, pool_free.
    apply Z.eqb_eq in H. apply negb_true_iff in H3. apply andb_false_iff in H3.
    split_and!; try done; lia.
  - intros p L x Hp. specialize (H _ _ _ Hp). unfold table_ok in H.
    repeat (apply andb_prop in H as [H ?]). apply Nat.leb_le in H1, H2. lia.
  - intros p L x i Hp HL Hi. cbv zeta. intros Hpr Hh. specialize (H _ _ _ Hp). unfold table_ok in H.
    apply andb_prop in H as [_ H]. destruct (Nat.eqb_spec (S L) 1); [lia|]. cbn [orb] in H.
    rewrite forallb_forall in H. specialize (H (Z.to_nat i)). rewrite in_seq in H.
    specialize (H ltac:(lia)). unfold entry_ok in H. rewrite Z2Nat.id in H by lia.
    rewrite Hpr in H. cbn [negb orb] in H. apply orb_true_iff in H as [H|H].
    + apply andb_prop in H as [H1 H2]. apply Nat.eqb_eq in H1. exfalso. apply Hh. split; [lia|done].
    + by apply bool_decide_eq_true in H.
Qed.

Definition boot_tables : kmem :=
  let m := store64 ∅ 0x1000 0x2007 in
  let m := store64 m 0x2000 0x3007 in
  let m := store64 m 0x3000 0x83 in
  let m := store64 m 0x3008 0x200083 in
  let m := store64 m 0x3010 0x400087 in
  let m := store64 m 0x3018 0x600083 in
  Kmem m 0x200000 0x600000 0x800000 (replicate 512 0).

Definition boot_own : gmap Z (nat * Z) :=
  <[0x1000 := (4%nat, 0)]> (<[0x2000 := (3%nat, 0)]> (<[0x3000 := (2%nat, 0)]> ∅)).

Lemma boot_tables_wf : kmem_wf boot_tables /\ pt_wf boot_tables PML4_ADDR boot_own.
Proof.
  split.
  - split; try done. unfold boot_tables. cbn [page_refcounts]. apply Forall_replicate. lia.
  - apply pt_check_sound. vm_compute. reflexivity.
Qed.

(** ** Properties *)

(** C3: [paging_map_4kb] maps one page and nothing else.  On well-formed tables
    it either answers 0, and then the page of [virt] translates to [pa] with
    the flags given plus present and writable, or answers -1 with the page
    pool exhausted; every other page translates as before, even when a
    2-megabyte page had to be split, the tables stay well formed (new tables
    come from the free pool), and no byte outside the tables and the free
    pool changes. *)
Theorem map_4kb_maps_one_page root k own virt pa flags r k' :
  kmem_wf k -> pt_wf k root own -> aligned pa -> 0 <= pa < 2 ^ 52 -> 0 <= flags < 4096 ->
  paging_map_4kb root virt pa flags k = (r, k') ->
  (exists own', kmem_wf k' /\ pt_wf k' root own' /\ own ⊆ own')
  /\ (r = 0 /\ phys_of k' root virt = Some pa
        /\ (paging_get_flags root virt k').1 = Z.lor flags (Z.lor PAGE_PRESENT PAGE_RW)
      \/ r = -1 /\ page_alloc_cur k' = PAGE_ALLOC_END
        /\ phys_of k' root virt = phys_of k root virt)
  /\ (forall w, page_no w <> page_no virt -> phys_of k' root w = phys_of k root w)
  /\ (forall a, ~ page_alloc_cur k <= a < PAGE_ALLOC_END ->
        (forall p lx, own !! p = Some lx -> ~ p <= a < p + 4096) ->
        load8 (phys k') a = load8 (phys k) a).
Proof.
  intros Hk Hw Hal Hpa Hfl Hrun.
  destruct (map_4kb_run _ _ _ _ _ _ _ _ Hk Hw Hal Hpa Hfl Hrun)
    as (own' & K1 & K2 & K3 & _ & Hr & _ & Hb).
  split_and!; [by exists own'| | |exact Hb].
  - destruct Hr as [(-> & Hph & t1 & Hre & Hld)|(-> & ? & Hph)]; [left|right; by rewrite Hph].
    rewrite Hph, decide_True by done. rewrite (get_flags_reaches _ _ _ _ Hre), Hld. cbn [fst].
    rewrite low12_entry by (done || (apply lor_flags; lia)). done.
  - intros w Hpg. destruct Hr as [(_ & Hph & _)|(_ & _ & Hph)]; [|done]. by rewrite Hph, decide_False.
Qed.

Lemma map_4kb_maps_one_page_witness :
  exists r k', paging_map_4kb PML4_ADDR 0x401000 0x5000 PAGE_USER boot_tables = (r, k')
    /\ r = 0 /\ phys_of k' PML4_ADDR 0x401234 = Some 0x5000
    /\ phys_of k' PML4_ADDR 0x402000 = Some 0x402000.
Proof.
  destruct boot_tables_wf as [Hk Hw].
  destruct (paging_map_4kb PML4_ADDR 0x401000 0x5000 PAGE_USER boot_tables) as [r k'] eqn:E.
  destruct (map_4kb_maps_one_page PML4_ADDR boot_tables boot_own 0x401000 0x5000 PAGE_USER r k' Hk Hw
    (eq_refl : aligned 0x5000) ltac:(lia) ltac:(unfold PAGE_USER; lia) E) as (_ & _ & Hsame & _).
  exists r, k'. split; [reflexivity|].
  assert (H0 : r = (paging_map_4kb PML4_ADDR 0x401000 0x5000 PAGE_USER boot_tables).1) by (by rewrite E).
  assert (H1 : k' = (paging_map_4kb PML4_ADDR 0x401000 0x5000 PAGE_USER boot_tables).2) by (by rewrite E).
  split; [rewrite H0; vm_compute; reflexivity|]. split.
  - rewrite H1. vm_compute. reflexivity.
  - rewrite Hsame by (vm_compute; discriminate). vm_compute. reflexivity.
Defined.

(** [paging_unmap_4kb] removes one small page and nothing else: afterwards
    no page-table entry maps [virt], every other page translates as before,
    and an address without a page table (unmapped, or inside a 2-megabyte
    page) is left alone. *)
Theorem unmap_4kb_removes_one_page root k own virt :
  kmem_wf k -> pt_wf k root own ->
  let k' := (paging_unmap_4kb root virt k).2 in
  pt_wf k' root own
  /\ (forall w, page_no w <> page_no virt -> phys_of k' root w = phys_of k root w)
  /\ (forall t1, reaches (phys k) 4 root virt t1 ->
        phys_of k' root virt = None /\ (paging_get_flags root virt k').1 = 0)
  /\ ((forall t1, ~ reaches (phys k) 4 root virt t1) -> k' = k).
Proof.
  intros Hk Hw k'. destruct (unmap_4kb_run _ _ _ virt Hk Hw) as (_ & A2 & A3 & A4 & A5 & _).
  split_and!; [exact A2|exact A3| |exact A5].
  intros t1 Ht. destruct (A4 _ Ht) as (Hr & Hz & Hn). split; [exact Hn|].
  unfold k'. by rewrite (get_flags_reaches _ _ _ _ Hr), Hz.
Qed.

(** [paging_map_2mb] maps one 2-megabyte page (or runs out of table pages,
    answers -1 and changes no translation), and [paging_unmap_2mb] takes
    exactly that page out again: every other address keeps its translation
    through both. *)
Theorem map_2mb_unmap_2mb root k own virt pa flags r k' :
  kmem_wf k -> pt_wf k root own -> pa mod 0x200000 = 0 -> 0 <= pa < 2 ^ 52 ->
  paging_map_2mb root virt pa flags k = (r, k') ->
  let k2 := (paging_unmap_2mb root virt k').2 in
  (r = 0 /\ (forall w, pre 1 w = pre 1 virt -> phys_of k' root w = Some (pa + idx 1 w * 4096))
   \/ r = -1 /\ page_alloc_cur k' = PAGE_ALLOC_END
        /\ forall w, phys_of k' root w = phys_of k root w)
  /\ (forall w, pre 1 w <> pre 1 virt ->
        phys_of k' root w = phys_of k root w /\ phys_of k2 root w = phys_of k root w)
  /\ (forall w, pre 1 w = pre 1 virt -> phys_of k2 root w = None)
  /\ exists own', pt_wf k' root own' /\ pt_wf k2 root own' /\ own ⊆ own'.
Proof.
  intros Hk Hw Hal Hpa Hrun k2.
  destruct (map_2mb_run _ _ _ _ _ _ _ _ Hk Hw Hal Hpa Hrun) as (own' & K1 & K2 & K3 & _ & Hr).
  destruct (unmap_2mb_run root k' own' virt K1 K2) as (_ & B2 & B3 & _). fold k2 in B2, B3.
  assert (Hk' : forall w, pre 1 w <> pre 1 virt -> phys_of k' root w = phys_of k root w).
  { intros w Hpg. destruct Hr as [(_ & Hph)|(_ & _ & Hph)]; [by rewrite Hph, decide_False|done]. }
  split_and!.
  - destruct Hr as [(-> & Hph)|Hr]; [left|by right]. split; [done|].
    intros w Hpg. by rewrite Hph, decide_True.
  - intros w Hpg. split; [by apply Hk'|]. rewrite B3, decide_False by done. by apply Hk'.
  - intros w Hpg. by rewrite B3, decide_True.
  - by exists own'.
Qed.
