(* ===== verification/VmRegion.v ===== *)
(** * Regions of demand-paged memory ([vm_region_*])

    A task has a table of [MAX_VM_REGIONS] regions ([vm_region_t] of
    [src/kernel/memory.h]); a slot whose bounds are both 0 is free.  The
    table is a list of slots; [table_of] is the abstract content, the regions
    in the order they were added. *)

From S2P Require Import Prelude.

Definition MAX_VM_REGIONS : nat := 8.

Record vm_region := VmRegion { vr_start : Z; vr_end : Z; vr_flags : Z }.

#[export] Instance vm_region_eq_dec : EqDecision vm_region.
Proof. solve_decision. Defined.

Definition slot_free (r : vm_region) : bool := (vr_start r =? 0) && (vr_end r =? 0).

Definition vm_region_init : list vm_region := replicate MAX_VM_REGIONS (VmRegion 0 0 0).

(** The result is the table and the C function's return value. *)
Fixpoint vm_region_add (regions : list vm_region) (start end_ flags : Z) : list vm_region * Z :=
  match regions with
  | [] => ([], -1)
  | r :: rest =>
      if slot_free r then (VmRegion start end_ flags :: rest, 0)
      else let '(rest', res) := vm_region_add rest start end_ flags in (r :: rest', res)
  end.

(** [Some f]: returns 1 with [*flags_out = f]; [None]: returns 0. *)
Fixpoint vm_region_contains (regions : list vm_region) (addr : Z) : option Z :=
  match regions with
  | [] => None
  | r :: rest =>
      if slot_free r then vm_region_contains rest addr
      else if (vr_start r <=? addr) && (addr <? vr_end r) then Some (vr_flags r)
      else vm_region_contains rest addr
  end.

Definition vm_region_copy (dst src : list vm_region) : list vm_region :=
  map (fun r => VmRegion (vr_start r) (vr_end r) (vr_flags r)) src.

(** ** The abstract table *)

(** Calls of [vm_region_add] in order. *)
Fixpoint add_all (regions : list vm_region) (rs : list vm_region) : list vm_region :=
  match rs with
  | [] => regions
  | r :: rs' => add_all (vm_region_add regions (vr_start r) (vr_end r) (vr_flags r)).1 rs'
  end.

Definition table_of (rs : list vm_region) : list vm_region :=
  rs ++ replicate (MAX_VM_REGIONS - length rs) (VmRegion 0 0 0).

(** The first region of [rs] that has the address. *)
Fixpoint find_region (rs : list vm_region) (addr : Z) : option Z :=
  match rs with
  | [] => None
  | r :: rs' => if (vr_start r <=? addr) && (addr <? vr_end r) then Some (vr_flags r)
                else find_region rs' addr
  end.

Definition used_region (r : vm_region) : Prop := slot_free r = false.

Lemma add_skip rs rest s e f :
  Forall used_region rs ->
  vm_region_add (rs ++ rest) s e f =
    (rs ++ (vm_region_add rest s e f).1, (vm_region_add rest s e f).2).
Proof.
  induction 1 as [|r rs Hr Hrs IH]; cbn [app vm_region_add]; [by destruct (vm_region_add rest s e f)|].
  rewrite Hr, IH. done.
Qed.

Lemma contains_skip rs n addr :
  Forall used_region rs ->
  vm_region_contains (rs ++ replicate n (VmRegion 0 0 0)) addr = find_region rs addr.
Proof.
  induction 1 as [|r rs Hr Hrs IH]; cbn [app vm_region_contains find_region].
  - induction n as [|n IHn]; [done|]. exact IHn.
  - rewrite Hr, IH. done.
Qed.

Lemma add_table rs r :
  Forall used_region rs -> (length rs < MAX_VM_REGIONS)%nat ->
  vm_region_add (table_of rs) (vr_start r) (vr_end r) (vr_flags r) = (table_of (rs ++ [r]), 0).
Proof.
  intros Hrs Hlen. unfold table_of. rewrite add_skip by done. rewrite length_app. cbn [length].
  replace (MAX_VM_REGIONS - length rs)%nat with (S (MAX_VM_REGIONS - (length rs + 1))) by lia.
  cbn [replicate vm_region_add fst snd slot_free vr_start vr_end Z.eqb andb].
  rewrite <- app_assoc. by destruct r.
Qed.

Lemma add_full rs r :
  Forall used_region rs -> length rs = MAX_VM_REGIONS ->
  vm_region_add (table_of rs) (vr_start r) (vr_end r) (vr_flags r) = (table_of rs, -1).
Proof.
  intros Hrs Hlen. unfold table_of. rewrite add_skip by done. by rewrite Hlen, Nat.sub_diag.
Qed.

Lemma add_all_table rs0 rs :
  Forall used_region rs0 -> Forall used_region rs -> (length rs0 <= MAX_VM_REGIONS)%nat ->
  add_all (table_of rs0) rs = table_of (take MAX_VM_REGIONS (rs0 ++ rs)).
Proof.
  intros H0 Hrs. revert rs0 H0. induction Hrs as [|r rs Hr Hrs IH]; intros rs0 H0 Hlen; cbn [add_all].
  - rewrite app_nil_r. by rewrite take_ge.
  - destruct (decide (length rs0 < MAX_VM_REGIONS)%nat) as [Hl|Hl].
    + rewrite add_table by done. cbn [fst]. rewrite IH.
      * by rewrite <- app_assoc.
      * apply Forall_app. split; [done|]. by constructor.
      * rewrite length_app. cbn [length]. lia.
    + rewrite add_full by (done || lia). cbn [fst]. rewrite IH by done.
      rewrite !take_app_ge by lia. replace (MAX_VM_REGIONS - length rs0)%nat with 0%nat by lia. done.
Qed.

(** The region table is the list of the first eight regions added.  After
    [vm_region_init] and any sequence of [vm_region_add] of regions that are
    not (0, 0), [vm_region_contains] answers with the flags of the first of
    those regions that has the address, and with 0 when none has; the next
    [vm_region_add] succeeds exactly when fewer than eight regions are held,
    and [vm_region_copy] gives a table with the same answers. *)
Theorem vm_regions_are_first_eight rs addr s e f dst :
  Forall used_region rs ->
  let t := add_all vm_region_init rs in
  vm_region_contains t addr = find_region (take MAX_VM_REGIONS rs) addr
  /\ (vm_region_add t s e f).2 = (if decide (length rs < MAX_VM_REGIONS)%nat then 0 else -1)
  /\ vm_region_contains (vm_region_copy dst t) addr = vm_region_contains t addr.
Proof.
  intros Hrs t.
  assert (Ht : t = table_of (take MAX_VM_REGIONS rs)).
  { unfold t. change vm_region_init with (table_of []).
    rewrite add_all_table by (done || (cbn; lia)). done. }
  assert (Hu : Forall used_region (take MAX_VM_REGIONS rs)) by (by apply Forall_take).
  split_and!.
  - rewrite Ht. by apply contains_skip.
  - rewrite Ht. change s with (vr_start (VmRegion s e f)). change e with (vr_end (VmRegion s e f)) at 2.
    change f with (vr_flags (VmRegion s e f)) at 3. case_decide.
    + rewrite add_table; [done|done|]. rewrite length_take. lia.
    + rewrite add_full; [done|done|]. rewrite length_take. lia.
  - f_equal. unfold vm_region_copy. rewrite <- (map_id t) at 2. apply map_ext. by intros [].
Qed.
