(* ===== verification/Cow.v ===== *)
(** * Address spaces: creation, copying, copy-on-write and demand paging

    [paging_create], [paging_clone_user], [paging_cow_clone_user],
    [paging_handle_cow_fault] and [paging_handle_demand_fault] of
    [src/kernel/memory.c].  Each nest of four loops over the tables is a
    [for_ret] per level; a body that returns from the C function gives
    [Some].  The properties are about one fault and about the table that fork
    shares: who sees which frame, with which rights, and what the reference
    counts say. *)

From S2P Require Import Prelude.
From S2P Require Import ByteMem.
From S2P Require Import Kmem.
From S2P Require Import Paging.
From S2P Require Import VmRegion.

Definition next {R} : ST kmem (option R) := ret None.
Definition return_ {R} (r : R) : ST kmem (option R) := ret (Some r).

(** A loop over a table whose body may return [-1]; then the code after it. *)
Definition table_loop (body : Z -> ST kmem (option Z)) : ST kmem (option Z) := for_ret 512 0 body.

Definition copy_page (dst src : Z) : ST kmem unit :=
  modify (fun k => set_phys (memory_copy dst src 4096 (phys k)) k).

(** ** [paging_create] *)

Definition create_pd (src_pd dst_pd : Z) : ST kmem unit :=
  for_loop 512 0 (fun pd_i =>
    let* pd_entry := ld64 (ent src_pd pd_i) in
    if negb (has pd_entry PAGE_PRESENT) then ret tt else st64 (ent dst_pd pd_i) pd_entry).

Definition RWUP : Z := Z.lor (Z.lor PAGE_RW PAGE_USER) PAGE_PRESENT.

Definition create_pdpt (src_pdpt dst_pdpt : Z) : ST kmem (option Z) :=
  table_loop (fun pdpt_i =>
    let* pdpt_entry := ld64 (ent src_pdpt pdpt_i) in
    if negb (has pdpt_entry PAGE_PRESENT) then next
    else
      let* new_pd := memory_alloc_page in
      if new_pd =? 0 then return_ 0
      else
        do* st64 (ent dst_pdpt pdpt_i) (Z.lor new_pd (Z.land pdpt_entry RWUP)) in
        do* create_pd (frame pdpt_entry) new_pd in
        next).

Definition paging_create : ST kmem Z :=
  let* new_pml4 := memory_alloc_page in
  if new_pml4 =? 0 then ret 0
  else
    let* r := table_loop (fun pml4_i =>
      let* pml4_entry := ld64 (ent PML4_ADDR pml4_i) in
      if negb (has pml4_entry PAGE_PRESENT) then next
      else if negb (has pml4_entry PAGE_USER) then
        do* st64 (ent new_pml4 pml4_i) pml4_entry in next
      else
        let* new_pdpt := memory_alloc_page in
        if new_pdpt =? 0 then return_ 0
        else
          do* st64 (ent new_pml4 pml4_i) (Z.lor new_pdpt (Z.land pml4_entry RWUP)) in
          create_pdpt (frame pml4_entry) new_pdpt) in
    match r with
    | Some v => ret v
    | None => ret new_pml4
    end.

(** ** The walk over two user trees, shared by the two clones

    [clone_entry src_pd dst_pd pd_i e] is the body of the innermost [if]. *)
Definition clone_tree (clone_entry : Z -> Z -> Z -> Z -> ST kmem (option Z))
    (dst_pml4 src_pml4 : Z) : ST kmem Z :=
  let* r := table_loop (fun pml4_i =>
    let* src_entry := ld64 (ent src_pml4 pml4_i) in
    if negb (has src_entry PAGE_PRESENT) then next
    else if negb (has src_entry PAGE_USER) then next
    else
      let* dst_pml4_entry := ld64 (ent dst_pml4 pml4_i) in
      if negb (has dst_pml4_entry PAGE_PRESENT) then next
      else
        let src_pdpt := frame src_entry in
        let dst_pdpt := frame dst_pml4_entry in
        table_loop (fun pdpt_i =>
          let* pdpt_entry := ld64 (ent src_pdpt pdpt_i) in
          if negb (has pdpt_entry PAGE_PRESENT) then next
          else
            let* dst_pdpt_entry := ld64 (ent dst_pdpt pdpt_i) in
            if negb (has dst_pdpt_entry PAGE_PRESENT) then next
            else
              let src_pd := frame pdpt_entry in
              let dst_pd := frame dst_pdpt_entry in
              table_loop (fun pd_i =>
                let* src_pd_entry := ld64 (ent src_pd pd_i) in
                if negb (has src_pd_entry PAGE_PRESENT) then next
                else if negb (has src_pd_entry PAGE_USER) then next
                else clone_entry src_pd dst_pd pd_i src_pd_entry))) in
  match r with
  | Some v => ret v
  | None => ret 0
  end.

(** [pt_phys | PAGE_PRESENT | PAGE_RW | (e & PAGE_USER)]. *)
Definition pt_link (pt_phys e : Z) : Z :=
  Z.lor (Z.lor (Z.lor pt_phys PAGE_PRESENT) PAGE_RW) (Z.land e PAGE_USER).

(** ** [paging_clone_user] *)

Definition clone_huge (pt huge_phys huge_flags : Z) : ST kmem (option Z) :=
  table_loop (fun pt_i =>
    let page_phys := u64 (huge_phys + pt_i * 4096) in
    let* new_page := memory_alloc_page in
    if new_page =? 0 then return_ (-1)
    else
      do* copy_page new_page page_phys in
      do* st64 (ent pt pt_i) (pt_link new_page huge_flags) in
      next).

Definition clone_small (src_pt dst_pt : Z) : ST kmem (option Z) :=
  table_loop (fun pt_i =>
    let* src_entry := ld64 (ent src_pt pt_i) in
    if negb (has src_entry PAGE_PRESENT) then next
    else
      let src_phys := frame src_entry in
      let* new_page := memory_alloc_page in
      if new_page =? 0 then return_ (-1)
      else
        do* copy_page new_page src_phys in
        do* st64 (ent dst_pt pt_i)
              (Z.lor new_page (Z.land src_entry (Z.lor (Z.lor PAGE_PRESENT PAGE_RW) PAGE_USER))) in
        next).

Definition clone_pd_entry (src_pd dst_pd pd_i src_pd_entry : Z) : ST kmem (option Z) :=
  let* pt_phys := memory_alloc_page in
  if pt_phys =? 0 then return_ (-1)
  else
    do* st64 (ent dst_pd pd_i) (pt_link pt_phys src_pd_entry) in
    if has src_pd_entry PAGE_HUGE
    then clone_huge pt_phys (huge_frame src_pd_entry) (low12 src_pd_entry)
    else clone_small (frame src_pd_entry) pt_phys.

Definition paging_clone_user (dst_pml4 src_pml4 : Z) : ST kmem Z :=
  clone_tree clone_pd_entry dst_pml4 src_pml4.

(** ** Copy on write *)

Definition pte_set_cow (pte : Z) : ST kmem unit :=
  let* e := ld64 pte in
  let p := frame e in
  let flags := low12 e in
  let flags := Z.lor (Z.land flags (u64 (Z.lnot PAGE_RW))) PAGE_COW in
  do* st64 pte (Z.lor p flags) in
  page_ref_inc p.

(** The loop that makes the 512 pages of a huge page shared. *)
Definition cow_huge (src_pt dst_pt huge_phys huge_flags : Z) : ST kmem unit :=
  for_loop 512 0 (fun pt_i =>
    let page_phys := u64 (huge_phys + pt_i * 4096) in
    let cow_flags :=
      Z.lor (Z.lor (Z.land huge_flags (u64 (Z.lnot PAGE_HUGE))) PAGE_PRESENT) PAGE_COW in
    let cow_flags := Z.land cow_flags (u64 (Z.lnot PAGE_RW)) in
    do* st64 (ent src_pt pt_i) (Z.lor page_phys cow_flags) in
    do* st64 (ent dst_pt pt_i) (Z.lor page_phys cow_flags) in
    do* page_ref_inc page_phys in
    page_ref_inc page_phys).

(** The loop that makes the pages of a page table shared. *)
Definition cow_small_body (src_pt dst_pt pt_i : Z) : ST kmem unit :=
  let* src_pte := ld64 (ent src_pt pt_i) in
  if negb (has src_pte PAGE_PRESENT) then st64 (ent dst_pt pt_i) 0
  else
    let p := frame src_pte in
    do* pte_set_cow (ent src_pt pt_i) in
    let* e := ld64 (ent src_pt pt_i) in
    let cow_flags := low12 e in
    do* st64 (ent dst_pt pt_i) (Z.lor p cow_flags) in
    page_ref_inc p.

Definition cow_small (src_pt dst_pt : Z) : ST kmem unit :=
  for_loop 512 0 (cow_small_body src_pt dst_pt).

Definition cow_pd_entry (src_pd dst_pd pd_i src_pd_entry : Z) : ST kmem (option Z) :=
  let* dst_pt_phys := memory_alloc_page in
  if dst_pt_phys =? 0 then return_ (-1)
  else
    do* st64 (ent dst_pd pd_i) (pt_link dst_pt_phys src_pd_entry) in
    if has src_pd_entry PAGE_HUGE then
      let* src_pt_phys := memory_alloc_page in
      if src_pt_phys =? 0 then return_ (-1)
      else
        do* st64 (ent src_pd pd_i) (pt_link src_pt_phys (low12 src_pd_entry)) in
        do* cow_huge src_pt_phys dst_pt_phys (huge_frame src_pd_entry) (low12 src_pd_entry) in
        next
    else
      do* cow_small (frame src_pd_entry) dst_pt_phys in
      next.

Definition paging_cow_clone_user (dst_pml4 src_pml4 : Z) : ST kmem Z :=
  clone_tree cow_pd_entry dst_pml4 src_pml4.

Definition paging_handle_cow_fault (pml4 fault_addr : Z) : ST kmem Z :=
  let* pte := paging_walk_4kb pml4 fault_addr false in
  match pte with
  | None => ret (-1)
  | Some pte =>
      let* e := ld64 pte in
      if negb (has e PAGE_PRESENT) then ret (-1)
      else if negb (has e PAGE_COW) then ret (-1)
      else
        let p := frame e in
        let flags := Z.lor (Z.land (low12 e) (u64 (Z.lnot PAGE_COW))) PAGE_RW in
        let* refs := page_ref_get p in
        if 1 <? refs then
          let* new_phys := memory_alloc_page in
          if new_phys =? 0 then ret (-1)
          else
            do* copy_page new_phys p in
            do* page_ref_dec p in
            do* st64 pte (Z.lor (Z.lor new_phys flags) PAGE_PRESENT) in
            ret 0
        else
          do* st64 pte (Z.lor (Z.lor p flags) PAGE_PRESENT) in
          do* page_ref_dec p in
          ret 0
  end.

(** ** Demand paging *)

Definition paging_handle_demand_fault (pml4 fault_addr : Z) (regions : option (list vm_region))
    : ST kmem Z :=
  match regions with
  | None => ret (-1)
  | Some regions =>
      let page_addr := frame fault_addr in
      match vm_region_contains regions fault_addr with
      | None => ret (-1)
      | Some flags =>
          let* walk := paging_walk_4kb pml4 page_addr true in
          match walk with
          | None => ret (-1)
          | Some pte =>
              let* e := ld64 pte in
              if has e PAGE_PRESENT then ret 0
              else
                let* new_phys := memory_alloc_page in
                if new_phys =? 0 then ret (-1)
                else
                  do* st64 pte (Z.lor (Z.lor new_phys flags) PAGE_PRESENT) in
                  ret 0
          end
      end
  end.

(** [paging_switch] only loads [cr3], and [paging_destroy] does nothing. *)
Definition paging_destroy (pml4_phys : Z) : ST kmem unit := ret tt.

(** ** Facts about the flags *)

#[local] Opaque load64 store64 load8 memory_set memory_copy memory_alloc_page.

Definition cow_fault_flags (e : Z) : Z :=
  Z.lor (Z.lor (Z.land (low12 e) (u64 (Z.lnot PAGE_COW))) PAGE_RW) PAGE_PRESENT.

Lemma land_mask_range e c : 0 <= Z.land (low12 e) (u64 c) < 4096.
Proof.
  rewrite Z.land_comm. apply (land_range _ _ 12); [lia| |].
  - apply u64_range.
  - rewrite low12_mod. zlia.
Qed.

Lemma has_mask e m flag : Z.land m flag = 0 -> has (Z.land e m) flag = false.
Proof. intros H. unfold has. by rewrite <- Z.land_assoc, H, Z.land_0_r. Qed.

Lemma has_mask_keep e m flag : Z.land m flag = flag -> has (Z.land e m) flag = has e flag.
Proof. intros H. unfold has. by rewrite <- Z.land_assoc, H. Qed.

Lemma cow_fault_entry q e :
  aligned q ->
  Z.lor (Z.lor q (Z.lor (Z.land (low12 e) (u64 (Z.lnot PAGE_COW))) PAGE_RW)) PAGE_PRESENT
    = q + cow_fault_flags e
  /\ 0 <= cow_fault_flags e < 4096
  /\ has (cow_fault_flags e) PAGE_PRESENT = true /\ has (cow_fault_flags e) PAGE_RW = true
  /\ has (cow_fault_flags e) PAGE_COW = false
  /\ has (cow_fault_flags e) PAGE_USER = has e PAGE_USER.
Proof.
  intros Hq. pose proof (land_mask_range e (Z.lnot PAGE_COW)) as Hr.
  assert (H2 : 0 <= Z.lor (Z.land (low12 e) (u64 (Z.lnot PAGE_COW))) PAGE_RW < 4096)
    by (apply lor_flags; [exact Hr|cbv; done]).
  unfold cow_fault_flags. split_and!.
  - rewrite (lor_entry0 q) by done. by rewrite lor_entry by (done || (cbv; done)).
  - apply lor_flags; [exact H2|cbv; done].
  - apply (lor_flags _ PAGE_PRESENT); [exact H2|cbv; done].
  - rewrite has_lor. apply orb_true_r.
  - rewrite !has_lor. rewrite orb_true_r. done.
  - rewrite !has_lor, has_mask by reflexivity. reflexivity.
  - rewrite !has_lor, has_mask_keep by reflexivity.
    rewrite <- (has_low12 e PAGE_USER) by (cbv; done). change (has PAGE_RW PAGE_USER) with false.
    change (has PAGE_PRESENT PAGE_USER) with false. by rewrite !orb_false_r.
Qed.

(** ** A fault on a copy-on-write page *)

Lemma set_phys_wf m k : kmem_wf k -> kmem_wf (set_phys m k).
Proof. intros []. constructor; assumption. Qed.

Lemma page_ref_dec_phys p k : phys (page_ref_dec p k).2 = phys k
  /\ page_alloc_cur (page_ref_dec p k).2 = page_alloc_cur k.
Proof. unfold page_ref_dec, modify. cbn [snd]. by destruct (_ && _). Qed.

Lemma page_ref_get_ext q k k' :
  page_refcounts k' = page_refcounts k -> (page_ref_get q k').1 = (page_ref_get q k).1.
Proof. intros H. unfold page_ref_get, gets, refcount_at. cbn [fst]. by rewrite H. Qed.

(** A frame some entry maps: a page outside the tables and the free pool. *)
Definition user_frame (k : kmem) (own : gmap Z (nat * Z)) (p : Z) : Prop :=
  aligned p /\ 0 <= p < 2 ^ 52 /\ own !! p = None /\ ~ pool_free k p.

Lemma user_frame_apart k root own p q lx :
  pt_wf k root own -> user_frame k own p -> own !! q = Some lx -> p + 4096 <= q \/ q + 4096 <= p.
Proof.
  intros Hw (Ha & _ & Hn & _) Hq. destruct (pw_page _ _ _ Hw _ _ Hq) as (Hqa & _).
  apply aligned_apart; [done|done|]. intros ->. congruence.
Qed.

(** Duplicating a frame into a fresh page. *)
Lemma dup_page root k own p q k1 :
  kmem_wf k -> pt_wf k root own -> user_frame k own p ->
  memory_alloc_page k = (q, k1) -> q <> 0 ->
  let k3 := (page_ref_dec p (copy_page q p k1).2).2 in
  kmem_wf k3 /\ pt_wf k3 root own /\ tables_same (phys k) (phys k3) own
  /\ q = page_alloc_cur k /\ page_alloc_cur k3 = q + 4096 /\ aligned q
  /\ PAGE_ALLOC_START <= q /\ q + 4096 <= PAGE_ALLOC_END
  /\ (forall i, 0 <= i < 4096 -> load8 (phys k3) (q + i) = load8 (phys k) (p + i))
  /\ (forall a, ~ q <= a < q + 4096 -> load8 (phys k3) a = load8 (phys k) a)
  /\ (forall x, (page_ref_get x k3).1 =
        if decide (phys_to_idx p = phys_to_idx x /\ 0 < (page_ref_get x k).1)
        then (page_ref_get x k).1 - 1 else (page_ref_get x k).1).
Proof.
  intros Hk Hw Hu Ha Hq k3.
  destruct (alloc_page_fresh _ _ _ Hk Ha Hq) as (H1 & H2 & H3 & H4 & H5 & H6 & H7 & _).
  destruct (fresh_page _ _ _ _ _ Hk Hw Ha Hq) as [Hnq Hdq].
  destruct Hu as (Hpa & Hpr & Hpn & Hpf).
  assert (Hd : q + 4096 <= p \/ p + 4096 <= q).
  { apply aligned_apart; [exact H3|exact Hpa|]. intros ->. apply Hpf. unfold pool_free. lia. }
  set (k2 := (copy_page q p k1).2).
  assert (Hk2 : kmem_wf k2) by (apply set_phys_wf; by eapply alloc_page_wf).
  assert (E1 : phys k3 = phys k2) by (apply (page_ref_dec_phys p k2)).
  assert (E2 : page_alloc_cur k3 = page_alloc_cur k2) by (apply (page_ref_dec_phys p k2)).
  assert (Hin : forall i, 0 <= i < 4096 -> load8 (phys k3) (q + i) = load8 (phys k) (p + i)).
  { intros i Hi. rewrite E1. unfold k2. cbn [copy_page modify snd phys set_phys].
    rewrite load8_memory_copy, decide_True by lia. rewrite H6, decide_False by lia.
    f_equal. lia. }
  assert (Hout : forall a, ~ q <= a < q + 4096 -> load8 (phys k3) a = load8 (phys k) a).
  { intros a Hna. rewrite E1. unfold k2. cbn [copy_page modify snd phys set_phys].
    rewrite load8_memory_copy, decide_False by lia. by rewrite H6, decide_False. }
  assert (Hs : tables_same (phys k) (phys k3) own).
  { apply tables_same_bytes. intros t lx a Ht Hat. apply Hout. specialize (Hdq _ _ Ht). lia. }
  split_and!; try assumption.
  - by apply page_ref_dec_wf.
  - eapply pt_wf_same; [exact Hw|exact Hs|]. rewrite E2. unfold k2.
    cbn [copy_page modify snd page_alloc_cur set_phys]. lia.
  - rewrite E2. unfold k2. cbn [copy_page modify snd page_alloc_cur set_phys]. exact H2.
  - intros x. unfold k3. fold k2. rewrite ref_get_dec by done.
    rewrite (page_ref_get_ext x k k2) by exact H7. done.
Qed.

(** The entry of a page: the frame and the flags that the tables hold. *)
Definition pte_of (k : kmem) (root v e : Z) : Prop :=
  exists t1, reaches (phys k) 4 root v t1 /\ load64 (phys k) (ent t1 (idx 1 v)) = e.

Lemma pte_phys k root v e : pte_of k root v e -> phys_of k root v = leaf e.
Proof.
  intros (t1 & Hr & He). unfold phys_of.
  rewrite (reaches_resolve _ 4 _ _ _ v ltac:(lia) Hr eq_refl). cbn [resolve].
  rewrite He. unfold leaf. by destruct (has e PAGE_PRESENT).
Qed.

Lemma cow_fault_lookup k root v e :
  pte_of k root v e ->
  exists t1, reaches (phys k) 4 root v t1 /\ load64 (phys k) (ent t1 (idx 1 v)) = e
    /\ paging_walk_4kb root v false k = (Some (ent t1 (idx 1 v)), k).
Proof.
  intros (t1 & Hr & He). exists t1. split_and!; [exact Hr|exact He|].
  destruct (walk_lookup root k v) as (r & Hrun & Hres). destruct r as [a|].
  - destruct Hres as (t' & -> & Hr'). by rewrite (reaches_det _ _ _ _ _ _ Hr Hr').
  - by destruct (Hres t1).
Qed.

(** After the write of the entry: one page changes, the contents do not. *)
Lemma cow_finish root k own v t1 e' f :
  kmem_wf k -> pt_wf k root own -> reaches (phys k) 4 root v t1 ->
  aligned f -> 0 <= f < 2 ^ 52 -> 0 <= e' < 4096 -> has e' PAGE_PRESENT = true ->
  let k' := set_phys (store64 (phys k) (ent t1 (idx 1 v)) (f + e')) k in
  kmem_wf k' /\ pt_wf k' root own /\ pte_of k' root v (f + e') /\ phys_of k' root v = Some f
  /\ (forall w, page_no w <> page_no v -> phys_of k' root w = phys_of k root w)
  /\ (forall a, (forall p lx, own !! p = Some lx -> ~ p <= a < p + 4096) ->
        load8 (phys k') a = load8 (phys k) a).
Proof.
  intros Hk Hw Hr Hf Hfr He Hp k'.
  destruct (pte_store root k own v t1 (f + e') Hk Hw Hr) as (K1 & K2 & K3 & K4 & K5 & K6); [lia|].
  fold k' in K1, K2, K3, K4, K5, K6. split_and!; [exact K1|exact K2|by exists t1| | |exact K6].
  - rewrite K5, decide_True by done. unfold leaf. rewrite has_entry, Hp by (done || (cbv; done)).
    by rewrite frame_entry by (done || lia).
  - intros w Hpg. by rewrite K5, decide_False.
Qed.

(** What a resolved fault leaves behind: [p] is the shared frame, [refs] its
    references before, [q] the task's frame afterwards.  A store of the task
    through its page reaches [p], where other tasks look, exactly when the
    count was at most one. *)
Definition cow_resolved (k : kmem) (root : Z) (own : gmap Z (nat * Z)) (v e : Z) (k' : kmem) : Prop :=
  let p := frame e in
  let refs := (page_ref_get p k).1 in
  kmem_wf k' /\ pt_wf k' root own
  /\ (forall w, page_no w <> page_no v -> phys_of k' root w = phys_of k root w)
  /\ (forall i, 0 <= i < 4096 -> load8 (phys k') (p + i) = load8 (phys k) (p + i))
  /\ (page_ref_get p k').1 = Z.max 0 (refs - 1)
  /\ exists q e',
        phys_of k' root v = Some q /\ pte_of k' root v e'
        /\ (has e' PAGE_RW = true /\ has e' PAGE_COW = false /\ has e' PAGE_USER = has e PAGE_USER)
        /\ (forall i, 0 <= i < 4096 -> load8 (phys k') (q + i) = load8 (phys k) (p + i))
        /\ (1 < refs -> q = page_alloc_cur k /\ q <> p)
        /\ (refs <= 1 -> q = p)
        /\ (forall i j b, 0 <= i < 4096 -> 0 <= j < 4096 ->
              load8 (store8 (phys k') (q + i) b) (p + j)
              = if (refs <=? 1) && (i =? j) then u8 b else load8 (phys k) (p + j)).

Lemma store_seen m m0 p q i j b :
  (forall i, 0 <= i < 4096 -> load8 m (p + i) = load8 m0 (p + i)) ->
  q = p \/ q + 4096 <= p \/ p + 4096 <= q -> 0 <= i < 4096 -> 0 <= j < 4096 ->
  load8 (store8 m (q + i) b) (p + j) = if (q =? p) && (i =? j) then u8 b else load8 m0 (p + j).
Proof.
  intros Hm Hq Hi Hj. rewrite load8_store8, Hm by done.
  destruct (Z.eqb_spec q p), (Z.eqb_spec i j); case_decide; cbn [andb]; (done || lia).
Qed.

Lemma cow_fault_flags_at f e :
  aligned f ->
  has (f + cow_fault_flags e) PAGE_RW = true /\ has (f + cow_fault_flags e) PAGE_COW = false
  /\ has (f + cow_fault_flags e) PAGE_USER = has e PAGE_USER.
Proof.
  intros Hf. destruct (cow_fault_entry f e Hf) as (_ & E2 & _ & E4 & E5 & E6).
  by rewrite !has_entry by (done || (cbv; done)).
Qed.

Lemma refs_nonneg p k : kmem_wf k -> 0 <= (page_ref_get p k).1.
Proof.
  intros Hk. unfold page_ref_get, gets. cbn [fst]. destruct (_ <? 0); [lia|].
  by apply refcount_at_range.
Qed.

Lemma cow_fault_copy root k own v e t1 q k1 :
  kmem_wf k -> pt_wf k root own -> reaches (phys k) 4 root v t1 ->
  user_frame k own (frame e) -> 1 < (page_ref_get (frame e) k).1 ->
  memory_alloc_page k = (q, k1) -> q <> 0 ->
  let k3 := (page_ref_dec (frame e) (copy_page q (frame e) k1).2).2 in
  cow_resolved k root own v e
    (set_phys (store64 (phys k3) (ent t1 (idx 1 v)) (q + cow_fault_flags e)) k3).
Proof.
  intros Hk Hw Hr Hu Hrefs Ha Hq k3. unfold cow_resolved. cbv zeta. set (p := frame e) in *.
  assert (Hroot : own !! root = Some (4%nat, pre 4 v)) by (rewrite pre_4; apply Hw).
  destruct (dup_page _ _ _ _ _ _ Hk Hw Hu Ha Hq)
    as (D1 & D2 & D3 & D4 & D5 & D6 & D7 & D8 & D9 & D10 & D11). fold k3 in D1, D2, D3, D5, D9, D10, D11.
  destruct (cow_fault_entry q e D6) as (_ & E2 & E3 & _).
  pose proof (reaches_same _ _ _ _ _ _ _ _ Hw D3 Hroot Hr) as Hr3.
  unfold PAGE_ALLOC_START, PAGE_ALLOC_END in D7, D8.
  destruct (cow_finish root k3 own v t1 (cow_fault_flags e) q D1 D2 Hr3 D6)
    as (F1 & F2 & F3 & F4 & F5 & F6); [lia|exact E2|exact E3|].
  assert (Hqp : q + 4096 <= p \/ p + 4096 <= q).
  { apply aligned_apart; [exact D6|apply Hu|]. intros Hqp. apply (proj2 (proj2 (proj2 Hu))).
    rewrite <- Hqp. unfold pool_free, PAGE_ALLOC_END. lia. }
  destruct (fresh_page _ _ _ _ _ Hk Hw Ha Hq) as [_ Hqn].
  match type of F1 with kmem_wf ?x => set (k' := x) in * end.
  assert (Hsame : forall i, 0 <= i < 4096 -> load8 (phys k') (p + i) = load8 (phys k) (p + i)).
  { intros i Hi. rewrite F6; [apply D10; lia|].
    intros t lx Ht. pose proof (user_frame_apart _ _ _ _ _ _ Hw Hu Ht). lia. }
  split_and!; [exact F1|exact F2| | | |exists q, (q + cow_fault_flags e)].
  - intros w Hpg. rewrite F5 by exact Hpg. by eapply phys_of_same.
  - exact Hsame.
  - rewrite (page_ref_get_ext p k3) by done. rewrite D11, decide_True by (split; [done|lia]). lia.
  - split_and!; [exact F4|exact F3|by apply cow_fault_flags_at..| | |lia|].
    + intros i Hi. rewrite F6; [by apply D9|]. intros t lx Ht. specialize (Hqn _ _ Ht). lia.
    + intros _. split; [exact D4|lia].
    + intros i j b Hi Hj. rewrite (store_seen _ (phys k)) by (assumption || (right; lia)).
      rewrite (proj2 (Z.eqb_neq q p)) by lia. by rewrite (proj2 (Z.leb_gt _ 1)) by lia.
Qed.

Lemma cow_fault_claim root k own v e t1 :
  kmem_wf k -> pt_wf k root own -> reaches (phys k) 4 root v t1 ->
  user_frame k own (frame e) -> (page_ref_get (frame e) k).1 <= 1 ->
  cow_resolved k root own v e
    (page_ref_dec (frame e)
      (set_phys (store64 (phys k) (ent t1 (idx 1 v)) (frame e + cow_fault_flags e)) k)).2.
Proof.
  intros Hk Hw Hr Hu Hrefs. unfold cow_resolved. cbv zeta. set (p := frame e) in *.
  destruct (cow_fault_entry p e (proj1 Hu)) as (_ & E2 & E3 & _).
  destruct (cow_finish root k own v t1 (cow_fault_flags e) p Hk Hw Hr (proj1 Hu))
    as (F1 & F2 & F3 & F4 & F5 & F6); [apply Hu|exact E2|exact E3|].
  set (k2 := set_phys _ k) in *. destruct (page_ref_dec_phys p k2) as [G1 G2].
  assert (Hbytes : forall i, 0 <= i < 4096 ->
            load8 (phys (page_ref_dec p k2).2) (p + i) = load8 (phys k) (p + i)).
  { intros i Hi. rewrite G1. apply F6. intros t lx Ht.
    pose proof (user_frame_apart _ _ _ _ _ _ Hw Hu Ht). lia. }
  split_and!; [by apply page_ref_dec_wf| | |exact Hbytes| |exists p, (p + cow_fault_flags e)].
  - eapply pt_wf_same; [exact F2|intros t lx i _ _; by rewrite G1|rewrite G2; lia].
  - intros w Hpg. unfold phys_of. rewrite G1. by apply F5.
  - rewrite ref_get_dec by exact F1. rewrite (page_ref_get_ext p k k2) by done.
    pose proof (refs_nonneg p k Hk).
    destruct (decide (0 < (page_ref_get p k).1)); [rewrite decide_True by done|rewrite decide_False by lia]; lia.
  - destruct F3 as (t2 & R2 & L2). split_and!; [| |apply cow_fault_flags_at, Hu..|exact Hbytes|lia|done|].
    + unfold phys_of. rewrite G1. exact F4.
    + exists t2. rewrite G1. by split.
    + intros i j b Hi Hj. rewrite (store_seen _ (phys k)) by (assumption || by left).
      by rewrite Z.eqb_refl, (proj2 (Z.leb_le _ 1)) by done.
Qed.

(** A frame outside the pool is not counted. *)
Lemma uncounted_idx p : ~ PAGE_ALLOC_START <= p < PAGE_ALLOC_END -> phys_to_idx p = -1.
Proof.
  intros Hp. unfold phys_to_idx. destruct (Z.ltb_spec p PAGE_ALLOC_START); [done|].
  by destruct (Z.leb_spec PAGE_ALLOC_END p); [|lia].
Qed.

Lemma uncounted_get p k : ~ PAGE_ALLOC_START <= p < PAGE_ALLOC_END -> (page_ref_get p k).1 = 0.
Proof. intros Hp. unfold page_ref_get, gets. cbn [fst]. by rewrite uncounted_idx. Qed.

Lemma uncounted_dec p k : ~ PAGE_ALLOC_START <= p < PAGE_ALLOC_END ->
  page_refcounts (page_ref_dec p k).2 = page_refcounts k.
Proof. intros Hp. unfold page_ref_dec, modify. cbn [snd]. by rewrite uncounted_idx. Qed.

(** The code's path to the two cases. *)
Lemma cow_fault_run root k v e t1 :
  reaches (phys k) 4 root v t1 -> load64 (phys k) (ent t1 (idx 1 v)) = e ->
  has e PAGE_PRESENT = true -> has e PAGE_COW = true ->
  paging_handle_cow_fault root v k =
    if 1 <? (page_ref_get (frame e) k).1 then
      let '(q, k1) := memory_alloc_page k in
      if q =? 0 then (-1, k1)
      else
        let k3 := (page_ref_dec (frame e) (copy_page q (frame e) k1).2).2 in
        (0, set_phys (store64 (phys k3) (ent t1 (idx 1 v))
              (Z.lor (Z.lor q (Z.lor (Z.land (low12 e) (u64 (Z.lnot PAGE_COW))) PAGE_RW)) PAGE_PRESENT)) k3)
    else (0, (page_ref_dec (frame e)
                (set_phys (store64 (phys k) (ent t1 (idx 1 v))
                  (Z.lor (Z.lor (frame e) (Z.lor (Z.land (low12 e) (u64 (Z.lnot PAGE_COW))) PAGE_RW))
                         PAGE_PRESENT)) k)).2).
Proof.
  intros Hr He Hp Hc. destruct (cow_fault_lookup k root v e) as (t & Ht & _ & Hwalk); [by exists t1|].
  rewrite (reaches_det _ _ _ _ _ _ Ht Hr) in Hwalk.
  unfold paging_handle_cow_fault. rewrite (bind_run _ _ _ _ _ Hwalk), bind_ld64, He, Hp, Hc.
  cbn [negb]. unfold bind at 1. cbn [page_ref_get gets fst]. destruct (1 <? _); [|done].
  unfold bind at 1. destruct (memory_alloc_page k) as [q k1]. by destruct (q =? 0).
Qed.

(** C4: a write fault on a copy-on-write page isolates the task exactly as far
    as the frame is counted.  [p] is the shared frame.  With a count above
    one, the task gets a fresh frame with the same contents, [p] loses one
    reference, and what the task stores through its page never shows in [p],
    where the other tasks look.  With a count of one or zero, [p] itself
    becomes writable and every store shows in it: right for the last user, but
    frames outside the pool always count zero, and the pages of a program
    loaded at 0x400000 are such frames, so two tasks that share them after a
    fork write into each other's memory.  Every other page of the task keeps
    its translation, the user bit is kept, and a failure (-1) only happens
    when a copy is needed and the pool is exhausted, and changes nothing. *)
Theorem cow_fault_isolates root k own v e r k' :
  kmem_wf k -> pt_wf k root own -> pte_of k root v e ->
  has e PAGE_PRESENT = true -> has e PAGE_COW = true -> user_frame k own (frame e) ->
  paging_handle_cow_fault root v k = (r, k') ->
  (r = 0 /\ cow_resolved k root own v e k'
   \/ r = -1 /\ k' = k /\ 1 < (page_ref_get (frame e) k).1 /\ page_alloc_cur k = PAGE_ALLOC_END)
  /\ (~ PAGE_ALLOC_START <= frame e < PAGE_ALLOC_END ->
       r = 0 /\ phys_of k' root v = Some (frame e) /\ page_refcounts k' = page_refcounts k).
Proof.
  intros Hk Hw (t1 & Hr & He) Hp Hc Hu. rewrite (cow_fault_run _ _ _ _ _ Hr He Hp Hc). intros Hrun. split.
  2: { intros Hout. rewrite uncounted_get in Hrun by done. cbn iota beta in Hrun.
       rewrite (proj1 (cow_fault_entry (frame e) e (proj1 Hu))) in Hrun. injection Hrun as <- <-.
       destruct (cow_fault_claim root k own v e t1 Hk Hw Hr Hu) as (_ & _ & _ & _ & _ & q & e' & Hq & _ & _ & _ & _ & Hqp & _);
         [by rewrite uncounted_get|].
       rewrite Hqp in Hq by (by rewrite uncounted_get). split_and!; [done|exact Hq|exact (uncounted_dec _ _ Hout)]. }
  revert Hrun. destruct (Z.ltb_spec 1 (page_ref_get (frame e) k).1) as [H1|H1].
  - destruct (memory_alloc_page k) as [q k1] eqn:Ha. destruct (Z.eqb_spec q 0) as [->|Hq].
    + intros [= <- <-]. destruct (alloc_page_null _ _ Hk Ha) as [-> ?]. by right.
    + destruct (alloc_page_fresh _ _ _ Hk Ha Hq) as (_ & _ & Hqa & _).
      cbv zeta. rewrite (proj1 (cow_fault_entry q e Hqa)). intros [= <- <-].
      left. split; [done|]. by eapply cow_fault_copy.
  - rewrite (proj1 (cow_fault_entry (frame e) e (proj1 Hu))). intros [= <- <-].
    left. split; [done|]. by apply cow_fault_claim.
Qed.

(** A task that shares the frame 0x601000 with one other: the state after
    mapping it copy-on-write at 0x401000 and counting two references. *)
Definition cow_boot_map : Z * kmem :=
  paging_map_4kb PML4_ADDR 0x401000 0x601000 (Z.lor PAGE_USER PAGE_COW) boot_tables.
Definition cow_boot_page : Z * kmem := memory_alloc_page cow_boot_map.2.
Definition cow_boot : kmem := (page_ref_inc 0x601000 (page_ref_inc 0x601000 cow_boot_page.2).2).2.
Definition cow_boot_own : gmap Z (nat * Z) := <[0x600000 := (1%nat, 2)]> boot_own.

Lemma cow_boot_wf : kmem_wf cow_boot /\ pt_wf cow_boot PML4_ADDR cow_boot_own.
Proof.
  destruct boot_tables_wf as [Hk Hw]. split.
  - destruct cow_boot_map as [r k1] eqn:E1.
    destruct (map_4kb_run PML4_ADDR boot_tables boot_own 0x401000 0x601000
      (Z.lor PAGE_USER PAGE_COW) r k1 Hk Hw (eq_refl : aligned 0x601000) ltac:(lia)
      ltac:(cbv; split; [discriminate|reflexivity]) E1) as (own' & K1 & _).
    unfold cow_boot. apply page_ref_inc_wf, page_ref_inc_wf.
    unfold cow_boot_page. rewrite E1. cbn [snd].
    destruct (memory_alloc_page k1) as [q k2] eqn:E2. by eapply alloc_page_wf.
  - apply pt_check_sound. vm_compute. reflexivity.
Qed.

Lemma cow_fault_isolates_witness :
  exists k', paging_handle_cow_fault PML4_ADDR 0x401008 cow_boot = (0, k')
    /\ phys_of k' PML4_ADDR 0x401000 = Some 0x602000
    /\ cow_resolved cow_boot PML4_ADDR cow_boot_own 0x401008 0x601207 k'.
Proof.
  destruct cow_boot_wf as [Hk Hw].
  destruct (paging_handle_cow_fault PML4_ADDR 0x401008 cow_boot) as [r k'] eqn:E.
  assert (Hk' : k' = (paging_handle_cow_fault PML4_ADDR 0x401008 cow_boot).2) by (by rewrite E).
  assert (Hpte : pte_of cow_boot PML4_ADDR 0x401008 0x601207).
  { exists 0x600000. vm_compute. repeat split; reflexivity || discriminate. }
  assert (Hu : user_frame cow_boot cow_boot_own (frame 0x601207)).
  { change (frame 0x601207) with 0x601000. split_and!; [reflexivity|lia|lia|vm_compute; reflexivity|].
    unfold pool_free. change (page_alloc_cur cow_boot) with 0x602000. lia. }
  destruct (cow_fault_isolates _ _ _ _ _ _ _ Hk Hw Hpte eq_refl eq_refl Hu E)
    as [[[-> Hres]|(_ & _ & _ & Hfull)] _].
  - exists k'. split; [reflexivity|]. split; [|exact Hres]. rewrite Hk'. vm_compute. reflexivity.
  - exfalso. vm_compute in Hfull. discriminate.
Defined.

(** ** Sharing a huge page at fork

    The program's own pages are below the pool: sharing them counts nothing,
    so the fault above takes them in place for every task. *)

Lemma cow_huge_uncounted src dst huge_phys huge_flags k :
  0 <= huge_phys -> huge_phys + 512 * 4096 <= PAGE_ALLOC_START ->
  page_refcounts (cow_huge src dst huge_phys huge_flags k).2 = page_refcounts k.
Proof.
  intros H0 H1. unfold cow_huge. unfold PAGE_ALLOC_START in H1.
  assert (Hgen : forall n i k, 0 <= i -> i + Z.of_nat n <= 512 -> forall body,
    (forall i k, 0 <= i < 512 -> page_refcounts (body i k).2 = page_refcounts k) ->
    page_refcounts (for_loop n i body k).2 = page_refcounts k).
  { clear. induction n as [|n IH]; intros i k Hi Hn body Hb; [done|]. cbn [for_loop]. unfold bind.
    pose proof (Hb i k ltac:(lia)) as E. destruct (body i k) as [u k1]. cbn [snd] in E.
    rewrite <- E. apply IH; (done || lia). }
  apply Hgen; [lia|lia|]. intros i k1 Hi.
  assert (Hp : u64 (huge_phys + i * 4096) = huge_phys + i * 4096) by (apply u64_small; lia).
  rewrite Hp. unfold bind, st64, modify. cbn [snd]. unfold page_ref_inc, modify. cbn [snd].
  rewrite uncounted_idx by (unfold PAGE_ALLOC_START; lia). done.
Qed.

(** ** Sharing a page table at fork *)

Definition cow_bits (e : Z) : Z := Z.lor (Z.land (low12 e) (u64 (Z.lnot PAGE_RW))) PAGE_COW.
Definition cow_entry (e : Z) : Z := frame e + cow_bits e.

Lemma cow_bits_range e : 0 <= cow_bits e < 4096.
Proof. apply lor_flags; [apply land_mask_range|cbv; done]. Qed.

Lemma frame_range e : 0 <= e < 2 ^ 64 -> 0 <= frame e < 2 ^ 64.
Proof. intros. rewrite frame_div by done. zlia. Qed.

Lemma cow_entry_spec e :
  0 <= e < 2 ^ 64 ->
  u64 (Z.lor (frame e) (cow_bits e)) = cow_entry e
  /\ frame (cow_entry e) = frame e /\ low12 (cow_entry e) = cow_bits e
  /\ has (cow_entry e) PAGE_RW = false /\ has (cow_entry e) PAGE_COW = true
  /\ has (cow_entry e) PAGE_PRESENT = has e PAGE_PRESENT
  /\ has (cow_entry e) PAGE_USER = has e PAGE_USER.
Proof.
  intros He. pose proof (frame_aligned e He) as Ha. pose proof (cow_bits_range e) as Hb.
  pose proof (frame_range e He) as Hr. unfold cow_entry. split_and!.
  - rewrite lor_entry0 by done. apply u64_small. by apply entry_u64.
  - by apply frame_entry64.
  - by apply low12_entry.
  - rewrite has_entry by (done || (cbv; done)). unfold cow_bits.
    by rewrite has_lor, has_mask by reflexivity.
  - rewrite has_entry by (done || (cbv; done)). unfold cow_bits.
    rewrite has_lor. apply orb_true_r.
  - rewrite has_entry by (done || (cbv; done)). unfold cow_bits.
    rewrite has_lor, has_mask_keep by reflexivity.
    rewrite <- (has_low12 e) by (cbv; done). apply orb_false_r.
  - rewrite has_entry by (done || (cbv; done)). unfold cow_bits.
    rewrite has_lor, has_mask_keep by reflexivity.
    rewrite <- (has_low12 e) by (cbv; done). apply orb_false_r.
Qed.

(** How many entries of the table at [src], from [i] on, map the pool page [x]. *)
Definition maps_page (m : mem) (src i x : Z) : bool :=
  let e := load64 m (ent src i) in
  has e PAGE_PRESENT && (phys_to_idx (frame e) =? phys_to_idx x).
Fixpoint mappings (m : mem) (src : Z) (rounds : nat) (i x : Z) : Z :=
  match rounds with
  | O => 0
  | S r => b2z (maps_page m src i x) + mappings m src r (i + 1) x
  end.

Lemma mappings_ext m m' src r i x :
  (forall j, i <= j < i + Z.of_nat r -> load64 m' (ent src j) = load64 m (ent src j)) ->
  mappings m' src r i x = mappings m src r i x.
Proof.
  revert i. induction r as [|r IH]; intros i H; cbn [mappings]; [done|].
  unfold maps_page. rewrite H by lia. rewrite IH; [done|]. intros. apply H. lia.
Qed.

(** The state after sharing entries [i, i + r). *)
Definition shared (k : kmem) (src dst i : Z) (r : nat) (k' : kmem) : Prop :=
  kmem_wf k' /\ page_alloc_cur k' = page_alloc_cur k
  /\ (forall j, i <= j < i + Z.of_nat r ->
        let e := load64 (phys k) (ent src j) in
        if has e PAGE_PRESENT
        then load64 (phys k') (ent src j) = cow_entry e /\ load64 (phys k') (ent dst j) = cow_entry e
        else load64 (phys k') (ent src j) = e /\ load64 (phys k') (ent dst j) = 0)
  /\ (forall a, (a < ent src i \/ ent src (i + Z.of_nat r) <= a) ->
                (a < ent dst i \/ ent dst (i + Z.of_nat r) <= a) ->
                load8 (phys k') a = load8 (phys k) a)
  /\ (forall x, 0 <= phys_to_idx x ->
        (page_ref_get x k').1 = u32 ((page_ref_get x k).1 + 2 * mappings (phys k) src r i x)).

Lemma page_ref_inc_phys p k : phys (page_ref_inc p k).2 = phys k
  /\ page_alloc_cur (page_ref_inc p k).2 = page_alloc_cur k.
Proof. unfold page_ref_inc, modify. cbn [snd]. by destruct (_ <=? _). Qed.

Lemma refs_range p k : kmem_wf k -> 0 <= (page_ref_get p k).1 < 2 ^ 32.
Proof.
  intros Hk. unfold page_ref_get, gets. cbn [fst]. destruct (_ <? 0); [lia|].
  by apply refcount_at_range.
Qed.

Lemma share_refs p x k :
  kmem_wf k -> 0 <= phys_to_idx x ->
  forall k1 k2, page_refcounts k1 = page_refcounts k -> kmem_wf k1 ->
  page_refcounts k2 = page_refcounts (page_ref_inc p k1).2 -> kmem_wf k2 ->
  (page_ref_get x (page_ref_inc p k2).2).1 =
    u32 ((page_ref_get x k).1 + 2 * b2z (phys_to_idx p =? phys_to_idx x)).
Proof.
  intros Hk Hx k1 k2 H1 Hw1 H2 Hw2. pose proof (refs_range x k Hk).
  rewrite !ref_get_inc, (page_ref_get_ext x _ k2 H2), ref_get_inc, (page_ref_get_ext x _ k1 H1) by done.
  destruct (Z.eqb_spec (phys_to_idx p) (phys_to_idx x)) as [Heq|Hne]; cbn [b2z].
  - rewrite !decide_True by done. unfold u32. rewrite Z.add_mod_idemp_l by lia. f_equal. lia.
  - rewrite !decide_False by tauto. rewrite Z.mul_0_r, Z.add_0_r. by rewrite u32_small by lia.
Qed.

Lemma pte_set_cow_run a k :
  pte_set_cow a k =
    page_ref_inc (frame (load64 (phys k) a))
      (set_phys (store64 (phys k) a
        (Z.lor (frame (load64 (phys k) a)) (cow_bits (load64 (phys k) a)))) k).
Proof. done. Qed.

Lemma cow_small_body_run src dst i k :
  let e := load64 (phys k) (ent src i) in
  has e PAGE_PRESENT = true ->
  exists k2, k2 = (page_ref_inc (frame e)
                    (set_phys (store64 (phys k) (ent src i) (Z.lor (frame e) (cow_bits e))) k)).2
  /\ load64 (phys k2) (ent src i) = cow_entry e
  /\ (cow_small_body src dst i k).2 =
      (page_ref_inc (frame e)
        (set_phys (store64 (phys k2) (ent dst i) (Z.lor (frame e) (cow_bits e))) k2)).2.
Proof.
  intros e Hp. pose proof (load64_u64 (phys k) (ent src i) : 0 <= e < 2 ^ 64) as He.
  destruct (cow_entry_spec e He) as (E1 & _ & E3 & _).
  eexists. split; [reflexivity|].
  match goal with |- load64 (phys ?k2) _ = _ /\ _ => set (k' := k2) end.
  assert (L1 : load64 (phys k') (ent src i) = cow_entry e).
  { unfold k'. rewrite (proj1 (page_ref_inc_phys _ _)). cbn [phys set_phys].
    rewrite load64_store64_eq. exact E1. }
  split; [exact L1|]. unfold cow_small_body. rewrite bind_ld64. fold e. rewrite Hp. cbn [negb].
  unfold bind at 1. rewrite pte_set_cow_run. fold e.
  destruct (page_ref_inc (frame e) _) as [u k2] eqn:Ei.
  cbn [snd] in k'. rewrite bind_ld64, bind_st64. change k2 with k'. by rewrite L1, E3.
Qed.

Lemma cow_small_body_shared k src dst i :
  kmem_wf k -> aligned src -> aligned dst -> src <> dst -> 0 <= i < 512 ->
  shared k src dst i 1 (cow_small_body src dst i k).2.
Proof.
  intros Hk Hs Hd Hne Hi. set (e := load64 (phys k) (ent src i)).
  pose proof (load64_u64 (phys k) (ent src i) : 0 <= e < 2 ^ 64) as He.
  destruct (has e PAGE_PRESENT) eqn:Hp.
  - destruct (cow_entry_spec e He) as (E1 & _).
    destruct (cow_small_body_run src dst i k Hp) as (k2 & Hk2 & L1 & ->). fold e in Hk2, L1 |- *.
    set (k1 := set_phys _ k) in Hk2. set (k3 := set_phys _ k2).
    destruct (page_ref_inc_phys (frame e) k1) as [P1 P2]. rewrite <- Hk2 in P1, P2.
    destruct (page_ref_inc_phys (frame e) k3) as [P3 P4].
    assert (Hw1 : kmem_wf k1) by (by apply set_phys_wf).
    assert (Hw3 : kmem_wf k3) by (apply set_phys_wf; rewrite Hk2; by apply page_ref_inc_wf).
    unfold shared. cbn [mappings]. unfold maps_page. fold e. rewrite Hp. cbn [andb].
    split_and!; [by apply page_ref_inc_wf|rewrite P4; unfold k3; cbn; by rewrite P2| | |].
    + intros j Hj. replace j with i by lia. fold e. cbv zeta. rewrite Hp, P3. unfold k3.
      cbn [phys set_phys]. split.
      * rewrite ld_st_ne by (done || tauto || (left; congruence)). exact L1.
      * rewrite load64_store64_eq. exact E1.
    + intros a Ha1 Ha2. rewrite P3. unfold k3. cbn [phys set_phys].
      rewrite load8_store64_ne by (unfold ent in *; lia). rewrite P1. unfold k1. cbn [phys set_phys].
      apply load8_store64_ne. unfold ent in *; lia.
    + intros x Hx. rewrite Z.add_0_r. apply (share_refs _ _ k Hk Hx k1); try done.
      unfold k3. cbn. by rewrite Hk2.
  - unfold cow_small_body. rewrite bind_ld64. fold e. rewrite Hp. cbn [negb].
    unfold shared. cbn [mappings]. unfold maps_page. fold e. rewrite Hp. cbn [andb].
    split_and!; [by apply set_phys_wf|done| | |].
    + intros j Hj. replace j with i by lia. fold e. cbv zeta. rewrite Hp.
      unfold st64, modify. cbn [snd phys set_phys]. split.
      * by rewrite ld_st_ne by (done || tauto || (left; congruence)).
      * by rewrite load64_store64_eq.
    + intros a Ha1 Ha2. unfold st64, modify. cbn [snd phys set_phys].
      apply load8_store64_ne. unfold ent in *; lia.
    + intros x Hx. cbn [b2z]. replace (_ + 2 * (0 + 0)) with (page_ref_get x k).1 by lia.
      rewrite u32_small by (by apply refs_range). done.
Qed.

Lemma shared_0 k src dst i : kmem_wf k -> shared k src dst i 0 k.
Proof.
  intros Hk. split_and!; [done|done|intros; lia|done|].
  intros x _. cbn [mappings]. rewrite Z.mul_0_r, Z.add_0_r. by rewrite u32_small by (by apply refs_range).
Qed.

Lemma shared_step k k1 k2 src dst i r :
  aligned src -> aligned dst -> src <> dst -> 0 <= i -> i + 1 + Z.of_nat r <= 512 -> kmem_wf k ->
  shared k src dst i 1 k1 -> shared k1 src dst (i + 1) r k2 -> shared k src dst i (S r) k2.
Proof.
  intros Hs Hd Hne Hi Hb Hk (A1 & A2 & A3 & A4 & A5) (B1 & B2 & B3 & B4 & B5).
  assert (Hd' := aligned_apart src dst Hs Hd Hne).
  assert (Hkeep : forall j, i + 1 <= j < 512 -> load64 (phys k1) (ent src j) = load64 (phys k) (ent src j)).
  { intros j Hj. apply load64_ext. intros a Ha. apply A4; unfold ent in *; lia. }
  assert (Hfirst : forall t, t = src \/ t = dst -> load64 (phys k2) (ent t i) = load64 (phys k1) (ent t i)).
  { intros t Ht. apply load64_ext. intros a Ha. apply B4; unfold ent in *; destruct Ht; subst t; lia. }
  split_and!; [exact B1|lia| | |].
  - intros j Hj. destruct (decide (j = i)) as [->|].
    + rewrite !Hfirst by tauto. apply A3. lia.
    + specialize (B3 j ltac:(lia)). cbv zeta in *. by rewrite Hkeep in B3 by lia.
  - intros a Ha1 Ha2. rewrite B4 by (unfold ent in *; lia). apply A4; unfold ent in *; lia.
  - intros x Hx. rewrite B5, A5 by done. cbn [mappings]. rewrite Z.add_0_r.
    rewrite (mappings_ext (phys k)); [|intros j Hj; apply Hkeep; lia]. unfold u32.
    rewrite Z.add_mod_idemp_l by lia. f_equal. lia.
Qed.

Lemma cow_small_loop k src dst r i :
  kmem_wf k -> aligned src -> aligned dst -> src <> dst -> 0 <= i -> i + Z.of_nat r <= 512 ->
  shared k src dst i r (for_loop r i (cow_small_body src dst) k).2.
Proof.
  intros Hk Hs Hd Hne. revert i k Hk. induction r as [|r IH]; intros i k Hk Hi Hb; cbn [for_loop].
  - by apply shared_0.
  - unfold bind. pose proof (cow_small_body_shared k src dst i Hk Hs Hd Hne ltac:(lia)) as H1.
    destruct (cow_small_body src dst i k) as [u k1]. cbn [snd] in H1.
    eapply shared_step; try done; try lia. apply IH; [apply H1|lia|lia].
Qed.

(** C29: fork shares a page table read-only.  After the loop of
    [paging_cow_clone_user] over the tables [src] (the parent's) and [dst]
    (the child's), each present entry of the parent and the child's entry
    beside it are the same: the old frame and user bit, copy-on-write set and
    the write bit clear, so neither can write the frame; an absent entry is
    absent in both.  Each mapping of a pool page adds two to its count, and
    no byte outside the two tables changes. *)
Theorem cow_small_shares_table k src dst :
  kmem_wf k -> aligned src -> aligned dst -> src <> dst ->
  let k' := (cow_small src dst k).2 in
  kmem_wf k'
  /\ (forall i, 0 <= i < 512 ->
        let e := load64 (phys k) (ent src i) in
        let s := load64 (phys k') (ent src i) in
        let d := load64 (phys k') (ent dst i) in
        if has e PAGE_PRESENT
        then s = d /\ frame s = frame e /\ has s PAGE_PRESENT = true /\ has s PAGE_RW = false
             /\ has s PAGE_COW = true /\ has s PAGE_USER = has e PAGE_USER
        else s = e /\ d = 0)
  /\ (forall a, ~ src <= a < src + 4096 -> ~ dst <= a < dst + 4096 ->
        load8 (phys k') a = load8 (phys k) a)
  /\ (forall x, 0 <= phys_to_idx x ->
        (page_ref_get x k').1 = u32 ((page_ref_get x k).1 + 2 * mappings (phys k) src 512 0 x)).
Proof.
  intros Hk Hs Hd Hne k'.
  destruct (cow_small_loop k src dst 512 0 Hk Hs Hd Hne) as (A1 & _ & A3 & A4 & A5); [lia|lia|].
  fold (cow_small src dst) in A1, A3, A4, A5. fold k' in A1, A3, A4, A5.
  split_and!; [exact A1| | |exact A5].
  - intros i Hi e s d. specialize (A3 i ltac:(lia)). cbv zeta in A3. fold e s d in A3.
    pose proof (load64_u64 (phys k) (ent src i) : 0 <= e < 2 ^ 64) as He.
    destruct (cow_entry_spec e He) as (_ & E2 & _ & E4 & E5 & E6 & E7).
    destruct (has e PAGE_PRESENT); [|exact A3]. destruct A3 as [-> ->].
    split_and!; assumption || reflexivity.
  - intros a Ha1 Ha2. apply A4; unfold ent in *; lia.
Qed.

Lemma cow_small_shares_table_witness :
  let k' := (cow_small 0x600000 0x602000 cow_boot).2 in
  load64 (phys k') (ent 0x600000 1) = load64 (phys k') (ent 0x602000 1).
Proof.
  destruct cow_boot_wf as [Hk _].
  destruct (cow_small_shares_table cow_boot 0x600000 0x602000 Hk eq_refl eq_refl ltac:(lia))
    as (_ & H & _).
  specialize (H 1 ltac:(lia)). cbv zeta in H.
  replace (has (load64 (phys cow_boot) (ent 0x600000 1)) PAGE_PRESENT) with true in H
    by (vm_compute; reflexivity).
  exact (proj1 H).
Defined.

(** ** Demand paging *)

Lemma phys_of_page_no k root v w : page_no v = page_no w -> phys_of k root v = phys_of k root w.
Proof.
  intros Hpg. destruct (same_page_path _ _ Hpg) as [Hpre Hi].
  pose proof (pre_up _ _ Hpre) as Hup. unfold phys_of.
  assert (H : forall L t, (L <= 4)%nat -> resolve (phys k) L t v = resolve (phys k) L t w).
  { induction L as [|L IH]; intros t HL; [done|]. cbn [resolve]. rewrite Hi.
    assert (idx (S L) v = idx (S L) w) as ->.
    { destruct L as [|L']; [exact Hi|]. apply Hup. lia. }
    rewrite !IH by lia. done. }
  by apply H.
Qed.

Lemma page_no_frame v : 0 <= v < 2 ^ 64 -> page_no (frame v) = page_no v.
Proof. intros. unfold page_no. rewrite frame_div by done. by rewrite Z.div_mul. Qed.

Lemma demand_entry q flags :
  aligned q -> 0 <= flags < 4096 ->
  Z.lor (Z.lor q flags) PAGE_PRESENT = q + Z.lor flags PAGE_PRESENT
  /\ 0 <= Z.lor flags PAGE_PRESENT < 4096 /\ has (Z.lor flags PAGE_PRESENT) PAGE_PRESENT = true.
Proof.
  intros Hq Hf. split_and!.
  - rewrite (lor_entry0 q flags) by done. by rewrite lor_entry by (done || (cbv; done)).
  - apply lor_flags; [done|cbv; done].
  - apply (lor_flags flags PAGE_PRESENT); [done|cbv; done].
  - rewrite has_lor. apply orb_true_r.
Qed.

(** A fresh page behind an absent entry. *)
Lemma demand_map root k own v t1 flags q k1 :
  kmem_wf k -> pt_wf k root own -> reaches (phys k) 4 root v t1 -> 0 <= flags < 4096 ->
  memory_alloc_page k = (q, k1) -> q <> 0 ->
  let k' := set_phys (store64 (phys k1) (ent t1 (idx 1 v)) (Z.lor (Z.lor q flags) PAGE_PRESENT)) k1 in
  kmem_wf k' /\ pt_wf k' root own /\ q = page_alloc_cur k /\ phys_of k' root v = Some q
  /\ pte_of k' root v (q + Z.lor flags PAGE_PRESENT)
  /\ (forall i, 0 <= i < 4096 -> load8 (phys k') (q + i) = 0)
  /\ (forall w, page_no w <> page_no v -> phys_of k' root w = phys_of k root w).
Proof.
  intros Hk Hw Hr Hf Ha Hq k'.
  destruct (alloc_page_fresh _ _ _ Hk Ha Hq) as (H1 & H2 & H3 & H4 & H5 & H6 & _).
  destruct (alloc_same _ _ _ _ _ Hk Hw Ha Hq) as [Hs Hw1].
  assert (Hroot : own !! root = Some (4%nat, pre 4 v)) by (rewrite pre_4; apply Hw).
  pose proof (reaches_same _ _ _ _ _ _ _ _ Hw Hs Hroot Hr) as Hr1.
  destruct (demand_entry q flags H3 Hf) as (E1 & E2 & E3).
  unfold PAGE_ALLOC_START, PAGE_ALLOC_END in *.
  unfold k'. rewrite E1.
  destruct (cow_finish root k1 own v t1 (Z.lor flags PAGE_PRESENT) q)
    as (F1 & F2 & F3 & F4 & F5 & F6);
    [by eapply alloc_page_wf|exact Hw1|exact Hr1|exact H3|lia|exact E2|exact E3|].
  destruct (fresh_page _ _ _ _ _ Hk Hw Ha Hq) as [_ Hqn].
  split_and!; [exact F1|exact F2|exact H1|exact F4|exact F3| |].
  - intros i Hi. rewrite F6; [by rewrite H6, decide_True by lia|].
    intros t lx Ht. specialize (Hqn _ _ Ht). lia.
  - intros w Hpg. rewrite F5 by done. by eapply phys_of_same.
Qed.

(** C30: a demand fault maps one zeroed page.  When the address is in no region
    the answer is -1 and nothing changes.  In a region, a page that is
    already mapped stays as it is; a missing page becomes a fresh page of the
    pool that reads as zeros, with the region's flags; a failure means the
    pool is exhausted and no translation has changed.  No other page is
    remapped. *)
Theorem demand_fault_maps_zero_page root k own v regions r k' :
  kmem_wf k -> pt_wf k root own -> 0 <= v < 2 ^ 64 ->
  Forall (fun rg => 0 <= vr_flags rg < 4096) regions ->
  paging_handle_demand_fault root v (Some regions) k = (r, k') ->
  match vm_region_contains regions v with
  | None => r = -1 /\ k' = k
  | Some flags =>
      (forall w, page_no w <> page_no v -> phys_of k' root w = phys_of k root w)
      /\ (exists own', kmem_wf k' /\ pt_wf k' root own')
      /\ (r = -1 /\ page_alloc_cur k' = PAGE_ALLOC_END /\ phys_of k' root v = phys_of k root v
          \/ r = 0 /\ is_Some (phys_of k root v) /\ phys_of k' root v = phys_of k root v
          \/ r = 0 /\ phys_of k root v = None /\ exists q,
               phys_of k' root v = Some q /\ page_alloc_cur k <= q
               /\ (forall i, 0 <= i < 4096 -> load8 (phys k') (q + i) = 0)
               /\ pte_of k' root (frame v) (q + Z.lor flags PAGE_PRESENT))
  end.
Proof.
  intros Hk Hw Hv Hfl Hrun. unfold paging_handle_demand_fault in Hrun. cbv zeta in Hrun.
  destruct (vm_region_contains regions v) as [flags|] eqn:Hc; [|by injection Hrun as <- <-].
  assert (Hf : 0 <= flags < 4096).
  { clear - Hfl Hc. induction Hfl as [|rg rs H1 _ IH]; cbn [vm_region_contains] in Hc; [done|].
    destruct (slot_free rg); [by apply IH|]. destruct (_ && _); [congruence|by apply IH]. }
  pose proof (page_no_frame v Hv) as Hpn.
  assert (Hpv : forall k0, phys_of k0 root v = phys_of k0 root (frame v))
    by (intros k0; apply phys_of_page_no; congruence).
  destruct (paging_walk_4kb root (frame v) true k) as [pte k1] eqn:Ew.
  rewrite (bind_run _ _ _ _ _ Ew) in Hrun.
  destruct (walk_spec _ _ _ _ _ _ Hk Hw Ew) as (own' & G & Hpte).
  assert (Hsame : forall w, phys_of k1 root w = phys_of k root w) by apply G.
  destruct pte as [a|].
  2: { injection Hrun as <- <-. split_and!; [auto|exists own'; split; apply G|left].
       by rewrite Hsame. }
  destruct Hpte as (t1 & -> & Hr). rewrite bind_ld64 in Hrun.
  set (e := load64 (phys k1) (ent t1 (idx 1 (frame v)))) in *.
  assert (Hleaf : phys_of k root v = leaf e).
  { rewrite <- Hsame, Hpv. apply pte_phys. by exists t1. }
  destruct (has e PAGE_PRESENT) eqn:Hp.
  { injection Hrun as <- <-. split_and!; [auto|exists own'; split; apply G|right; left].
    rewrite Hsame, Hleaf. unfold leaf. rewrite Hp. done. }
  destruct (memory_alloc_page k1) as [q k2] eqn:Ha. rewrite (bind_run _ _ _ _ _ Ha) in Hrun.
  destruct (Z.eqb_spec q 0) as [->|Hq].
  { injection Hrun as <- <-. destruct (alloc_page_null _ _ (gr_kmem _ _ _ _ _ G) Ha) as [-> Hfull].
    split_and!; [auto|exists own'; split; apply G|left]. by rewrite Hsame. }
  rewrite bind_st64 in Hrun. injection Hrun as <- <-.
  destruct (demand_map root k1 own' (frame v) t1 flags q k2 (gr_kmem _ _ _ _ _ G)
    (gr_wf _ _ _ _ _ G) Hr Hf Ha Hq) as (D1 & D2 & D3 & D4 & D5 & D6 & D7).
  pose proof (gr_cur _ _ _ _ _ G).
  split_and!; [|by exists own'|right; right].
  - intros w Hpg. rewrite D7 by congruence. apply Hsame.
  - split_and!; [done|by rewrite Hleaf; unfold leaf; rewrite Hp|].
    exists q. split_and!; [by rewrite Hpv|lia|exact D6|exact D5].
Qed.

Lemma demand_fault_maps_zero_page_witness :
  exists k', paging_handle_demand_fault PML4_ADDR 0x80001234
      (Some [VmRegion 0x80000000 0x80010000 PAGE_USER]) boot_tables = (0, k')
    /\ phys_of k' PML4_ADDR 0x401000 = Some 0x401000.
Proof.
  destruct boot_tables_wf as [Hk Hw].
  destruct (paging_handle_demand_fault PML4_ADDR 0x80001234
    (Some [VmRegion 0x80000000 0x80010000 PAGE_USER]) boot_tables) as [r k'] eqn:E.
  destruct (demand_fault_maps_zero_page PML4_ADDR boot_tables boot_own 0x80001234
    [VmRegion 0x80000000 0x80010000 PAGE_USER] r k' Hk Hw ltac:(lia)
    ltac:(repeat constructor; cbv; discriminate || reflexivity) E) as (Hsame & _).
  assert (Hr : r = 0) by (change r with (r, k').1; rewrite <- E; vm_compute; reflexivity).
  exists k'. split; [by rewrite Hr|]. rewrite Hsame by (vm_compute; discriminate).
  vm_compute. reflexivity.
Defined.
