(* ===== verification/Pipe.v ===== *)
(** * Pipes ([src/kernel/pipe.c])

    A pipe is a ring of 4096 bytes with open flags and reference counts for
    its two ends.  A call that would block is cut at the point where it
    sleeps: an operation runs until it returns or until it stores itself in
    [blocked_reader] / [blocked_writer] and calls [task_block]; it is resumed
    by a later call of the same step.  What an operation does to other tasks
    is the list of those it wakes ([task_wakeup]).  [pipe_hist] lets any
    number of tasks interleave such steps; the bytes that were read are then
    always a prefix of the bytes that were written. *)

From S2P Require Import Prelude.

Definition PIPE_BUF_SIZE : Z := 4096.
Definition MAX_PIPES : nat := 32.
Definition FD_PIPE_READ : Z := 1.
Definition FD_PIPE_WRITE : Z := 2.

Record pipe := Pipe {
  p_buf : list Z;
  p_head : Z;
  p_tail : Z;
  p_count : Z;
  p_read_open : bool;
  p_write_open : bool;
  p_read_refcnt : Z;
  p_write_refcnt : Z;
  p_blocked_reader : option nat;   (* struct task*, by its slot; None is NULL *)
  p_blocked_writer : option nat;
  p_used : bool
}.

(** [pipe_init] zeroes the pool. *)
Definition pipe_zero : pipe :=
  Pipe (replicate (Z.to_nat PIPE_BUF_SIZE) 0) 0 0 0 false false 0 0 None None false.
Definition pipe_init : list pipe := replicate MAX_PIPES pipe_zero.

(** What [pipe_create] does to the slot it takes. *)
Definition pipe_open (p : pipe) : pipe :=
  Pipe (p_buf p) 0 0 0 true true 0 0 None None true.

(** [Some i]: [&pipe_pool[i]]; [None]: NULL. *)
Fixpoint pipe_create (pool : list pipe) : option nat * list pipe :=
  match pool with
  | [] => (None, [])
  | p :: rest =>
      if negb (p_used p) then (Some 0%nat, pipe_open p :: rest)
      else let '(r, rest') := pipe_create rest in (S <$> r, p :: rest')
  end.

Definition set_ring (buf : list Z) (head tail count : Z) (p : pipe) : pipe :=
  Pipe buf head tail count (p_read_open p) (p_write_open p) (p_read_refcnt p) (p_write_refcnt p)
    (p_blocked_reader p) (p_blocked_writer p) (p_used p).
Definition set_blocked (r w : option nat) (p : pipe) : pipe :=
  Pipe (p_buf p) (p_head p) (p_tail p) (p_count p) (p_read_open p) (p_write_open p)
    (p_read_refcnt p) (p_write_refcnt p) r w (p_used p).
Definition set_ends (ro wo : bool) (rr wr : Z) (used : bool) (p : pipe) : pipe :=
  Pipe (p_buf p) (p_head p) (p_tail p) (p_count p) ro wo rr wr
    (p_blocked_reader p) (p_blocked_writer p) used.

Definition wake (t : option nat) : list nat := match t with Some i => [i] | None => [] end.

(** ** Reading *)

(** [while (total < len && pipe->count > 0)] with [len - total] rounds left;
    the bytes stored into [buf], in order. *)
Fixpoint read_loop (rounds : nat) (p : pipe) : list Z * pipe :=
  match rounds with
  | O => ([], p)
  | S n =>
      if 0 <? p_count p then
        let c := default 0 (p_buf p !! Z.to_nat (p_tail p)) in
        let p1 := set_ring (p_buf p) (p_head p) (u32 (p_tail p + 1) mod PIPE_BUF_SIZE)
                    (u32 (p_count p - 1)) p in
        let '(out, p2) := read_loop n p1 in
        (c :: out, p2)
      else ([], p)
  end.

Inductive read_result :=
| ReadDone (ret : Z) (data : list Z) (p : pipe) (woken : list nat)
| ReadBlock (p : pipe).      (* task_block(current_task) has been called *)

(** From the head of the [while (pipe->count == 0)] loop. *)
Definition pipe_read_go (cur : nat) (len : Z) (p : pipe) : read_result :=
  if p_count p =? 0 then
    if negb (p_write_open p) then ReadDone 0 [] p []
    else ReadBlock (set_blocked (Some cur) (p_blocked_writer p) p)
  else
    let '(data, p1) := read_loop (Z.to_nat len) p in
    ReadDone (i32 (Z.of_nat (length data))) data
      (set_blocked (p_blocked_reader p1) None p1) (wake (p_blocked_writer p1)).

(** [buf] is the address of the buffer; a NULL [pipe] is a case of the caller. *)
Definition pipe_read (cur : nat) (buf len : Z) (p : pipe) : read_result :=
  if (buf =? 0) || (len <=? 0) then ReadDone (-1) [] p [] else pipe_read_go cur len p.

(** [task_block] returns: the loop goes on. *)
Definition pipe_read_resume (cur : nat) (len : Z) (p : pipe) : read_result :=
  pipe_read_go cur len (set_blocked None (p_blocked_writer p) p).

(** ** Writing *)

(** [for (int i = 0; i < chunk; i++)]. *)
Fixpoint write_loop (bs : list Z) (buf : list Z) (head : Z) : list Z * Z :=
  match bs with
  | [] => (buf, head)
  | b :: bs' => write_loop bs' (<[Z.to_nat head := b]> buf) (u32 (head + 1) mod PIPE_BUF_SIZE)
  end.

Inductive write_result :=
| WriteDone (ret : Z) (p : pipe) (woken : list nat)
| WriteBlock (total : nat) (p : pipe) (woken : list nat).

Definition write_fail (total : nat) : Z := if (0 <? Z.of_nat total) then i32 (Z.of_nat total) else -1.

(** The bytes moved by one round of the outer loop. *)
Definition write_chunk (data : list Z) (total : nat) (p : pipe) : nat :=
  let space := i32 (PIPE_BUF_SIZE - p_count p) in
  let chunk := i32 (Z.of_nat (length data) - Z.of_nat total) in
  Z.to_nat (if space <? chunk then space else chunk).

Definition write_round (data : list Z) (total : nat) (p : pipe) : nat * pipe * list nat :=
  let chunk := write_chunk data total p in
  let '(buf, head) := write_loop (take chunk (drop total data)) (p_buf p) (p_head p) in
  let p1 := set_ring buf head (p_tail p) (u32 (p_count p + Z.of_nat chunk)) p in
  ((total + chunk)%nat, set_blocked None (p_blocked_writer p1) p1, wake (p_blocked_reader p1)).

(** The outer loop from [while (total < len)], [data] being the [len] bytes. *)
Fixpoint write_go (fuel : nat) (cur : nat) (data : list Z) (total : nat) (p : pipe) (woken : list nat)
    : option write_result :=
  match fuel with
  | O => None
  | S f =>
      if negb (total <? length data)%nat then Some (WriteDone (i32 (Z.of_nat total)) p woken)
      else if PIPE_BUF_SIZE <=? p_count p then
        if negb (p_read_open p) then Some (WriteDone (write_fail total) p woken)
        else Some (WriteBlock total (set_blocked (p_blocked_reader p) (Some cur) p) woken)
      else
        let '(total', p', w) := write_round data total p in
        write_go f cur data total' p' (woken ++ w)
  end.

(** Two rounds fill the pipe or move everything; the third sees that. *)
Definition write_fuel : nat := 3.

(** [data] are the [len] bytes at [buf]. *)
Definition pipe_write (cur : nat) (buf : Z) (data : list Z) (p : pipe) : option write_result :=
  if (buf =? 0) || (Z.of_nat (length data) <=? 0) then Some (WriteDone (-1) p [])
  else if negb (p_read_open p) then Some (WriteDone (-1) p [])
  else write_go write_fuel cur data 0 p [].

(** [task_block] returns inside the inner loop. *)
Definition pipe_write_resume (cur : nat) (data : list Z) (total : nat) (p : pipe)
    : option write_result :=
  let p1 := set_blocked (p_blocked_reader p) None p in
  if negb (p_read_open p1) then Some (WriteDone (write_fail total) p1 [])
  else write_go write_fuel cur data total p1 [].

(** ** Ends and their reference counts: [reader] is C's [end == 0] *)

Definition pipe_close_end (p : pipe) (reader : bool) : pipe * list nat :=
  let '(p1, woken) :=
    if reader then
      let rc := if 0 <? p_read_refcnt p then i32 (p_read_refcnt p - 1) else p_read_refcnt p in
      if rc =? 0
      then (set_blocked None (p_blocked_writer p)
              (set_ends false (p_write_open p) rc (p_write_refcnt p) (p_used p) p),
            wake (p_blocked_reader p))
      else (set_ends (p_read_open p) (p_write_open p) rc (p_write_refcnt p) (p_used p) p, [])
    else
      let wc := if 0 <? p_write_refcnt p then i32 (p_write_refcnt p - 1) else p_write_refcnt p in
      if wc =? 0
      then (set_blocked (p_blocked_reader p) None
              (set_ends (p_read_open p) false (p_read_refcnt p) wc (p_used p) p),
            wake (p_blocked_writer p))
      else (set_ends (p_read_open p) (p_write_open p) (p_read_refcnt p) wc (p_used p) p, []) in
  if negb (p_read_open p1) && negb (p_write_open p1)
  then (set_ends false false (p_read_refcnt p1) (p_write_refcnt p1) false p1, woken)
  else (p1, woken).

Definition pipe_ref_inc (p : pipe) (reader : bool) : pipe :=
  if reader
  then set_ends (p_read_open p) (p_write_open p) (i32 (p_read_refcnt p + 1)) (p_write_refcnt p) (p_used p) p
  else set_ends (p_read_open p) (p_write_open p) (p_read_refcnt p) (i32 (p_write_refcnt p + 1)) (p_used p) p.

Definition pipe_ref_dec (p : pipe) (reader : bool) : pipe * list nat := pipe_close_end p reader.

(** ** The descriptors of a task

    A slot is [fd_type[i]] and [fd_data[i]], the latter the index of a pipe of
    the pool. *)
Abbreviation fd := (Z * option nat)%type.
Definition MAX_FDS : nat := 8.

Definition pool_close (pool : list pipe) (i : option nat) (reader : bool) : list pipe * list nat :=
  match i with
  | None => (pool, [])
  | Some i =>
      match pool !! i with
      | None => (pool, [])
      | Some p => let '(p', w) := pipe_close_end p reader in (<[i := p']> pool, w)
      end
  end.

Definition pool_inc (pool : list pipe) (i : option nat) (reader : bool) : list pipe :=
  match i with
  | None => pool
  | Some i => match pool !! i with None => pool | Some p => <[i := pipe_ref_inc p reader]> pool end
  end.

Fixpoint task_close_fds (fds : list fd) (pool : list pipe) : list fd * list pipe * list nat :=
  match fds with
  | [] => ([], pool, [])
  | (ty, d) :: rest =>
      let '(f, pool1, w) :=
        if ty =? FD_PIPE_READ then
          let '(pool1, w) := pool_close pool d true in ((0, None), pool1, w)
        else if ty =? FD_PIPE_WRITE then
          let '(pool1, w) := pool_close pool d false in ((0, None), pool1, w)
        else ((ty, d), pool, []) in
      let '(rest', pool2, w') := task_close_fds rest pool1 in
      (f :: rest', pool2, w ++ w')
  end.

(** The result is the destination's table. *)
Fixpoint task_copy_fds (src : list fd) (pool : list pipe) : list fd * list pipe :=
  match src with
  | [] => ([], pool)
  | (ty, d) :: rest =>
      let pool1 :=
        if ty =? FD_PIPE_READ then pool_inc pool d true
        else if ty =? FD_PIPE_WRITE then pool_inc pool d false
        else pool in
      let '(rest', pool2) := task_copy_fds rest pool1 in
      ((ty, d) :: rest', pool2)
  end.

(** ** The ring as a queue *)

Definition ring_at (p : pipe) (i : nat) : Z :=
  default 0 (p_buf p !! Z.to_nat ((p_tail p + Z.of_nat i) mod PIPE_BUF_SIZE)).

(** The bytes in the pipe, oldest first. *)
Definition content (p : pipe) : list Z := map (ring_at p) (seq 0 (Z.to_nat (p_count p))).

Record pipe_wf (p : pipe) : Prop := {
  wf_buf : length (p_buf p) = Z.to_nat PIPE_BUF_SIZE;
  wf_tail : 0 <= p_tail p < PIPE_BUF_SIZE;
  wf_count : 0 <= p_count p <= PIPE_BUF_SIZE;
  wf_head : p_head p = (p_tail p + p_count p) mod PIPE_BUF_SIZE
}.

(** The fields the ring operations leave alone. *)
Definition same_rest (p q : pipe) : Prop :=
  p_read_open q = p_read_open p /\ p_write_open q = p_write_open p
  /\ p_read_refcnt q = p_read_refcnt p /\ p_write_refcnt q = p_write_refcnt p
  /\ p_blocked_reader q = p_blocked_reader p /\ p_blocked_writer q = p_blocked_writer p
  /\ p_used q = p_used p.

Lemma length_content p : length (content p) = Z.to_nat (p_count p).
Proof. unfold content. by rewrite length_map, length_seq. Qed.

Lemma content_ext p q :
  p_buf q = p_buf p -> p_tail q = p_tail p -> p_count q = p_count p -> content q = content p.
Proof. intros H1 H2 H3. unfold content, ring_at. by rewrite H1, H2, H3. Qed.

Lemma wf_ext p q :
  p_buf q = p_buf p -> p_head q = p_head p -> p_tail q = p_tail p -> p_count q = p_count p ->
  pipe_wf p -> pipe_wf q.
Proof. intros H1 H2 H3 H4 []. split; congruence. Qed.

(** Taking the oldest byte. *)
Lemma ring_pop p :
  pipe_wf p -> 0 < p_count p ->
  let p1 := set_ring (p_buf p) (p_head p) (u32 (p_tail p + 1) mod PIPE_BUF_SIZE)
              (u32 (p_count p - 1)) p in
  pipe_wf p1
  /\ content p = default 0 (p_buf p !! Z.to_nat (p_tail p)) :: content p1 /\ same_rest p p1.
Proof.
  intros [Hb Ht Hc Hh] Hpos p1. unfold PIPE_BUF_SIZE in *.
  assert (E1 : p_tail p1 = (p_tail p + 1) mod 4096)
    by (unfold p1; cbn [p_tail set_ring]; by rewrite u32_small by lia).
  assert (E2 : p_count p1 = p_count p - 1)
    by (unfold p1; cbn [p_count set_ring]; by rewrite u32_small by lia).
  split_and!.
  - split; unfold PIPE_BUF_SIZE; [exact Hb|rewrite E1; zlia|lia|].
    rewrite E1, E2. change (p_head p1) with (p_head p). rewrite Hh.
    rewrite Z.add_mod_idemp_l by lia. f_equal. lia.
  - unfold content. rewrite E2. replace (Z.to_nat (p_count p)) with (S (Z.to_nat (p_count p - 1))) by lia.
    cbn [seq map]. f_equal.
    + unfold ring_at, PIPE_BUF_SIZE. rewrite Z.add_0_r, Z.mod_small by lia. done.
    + rewrite <- seq_shift, map_map. apply map_ext. intros i. unfold ring_at, PIPE_BUF_SIZE.
      rewrite E1. change (p_buf p1) with (p_buf p). rewrite Z.add_mod_idemp_l by lia.
      by replace (p_tail p + 1 + Z.of_nat i) with (p_tail p + Z.of_nat (S i)) by lia.
  - by repeat split.
Qed.

(** Adding a byte. *)
Lemma ring_push p b :
  pipe_wf p -> p_count p < PIPE_BUF_SIZE ->
  let p1 := set_ring (<[Z.to_nat (p_head p) := b]> (p_buf p)) (u32 (p_head p + 1) mod PIPE_BUF_SIZE)
              (p_tail p) (p_count p + 1) p in
  pipe_wf p1 /\ content p1 = content p ++ [b].
Proof.
  intros [Hb Ht Hc Hh] Hlt p1. unfold PIPE_BUF_SIZE in *.
  assert (Hhr : 0 <= p_head p < 4096) by (rewrite Hh; apply Z.mod_pos_bound; lia).
  split.
  - split; unfold p1, PIPE_BUF_SIZE; cbn [p_buf p_head p_tail p_count set_ring].
    + by rewrite length_insert.
    + done.
    + lia.
    + rewrite u32_small by lia. rewrite Hh, Z.add_mod_idemp_l by lia. f_equal. lia.
  - unfold content, p1. cbn [p_count set_ring].
    replace (Z.to_nat (p_count p + 1)) with (Z.to_nat (p_count p) + 1)%nat by lia.
    rewrite seq_app, map_app. cbn [seq map]. f_equal.
    + apply map_ext_in. intros i Hi%in_seq. unfold ring_at, PIPE_BUF_SIZE.
      cbn [p_buf p_tail set_ring]. rewrite list_lookup_insert_ne; [done|].
      rewrite Hh. clear - Ht Hc Hlt Hi. intros Heq.
      apply Z2Nat.inj in Heq; [|apply Z.mod_pos_bound; lia..].
      assert (0 <= Z.of_nat i < p_count p) by lia. zlia.
    + unfold ring_at, PIPE_BUF_SIZE. cbn [p_buf p_tail set_ring].
      replace (p_tail p + Z.of_nat (0 + Z.to_nat (p_count p))) with (p_tail p + p_count p) by lia.
      rewrite <- Hh, list_lookup_insert_eq by lia. done.
Qed.

Lemma read_loop_spec n p :
  pipe_wf p ->
  let '(out, p') := read_loop n p in
  out = take n (content p) /\ content p' = drop n (content p) /\ pipe_wf p' /\ same_rest p p'.
Proof.
  revert p. induction n as [|n IH]; intros p Hw; cbn [read_loop];
    [by split_and!; [| |exact Hw|repeat split]|].
  destruct (Z.ltb_spec 0 (p_count p)) as [Hpos|Hz].
  - destruct (ring_pop p Hw Hpos) as (Hw1 & Hc & Hs). set (p1 := set_ring _ _ _ _ p) in *.
    specialize (IH p1 Hw1). destruct (read_loop n p1) as [out p2].
    destruct IH as (-> & Hc2 & Hw2 & Hs2). rewrite Hc. cbn [take drop].
    split_and!; [done|done|done|]. unfold same_rest in *. intuition congruence.
  - assert (E : content p = []).
    { unfold content. destruct Hw. by replace (Z.to_nat (p_count p)) with 0%nat by lia. }
    rewrite E. by split_and!; [| |exact Hw|repeat split].
Qed.

Lemma write_loop_spec bs p :
  pipe_wf p -> p_count p + Z.of_nat (length bs) <= PIPE_BUF_SIZE ->
  let '(buf, head) := write_loop bs (p_buf p) (p_head p) in
  let p' := set_ring buf head (p_tail p) (p_count p + Z.of_nat (length bs)) p in
  pipe_wf p' /\ content p' = content p ++ bs.
Proof.
  revert p. induction bs as [|b bs IH]; intros p Hw Hlen; cbn [write_loop length].
  - rewrite Z.add_0_r, app_nil_r. split; [|by apply content_ext].
    by eapply wf_ext; [..|exact Hw].
  - cbn [length] in Hlen.
    destruct (ring_push p b Hw) as [Hw1 Hc1]; [lia|]. set (p1 := set_ring _ _ _ _ p) in *.
    change (<[Z.to_nat (p_head p) := b]> (p_buf p)) with (p_buf p1).
    change (u32 (p_head p + 1) mod PIPE_BUF_SIZE) with (p_head p1).
    specialize (IH p1 Hw1). destruct (write_loop bs (p_buf p1) (p_head p1)) as [buf head].
    change (p_count p1) with (p_count p + 1) in IH. destruct IH as [A B]; [lia|].
    replace (p_count p + Z.of_nat (S (length bs))) with (p_count p + 1 + Z.of_nat (length bs)) by lia.
    split; [by eapply wf_ext; [..|exact A]|].
    rewrite (content_ext (set_ring buf head (p_tail p1) (p_count p + 1 + Z.of_nat (length bs)) p1))
      by done.
    rewrite B, Hc1. by rewrite <- app_assoc.
Qed.

(** ** The operations on the queue *)

Lemma set_blocked_content r w p : content (set_blocked r w p) = content p.
Proof. by apply content_ext. Qed.

Lemma set_blocked_wf r w p : pipe_wf p -> pipe_wf (set_blocked r w p).
Proof. by apply wf_ext. Qed.

Lemma content_nil p : pipe_wf p -> (p_count p = 0 <-> content p = []).
Proof.
  intros []. split; intros H.
  - apply length_zero_iff_nil. rewrite length_content. lia.
  - apply (f_equal length) in H. rewrite length_content in H. cbn in H. lia.
Qed.

(** What a call from the head of the read loop does. *)
Lemma read_go_spec cur len p :
  pipe_wf p -> 0 < len < 2 ^ 31 ->
  (content p = [] /\ p_write_open p = false /\ pipe_read_go cur len p = ReadDone 0 [] p [])
  \/ (content p = [] /\ p_write_open p = true
      /\ pipe_read_go cur len p = ReadBlock (set_blocked (Some cur) (p_blocked_writer p) p))
  \/ (content p <> [] /\ exists p',
      pipe_read_go cur len p =
        ReadDone (Z.min len (p_count p)) (take (Z.to_nat len) (content p)) p' (wake (p_blocked_writer p))
      /\ content p' = drop (Z.to_nat len) (content p) /\ pipe_wf p'
      /\ same_rest (set_blocked (p_blocked_reader p) None p) p').
Proof.
  intros Hw Hlen. unfold pipe_read_go. destruct (Z.eqb_spec (p_count p) 0) as [Hz|Hnz].
  - apply (content_nil p Hw) in Hz. destruct (p_write_open p); [right; left|left]; done.
  - right; right. split; [by rewrite <- (content_nil p Hw)|].
    pose proof (read_loop_spec (Z.to_nat len) p Hw) as H.
    destruct (read_loop (Z.to_nat len) p) as [out p1]. destruct H as (-> & Hc & Hw1 & Hs).
    destruct Hs as (S1 & S2 & S3 & S4 & S5 & S6 & S7).
    eexists. split_and!; [|by rewrite set_blocked_content|by apply set_blocked_wf|].
    + f_equal; [|by rewrite S6]. rewrite length_take, length_content.
      destruct Hw. unfold PIPE_BUF_SIZE in *. rewrite i32_small; lia.
    + repeat split; cbn; congruence.
Qed.

Lemma write_round_spec data total p :
  pipe_wf p -> (total <= length data)%nat -> Z.of_nat (length data) < 2 ^ 31 ->
  let n := Nat.min (Z.to_nat (PIPE_BUF_SIZE - p_count p)) (length data - total) in
  exists p', write_round data total p = ((total + n)%nat, p', wake (p_blocked_reader p))
    /\ pipe_wf p' /\ content p' = content p ++ take n (drop total data)
    /\ p_count p' = p_count p + Z.of_nat n
    /\ same_rest (set_blocked None (p_blocked_writer p) p) p'.
Proof.
  intros Hw Ht Hlen n. destruct Hw as [Hb Htl Hc Hh] eqn:EW. unfold write_round.
  assert (Hchunk : write_chunk data total p = n).
  { unfold write_chunk, n, PIPE_BUF_SIZE in *. rewrite !i32_small by lia.
    destruct (Z.ltb_spec (4096 - p_count p) (Z.of_nat (length data) - Z.of_nat total)); lia. }
  rewrite Hchunk. assert (Hl : length (take n (drop total data)) = n)
    by (rewrite length_take, length_drop; lia).
  pose proof (write_loop_spec (take n (drop total data)) p Hw) as H. rewrite Hl in H.
  destruct (write_loop (take n (drop total data)) (p_buf p) (p_head p)) as [buf head].
  destruct H as [A B]; [lia|]. unfold PIPE_BUF_SIZE in *.
  rewrite u32_small by lia. eexists.
  split_and!; [reflexivity|by apply set_blocked_wf|by rewrite set_blocked_content|done|].
  repeat split.
Qed.

(** The outcome of the write loop from [total] on, [p] being the pipe there:
    [n] more bytes go in; if any are left, the pipe is full, and the writer
    sleeps or, with no reader, gives up. *)
Definition write_outcome (cur : nat) (data : list Z) (total : nat) (p : pipe) (before : list nat)
    (res : write_result) : Prop :=
  let n := Nat.min (Z.to_nat (PIPE_BUF_SIZE - p_count p)) (length data - total) in
  let woken := before ++ (if decide (n = 0)%nat then [] else wake (p_blocked_reader p)) in
  exists p', pipe_wf p' /\ content p' = content p ++ take n (drop total data)
    /\ p_count p' = p_count p + Z.of_nat n
    /\ p_read_open p' = p_read_open p /\ p_blocked_writer p' = p_blocked_writer p
    /\ res = (if decide (total + n = length data)%nat then WriteDone (Z.of_nat (length data)) p' woken
              else if p_read_open p
                   then WriteBlock (total + n) (set_blocked (p_blocked_reader p') (Some cur) p') woken
                   else WriteDone (write_fail (total + n)) p' woken).

Lemma write_go_spec cur data total p woken f :
  pipe_wf p -> (total <= length data)%nat -> Z.of_nat (length data) < 2 ^ 31 -> (3 <= f)%nat ->
  exists res, write_go f cur data total p woken = Some res /\ write_outcome cur data total p woken res.
Proof.
  intros Hw Ht Hlen Hf. destruct f as [|[|[|f]]]; try lia. clear Hf.
  destruct (write_round_spec data total p Hw Ht Hlen) as (p' & Hr & Hw' & Hc' & Hn' & Hs).
  unfold write_outcome. set (n := Nat.min _ _) in *. cbv zeta.
  pose proof (wf_count p Hw) as Hcp. unfold PIPE_BUF_SIZE in *.
  cbn [write_go]. destruct (Nat.ltb_spec total (length data)) as [Hlt|Hge]; cbn [negb].
  2: { eexists. split; [reflexivity|]. exists p.
       assert (n = 0%nat) as -> by lia. rewrite take_0, !app_nil_r, decide_True by lia.
       split_and!; try done; [lia|]. rewrite i32_small by lia. by replace total with (length data) by lia. }
  destruct (Z.leb_spec PIPE_BUF_SIZE (p_count p)) as [Hfull|Hspace]; unfold PIPE_BUF_SIZE in *.
  - assert (n = 0%nat) as -> by lia. rewrite Nat.add_0_r.
    destruct (p_read_open p) eqn:Ho; cbn [negb];
      (eexists; split; [reflexivity|]; exists p;
       rewrite take_0, !app_nil_r, decide_False by lia; split_and!; (done || lia)).
  - rewrite Hr. cbn [write_go]. destruct Hs as (S1 & _ & _ & _ & _ & S2 & _). cbn in S1, S2.
    rewrite (decide_False (P := n = 0%nat)) by lia.
    destruct (Nat.ltb_spec (total + n) (length data)) as [Hlt'|Hge']; cbn [negb].
    + destruct (Z.leb_spec 4096 (p_count p')) as [_|?]; [|lia].
      destruct (p_read_open p) eqn:Ho; rewrite S1; cbn [negb];
        (eexists; split; [reflexivity|]; exists p';
         rewrite decide_False by lia; by split_and!).
    + eexists. split; [reflexivity|].
      exists p'. rewrite decide_True by lia. split_and!; try done.
      rewrite i32_small by lia. by replace (total + n)%nat with (length data) by lia.
Qed.

(** ** Histories

    [pipe_hist p W R]: [p] is a pipe that some interleaving of reads, writes
    (with the sleeps and resumptions in between), closes and reference-count
    changes by any tasks has reached since [pipe_create]; [W] are the bytes
    the writes have put in and [R] the bytes the reads have handed out. *)

Definition res_pipe (res : write_result) : pipe :=
  match res with WriteDone _ p _ => p | WriteBlock _ p _ => p end.

(** The bytes of the buffer a write call has moved so far. *)
Definition res_total (res : write_result) : nat :=
  match res with WriteDone r _ _ => Z.to_nat r | WriteBlock t _ _ => t end.

Definition read_step (p : pipe) (R : list Z) (res : read_result) (p' : pipe) (R' : list Z) : Prop :=
  match res with
  | ReadDone _ data q _ => p' = q /\ R' = R ++ data
  | ReadBlock q => p' = q /\ R' = R
  end.

Inductive pipe_hist : pipe -> list Z -> list Z -> Prop :=
| hist_create p : length (p_buf p) = Z.to_nat PIPE_BUF_SIZE -> pipe_hist (pipe_open p) [] []
| hist_read p W R cur buf len p' R' :
    pipe_hist p W R -> len < 2 ^ 31 -> read_step p R (pipe_read cur buf len p) p' R' -> pipe_hist p' W R'
| hist_read_resume p W R cur len p' R' :
    pipe_hist p W R -> 0 < len < 2 ^ 31 -> read_step p R (pipe_read_resume cur len p) p' R' ->
    pipe_hist p' W R'
| hist_write p W R cur buf data res :
    pipe_hist p W R -> Z.of_nat (length data) < 2 ^ 31 -> pipe_write cur buf data p = Some res ->
    pipe_hist (res_pipe res) (W ++ take (res_total res) data) R
| hist_write_resume p W R cur data total res :
    pipe_hist p W R -> Z.of_nat (length data) < 2 ^ 31 -> (total < length data)%nat ->
    pipe_write_resume cur data total p = Some res ->
    pipe_hist (res_pipe res) (W ++ drop total (take (res_total res) data)) R
| hist_close p W R reader : pipe_hist p W R -> pipe_hist (pipe_close_end p reader).1 W R
| hist_inc p W R reader : pipe_hist p W R -> pipe_hist (pipe_ref_inc p reader) W R.

Lemma close_end_ring p reader :
  let q := (pipe_close_end p reader).1 in
  p_buf q = p_buf p /\ p_head q = p_head p /\ p_tail q = p_tail p /\ p_count q = p_count p.
Proof.
  unfold pipe_close_end. destruct reader;
    repeat match goal with |- context [if ?c then _ else _] => destruct c; cbn end; repeat split.
Qed.

Lemma write_outcome_queue cur data total p woken res :
  pipe_wf p -> (total <= length data)%nat -> Z.of_nat (length data) < 2 ^ 31 ->
  write_outcome cur data total p woken res ->
  pipe_wf (res_pipe res)
  /\ content (res_pipe res) = content p ++ drop total (take (res_total res) data).
Proof.
  intros Hw Ht Hlen (p' & Hw' & Hc & _ & Ho & Hwo & ->).
  set (n := Nat.min _ _) in *. generalize (woken ++ if decide (n = 0)%nat then [] else wake (p_blocked_reader p)). intros ws.
  assert (Hn : forall t, (total + n = t)%nat -> drop total (take t data) = take n (drop total data)).
  { intros t <-. rewrite take_drop_commute. done. }
  case_decide as Hd; cbn [res_pipe res_total].
  - rewrite Nat2Z.id, (Hn _ Hd). done.
  - destruct (p_read_open p); cbn [res_pipe res_total].
    + rewrite set_blocked_content, (Hn _ eq_refl). split; [by apply set_blocked_wf|done].
    + unfold write_fail. destruct (Z.ltb_spec 0 (Z.of_nat (total + n))).
      * rewrite i32_small, Nat2Z.id by lia. by rewrite (Hn _ eq_refl).
      * assert (total = 0 /\ n = 0)%nat as [-> E] by lia. rewrite E in *.
        cbn. by rewrite take_0, drop_0.
Qed.

Lemma read_step_queue p R cur len p' R' :
  pipe_wf p -> 0 < len < 2 ^ 31 -> read_step p R (pipe_read_go cur len p) p' R' ->
  pipe_wf p' /\ R' ++ content p' = R ++ content p.
Proof.
  intros Hw Hlen Hs.
  destruct (read_go_spec cur len p Hw Hlen) as [(E & _ & Hr)|[(E & _ & Hr)|(_ & q & Hr & Hc & Hq & _)]];
    rewrite Hr in Hs; destruct Hs as [-> ->].
  - by rewrite app_nil_r.
  - rewrite set_blocked_content. split; [by apply set_blocked_wf|done].
  - split; [done|]. rewrite Hc, <- app_assoc. by rewrite take_drop.
Qed.

Lemma hist_inv p W R : pipe_hist p W R -> pipe_wf p /\ W = R ++ content p.
Proof.
  induction 1 as [p Hb|p W R cur bf len p' R' _ [Hw IH] Hlen Hs|p W R cur len p' R' _ [Hw IH] Hlen Hs
    |p W R cur bf data res _ [Hw IH] Hlen Hr|p W R cur data total res _ [Hw IH] Hlen Ht Hr
    |p W R reader _ [Hw IH]|p W R reader _ [Hw IH]].
  - split; [|done]. split; cbn; unfold PIPE_BUF_SIZE; (done || lia).
  - unfold pipe_read in Hs. destruct (bf =? 0); [destruct Hs as [-> ->]; by rewrite app_nil_r|]. cbn [orb] in Hs.
    destruct (Z.leb_spec len 0).
    + destruct Hs as [-> ->]. by rewrite app_nil_r.
    + assert (Hl : 0 < len < 2 ^ 31) by lia.
      destruct (read_step_queue _ _ _ _ _ _ Hw Hl Hs) as [? E]. split; [done|congruence].
  - unfold pipe_read_resume in Hs.
    destruct (read_step_queue _ _ _ _ _ _ (set_blocked_wf _ _ _ Hw) Hlen Hs) as [? E].
    rewrite set_blocked_content in E. split; [done|congruence].
  - unfold pipe_write in Hr. destruct (bf =? 0); [cbn [orb] in Hr; simplify_eq; cbn; by rewrite take_0, app_nil_r|]. cbn [orb] in Hr.
    destruct (Z.leb_spec (Z.of_nat (length data)) 0).
    { simplify_eq. cbn. by rewrite take_0, app_nil_r. }
    destruct (negb (p_read_open p)).
    { simplify_eq. cbn. by rewrite take_0, app_nil_r. }
    destruct (write_go_spec cur data 0 p [] write_fuel Hw ltac:(lia) Hlen ltac:(unfold write_fuel; lia))
      as (res' & E & Ho). rewrite Hr in E. simplify_eq.
    destruct (write_outcome_queue _ _ _ _ _ _ Hw (Nat.le_0_l _) Hlen Ho) as [? ->].
    split; [done|]. rewrite drop_0. by rewrite app_assoc.
  - unfold pipe_write_resume in Hr. set (p1 := set_blocked _ None p) in *.
    assert (Hw1 : pipe_wf p1) by (by apply set_blocked_wf).
    assert (Hc1 : content p1 = content p) by (apply set_blocked_content).
    destruct (negb (p_read_open p1)).
    { simplify_eq. cbn. split; [exact Hw1|].
      replace (drop total (take (Z.to_nat (write_fail total)) data)) with (@nil Z).
      - rewrite app_nil_r. congruence.
      - symmetry. apply drop_ge. rewrite length_take. unfold write_fail.
        destruct (Z.ltb_spec 0 (Z.of_nat total)); [rewrite i32_small by lia|]; lia. }
    destruct (write_go_spec cur data total p1 [] write_fuel Hw1 ltac:(lia) Hlen ltac:(unfold write_fuel; lia))
      as (res' & E & Ho). rewrite Hr in E. simplify_eq.
    destruct (write_outcome_queue _ _ _ _ _ _ Hw1 (Nat.lt_le_incl _ _ Ht) Hlen Ho) as [? ->].
    split; [done|]. rewrite Hc1. by rewrite app_assoc.
  - destruct (close_end_ring p reader) as (E1 & E2 & E3 & E4).
    split; [by eapply wf_ext|]. by rewrite (content_ext p) by done.
  - unfold pipe_ref_inc. destruct reader; split; try (by eapply wf_ext; [..|exact Hw]);
      by rewrite (content_ext p) by done.
Qed.

(** ** Descriptor tables and reference counts *)

Definition end_refs (p : pipe) (reader : bool) : Z :=
  if reader then p_read_refcnt p else p_write_refcnt p.
Definition end_open (p : pipe) (reader : bool) : bool :=
  if reader then p_read_open p else p_write_open p.

(** [d] is a descriptor for an open end that is counted, with room for [n]
    more references. *)
Definition end_counted (pool : list pipe) (n : Z) (d : option nat) (reader : bool) : Prop :=
  exists i p, d = Some i /\ pool !! i = Some p
    /\ end_open p reader = true /\ 0 < end_refs p reader /\ end_refs p reader + n < 2 ^ 31.

Definition fd_counted (pool : list pipe) (n : Z) (f : fd) : Prop :=
  (f.1 = FD_PIPE_READ -> end_counted pool n f.2 true)
  /\ (f.1 = FD_PIPE_WRITE -> end_counted pool n f.2 false).

(** The effect of one descriptor on the pool when it is copied. *)
Definition fd_inc (pool : list pipe) (f : fd) : list pipe :=
  if f.1 =? FD_PIPE_READ then pool_inc pool f.2 true
  else if f.1 =? FD_PIPE_WRITE then pool_inc pool f.2 false
  else pool.

Lemma copy_fds_cons f rest pool :
  task_copy_fds (f :: rest) pool =
    (f :: (task_copy_fds rest (fd_inc pool f)).1, (task_copy_fds rest (fd_inc pool f)).2).
Proof.
  destruct f as [ty d]. cbn [task_copy_fds]. unfold fd_inc. cbn [fst snd].
  destruct (ty =? FD_PIPE_READ), (ty =? FD_PIPE_WRITE); by destruct (task_copy_fds rest _).
Qed.

Lemma copy_fds_table src pool : (task_copy_fds src pool).1 = src.
Proof. revert pool. induction src as [|f rest IH]; intros pool; [done|]. rewrite copy_fds_cons. cbn. by rewrite IH. Qed.

Lemma ref_inc_comm p a b : pipe_ref_inc (pipe_ref_inc p a) b = pipe_ref_inc (pipe_ref_inc p b) a.
Proof. destruct a, b; reflexivity. Qed.

Lemma pool_inc_comm pool d r d' r' :
  pool_inc (pool_inc pool d r) d' r' = pool_inc (pool_inc pool d' r') d r.
Proof.
  destruct d as [i|], d' as [j|]; cbn [pool_inc]; try done.
  destruct (pool !! i) as [p|] eqn:Ei; destruct (pool !! j) as [q|] eqn:Ej;
    rewrite ?Ei, ?Ej; try done.
  - destruct (decide (i = j)) as [<-|Hne].
    + rewrite !list_lookup_insert_eq by (by eapply lookup_lt_Some). rewrite Ei in Ej. injection Ej as <-.
      rewrite !list_insert_insert_eq. by rewrite ref_inc_comm.
    + rewrite !list_lookup_insert_ne by done. rewrite Ei, Ej. by rewrite list_insert_insert_ne by done.
  - rewrite list_lookup_insert_ne; [by rewrite Ej|]. intros ->. congruence.
  - rewrite list_lookup_insert_ne; [by rewrite Ei|]. intros ->. congruence.
Qed.

Lemma fd_inc_comm pool f g : fd_inc (fd_inc pool f) g = fd_inc (fd_inc pool g) f.
Proof.
  unfold fd_inc. destruct (f.1 =? FD_PIPE_READ), (f.1 =? FD_PIPE_WRITE),
    (g.1 =? FD_PIPE_READ), (g.1 =? FD_PIPE_WRITE); (done || apply pool_inc_comm).
Qed.

Lemma copy_fds_inc rest pool f :
  (task_copy_fds rest (fd_inc pool f)).2 = fd_inc (task_copy_fds rest pool).2 f.
Proof.
  revert pool. induction rest as [|g rest IH]; intros pool; [done|].
  rewrite !copy_fds_cons. cbn [snd]. by rewrite fd_inc_comm, IH.
Qed.

(** Counting an end once more and closing it is no change. *)
Lemma close_inc p reader :
  end_open p reader = true -> 0 < end_refs p reader -> end_refs p reader + 1 < 2 ^ 31 ->
  pipe_close_end (pipe_ref_inc p reader) reader = (p, []).
Proof.
  intros Ho Hpos Hlt. destruct p as [buf h t c ro wo rr wr br bw us].
  destruct reader; cbn in Ho, Hpos, Hlt; subst; unfold pipe_close_end, pipe_ref_inc, set_ends; cbn;
    rewrite (i32_small (_ + 1)) by lia;
    (match goal with |- context [0 <? ?x] => destruct (Z.ltb_spec 0 x); [|lia] end);
    rewrite i32_small by lia;
    (match goal with |- context [?x =? 0] => destruct (Z.eqb_spec x 0); [lia|] end); cbn.
  - by replace (rr + 1 - 1) with rr by lia.
  - rewrite andb_false_r. by replace (wr + 1 - 1) with wr by lia.
Qed.

Lemma pool_close_inc pool d reader :
  end_counted pool 1 d reader -> pool_close (pool_inc pool d reader) d reader = (pool, []).
Proof.
  intros (i & p & -> & Hp & Ho & H1 & H2). cbn [pool_inc pool_close]. rewrite Hp.
  rewrite list_lookup_insert_eq by (by eapply lookup_lt_Some).
  rewrite close_inc by done. rewrite list_insert_insert_eq. by rewrite list_insert_id.
Qed.

Lemma pool_inc_counted pool n d r d' r' :
  0 <= n -> end_counted pool (n + 1) d r -> end_counted (pool_inc pool d' r') n d r.
Proof.
  intros Hn (i & p & -> & Hp & Ho & H1 & H2). destruct d' as [j|]; cbn [pool_inc].
  2: { exists i, p. split_and!; try done. lia. }
  destruct (pool !! j) as [q|] eqn:Ej; [|exists i, p; split_and!; try done; lia].
  destruct (decide (i = j)) as [<-|Hne].
  - rewrite Hp in Ej. injection Ej as <-. exists i, (pipe_ref_inc p r').
    split_and!; [done|apply list_lookup_insert_eq; by eapply lookup_lt_Some|..];
      destruct r, r'; cbn in *; rewrite ?i32_small by lia; (done || lia).
  - exists i, p. split_and!; try done; [by rewrite list_lookup_insert_ne|lia].
Qed.

Lemma fd_inc_counted pool n f g : 0 <= n -> fd_counted pool (n + 1) f -> fd_counted (fd_inc pool g) n f.
Proof.
  intros Hn [HR HW].
  assert (H : forall r, end_counted pool (n + 1) f.2 r -> end_counted (fd_inc pool g) n f.2 r).
  { intros r Hc. unfold fd_inc.
    destruct (g.1 =? FD_PIPE_READ); [by apply pool_inc_counted|].
    destruct (g.1 =? FD_PIPE_WRITE); [by apply pool_inc_counted|].
    destruct Hc as (i & p & ? & ? & ? & ? & ?). exists i, p. split_and!; try done. lia. }
  split; auto.
Qed.

Lemma fd_counted_le pool n m f : n <= m -> fd_counted pool m f -> fd_counted pool n f.
Proof.
  intros Hle [HR HW].
  split; intros E; [destruct (HR E) as (i & p & ? & ? & ? & ? & ?)|destruct (HW E) as (i & p & ? & ? & ? & ? & ?)];
    exists i, p; split_and!; try done; lia.
Qed.

Lemma copy_fds_counted rest pool n f :
  0 <= n -> fd_counted pool (n + Z.of_nat (length rest)) f -> fd_counted (task_copy_fds rest pool).2 n f.
Proof.
  revert pool. induction rest as [|g rest IH]; intros pool Hn Hf; cbn [length] in Hf.
  - by rewrite Z.add_0_r in Hf.
  - rewrite copy_fds_cons. cbn [snd]. apply IH; [done|]. apply fd_inc_counted; [lia|].
    eapply fd_counted_le; [|exact Hf]. lia.
Qed.

Lemma close_fds_cons f rest pool :
  fd_counted pool 1 f ->
  task_close_fds (f :: rest) (fd_inc pool f) =
    (let '(rest', pool', w) := task_close_fds rest pool in
     ((if (f.1 =? FD_PIPE_READ) || (f.1 =? FD_PIPE_WRITE) then (0, None) else f) :: rest', pool', w)).
Proof.
  destruct f as [ty d]. intros [HR HW]. cbn [task_close_fds]. unfold fd_inc. cbn [fst snd] in *.
  destruct (Z.eqb_spec ty FD_PIPE_READ) as [E|]; cbn [orb].
  - rewrite pool_close_inc by auto. by destruct (task_close_fds rest pool) as [[? ?] ?].
  - destruct (Z.eqb_spec ty FD_PIPE_WRITE) as [E|].
    + rewrite pool_close_inc by auto. by destruct (task_close_fds rest pool) as [[? ?] ?].
    + by destruct (task_close_fds rest pool) as [[? ?] ?].
Qed.

Lemma copy_close_fds fds pool :
  Forall (fd_counted pool (1 + Z.of_nat (length fds))) fds ->
  let '(fds', pool', woken) := task_close_fds fds (task_copy_fds fds pool).2 in
  pool' = pool /\ woken = [] /\ Forall (fun f => f.1 <> FD_PIPE_READ /\ f.1 <> FD_PIPE_WRITE) fds'.
Proof.
  induction fds as [|f fds IH]; intros Hf; [done|]. apply Forall_cons in Hf as [Hf1 Hfs].
  cbn [length] in *. rewrite copy_fds_cons. cbn [snd]. rewrite copy_fds_inc, close_fds_cons.
  - destruct (task_close_fds fds (task_copy_fds fds pool).2) as [[fds' pool'] w].
    destruct IH as (-> & -> & Hfds).
    { eapply Forall_impl; [exact Hfs|]. intros g Hg. eapply fd_counted_le; [|exact Hg]. lia. }
    split_and!; [done|done|]. constructor; [|done]. destruct f as [ty d]. cbn [fst].
    destruct (Z.eqb_spec ty FD_PIPE_READ), (Z.eqb_spec ty FD_PIPE_WRITE); cbn; (done || lia).
  - apply copy_fds_counted; [lia|]. eapply fd_counted_le; [|exact Hf1]. lia.
Qed.

(** ** Properties *)

(** C7: a pipe is a FIFO, however its users interleave.  In every history of
    reads, writes, sleeps, resumptions, closes and reference changes, what
    has been read followed by what is still in the pipe is exactly what has
    been written, in order, nothing lost or repeated, and the pipe never
    holds more than 4096 bytes. *)
Theorem pipe_is_fifo p W R :
  pipe_hist p W R -> W = R ++ content p /\ (length (content p) <= Z.to_nat PIPE_BUF_SIZE)%nat.
Proof.
  intros H. destruct (hist_inv _ _ _ H) as [Hw HW]. split; [exact HW|].
  rewrite length_content. destruct Hw. lia.
Qed.

Lemma pipe_is_fifo_witness :
  exists p, pipe_hist p [1; 2; 3] [1; 2] /\ content p = [3].
Proof.
  pose (p0 := pipe_open pipe_zero).
  assert (H0 : pipe_hist p0 [] []) by (by constructor).
  destruct (pipe_write 0 1 [1; 2; 3] p0) as [res|] eqn:E1; [|vm_compute in E1; discriminate].
  pose proof (hist_write p0 [] [] 0%nat 1 [1; 2; 3] res H0 ltac:(cbn; lia) E1) as H1.
  assert (T1 : res_total res = 3%nat) by (vm_compute in E1; injection E1 as <-; reflexivity).
  rewrite T1 in H1. cbn [take app] in H1.
  destruct (pipe_read 1 1 2 (res_pipe res)) as [r d q w|q] eqn:E2;
    [|vm_compute in E1; injection E1 as <-; vm_compute in E2; discriminate].
  assert (D2 : d = [1; 2])
    by (vm_compute in E1; injection E1 as <-; vm_compute in E2; injection E2 as _ <- _ _; reflexivity).
  pose proof (hist_read (res_pipe res) [1; 2; 3] [] 1%nat 1 2 q ([] ++ d) H1 ltac:(lia)) as H2.
  rewrite E2 in H2. specialize (H2 (conj eq_refl eq_refl)). rewrite D2 in H2. cbn [app] in H2.
  exists q. split; [exact H2|]. destruct (pipe_is_fifo _ _ _ H2) as [HW _].
  change ([1; 2; 3]) with ([1; 2] ++ [3]) in HW. by apply app_inv_head in HW.
Defined.

(** [pipe_read] on every branch.  A bad length or buffer is -1; an empty pipe
    gives end of file (0) when no writer is left and otherwise puts the reader
    to sleep; with data, the call returns the oldest [min len count] bytes,
    leaves the rest, and wakes a sleeping writer. *)
Theorem pipe_read_behaviour cur buf len p :
  pipe_wf p -> len < 2 ^ 31 ->
  (buf = 0 \/ len <= 0 -> pipe_read cur buf len p = ReadDone (-1) [] p [])
  /\ (buf <> 0 -> 0 < len -> content p = [] -> p_write_open p = false ->
        pipe_read cur buf len p = ReadDone 0 [] p [])
  /\ (buf <> 0 -> 0 < len -> content p = [] -> p_write_open p = true ->
        exists p', pipe_read cur buf len p = ReadBlock p' /\ p_blocked_reader p' = Some cur /\ pipe_wf p'
          /\ content p' = [])
  /\ (buf <> 0 -> 0 < len -> content p <> [] ->
        exists p', pipe_read cur buf len p =
            ReadDone (Z.min len (p_count p)) (take (Z.to_nat len) (content p)) p' (wake (p_blocked_writer p))
          /\ content p' = drop (Z.to_nat len) (content p) /\ pipe_wf p' /\ p_blocked_writer p' = None).
Proof.
  intros Hw Hlen. unfold pipe_read.
  destruct (Z.eqb_spec buf 0); [split_and!; (done || lia)|].
  destruct (Z.leb_spec len 0); [split_and!; (done || lia)|]. cbn [orb].
  destruct (read_go_spec cur len p Hw ltac:(lia)) as [(E & Ho & Hr)|[(E & Ho & Hr)|(E & q & Hr & Hc & Hq & Hs)]];
    rewrite Hr; split_and!; intros; try (lia || congruence).
  - eexists. split_and!; [reflexivity|done|by apply set_blocked_wf|by rewrite set_blocked_content].
  - exists q. split_and!; try done. apply Hs.
Qed.

(** What a writer finds when [data] from [total] on is to go into [p]: it ends
    with everything written, or asleep on a full pipe with the slot for the
    sleeping writer taken. *)
Definition write_ends (cur : nat) (data : list Z) (total : nat) (p : pipe) (res : write_result) : Prop :=
  let room := Z.to_nat (PIPE_BUF_SIZE - p_count p) in
  let woken := if decide (room = 0)%nat then [] else wake (p_blocked_reader p) in
  if decide (length data - total <= room)%nat then
    exists p', res = WriteDone (Z.of_nat (length data)) p' woken
      /\ pipe_wf p' /\ content p' = content p ++ drop total data
      /\ p_blocked_writer p' = p_blocked_writer p
  else
    exists p', res = WriteBlock (total + room) p' woken
      /\ pipe_wf p' /\ content p' = content p ++ take room (drop total data)
      /\ p_count p' = PIPE_BUF_SIZE /\ p_blocked_writer p' = Some cur.

Lemma write_outcome_ends cur data total p res :
  pipe_wf p -> (total < length data)%nat -> p_read_open p = true ->
  write_outcome cur data total p [] res -> write_ends cur data total p res.
Proof.
  intros Hw Ht Ho (p' & Hw' & Hc & Hn & _ & Hb & Hres). unfold write_ends. cbv zeta.
  set (room := Z.to_nat (PIPE_BUF_SIZE - p_count p)) in *. set (n := Nat.min _ _) in *.
  assert (En : (if decide (n = 0)%nat then [] else wake (p_blocked_reader p))
             = (if decide (room = 0)%nat then [] else wake (p_blocked_reader p)))
    by (by rewrite (decide_ext (n = 0)%nat (room = 0)%nat) by lia).
  rewrite En, Ho in Hres. cbn [app] in Hres. destruct (decide (length data - total <= room)%nat).
  - rewrite decide_True in Hres by lia. exists p'. split_and!; try done.
    rewrite Hc. f_equal. apply take_ge. rewrite length_drop. lia.
  - rewrite decide_False in Hres by lia. assert (n = room) as En' by lia. rewrite En' in *.
    eexists. split_and!; [exact Hres|by apply set_blocked_wf|by rewrite set_blocked_content| |done].
    cbn [p_count set_blocked]. destruct Hw. unfold room, PIPE_BUF_SIZE in *. lia.
Qed.

(** C32: [pipe_write] always reaches a return or a sleep (the loop's fuel is
    enough) and fills the pipe in order.  A NULL buffer, no bytes or no reader
    give -1 and no change.  With a reader and room the whole length is
    returned and the bytes are at the end of the pipe; without room exactly
    the bytes that fit are appended and the writer sleeps, to be resumed from
    there.  The call and its resumption do the same with what is left, except
    that a resumption first empties the slot of the sleeping writer, and
    answers the bytes written so far, or -1, when the reader is gone.  A
    sleeping reader is woken when bytes went in.  The slot holds one task: a
    writer that falls asleep takes it, and if another was asleep there it is
    not woken and nothing remembers it any more. *)
Theorem pipe_write_behaviour cur buf data total p :
  pipe_wf p -> (total < length data)%nat -> Z.of_nat (length data) < 2 ^ 31 ->
  (buf = 0 \/ p_read_open p = false -> pipe_write cur buf data p = Some (WriteDone (-1) p []))
  /\ pipe_write cur buf [] p = Some (WriteDone (-1) p [])
  /\ (buf <> 0 -> p_read_open p = true ->
        exists res, pipe_write cur buf data p = Some res /\ write_ends cur data 0 p res)
  /\ (p_read_open p = false ->
        exists p', pipe_write_resume cur data total p = Some (WriteDone (write_fail total) p' [])
          /\ content p' = content p)
  /\ (p_read_open p = true ->
        exists res, pipe_write_resume cur data total p = Some res
          /\ write_ends cur data total (set_blocked (p_blocked_reader p) None p) res).
Proof.
  intros Hw Ht Hlen. unfold pipe_write, pipe_write_resume.
  set (p1 := set_blocked (p_blocked_reader p) None p).
  assert (Hw1 : pipe_wf p1) by (by apply set_blocked_wf).
  destruct (Z.leb_spec (Z.of_nat (length data)) 0); [lia|]. rewrite orb_false_r. split_and!.
  - intros [->| ->]; [done|]. by destruct (buf =? 0).
  - by rewrite orb_true_r.
  - intros Hb Ho. rewrite (proj2 (Z.eqb_neq _ _) Hb), Ho. cbn [negb].
    destruct (write_go_spec cur data 0 p [] write_fuel Hw ltac:(lia) Hlen ltac:(unfold write_fuel; lia))
      as (res & Hgo & Hres).
    exists res. split; [done|]. apply write_outcome_ends; (done || lia).
  - intros Ho. change (p_read_open p1) with (p_read_open p). rewrite Ho. by exists p1.
  - intros Ho. change (p_read_open p1) with (p_read_open p). rewrite Ho. cbn [negb].
    destruct (write_go_spec cur data total p1 [] write_fuel Hw1 ltac:(lia) Hlen ltac:(unfold write_fuel; lia))
      as (res & Hgo & Hres).
    exists res. split; [done|]. by apply write_outcome_ends.
Qed.

(** A full pipe on which task 3 sleeps: task 5 takes its place. *)
Definition full_pipe : pipe :=
  set_blocked None (Some 3%nat) (set_ring (replicate (Z.to_nat PIPE_BUF_SIZE) 7) 0 0 PIPE_BUF_SIZE (pipe_open pipe_zero)).

Lemma pipe_write_behaviour_witness :
  exists p', pipe_write 5 0x1000 [7; 8] full_pipe = Some (WriteBlock 0 p' [])
    /\ p_blocked_writer full_pipe = Some 3%nat /\ p_blocked_writer p' = Some 5%nat.
Proof.
  assert (Hw : pipe_wf full_pipe) by (split; unfold full_pipe, PIPE_BUF_SIZE; cbn; (lia || reflexivity)).
  destruct (pipe_write_behaviour 5 0x1000 [7; 8] 0 full_pipe Hw ltac:(cbn; lia) ltac:(cbn; lia))
    as (_ & _ & H & _).
  destruct (H ltac:(discriminate) eq_refl) as (res & E & (p' & -> & _ & _ & _ & Hb)).
  exists p'. split; [exact E|]. split; [reflexivity|exact Hb].
Defined.

(** Closing the last write end does not end a reader's sleep.  The reader
    of an empty pipe sleeps until it is woken; [pipe_close_end] for the write
    end wakes the sleeping writer only, so the reader stays asleep although a
    resumption would now give it end of file. *)
Theorem close_writer_strands_reader p reader len :
  p_read_open p = true -> p_count p = 0 -> p_blocked_reader p = Some reader ->
  p_blocked_writer p = None -> 0 <= p_write_refcnt p <= 1 -> 0 < len < 2 ^ 31 ->
  let '(p', woken) := pipe_close_end p false in
  woken = [] /\ p_blocked_reader p' = Some reader /\ p_write_open p' = false
  /\ exists q, pipe_read_resume reader len p' = ReadDone 0 [] q [].
Proof.
  intros Ho Hc Hr Hwt Hrc Hlen. destruct p as [buf h t c ro wo rr wr br bw us].
  cbn in Ho, Hc, Hr, Hwt, Hrc. subst. unfold pipe_close_end. cbn.
  assert (H0 : (if 0 <? wr then i32 (wr - 1) else wr) = 0).
  { destruct (Z.ltb_spec 0 wr); [rewrite i32_small|]; lia. }
  rewrite H0. cbn. split_and!; try done. by eexists.
Qed.

(** A child that copies its parent's descriptors ([task_copy_fds] in
    [sys_fork]) and exits ([task_close_fds]) leaves every pipe as it was: all
    reference counts, open flags and sleepers, and it wakes nobody; the
    child's table then has no pipe in it. *)
Theorem fork_exit_keeps_pipes fds pool :
  Forall (fd_counted pool (1 + Z.of_nat (length fds))) fds ->
  let '(child, pool1) := task_copy_fds fds pool in
  child = fds /\
  let '(child', pool2, woken) := task_close_fds child pool1 in
  pool2 = pool /\ woken = []
  /\ Forall (fun f => f.1 <> FD_PIPE_READ /\ f.1 <> FD_PIPE_WRITE) child'.
Proof.
  intros Hf. pose proof (copy_fds_table fds pool) as Ht. pose proof (copy_close_fds fds pool Hf) as H.
  destruct (task_copy_fds fds pool) as [child pool1]. cbn in Ht, H. subst child. split; [done|exact H].
Qed.
