(* ===== verification/FdInv.v ===== *)
(** * Reference counts of pipes: the accounting

    [pool_inv n l pool] ties the pool to the list [l] of all descriptors in
    use: each end of a pipe counts at least the descriptors that point to it,
    and at most [n] more (references a failed fork has leaked); it is open
    exactly when its count is positive, and the pipe is in use exactly when
    one of its ends is open.  One lemma per operation of pipe.c on the pool
    says how the list changes. *)

From S2P Require Import Prelude.
From S2P Require Import Pipe.

Implicit Types (f : fd) (l src : list fd) (pool : list pipe) (e : bool).

(** The type of a descriptor for an end. *)
Definition fd_ty (reader : bool) : Z := if reader then FD_PIPE_READ else FD_PIPE_WRITE.

Definition fd_ok (f : fd) : Prop :=
  f.1 = 0 \/ exists reader i, f = (fd_ty reader, Some i) /\ (i < MAX_PIPES)%nat.

Definition ref1 (f : fd) (i : nat) (reader : bool) : Z :=
  if decide (f = (fd_ty reader, Some i)) then 1 else 0.

Fixpoint n_refs (l : list fd) (i : nat) (reader : bool) : Z :=
  match l with
  | [] => 0
  | f :: l' => ref1 f i reader + n_refs l' i reader
  end.

Record pipe_inv (n : Z) (refs : bool -> Z) (p : pipe) : Prop := {
  pi_refs e : refs e <= end_refs p e <= refs e + n;
  pi_open e : end_open p e = true <-> 0 < end_refs p e;
  pi_used : p_used p = true <-> exists e, end_open p e = true
}.

Record pool_inv (n : Z) (l : list fd) (pool : list pipe) : Prop := {
  po_len : length pool = MAX_PIPES;
  po_room : Z.of_nat (length l) + n < 2 ^ 30;
  po_leak : 0 <= n;
  po_pipe i p : pool !! i = Some p -> pipe_inv n (n_refs l i) p
}.

(** ** Counting *)

Lemma n_refs_cons f l i e :
  n_refs (f :: l) i e = ref1 f i e + n_refs l i e.
Proof. done. Qed.

Lemma ref1_same i e : ref1 (fd_ty e, Some i) i e = 1.
Proof. unfold ref1. by rewrite decide_True. Qed.

Lemma ref1_other i e j e' : (e, i) <> (e', j) -> ref1 (fd_ty e, Some i) j e' = 0.
Proof.
  intros H. unfold ref1. rewrite decide_False; [done|]. intros E. apply H. by destruct e, e'; simplify_eq.
Qed.

Lemma ref1_plain f i e : f.1 = 0 -> ref1 f i e = 0.
Proof. intros H. unfold ref1. rewrite decide_False; [done|]. intros ->. by destruct e. Qed.

Lemma ref1_range f i e : 0 <= ref1 f i e <= 1.
Proof. unfold ref1. case_decide; lia. Qed.

Lemma n_refs_app l l' i e : n_refs (l ++ l') i e = n_refs l i e + n_refs l' i e.
Proof. induction l as [|f l IH]; [done|]. cbn [app n_refs]. lia. Qed.

Lemma n_refs_perm l l' i e : l ≡ₚ l' -> n_refs l i e = n_refs l' i e.
Proof. induction 1; cbn [n_refs]; lia. Qed.

Lemma n_refs_range l i e : 0 <= n_refs l i e <= Z.of_nat (length l).
Proof. induction l as [|f l IH]; cbn [n_refs length]; [lia|]. pose proof (ref1_range f i e). lia. Qed.

Lemma n_refs_in l i e : (fd_ty e, Some i) ∈ l -> 0 < n_refs l i e.
Proof.
  intros H. induction l as [|f l IH]; [by apply not_elem_of_nil in H|]. cbn [n_refs].
  pose proof (n_refs_range l i e). pose proof (ref1_range f i e).
  apply elem_of_cons in H as [<-|H]; [rewrite ref1_same; lia|]. specialize (IH H). lia.
Qed.

(** Writing a slot of a table. *)
Lemma n_refs_insert l a old f i e :
  l !! a = Some old ->
  n_refs (<[a := f]> l) i e + ref1 old i e = n_refs l i e + ref1 f i e.
Proof.
  revert a. induction l as [|g l IH]; intros [|a] H; [done..| |].
  - cbn in H. injection H as ->. change (<[0%nat := f]> (old :: l)) with (f :: l).
    rewrite !n_refs_cons. lia.
  - specialize (IH a H). change (<[S a := f]> (g :: l)) with (g :: <[a := f]> l).
    rewrite !(n_refs_cons g). lia.
Qed.

Lemma n_refs_plain f l i e : f.1 = 0 -> n_refs (f :: l) i e = n_refs l i e.
Proof. intros H. by rewrite n_refs_cons, ref1_plain. Qed.

Lemma fd_ty_inj e e' : fd_ty e = fd_ty e' -> e = e'.
Proof. by destruct e, e'. Qed.

(** Only the numbers of references matter. *)
Lemma pool_inv_ext n l l' pool :
  (forall i e, n_refs l' i e = n_refs l i e) -> Z.of_nat (length l') + n < 2 ^ 30 ->
  pool_inv n l pool -> pool_inv n l' pool.
Proof.
  intros Hr R' [L R N P]. split; [done..|]. intros i p Hi. destruct (P i p Hi) as [Pr Po Pu].
  split; [|done..]. intros e. rewrite Hr. apply Pr.
Qed.

Lemma pool_inv_perm n l l' pool : l ≡ₚ l' -> pool_inv n l pool -> pool_inv n l' pool.
Proof.
  intros Hp Hi. apply (pool_inv_ext n l); [|rewrite <- Hp; apply Hi|done].
  intros i e. symmetry. by apply n_refs_perm.
Qed.

(** ** What the list says about the pool *)

Lemma pool_inv_fd n l pool e i :
  pool_inv n l pool -> (fd_ty e, Some i) ∈ l -> (i < MAX_PIPES)%nat ->
  exists p, pool !! i = Some p /\ end_open p e = true /\ p_used p = true.
Proof.
  intros [L _ _ P] Hin Hi. destruct (lookup_lt_is_Some_2 pool i ltac:(lia)) as [p Hp].
  exists p. destruct (P i p Hp) as [Pr Po Pu]. pose proof (n_refs_in _ _ _ Hin).
  assert (Ho : end_open p e = true) by (apply Po; specialize (Pr e); lia).
  split_and!; [done|done|]. apply Pu. by exists e.
Qed.

(** ** Counting up *)

Lemma inc_refs p e e' :
  0 <= end_refs p e < 2 ^ 31 - 1 ->
  end_refs (pipe_ref_inc p e) e' = end_refs p e' + (if decide (e = e') then 1 else 0)
  /\ end_open (pipe_ref_inc p e) e' = end_open p e' /\ p_used (pipe_ref_inc p e) = p_used p.
Proof. intros H. destruct e, e'; cbn [end_refs end_open pipe_ref_inc] in *; rewrite ?i32_small by lia;
  split_and!; try done; cbn; repeat case_decide; (congruence || lia). Qed.

Lemma pipe_inv_bound n l i p e :
  Z.of_nat (length l) + n < 2 ^ 30 -> pipe_inv n (n_refs l i) p -> 0 <= end_refs p e < 2 ^ 30.
Proof. intros R [Pr _ _]. pose proof (n_refs_range l i e). specialize (Pr e). lia. Qed.

(** One more descriptor for an end that is open. *)
Lemma pool_inv_inc n l pool e i p :
  pool_inv n l pool -> Z.of_nat (S (length l)) + n < 2 ^ 30 ->
  pool !! i = Some p -> end_open p e = true ->
  pool_inv n ((fd_ty e, Some i) :: l) (pool_inc pool (Some i) e).
Proof.
  intros [L R N P] R' Hp Ho. cbn [pool_inc]. rewrite Hp. split; [by rewrite length_insert|done|done|].
  intros j q Hq. rewrite list_lookup_insert in Hq. case_decide as Hj.
  - destruct Hj as [<- _]. injection Hq as <-. pose proof (P i p Hp) as PI. pose proof PI as [Pr Po Pu].
    pose proof (fun x => pipe_inv_bound n l i p x R PI) as Hb.
    assert (Hi : forall e', _) by (intros e'; apply (inc_refs p e e'); specialize (Hb e); lia).
    split.
    + intros e'. destruct (Hi e') as (-> & _). rewrite n_refs_cons. specialize (Pr e').
      case_decide; [subst; rewrite ref1_same; lia|rewrite ref1_other by congruence; lia].
    + intros e'. destruct (Hi e') as (-> & -> & _). rewrite Po. specialize (Hb e').
      case_decide as He; [|by rewrite Z.add_0_r]. subst. apply Po in Ho. lia.
    + destruct (Hi e) as (_ & _ & ->). rewrite Pu. f_equiv. intros e'.
      destruct (Hi e') as (_ & -> & _). done.
  - destruct (P j q Hq) as [Pr Po Pu]. split; [|done|done]. intros e'. rewrite n_refs_cons, ref1_other; [apply Pr|].
    intros [= _ <-]. apply Hj. split; [done|]. by eapply lookup_lt_Some.
Qed.

(** ** Counting down *)

Lemma close_refs p e :
  0 < end_refs p e < 2 ^ 30 -> end_open p e = true ->
  let q := (pipe_close_end p e).1 in
  (forall e', end_refs q e' = end_refs p e' - (if decide (e = e') then 1 else 0))
  /\ (forall e', end_open q e' = if decide (e = e') then 1 <? end_refs p e else end_open p e')
  /\ p_used q = (if negb (end_open q true) && negb (end_open q false) then false else p_used p).
Proof.
  intros H Ho. destruct p as [buf h t c ro wo rr wr br bw us].
  assert (Hd : forall x : Z, 0 < x < 2 ^ 30 -> (if 0 <? x then i32 (x - 1) else x) = x - 1).
  { intros x Hx. destruct (Z.ltb_spec 0 x); [apply i32_small|]; lia. }
  assert (H1 : forall x : Z, (1 <? x) = if decide (1 < x) then true else false).
  { intros x. destruct (Z.ltb_spec 1 x); case_decide; (done || lia). }
  rewrite H1. destruct e; cbn in H, Ho; subst; unfold pipe_close_end; cbn; rewrite !Hd by lia;
    (match goal with |- context [?x - 1 =? 0] => destruct (Z.eqb_spec (x - 1) 0) end);
    [destruct wo|destruct wo|destruct ro|destruct ro];
    cbn; (split_and!; [intros []|intros []|]; cbn; repeat case_decide; congruence || lia).
Qed.

Lemma pool_inv_close n l pool e i :
  pool_inv n ((fd_ty e, Some i) :: l) pool -> (i < MAX_PIPES)%nat ->
  pool_inv n l (pool_close pool (Some i) e).1.
Proof.
  intros [L R N P] Hi. destruct (lookup_lt_is_Some_2 pool i ltac:(lia)) as [p Hp].
  cbn [pool_close]. rewrite Hp. pose proof (P i p Hp) as PI. pose proof PI as [Pr Po Pu].
  pose proof (pipe_inv_bound n _ i p e R PI) as Hb.
  assert (Hpos : 0 < end_refs p e).
  { specialize (Pr e). rewrite n_refs_cons, ref1_same in Pr. pose proof (n_refs_range l i e). lia. }
  destruct (close_refs p e ltac:(lia) ltac:(by apply Po)) as (Cr & Co & Cu).
  destruct (pipe_close_end p e) as [q w]. cbn [fst] in *. 
  split; [by rewrite length_insert|cbn [length] in R; lia|done|].
  intros j q' Hq. rewrite list_lookup_insert in Hq. case_decide as Hj.
  - destruct Hj as [<- _]. injection Hq as <-. split.
    + intros e'. rewrite Cr. specialize (Pr e'). rewrite n_refs_cons in Pr.
      case_decide; [subst; rewrite ref1_same in Pr; lia|rewrite ref1_other in Pr by congruence; lia].
    + intros e'. rewrite Cr, Co. case_decide; [|rewrite Po; by rewrite Z.sub_0_r].
      subst. destruct (Z.ltb_spec 1 (end_refs p e')); split; intros; (done || lia).
    + assert (Hu : p_used p = true) by (apply Pu; exists e; by apply Po). rewrite Cu, Hu.
      destruct (end_open q true) eqn:Et, (end_open q false) eqn:Ef; cbn [negb andb];
        (split; [intros Hx; try done; first [by exists true|by exists false]|]);
        intros [[] Hx]; congruence.
  - destruct (P j q' Hq) as [Pr' Po' Pu']. split; [|done|done]. intros e'. specialize (Pr' e').
    rewrite n_refs_cons, ref1_other in Pr'; [exact Pr'|].
    intros [= _ <-]. apply Hj. split; [done|]. by eapply lookup_lt_Some.
Qed.

(** ** Whole tables *)

Lemma pool_inv_plain n f l pool :
  f.1 = 0 -> Z.of_nat (S (length l)) + n < 2 ^ 30 -> pool_inv n (f :: l) pool <-> pool_inv n l pool.
Proof.
  intros Hf R'. split; intros [L R N P]; (split; [done|cbn [length] in *; lia|done|]);
    intros i p Hp; destruct (P i p Hp) as [Pr Po Pu]; (split; [|done|done]); intros e;
    specialize (Pr e); rewrite n_refs_plain in *; done.
Qed.

Lemma length_pool_inc pool d e : length (pool_inc pool d e) = length pool.
Proof. unfold pool_inc. destruct d as [i|]; [|done]. destruct (pool !! i); [apply length_insert|done]. Qed.

(** The copies a child gets of descriptors that are in use. *)
Lemma pool_inv_copy n src l pool :
  Forall fd_ok src -> (forall f, f ∈ src -> f ∈ l) ->
  Z.of_nat (length src + length l) + n < 2 ^ 30 ->
  pool_inv n l pool -> pool_inv n (src ++ l) (task_copy_fds src pool).2.
Proof.
  revert l pool. induction src as [|f src IH]; intros l pool Hok Hin R Hi; [done|].
  apply Forall_cons in Hok as [Hf Hok]. rewrite copy_fds_cons. cbn [snd length app] in *.
  assert (Hstep : pool_inv n (f :: l) (fd_inc pool f)).
  { unfold fd_inc. destruct Hf as [Hz|(e & i & -> & Hi')].
    - rewrite Hz. cbn. apply pool_inv_plain; [done|lia|done].
    - destruct (pool_inv_fd n l pool e i Hi) as (p & Hp & Ho & _); [apply Hin; left|done|].
      pose proof (pool_inv_inc n l pool e i p Hi ltac:(lia) Hp Ho) as H. by destruct e. }
  eapply pool_inv_perm; [|apply (IH (f :: l)); [done| |cbn [length]; lia|exact Hstep]].
  - symmetry. apply Permutation_middle.
  - intros g Hg. right. apply Hin. by right.
Qed.

(** Closing every descriptor of a table. *)
Definition closed (f : fd) : fd := if (f.1 =? FD_PIPE_READ) || (f.1 =? FD_PIPE_WRITE) then (0, None) else f.

Lemma close_fds_all fds pool :
  task_close_fds fds pool =
    (map closed fds,
     foldl (fun pl f => if (f.1 =? FD_PIPE_READ) || (f.1 =? FD_PIPE_WRITE)
                        then (pool_close pl f.2 (f.1 =? FD_PIPE_READ)).1 else pl) pool fds,
     (task_close_fds fds pool).2).
Proof.
  revert pool. induction fds as [|[ty d] fds IH]; intros pool; [done|].
  cbn [task_close_fds map foldl]. unfold closed at 1. cbn [fst snd].
  destruct (Z.eqb_spec ty FD_PIPE_READ) as [E|]; cbn [orb].
  - destruct (pool_close pool d true) as [pool1 w]. rewrite (IH pool1). done.
  - destruct (ty =? FD_PIPE_WRITE).
    + destruct (pool_close pool d false) as [pool1 w]. rewrite (IH pool1). done.
    + rewrite (IH pool). done.
Qed.

Lemma closed_plain f : fd_ok f -> (closed f).1 = 0.
Proof. intros [Hz|([] & i & -> & _)]; [|done..]. unfold closed. by rewrite Hz. Qed.

Lemma closed_ok f : fd_ok f -> fd_ok (closed f).
Proof. intros H. left. by apply closed_plain. Qed.

Lemma pool_inv_close_all n fds l pool :
  Forall fd_ok fds -> pool_inv n (fds ++ l) pool ->
  pool_inv n (map closed fds ++ l) (task_close_fds fds pool).1.2.
Proof.
  rewrite close_fds_all. cbn [fst snd]. revert l pool.
  induction fds as [|f fds IH]; intros l pool Hok Hi; [done|].
  apply Forall_cons in Hok as [Hf Hok]. cbn [map app foldl] in *.
  assert (R : Z.of_nat (S (length (fds ++ l))) + n < 2 ^ 30) by (destruct Hi as [_ R _ _]; exact R).
  assert (Hstep : pool_inv n (closed f :: fds ++ l)
    (if (f.1 =? FD_PIPE_READ) || (f.1 =? FD_PIPE_WRITE)
     then (pool_close pool f.2 (f.1 =? FD_PIPE_READ)).1 else pool)).
  { pose proof Hf as [Hz|(e & i & -> & Hi')].
    - unfold closed. rewrite Hz. exact Hi.
    - apply pool_inv_plain; [by apply closed_plain|done|].
      pose proof (pool_inv_close n (fds ++ l) pool e i Hi Hi') as H. by destruct e. }
  eapply pool_inv_perm; [|apply (IH (closed f :: l)); [done|]].
  - symmetry. apply Permutation_middle.
  - eapply pool_inv_perm; [|exact Hstep]. apply Permutation_middle.
Qed.

(** References that are forgotten are leaked. *)
Lemma pool_inv_leak n k src l pool :
  Z.of_nat (length src) <= k -> Z.of_nat (length l) + n + k < 2 ^ 30 ->
  pool_inv n (src ++ l) pool -> pool_inv (n + k) l pool.
Proof.
  intros Hk R [L _ N P]. split; [done|lia|lia|]. intros i p Hp. destruct (P i p Hp) as [Pr Po Pu].
  split; [|done|done]. intros e. specialize (Pr e). rewrite n_refs_app in Pr.
  pose proof (n_refs_range src i e). lia.
Qed.

(** ** A new pipe *)

Lemma pipe_create_spec pool i pool' :
  pipe_create pool = (Some i, pool') ->
  exists p, pool !! i = Some p /\ p_used p = false /\ pool' = <[i := pipe_open p]> pool.
Proof.
  revert i pool'. induction pool as [|p pool IH]; intros i pool'; cbn [pipe_create]; [done|].
  destruct (p_used p) eqn:E; cbn [negb].
  - destruct (pipe_create pool) as [[j|] rest]; [|done]. intros [= <- <-].
    destruct (IH j rest eq_refl) as (q & Hq & Hu & ->). exists q. by split_and!.
  - intros [= <- <-]. exists p. by split_and!.
Qed.

Lemma pool_inv_unused n l pool i p e :
  pool_inv n l pool -> pool !! i = Some p -> p_used p = false -> end_refs p e <= 0.
Proof.
  intros [_ _ _ P] Hp Hu. destruct (P i p Hp) as [Pr Po Pu].
  destruct (Z.le_gt_cases (end_refs p e) 0) as [|Hgt]; [done|]. assert (Ho : end_open p e = true) by (apply Po; lia).
  assert (Hx : p_used p = true) by (apply Pu; by exists e). congruence.
Qed.

Lemma pool_inv_create n l pool i pool' :
  pool_inv n l pool -> Z.of_nat (length l) + 2 + n < 2 ^ 30 -> pipe_create pool = (Some i, pool') ->
  pool_inv n ((FD_PIPE_WRITE, Some i) :: (FD_PIPE_READ, Some i) :: l)
    (pool_inc (pool_inc pool' (Some i) true) (Some i) false) /\ (i < MAX_PIPES)%nat.
Proof.
  intros HI R Hc. destruct (pipe_create_spec _ _ _ Hc) as (p & Hp & Hu & ->).
  pose proof HI as [L _ N P]. pose proof (lookup_lt_Some _ _ _ Hp) as Hlt. split; [|lia].
  cbn [pool_inc]. rewrite list_lookup_insert_eq by done.
  rewrite list_insert_insert_eq, list_lookup_insert_eq by done. rewrite list_insert_insert_eq.
  set (q := pipe_ref_inc _ false).
  assert (Hz : forall e, n_refs l i e = 0).
  { intros e. pose proof (pool_inv_unused _ _ _ _ _ e HI Hp Hu) as H. pose proof (pi_refs _ _ _ (P i p Hp) e).
    pose proof (n_refs_range l i e). lia. }
  split; [by rewrite length_insert|cbn [length]; lia|done|].
  intros j q' Hq. rewrite list_lookup_insert in Hq. case_decide as Hj.
  - destruct Hj as [<- _]. injection Hq as <-.
    assert (E : forall e, end_refs q e = 1 /\ end_open q e = true) by (by intros []).
    split; [|intros e; destruct (E e) as [-> ->]; done|].
    + intros e. destruct (E e) as [-> _]. rewrite !n_refs_cons, Hz.
      change FD_PIPE_WRITE with (fd_ty false). change FD_PIPE_READ with (fd_ty true).
      destruct e; rewrite ref1_same, ref1_other by done; lia.
    + split; [intros _; by exists true|done].
  - destruct (P j q' Hq) as [Pr Po Pu]. split; [|done|done]. intros e. specialize (Pr e).
    assert (Hne : i <> j) by (intros <-; apply Hj; split; done).
    change FD_PIPE_WRITE with (fd_ty false). change FD_PIPE_READ with (fd_ty true).
    rewrite !n_refs_cons, !ref1_other by congruence. exact Pr.
Qed.

(** ** Operations on the ring *)

Definition same_ends (p q : pipe) : Prop :=
  (forall e, end_refs q e = end_refs p e) /\ (forall e, end_open q e = end_open p e) /\ p_used q = p_used p.

Lemma pool_inv_ends n l pool pool' :
  Forall2 same_ends pool pool' -> pool_inv n l pool -> pool_inv n l pool'.
Proof.
  intros H2 [L R N P]. split; [by rewrite <- (Forall2_length _ _ _ H2)|done|done|].
  intros i q Hq. destruct (Forall2_lookup_r _ _ _ _ _ H2 Hq) as (p & Hp & (Er & Eo & Eu)).
  destruct (P i p Hp) as [Pr Po Pu]. split.
  - intros e. rewrite Er. apply Pr.
  - intros e. rewrite Er, Eo. apply Po.
  - rewrite Eu, Pu. f_equiv. intros e. by rewrite Eo.
Qed.

Lemma same_ends_refl p : same_ends p p.
Proof. by split_and!. Qed.

Lemma same_ends_trans p q r : same_ends p q -> same_ends q r -> same_ends p r.
Proof. intros (A & B & C) (A' & B' & C'). split_and!; intros; congruence. Qed.

#[export] Instance same_ends_preorder : PreOrder same_ends.
Proof. split; [exact same_ends_refl|exact same_ends_trans]. Qed.

Lemma read_loop_ends n p : same_ends p (read_loop n p).2.
Proof.
  revert p. induction n as [|n IH]; intros p; cbn [read_loop]; [apply same_ends_refl|].
  destruct (0 <? p_count p); [|apply same_ends_refl].
  match goal with |- context [read_loop n ?q] => specialize (IH q); destruct (read_loop n q) end.
  eapply same_ends_trans; [|exact IH]. by split_and!.
Qed.

Definition read_pipe (r : read_result) : pipe := match r with ReadDone _ _ p _ | ReadBlock p => p end.

Lemma pipe_read_ends cur buf len p : same_ends p (read_pipe (pipe_read cur buf len p)).
Proof.
  unfold pipe_read, pipe_read_go. pose proof (read_loop_ends (Z.to_nat len) p) as H.
  destruct (_ || _); [apply same_ends_refl|]. destruct (p_count p =? 0).
  - destruct (negb _); [apply same_ends_refl|by split_and!].
  - destruct (read_loop _ p) as [d q]. eapply same_ends_trans; [exact H|by split_and!].
Qed.

Lemma pipe_read_resume_ends cur len p : same_ends p (read_pipe (pipe_read_resume cur len p)).
Proof.
  unfold pipe_read_resume, pipe_read_go. set (p1 := set_blocked _ _ _).
  assert (H1 : same_ends p p1) by (by split_and!).
  pose proof (read_loop_ends (Z.to_nat len) p1) as H. destruct (p_count p1 =? 0).
  - destruct (negb _); [done|eapply same_ends_trans; [exact H1|by split_and!]].
  - destruct (read_loop _ p1) as [d q]. eapply same_ends_trans; [exact H1|].
    eapply same_ends_trans; [exact H|by split_and!].
Qed.

Definition write_pipe (r : write_result) : pipe := match r with WriteDone _ p _ | WriteBlock _ p _ => p end.

Lemma write_go_ends fuel cur data total p woken res :
  write_go fuel cur data total p woken = Some res -> same_ends p (write_pipe res).
Proof.
  revert total p woken. induction fuel as [|f IH]; intros total p woken; cbn [write_go]; [done|].
  destruct (negb _); [intros [= <-]; apply same_ends_refl|].
  destruct (PIPE_BUF_SIZE <=? p_count p).
  - destruct (negb _); intros [= <-]; by split_and!.
  - unfold write_round. destruct (write_loop _ _ _) as [buf head]. intros H. apply IH in H.
    eapply same_ends_trans; [|exact H]. by split_and!.
Qed.

Lemma pipe_write_ends cur buf data p res : pipe_write cur buf data p = Some res -> same_ends p (write_pipe res).
Proof.
  unfold pipe_write. destruct (_ || _); [intros [= <-]; apply same_ends_refl|].
  destruct (negb _); [intros [= <-]; apply same_ends_refl|]. apply write_go_ends.
Qed.

Lemma pipe_write_resume_ends cur data total p res :
  pipe_write_resume cur data total p = Some res -> same_ends p (write_pipe res).
Proof.
  unfold pipe_write_resume. cbv zeta. set (p1 := set_blocked _ _ p).
  assert (H1 : same_ends p p1) by (by split_and!).
  destruct (negb _); [intros [= <-]; exact H1|]. intros H. apply write_go_ends in H.
  by eapply same_ends_trans.
Qed.
