(* ===== verification/Alloc.v ===== *)
(** * The allocator interface

    What the file system, which borrows a 4096-byte buffer for every block it
    looks at, needs from [memory_alloc] and [memory_free] of
    [src/kernel/memory.c]: the class [Allocator] has the two operations,
    [AllocLaws] what they promise (which payloads are in use, and how many
    more buffers fit).  [kmem_laws] discharges the laws for the heap of
    [Heap.v]; clients are verified against the class.  [holds] is the
    assertion the clients use: these buffers are mine, those payloads are
    somebody else's, and [n] more buffers fit. *)

From S2P Require Import Prelude.
From S2P Require Import ByteMem.
From S2P Require Import Kmem.
From S2P Require Import Heap.

Definition BUF : Z := 4096.

Class Allocator (H : Type) := {
  kalloc : Z -> H -> Z * H;
  kfree : Z -> H -> H
}.

Class AllocLaws (H : Type) `{Allocator H} := {
  alloc_ok : H -> Prop;
  live : H -> list (Z * Z);
  room : nat -> H -> Prop;
  kalloc_null h n h' : alloc_ok h -> 0 <= n < 2 ^ 62 -> kalloc n h = (0, h') -> h' = h;
  kalloc_live h n p h' :
    alloc_ok h -> 0 <= n < 2 ^ 62 -> kalloc n h = (p, h') -> p <> 0 ->
    alloc_ok h' /\ exists s, n <= s /\ live h' ≡ₚ (p, s) :: live h;
  kfree_null h : kfree 0 h = h;
  kfree_live h p s :
    alloc_ok h -> (p, s) ∈ live h ->
    p <> 0 /\ alloc_ok (kfree p h) /\ live h ≡ₚ (p, s) :: live (kfree p h);
  room_0 h : room 0 h;
  room_S h n : room (S n) h -> room n h;
  kalloc_room h n p h' :
    alloc_ok h -> room (S n) h -> kalloc BUF h = (p, h') -> p <> 0 /\ room n h';
  kfree_room h n p s :
    alloc_ok h -> room n h -> (p, s) ∈ live h -> BUF <= s -> room (S n) (kfree p h)
}.

(** ** Clients *)

Section Holds.
Context {H : Type} `{AllocLaws H}.

(** The buffers [ps] are owned, [L] are the payloads of others, [n] more
    buffers fit. *)
Definition holds (ps : list Z) (L : list (Z * Z)) (n : nat) (h : H) : Prop :=
  alloc_ok h /\ room n h
  /\ exists bs, bs.*1 = ps /\ Forall (fun b => BUF <= b.2) bs /\ live h ≡ₚ bs ++ L.

Lemma holds_alloc ps L n h p h' :
  holds ps L n h -> kalloc BUF h = (p, h') ->
  if p =? 0 then h' = h /\ n = 0%nat else holds (p :: ps) L (pred n) h'.
Proof.
  intros (Hok & Hr & bs & Hbs & Hsz & Hl) Ha. destruct (Z.eqb_spec p 0) as [->|Hp].
  - split; [eapply kalloc_null; [exact Hok| |exact Ha]; unfold BUF; lia|].
    destruct n as [|n]; [done|]. by destruct (kalloc_room _ _ _ _ Hok Hr Ha).
  - destruct (kalloc_live h BUF p h' Hok ltac:(unfold BUF; lia) Ha Hp) as (Hok' & s & Hs & Hl').
    split_and!; [done| |].
    + destruct n as [|n]; [apply room_0|]. by destruct (kalloc_room _ _ _ _ Hok Hr Ha).
    + exists ((p, s) :: bs). split_and!; [cbn; by rewrite Hbs|by constructor|].
      rewrite Hl', Hl. done.
Qed.

Lemma holds_free p ps L n h : holds (p :: ps) L n h -> p <> 0 /\ holds ps L (S n) (kfree p h).
Proof.
  intros (Hok & Hr & bs & Hbs & Hsz & Hl). destruct bs as [|[q s] bs]; [done|].
  cbn in Hbs. injection Hbs as -> <-. apply Forall_cons in Hsz as [Hs Hsz].
  assert (Hin : (p, s) ∈ live h) by (rewrite Hl; by left).
  destruct (kfree_live _ _ _ Hok Hin) as (Hp & Hok' & Hl'). split; [done|]. split_and!; [done| |].
  - by eapply kfree_room.
  - exists bs. split_and!; [done|done|].
    apply (Permutation_cons_inv (a := (p, s))). by rewrite <- Hl', Hl.
Qed.

Lemma holds_le ps L n m h : (m <= n)%nat -> holds ps L n h -> holds ps L m h.
Proof.
  intros Hle. induction Hle as [|n Hle IH]; [done|]. intros (Hok & Hr & Hx). apply IH.
  split_and!; [done|by apply room_S|done].
Qed.

(** Owned buffers as somebody else's, and back. *)
Lemma holds_absorb ps L n h :
  holds ps L n h <->
  exists bs, bs.*1 = ps /\ Forall (fun b => BUF <= b.2) bs /\ holds [] (bs ++ L) n h.
Proof.
  split.
  - intros (Hok & Hr & bs & Hbs & Hsz & Hl). exists bs. split_and!; [done|done|].
    split_and!; [done|done|]. exists []. by split_and!.
  - intros (bs & Hbs & Hsz & Hok & Hr & bs' & Hbs' & _ & Hl).
    apply fmap_nil_inv in Hbs' as ->. split_and!; [done|done|]. by exists bs.
Qed.

(** The order of the buffers does not matter. *)
Lemma holds_swap p q ps L n h : holds (p :: q :: ps) L n h -> holds (q :: p :: ps) L n h.
Proof.
  intros (Hok & Hr & bs & Hbs & Hsz & Hl). destruct bs as [|[p' s] [|[q' t] bs]]; [done|done|].
  cbn in Hbs. simplify_eq. split_and!; [done|done|]. exists ((q, t) :: (p, s) :: bs).
  apply Forall_cons in Hsz as [? [? ?]%Forall_cons].
  split_and!; [done|by repeat constructor|]. rewrite Hl. apply Permutation_swap.
Qed.

End Holds.

(** ** The heap of [memory.c] as an instance

    Every call returns (the fuel is enough, by [memory_alloc_run] and
    [memory_free_run]), so the default of the [option] is never used on a
    well-formed heap. *)

#[export] Instance kmem_allocator : Allocator kmem := {
  kalloc n k := default (0, k) (memory_alloc n k);
  kfree p k := default k (memory_free p k)
}.

(** How many buffers first fit can cut out of the free blocks. *)
Definition cap1 (b : Z * bool) : Z := if b.2 then (b.1 + 24) / (BUF + 24) else 0.
Fixpoint capacity (l : Spec.blocks) : Z :=
  match l with
  | [] => 0
  | b :: t => cap1 b + capacity t
  end.

Lemma cap1_nonneg b : 0 <= b.1 -> 0 <= cap1 b.
Proof. intros. unfold cap1, BUF. destruct (b.2); [|lia]. zlia. Qed.

Lemma capacity_nonneg l : Spec.sizes_ok l -> 0 <= capacity l.
Proof.
  induction 1 as [|b l Hb Hl IH]; cbn [capacity]; [lia|]. pose proof (cap1_nonneg b Hb). lia.
Qed.

Lemma capacity_alloc a l :
  Spec.sizes_ok l ->
  match Spec.alloc BUF a l with
  | Some (p, l') => capacity l' = capacity l - 1
  | None => capacity l = 0
  end.
Proof.
  intros Hs. revert a. induction Hs as [|[sz fr] t Hb Ht IH]; intros a; [done|]. cbn [Spec.alloc].
  destruct (fr && (BUF <=? sz)) eqn:Hfit.
  - apply andb_prop in Hfit as [-> Hle%Z.leb_le]. cbn [capacity]. unfold BUF in *.
    destruct (Z.ltb_spec (4096 + 32) sz); cbn [capacity]; unfold cap1, BUF; cbn [fst snd]; zlia.
  - specialize (IH (a + 24 + sz)). destruct (Spec.alloc BUF _ t) as [[p t']|];
      cbn [capacity]; [lia|]. rewrite IH. unfold cap1. cbn [fst snd] in *.
    destruct fr; [|done]. cbn [andb] in Hfit. apply Z.leb_gt in Hfit. unfold BUF in *. zlia.
Qed.

Lemma capacity_merge_into c l :
  Spec.sizes_ok (c :: l) -> capacity (c :: l) <= capacity (Spec.merge_into c l).
Proof.
  revert c. induction l as [|b t IH]; intros c Hs; [cbn; lia|].
  apply Forall_cons in Hs as [Hc Hs]. apply Forall_cons in Hs as [Hb Ht].
  cbn [Spec.merge_into]. destruct (c.2 && b.2) eqn:E.
  - apply andb_prop in E as [Ec Eb].
    etrans; [|apply IH; constructor; [cbn; lia|done]]. cbn [capacity].
    unfold cap1, BUF. rewrite Ec, Eb. cbn [fst snd]. zlia.
  - cbn [capacity]. specialize (IH b). cbn [capacity] in IH.
    assert (Spec.sizes_ok (b :: t)) by (by constructor). specialize (IH ltac:(done)). lia.
Qed.

Lemma capacity_merge l : Spec.sizes_ok l -> capacity l <= capacity (Spec.merge l).
Proof. intros Hs. destruct l; [cbn; lia|]. by apply capacity_merge_into. Qed.

Lemma capacity_mark p a l s :
  Spec.sizes_ok l -> (p, s) ∈ Spec.live a l -> BUF <= s ->
  capacity l + 1 <= capacity (Spec.mark p a l).
Proof.
  intros Hs. revert a. induction Hs as [|[sz fr] t Hb Ht IH]; intros a Hin Hbig.
  - by apply not_elem_of_nil in Hin.
  - cbn [Spec.live Spec.mark] in *. cbn [fst] in Hb. apply elem_of_app in Hin as [Hin|Hin].
    + destruct fr; [by apply not_elem_of_nil in Hin|].
      apply list_elem_of_singleton in Hin. simplify_eq. rewrite Z.eqb_refl.
      cbn [capacity]. unfold cap1, BUF in *. cbn [fst snd]. zlia.
    + pose proof (Spec.live_above _ _ _ _ Ht Hin). destruct (Z.eqb_spec p (a + 24)); [lia|].
      cbn [capacity]. specialize (IH _ Hin Hbig). lia.
Qed.

Lemma capacity_free p a l s :
  Spec.sizes_ok l -> (p, s) ∈ Spec.live a l -> BUF <= s -> capacity l + 1 <= capacity (Spec.free p a l).
Proof.
  intros Hs Hin Hbig. unfold Spec.free.
  etrans; [by eapply capacity_mark|]. apply capacity_merge. by apply Spec.mark_sizes.
Qed.

(** The blocks of a heap are determined by its bytes: [kmem_blocks] reads them
    off by walking the list. *)
Fixpoint blocks_from (fuel : nat) (m : mem) (a : Z) : Spec.blocks :=
  match fuel with
  | O => []
  | S f => if a =? 0 then []
           else (blk_size m a, blk_free m a) :: blocks_from f m (blk_next m a)
  end.
Definition kmem_blocks (k : kmem) : Spec.blocks := blocks_from heap_fuel (phys k) (heap_start k).

Lemma blocks_from_chain m a l e f :
  chain m a l e -> 0 < a -> (length l < f)%nat -> blocks_from f m (next_addr a l) = l.
Proof.
  revert a f. induction l as [|[sz fr] t IH]; intros a f Hc Ha Hf;
    (destruct f as [|f]; [cbn in Hf; lia|]); cbn [blocks_from next_addr]; [done|].
  destruct Hc as (Hsz & (H1 & H2 & H3) & Hc). destruct (Z.eqb_spec a 0); [lia|].
  rewrite H1, H2, H3. f_equal. cbn [length] in Hf. apply IH; [done|lia|lia].
Qed.

Lemma kmem_blocks_eq k l e : heap_is k l e -> kmem_blocks k = l.
Proof.
  intros Hh. pose proof (heap_is_fuel _ _ _ Hh). destruct Hh as [Hc Hs He Hw Hne].
  unfold kmem_blocks. rewrite <- (chain_nonempty_addr (heap_start k) l Hne) at 1.
  by eapply blocks_from_chain.
Qed.

Definition kmem_ok (k : kmem) : Prop := exists l e, heap_is k l e.
Definition kmem_live (k : kmem) : list (Z * Z) := Spec.live (heap_start k) (kmem_blocks k).
Definition kmem_room (n : nat) (k : kmem) : Prop :=
  n = 0%nat \/ Z.of_nat n <= capacity (kmem_blocks k).

(** One call on a well-formed heap, in terms of its blocks. *)
Lemma kalloc_run k n p k' :
  kmem_ok k -> 0 <= n < 2 ^ 62 -> kalloc n k = (p, k') ->
  match Spec.alloc n (heap_start k) (kmem_blocks k) with
  | None => p = 0 /\ k' = k
  | Some (q, l') => p = q /\ p <> 0 /\ kmem_ok k' /\ kmem_blocks k' = l' /\ heap_start k' = heap_start k
  end.
Proof.
  intros (l & e & Hh) Hn Hr. rewrite (kmem_blocks_eq _ _ _ Hh).
  pose proof (memory_alloc_run k l e n Hh Hn) as H. unfold kalloc, kmem_allocator in Hr.
  pose proof (chain_sizes _ _ _ _ (hi_chain _ _ _ Hh)) as Hsz. pose proof (hi_start _ _ _ Hh).
  destruct (Spec.alloc n (heap_start k) l) as [[q l']|] eqn:E.
  - destruct H as (k2 & Hrun & Hh' & Hs & _). rewrite Hrun in Hr. injection Hr as <- <-.
    pose proof (Spec.alloc_addr _ _ _ _ _ Hsz E).
    split_and!; [done|lia|by exists l', e|by eapply kmem_blocks_eq|done].
  - rewrite H in Hr. by injection Hr as <- <-.
Qed.

Lemma kmem_sizes k : kmem_ok k -> Spec.sizes_ok (kmem_blocks k).
Proof.
  intros (l & e & Hh). rewrite (kmem_blocks_eq _ _ _ Hh). eapply chain_sizes, Hh.
Qed.

Lemma kfree_run k p s :
  kmem_ok k -> (p, s) ∈ kmem_live k ->
  p <> 0 /\ kmem_ok (kfree p k) /\ heap_start (kfree p k) = heap_start k
  /\ kmem_blocks (kfree p k) = Spec.free p (heap_start k) (kmem_blocks k).
Proof.
  intros Hok Hin. pose proof (kmem_sizes _ Hok) as Hsz. destruct Hok as (l & e & Hh).
  unfold kmem_live in Hin. rewrite (kmem_blocks_eq _ _ _ Hh) in *.
  pose proof (Spec.live_above _ _ _ _ Hsz Hin). pose proof (hi_start _ _ _ Hh).
  destruct (memory_free_run _ _ _ _ _ Hh Hin) as (k' & Hrun & Hh' & Hs & _).
  unfold kfree, kmem_allocator. rewrite Hrun. cbn [default].
  split_and!; [lia|by eexists _, _|done|by eapply kmem_blocks_eq].
Qed.

#[export] Program Instance kmem_laws : AllocLaws kmem := {
  alloc_ok := kmem_ok;
  live := kmem_live;
  room := kmem_room
}.
Next Obligation.
  intros k n k' Hok Hn Hr. pose proof (kalloc_run _ _ _ _ Hok Hn Hr) as H.
  destruct (Spec.alloc _ _ _) as [[q l']|]; [|apply H]. by destruct H as (_ & ? & _).
Qed.
Next Obligation.
  intros k n p k' Hok Hn Hr Hp. pose proof (kalloc_run _ _ _ _ Hok Hn Hr) as H.
  destruct (Spec.alloc _ _ _) as [[q l']|] eqn:E; [|by destruct H].
  destruct H as (-> & _ & Hok' & Hb & Hs). split; [done|].
  destruct (Spec.alloc_live _ _ _ _ _ (proj1 Hn) E) as (s & Hsz & Hl). exists s. split; [lia|].
  unfold kmem_live. by rewrite Hb, Hs.
Qed.
Next Obligation. done. Qed.
Next Obligation.
  intros k p s Hok Hin. destruct (kfree_run _ _ _ Hok Hin) as (Hp & Hok' & Hs & Hb).
  split_and!; [done|done|]. symmetry. unfold kmem_live in *. rewrite Hs, Hb.
  apply Spec.free_live; [by apply kmem_sizes|done].
Qed.
Next Obligation. intros k. by left. Qed.
Next Obligation. intros k n [?|Hr]; [done|]. destruct n; [by left|right; lia]. Qed.
Next Obligation.
  intros k n p k' Hok Hr Ha. pose proof (kalloc_run k BUF p k' Hok ltac:(unfold BUF; lia) Ha) as H.
  pose proof (capacity_alloc (heap_start k) _ (kmem_sizes _ Hok)) as Hc.
  destruct Hr as [?|Hr]; [done|].
  destruct (Spec.alloc _ _ _) as [[q l']|] eqn:E; [|lia].
  destruct H as (-> & Hp & _ & Hb & _). split; [done|]. right. rewrite Hb. lia.
Qed.
Next Obligation.
  intros k n p s Hok Hr Hin Hbig. destruct (kfree_run _ _ _ Hok Hin) as (_ & _ & _ & Hb).
  pose proof (capacity_free p (heap_start k) _ s (kmem_sizes _ Hok) Hin Hbig).
  pose proof (capacity_nonneg _ (kmem_sizes _ Hok)).
  right. rewrite Hb. destruct Hr as [->|Hr]; lia.
Qed.

(** The boot heap has room for 509 buffers. *)
Lemma boot_holds n : (n <= 509)%nat -> holds [] [] n boot_kmem.
Proof.
  intros Hn. assert (Hb : kmem_blocks boot_kmem = [(HEAP_BYTES - 24, true)])
    by (by eapply kmem_blocks_eq, boot_heap).
  split_and!.
  - eexists _, _. apply boot_heap.
  - right. rewrite Hb. change (capacity _) with 509. lia.
  - exists []. split_and!; [done|done|]. cbn [live kmem_laws]. unfold kmem_live. rewrite Hb. done.
Qed.
