(* ===== verification/Io.v ===== *)
(** * Port input and output ([src/kernel/io.h], [src/kernel/serial.c])

    The processor's port instructions are a parameter: the class [PortIO],
    which io.h wraps one to one.  The serial port is driven by polling: a
    loop that waits for the line has no bound in the code, so it takes fuel
    here, and [None] is a wait that has not ended. *)

From S2P Require Import Prelude.

Class PortIO (P : Type) := {
  inb : Z -> ST P Z;
  outb : Z -> Z -> ST P unit;
  inw : Z -> ST P Z;
  outw : Z -> Z -> ST P unit
}.

(** [v & m] as a condition. *)
Definition flag (v m : Z) : bool := z_true (Z.land v m).

Section Serial.
Context {P : Type} {io : PortIO P}.

Definition COM1 : Z := 0x3F8.

Definition serial_tx_empty : ST P Z :=
  let* v := inb (COM1 + 5) in ret (Z.land (u8 v) 0x20).

Definition serial_data_ready : ST P Z :=
  let* v := inb (COM1 + 5) in ret (Z.land (u8 v) 0x01).

Definition serial_init : ST P unit :=
  do* outb (COM1 + 1) 0x00 in
  do* outb (COM1 + 3) 0x80 in
  do* outb (COM1 + 0) 0x01 in
  do* outb (COM1 + 1) 0x00 in
  do* outb (COM1 + 3) 0x03 in
  do* outb (COM1 + 2) 0xC7 in
  do* outb (COM1 + 4) 0x0B in
  outb (COM1 + 4) 0x01.

Fixpoint serial_putchar (fuel : nat) (c : Z) : ST P (option unit) :=
  match fuel with
  | O => ret None
  | S f =>
      let* e := serial_tx_empty in
      if z_true e then do* outb COM1 (u8 c) in ret (Some tt)
      else serial_putchar f c
  end.

Definition CHAR_NL : Z := 10.
Definition CHAR_CR : Z := 13.

(** [for (i = 0; i < len; i++)]; every character may wait [fuel] polls. *)
Fixpoint serial_write (fuel : nat) (buf : list Z) : ST P (option unit) :=
  match buf with
  | [] => ret (Some tt)
  | c :: buf' =>
      try* u := (if c =? CHAR_NL then serial_putchar fuel CHAR_CR else ret (Some tt)) else None in
      try* u := serial_putchar fuel c else None in
      serial_write fuel buf'
  end.

(** The result is a [char]. *)
Fixpoint serial_read (fuel : nat) : ST P (option Z) :=
  match fuel with
  | O => ret None
  | S f =>
      let* r := serial_data_ready in
      if z_true r then let* v := inb COM1 in ret (Some (i8 v))
      else serial_read f
  end.

Definition serial_data_available : ST P Z := serial_data_ready.

End Serial.
