(* ===== verification/Vga.v ===== *)
(** * The text console ([src/kernel/vga.c], [src/kernel/vga.h])

    [vga] is the static data of vga.c (cursor and colour) with the video
    memory at 0xB8000: a map from the index of a 16-bit cell to its value, so
    that a store past the screen is visible as a key past 1999.  The hardware
    cursor is set over the ports ([PortIO]).  [page] is the specification: a
    sheet of paper without a bottom edge, on which text is written line by
    line; the screen is a window of 25 rows onto it. *)

From S2P Require Import Prelude.
From S2P Require Import Io.

Definition VGA_WIDTH : Z := 80.
Definition VGA_HEIGHT : Z := 25.
Definition VGA_BLACK : Z := 0.
Definition VGA_LIGHT_GREY : Z := 7.

Record vga := Vga {
  v_row : Z;                (* size_t *)
  v_col : Z;
  v_color : Z;
  v_mem : gmap Z Z          (* VGA_MEMORY, by index *)
}.

Definition set_pos (r c : Z) (v : vga) : vga := Vga r c (v_color v) (v_mem v).
Definition set_cell (i x : Z) (v : vga) : vga := Vga (v_row v) (v_col v) (v_color v) (<[i := x]> (v_mem v)).
Definition cell_at (v : vga) (i : Z) : Z := default 0 (v_mem v !! i).

Definition vga_entry (c color : Z) : Z := u16 (Z.lor c (Z.shiftl color 8)).

Definition CHAR_SPACE : Z := 32.
Definition CHAR_BS : Z := 8.
Definition CHAR_TAB : Z := 9.

Section Console.
Context {P : Type} {io : PortIO P}.

Definition on_port {A} (m : ST P A) : ST (vga * P) A := fun '(v, p) =>
  let '(a, p') := m p in (a, (v, p')).
Definition on_vga (f : vga -> vga) : ST (vga * P) unit := fun '(v, p) => (tt, (f v, p)).
Definition vga_get : ST (vga * P) vga := fun s => (s.1, s).

Definition vga_cursor_update : ST (vga * P) unit :=
  let* v := vga_get in
  let pos := u16 (v_row v * VGA_WIDTH + v_col v) in
  do* on_port (outb 0x3D4 0x0E) in
  do* on_port (outb 0x3D5 (u8 (Z.shiftr pos 8))) in
  do* on_port (outb 0x3D4 0x0F) in
  on_port (outb 0x3D5 (u8 (Z.land pos 0xFF))).

(** [cells n i f]: the stores [VGA_MEMORY[i] = f(i)] of a loop, [n] of them. *)
Fixpoint cells (n : nat) (i : Z) (f : vga -> Z -> Z) (v : vga) : vga :=
  match n with
  | O => v
  | S n' => cells n' (i + 1) f (set_cell i (f v i) v)
  end.

(** The loops over [y] and [x] visit the cells in order of their index. *)
Definition vga_clear (bg : Z) : ST (vga * P) unit :=
  do* on_vga (cells (Z.to_nat (VGA_HEIGHT * VGA_WIDTH)) 0 (fun _ _ => vga_entry CHAR_SPACE bg)) in
  do* on_vga (set_pos 0 0) in
  do* on_port (outb 0x3D4 0x0A) in
  do* on_port (outb 0x3D5 0x0E) in
  do* on_port (outb 0x3D4 0x0B) in
  do* on_port (outb 0x3D5 0x0F) in
  vga_cursor_update.

Definition vga_init : ST (vga * P) unit :=
  do* on_vga (fun v => Vga 0 0 VGA_LIGHT_GREY (v_mem v)) in
  do* on_port (outb 0x3D4 0x0A) in
  do* on_port (outb 0x3D5 0x0E) in
  do* on_port (outb 0x3D4 0x0B) in
  do* on_port (outb 0x3D5 0x0F) in
  vga_clear VGA_BLACK.

Definition vga_setcolor (c : Z) : ST (vga * P) unit :=
  on_vga (fun v => Vga (v_row v) (v_col v) (u8 c) (v_mem v)).

Definition vga_scroll (v : vga) : vga :=
  let v1 := cells (Z.to_nat ((VGA_HEIGHT - 1) * VGA_WIDTH)) 0 (fun v i => cell_at v (i + VGA_WIDTH)) v in
  cells (Z.to_nat VGA_WIDTH) ((VGA_HEIGHT - 1) * VGA_WIDTH) (fun _ _ => vga_entry CHAR_SPACE VGA_BLACK) v1.

(** The [if] chain on the character, a signed [char]. *)
Definition put (c : Z) (v : vga) : vga :=
  if c =? 10 then set_pos (u64 (v_row v + 1)) 0 v
  else if c =? 13 then set_pos (v_row v) 0 v
  else if c =? CHAR_TAB then set_pos (v_row v) (Z.land (u64 (v_col v + 8)) (u64 (Z.lnot 7))) v
  else if c =? CHAR_BS then (if 0 <? v_col v then set_pos (v_row v) (v_col v - 1) v else v)
  else if CHAR_SPACE <=? c then
    set_pos (v_row v) (u64 (v_col v + 1))
      (set_cell (v_row v * VGA_WIDTH + v_col v) (vga_entry (u8 c) (v_color v)) v)
  else v.

Definition wrap (v : vga) : vga :=
  if VGA_WIDTH <=? v_col v then set_pos (u64 (v_row v + 1)) 0 v else v.

Definition scroll_up (v : vga) : vga :=
  if VGA_HEIGHT <=? v_row v then
    let v1 := vga_scroll v in set_pos (VGA_HEIGHT - 1) (v_col v1) v1
  else v.

Definition vga_putchar (c : Z) : ST (vga * P) unit :=
  do* on_vga (fun v => scroll_up (wrap (put (i8 c) v))) in
  vga_cursor_update.

(** [for (i = 0; i < len; i++)]. *)
Fixpoint vga_write (s : list Z) : ST (vga * P) unit :=
  match s with
  | [] => ret tt
  | c :: s' => do* vga_putchar c in vga_write s'
  end.

(** The same over a C string. *)
Definition vga_writestring (s : list Z) : ST (vga * P) unit := vga_write (cstr s).

Definition vga_setpos (r c : Z) : ST (vga * P) unit :=
  if (r <? VGA_HEIGHT) && (c <? VGA_WIDTH) then
    do* on_vga (set_pos r c) in vga_cursor_update
  else ret tt.

Definition vga_getpos : ST (vga * P) (Z * Z) :=
  let* v := vga_get in ret (v_row v, v_col v).

(** ** What the calls do to the screen, whatever the ports *)

Lemma cursor_update_vga v p : (vga_cursor_update (v, p)).2.1 = v.
Proof.
  unfold vga_cursor_update, bind, vga_get, on_port. cbn.
  repeat match goal with |- context [outb ?a ?b ?q] => destruct (outb a b q) end. done.
Qed.

Lemma vga_putchar_run c v p :
  exists p', vga_putchar c (v, p) = (tt, (scroll_up (wrap (put (i8 c) v)), p')).
Proof.
  unfold vga_putchar, bind, on_vga. pose proof (cursor_update_vga (scroll_up (wrap (put (i8 c) v))) p) as E.
  destruct (vga_cursor_update _) as [[] [v' p']]. cbn in E. subst. by exists p'.
Qed.

Lemma vga_write_run s v p :
  exists p', vga_write s (v, p) = (tt, (foldl (fun v c => scroll_up (wrap (put (i8 c) v))) v s, p')).
Proof.
  revert v p. induction s as [|c s IH]; intros v p; cbn [vga_write foldl]; [by exists p|].
  destruct (vga_putchar_run c v p) as [p1 E]. unfold bind. rewrite E. apply IH.
Qed.

Lemma vga_clear_run bg v p :
  exists p', vga_clear bg (v, p) =
    (tt, (set_pos 0 0 (cells (Z.to_nat (VGA_HEIGHT * VGA_WIDTH)) 0 (fun _ _ => vga_entry CHAR_SPACE bg) v), p')).
Proof.
  unfold vga_clear, bind, on_vga.
  generalize (set_pos 0 0 (cells (Z.to_nat (VGA_HEIGHT * VGA_WIDTH)) 0 (fun _ _ => vga_entry CHAR_SPACE bg) v)) as w.
  intros w. unfold on_port.
  repeat match goal with |- context [outb ?a ?b ?q] => destruct (outb a b q) end.
  pose proof (cursor_update_vga w p3) as E.
  destruct (vga_cursor_update (w, p3)) as [[] [v' p']]. cbn in E. subst. by exists p'.
Qed.

End Console.

(** ** Loops over cells *)

Lemma cells_frame n i f v :
  v_row (cells n i f v) = v_row v /\ v_col (cells n i f v) = v_col v
  /\ v_color (cells n i f v) = v_color v
  /\ forall j, ~ i <= j < i + Z.of_nat n -> v_mem (cells n i f v) !! j = v_mem v !! j.
Proof.
  revert i v. induction n as [|n IH]; intros i v; cbn [cells]; [done|].
  destruct (IH (i + 1) (set_cell i (f v i) v)) as (R & C & K & M).
  split_and!; [done..|]. intros j Hj. rewrite M by lia. cbn. apply lookup_insert_ne. lia.
Qed.

Lemma cells_const n i x v j :
  i <= j < i + Z.of_nat n -> cell_at (cells n i (fun _ _ => x) v) j = x.
Proof.
  revert i v. induction n as [|n IH]; intros i v Hj; [lia|]. cbn [cells].
  destruct (decide (j = i)) as [->|Hne]; [|apply IH; lia].
  unfold cell_at. destruct (cells_frame n (i + 1) (fun _ _ => x) (set_cell i x v)) as (_ & _ & _ & M).
  rewrite M by lia. cbn. by rewrite lookup_insert_eq.
Qed.

Lemma cells_shift n i w v j :
  0 < w -> i <= j < i + Z.of_nat n ->
  cell_at (cells n i (fun v k => cell_at v (k + w)) v) j = cell_at v (j + w).
Proof.
  intros Hw. revert i v. induction n as [|n IH]; intros i v Hj; [lia|]. cbn [cells].
  destruct (decide (j = i)) as [->|Hne].
  - unfold cell_at at 1.
    match goal with |- context [cells n _ ?f ?u] => destruct (cells_frame n (i + 1) f u) as (_ & _ & _ & M) end.
    rewrite M by lia. cbn. by rewrite lookup_insert_eq.
  - rewrite IH by lia. unfold cell_at. cbn. by rewrite lookup_insert_ne by lia.
Qed.

#[local] Opaque cells.

(** ** The page *)

Record page := Page { g_row : Z; g_col : Z; g_text : gmap Z Z }.

Definition blank : Z := vga_entry CHAR_SPACE VGA_BLACK.
Definition page_at (g : page) (i : Z) : Z := default blank (g_text g !! i).
Definition empty_page : page := Page 0 0 ∅.

(** A tab goes to the next multiple of 8; a full line continues on the next. *)
Definition advance (g : page) : page := if VGA_WIDTH <=? g_col g then Page (g_row g + 1) 0 (g_text g) else g.

Definition strike (color c : Z) (g : page) : page :=
  if c =? 10 then Page (g_row g + 1) 0 (g_text g)
  else if c =? 13 then Page (g_row g) 0 (g_text g)
  else if c =? CHAR_TAB then Page (g_row g) (8 * (g_col g / 8 + 1)) (g_text g)
  else if c =? CHAR_BS then Page (g_row g) (Z.max 0 (g_col g - 1)) (g_text g)
  else if CHAR_SPACE <=? c then
    Page (g_row g) (g_col g + 1)
      (<[g_row g * VGA_WIDTH + g_col g := vga_entry (u8 c) color]> (g_text g))
  else g.

Definition type_char (color c : Z) (g : page) : page := advance (strike color c g).

Definition typed (color : Z) (s : list Z) : page := foldl (fun g c => type_char color (i8 c) g) empty_page s.

(** The screen shows the rows from [off] on, and the cursor is the page's;
    nothing has been written below the cursor's row. *)
Record window (off : Z) (g : page) (v : vga) : Prop := {
  win_row : v_row v = g_row g - off;
  win_col : v_col v = g_col g;
  win_cells : forall i, 0 <= i < VGA_HEIGHT * VGA_WIDTH -> cell_at v i = page_at g (i + off * VGA_WIDTH);
  win_below : forall i, (g_row g + 1) * VGA_WIDTH <= i -> g_text g !! i = None
}.

Definition in_screen (v : vga) : Prop := 0 <= v_row v < VGA_HEIGHT /\ 0 <= v_col v < VGA_WIDTH.

Lemma scroll_cells v i :
  0 <= i < VGA_HEIGHT * VGA_WIDTH ->
  cell_at (vga_scroll v) i =
    if decide (i < (VGA_HEIGHT - 1) * VGA_WIDTH) then cell_at v (i + VGA_WIDTH) else blank.
Proof.
  intros Hi. unfold vga_scroll, VGA_HEIGHT, VGA_WIDTH in *. case_decide as Hd.
  - unfold cell_at at 1. match goal with |- context [cells ?n ?k ?f (cells ?m ?l ?h ?u)] =>
      destruct (cells_frame n k f (cells m l h u)) as (_ & _ & _ & M) end.
    rewrite M by lia. apply cells_shift; lia.
  - apply cells_const. lia.
Qed.

Lemma scroll_frame v :
  v_row (vga_scroll v) = v_row v /\ v_col (vga_scroll v) = v_col v /\ v_color (vga_scroll v) = v_color v
  /\ forall i, ~ 0 <= i < VGA_HEIGHT * VGA_WIDTH -> v_mem (vga_scroll v) !! i = v_mem v !! i.
Proof.
  unfold vga_scroll, VGA_HEIGHT, VGA_WIDTH.
  match goal with |- context [cells ?n ?k ?f (cells ?m ?l ?h ?u)] =>
    destruct (cells_frame n k f (cells m l h u)) as (R & C & K & M);
    destruct (cells_frame m l h u) as (R' & C' & K' & M') end.
  split_and!; [congruence..|]. intros i Hi. rewrite M, M' by lia. done.
Qed.

(** Stores outside the screen: none. *)
Definition screen_only (v w : vga) : Prop :=
  v_color w = v_color v /\ forall i, ~ 0 <= i < VGA_HEIGHT * VGA_WIDTH -> v_mem w !! i = v_mem v !! i.

Lemma tab_stop c : 0 <= c < 80 -> Z.land (u64 (c + 8)) (u64 (Z.lnot 7)) = 8 * (c / 8 + 1).
Proof.
  intros Hc. rewrite u64_small by lia.
  replace (u64 (Z.lnot 7)) with (Z.shiftl (Z.ones (64 - 3)) 3) by reflexivity.
  rewrite land_high_ones by lia. zlia.
Qed.

#[local] Opaque vga_scroll.

(** The cursor between the steps of [vga_putchar]. *)
Definition near_screen (v : vga) : Prop :=
  0 <= v_row v <= VGA_HEIGHT /\ 0 <= v_col v <= VGA_WIDTH /\ (v_row v = VGA_HEIGHT -> v_col v = 0).

(** A row that the window does not show yet is empty. *)
Definition fresh_row (g : page) (v : vga) : Prop :=
  v_row v = VGA_HEIGHT -> forall i, g_row g * VGA_WIDTH <= i -> g_text g !! i = None.

Lemma window_move off g v r c :
  window off g v -> g_row g <= r + off -> window off (Page (r + off) c (g_text g)) (set_pos r c v).
Proof.
  intros [R C W B] Hle. split; cbn; [lia|done|exact W|].
  intros i Hi. apply B. unfold VGA_WIDTH in *. lia.
Qed.

Lemma put_window off g v c :
  window off g v -> in_screen v -> 0 <= off ->
  window off (strike (v_color v) c g) (put c v) /\ near_screen (put c v)
  /\ fresh_row (strike (v_color v) c g) (put c v) /\ screen_only v (put c v).
Proof.
  intros Hw [Hr Hc] Ho. pose proof Hw as [R C W B].
  assert (Er : g_row g = v_row v + off) by lia.
  unfold put, strike, near_screen, fresh_row, VGA_HEIGHT, VGA_WIDTH in *.
  rewrite !(u64_small (_ + 1)) by lia.
  destruct (c =? 10).
  { replace (g_row g + 1) with (v_row v + 1 + off) by lia.
    split_and!; cbn; try lia; [apply window_move; [done|lia]|intros _ i Hi; apply B; lia|by split]. }
  assert (Hmove : forall k, 0 <= k <= 80 ->
    window off (Page (v_row v + off) k (g_text g)) (set_pos (v_row v) k v)) by (intros; apply window_move; [done|lia]).
  rewrite Er. destruct (c =? 13); [split_and!; cbn; try lia; [apply Hmove; lia|by split]|].
  rewrite <- C. destruct (c =? CHAR_TAB).
  { rewrite tab_stop by lia. split_and!; cbn; try zlia; [apply Hmove; zlia|by split]. }
  destruct (c =? CHAR_BS).
  { destruct (Z.ltb_spec 0 (v_col v)).
    - replace (Z.max 0 (v_col v - 1)) with (v_col v - 1) by lia.
      split_and!; cbn; try lia; [apply Hmove; lia|by split].
    - replace (Z.max 0 (v_col v - 1)) with (v_col v) by lia.
      split_and!; cbn; try lia; [|by split]. by split; cbn; rewrite <- ?Er. }
  destruct (CHAR_SPACE <=? c); [|split_and!; try lia; done || by split].
  split_and!; cbn; try lia; [|split; [done|]; intros i Hi; apply lookup_insert_ne; unfold VGA_HEIGHT, VGA_WIDTH in Hi; lia].
  split; cbn; [lia|done| |].
    + intros i Hi. unfold cell_at, page_at, VGA_WIDTH. cbn.
      destruct (decide (i = v_row v * 80 + v_col v)) as [->|Hne].
      * replace (v_row v * 80 + v_col v + off * 80) with ((v_row v + off) * 80 + v_col v) by lia.
        by rewrite !lookup_insert_eq.
      * rewrite !lookup_insert_ne by lia. by apply W.
    + intros i Hi. unfold VGA_WIDTH in *. rewrite lookup_insert_ne by lia. apply B. lia.
Qed.

Lemma wrap_window off g v :
  window off g v -> near_screen v -> fresh_row g v -> 0 <= off ->
  window off (advance g) (wrap v) /\ 0 <= v_row (wrap v) <= VGA_HEIGHT /\ 0 <= v_col (wrap v) < VGA_WIDTH
  /\ fresh_row (advance g) (wrap v) /\ screen_only v (wrap v).
Proof.
  intros Hw (Hr & Hc & Hrc) Hf Ho. pose proof Hw as [R C W B]. unfold wrap, advance. rewrite <- C.
  unfold VGA_HEIGHT in *.
  destruct (Z.leb_spec VGA_WIDTH (v_col v)); [|split_and!; [done|lia..|done|by split]].
  unfold VGA_WIDTH in *. rewrite u64_small by lia. replace (g_row g + 1) with (v_row v + 1 + off) by lia.
  split_and!; cbn; try lia; [apply window_move; [done|lia]| |by split].
  intros _ i Hi. cbn in *. unfold VGA_WIDTH in *. apply B. lia.
Qed.

(** At the 26th row the window moves down by one. *)
Lemma scroll_window off g v :
  window off g v -> 0 <= v_row v <= VGA_HEIGHT -> 0 <= v_col v < VGA_WIDTH -> fresh_row g v -> 0 <= off ->
  let d := if decide (v_row v = VGA_HEIGHT) then 1 else 0 in
  window (off + d) g (scroll_up v) /\ in_screen (scroll_up v) /\ screen_only v (scroll_up v).
Proof.
  intros [R C W B] Hr Hc Hf Ho. unfold scroll_up, in_screen, fresh_row, VGA_HEIGHT in *. cbv zeta.
  destruct (Z.leb_spec 25 (v_row v)).
  - rewrite decide_True by lia. destruct (scroll_frame v) as (Sr & Sc & Sk & Sm).
    pose proof (scroll_cells v) as Hs. revert Sr Sc Sk Sm Hs. generalize (vga_scroll v) as w. intros w ?????.
    split_and!; cbn [v_row v_col set_pos]; try lia; [|by split].
    split; cbn [v_row v_col set_pos]; [lia|congruence| |done].
    intros i Hi. unfold cell_at, VGA_HEIGHT, VGA_WIDTH in *. cbn [v_mem set_pos]. rewrite Hs by lia. case_decide.
    + rewrite W by lia. f_equal. lia.
    + unfold page_at. rewrite Hf by lia. done.
  - rewrite decide_False by lia. rewrite Z.add_0_r. split_and!; [by split|lia..|by split].
Qed.

(** The first row the screen shows. *)
Definition top (g : page) : Z := Z.max 0 (g_row g - (VGA_HEIGHT - 1)).

Lemma type_char_row color c g : g_row g <= g_row (type_char color c g).
Proof.
  unfold type_char, advance. assert (g_row g <= g_row (strike color c g)).
  { unfold strike. repeat case_match; cbn; lia. }
  case_match; cbn; lia.
Qed.

Lemma putchar_window g v c :
  window (top g) g v -> in_screen v ->
  let g' := type_char (v_color v) c g in
  let v' := scroll_up (wrap (put c v)) in
  window (top g') g' v' /\ in_screen v' /\ screen_only v v'.
Proof.
  intros Hw Hs. assert (Ho : 0 <= top g) by (unfold top; lia).
  destruct (put_window (top g) g v c Hw Hs Ho) as (W1 & N1 & F1 & S1).
  destruct (wrap_window _ _ _ W1 N1 F1 Ho) as (W2 & Hr & Hc & F2 & S2).
  destruct (scroll_window _ _ _ W2 Hr Hc F2 Ho) as (W3 & I3 & S3).
  pose proof (type_char_row (v_color v) c g) as Hm. pose proof (win_row _ _ _ W2) as Hr2.
  cbv zeta in *. fold (type_char (v_color v) c g) in W3, Hr2.
  split_and!; [|exact I3|].
  - refine (eq_ind _ (fun o => window o _ _) W3 _ _). unfold top, VGA_HEIGHT in *. case_decide; lia.
  - destruct S1 as [K1 M1], S2 as [K2 M2], S3 as [K3 M3]. split; [congruence|].
    intros i Hi. by rewrite M3, M2, M1.
Qed.

Lemma write_window s g v :
  window (top g) g v -> in_screen v ->
  let g' := foldl (fun g c => type_char (v_color v) (i8 c) g) g s in
  let v' := foldl (fun v c => scroll_up (wrap (put (i8 c) v))) v s in
  window (top g') g' v' /\ in_screen v' /\ screen_only v v'.
Proof.
  revert g v. induction s as [|c s IH]; intros g v Hw Hs; cbn [foldl]; [by split_and!; [..|split]|].
  destruct (putchar_window g v (i8 c) Hw Hs) as (W1 & I1 & [K1 M1]).
  destruct (IH _ _ W1 I1) as (W2 & I2 & [K2 M2]). rewrite K1 in W2, K2.
  split_and!; [exact W2|exact I2|]. split; [exact K2|]. intros i Hi. by rewrite M2, M1.
Qed.

(** C40: the console shows the end of the text.  After [vga_clear] the screen,
    whatever is written ([vga_write], any bytes, any length), is the window of
    25 rows of 80 cells onto the page on which the text is typed without an
    end: the last 25 rows once it is longer than that, with the cursor where
    the typing is.  The cursor never leaves the screen and no cell outside the
    2000 of the screen is ever stored to. *)
Theorem console_shows_last_rows {P} {io : PortIO P} s v p :
  let v1 := ((do* vga_clear VGA_BLACK in vga_write s) (v, p)).2.1 in
  let g := typed (v_color v) s in
  0 <= v_row v1 < VGA_HEIGHT /\ 0 <= v_col v1 < VGA_WIDTH
  /\ v_row v1 = g_row g - top g /\ v_col v1 = g_col g
  /\ (forall i, 0 <= i < VGA_HEIGHT * VGA_WIDTH -> cell_at v1 i = page_at g (i + top g * VGA_WIDTH))
  /\ (forall i, ~ 0 <= i < VGA_HEIGHT * VGA_WIDTH -> v_mem v1 !! i = v_mem v !! i).
Proof.
  destruct (vga_clear_run VGA_BLACK v p) as [p1 E1]. unfold bind at 1. rewrite E1.
  match goal with |- context [set_pos 0 0 (cells ?n ?k ?f v)] =>
    destruct (cells_frame n k f v) as (_ & _ & Hc & Hm);
    pose proof (cells_const n k (vga_entry CHAR_SPACE VGA_BLACK) v) as Hb;
    revert Hc Hm Hb; generalize (cells n k f v) end.
  intros w Hc Hm Hb. destruct (vga_write_run s (set_pos 0 0 w) p1) as [p2 E2]. rewrite E2. cbn [fst snd].
  destruct (write_window s empty_page (set_pos 0 0 w)) as ([R C W _] & [Hr Hl] & [_ M]).
  - split; cbn; [done..| |done]. intros i Hi. unfold page_at, cell_at in *. cbn. apply Hb.
    unfold VGA_HEIGHT, VGA_WIDTH in *. lia.
  - split; cbn; unfold VGA_HEIGHT, VGA_WIDTH; lia.
  - unfold typed. rewrite <- Hc. split_and!; [apply Hr..|apply Hl|apply Hl|exact R|exact C|exact W|].
    intros i Hi. rewrite M by done. apply Hm. unfold VGA_HEIGHT, VGA_WIDTH in *. lia.
Qed.
