(* ===== verification/Cmos.v ===== *)
(** * The real-time clock and the timer ([src/kernel/cmos.c], [src/kernel/timer.c])

    The clock's registers are read over two ports; the loop that waits for
    the end of an update polls without a bound and takes fuel here.
    [format_datetime] is the text SYS_DATETIME makes of the result.  The
    timer counts its interrupts in [tick_count], a 64-bit word. *)

From S2P Require Import Prelude.
From S2P Require Import Io.

Record rtc_datetime := Rtc {
  dt_second : Z; dt_minute : Z; dt_hour : Z; dt_day : Z; dt_month : Z; dt_year : Z
}.

Definition CMOS_INDEX : Z := 0x70.
Definition CMOS_DATA : Z := 0x71.
Definition CMOS_STAT_A : Z := 0x0A.
Definition CMOS_STAT_B : Z := 0x0B.
Definition CMOS_UIP : Z := 0x80.

Definition bcd_to_bin (val : Z) : Z := u8 (Z.land val 0x0F + Z.shiftr val 4 * 10).

Section Clock.
Context {P : Type} {io : PortIO P}.

Definition cmos_read_reg (reg : Z) : ST P Z :=
  do* outb CMOS_INDEX reg in
  let* v := inb CMOS_DATA in
  ret (u8 v).

(** [while (cmos_read_reg(CMOS_STAT_A) & CMOS_UIP);] *)
Fixpoint wait_update (fuel : nat) : ST P bool :=
  match fuel with
  | O => ret false
  | S f =>
      let* a := cmos_read_reg CMOS_STAT_A in
      if flag a CMOS_UIP then wait_update f else ret true
  end.

Definition cmos_read_datetime (fuel : nat) : ST P (option rtc_datetime) :=
  let* ready := wait_update fuel in
  if negb ready then ret None
  else
    let* regb := cmos_read_reg CMOS_STAT_B in
    let bcd := negb (flag regb 0x04) in
    let* sec := cmos_read_reg 0x00 in
    let* min := cmos_read_reg 0x02 in
    let* hour := cmos_read_reg 0x04 in
    let* day := cmos_read_reg 0x07 in
    let* mon := cmos_read_reg 0x08 in
    let* year := cmos_read_reg 0x09 in
    let* century := cmos_read_reg 0x32 in
    let conv v := if bcd then bcd_to_bin v else v in
    ret (Some (Rtc (conv sec) (conv min) (conv hour) (conv day) (conv mon)
                 (u16 (conv century * 100 + conv year)))).

(** [timer_init]: the divisor for 100 Hz. *)
Definition timer_init : ST P Z :=
  let divisor := 1193182 / 100 in
  do* outb 0x43 0x36 in
  do* outb 0x40 (u8 (Z.land divisor 0xFF)) in
  do* outb 0x40 (u8 (Z.land (Z.shiftr divisor 8) 0xFF)) in
  ret 0.

End Clock.

(** The stores [buf[i] = '0' + n] of SYS_DATETIME, as characters. *)
Definition digit (n : Z) : Z := u8 (48 + n).
Definition two_digits (n : Z) : list Z := [digit (n / 10); digit (n mod 10)].

Definition format_datetime (dt : rtc_datetime) : list Z :=
  [digit ((dt_year dt / 1000) mod 10); digit ((dt_year dt / 100) mod 10);
   digit ((dt_year dt / 10) mod 10); digit (dt_year dt mod 10)]
  ++ str "-" ++ two_digits (dt_month dt) ++ str "-" ++ two_digits (dt_day dt)
  ++ str " " ++ two_digits (dt_hour dt) ++ str ":" ++ two_digits (dt_minute dt)
  ++ str ":" ++ two_digits (dt_second dt) ++ [10].

(** [timer_sleep] waits while [tick_count < sleep_target]. *)
Definition sleep_target (tick_count ms : Z) : Z := u64 (tick_count + ms / 10).
