(* ===== verification/Disk.v ===== *)
(** * The block-device interface

    [ata_read_sectors] and [ata_write_sectors] as the file system uses them:
    [Disk] has the two operations ([disk_read], [disk_write]), [DiskLaws] what
    they promise on a drive without faults ([up]) about the sectors of 512
    bytes.  [ram_disk] is a concrete device that satisfies the laws; the
    driver of [src/kernel/fs/ata.c] is modelled in Ata.v and discharges them
    for a drive that follows the ATA protocol.  The second half
    lifts the laws to the 4096-byte blocks of TinyFS. *)

From S2P Require Import Prelude.

Definition ATA_SECTOR_SIZE : Z := 512.
Definition LBA_LIMIT : Z := 2 ^ 28.

Class Disk (D : Type) := {
  disk_read : Z -> Z -> D -> option (list Z) * D;      (* lba, count; None is -1 *)
  disk_write : Z -> Z -> list Z -> D -> Z * D
}.

(** The [n] sectors from [lba]. *)
Fixpoint sectors (f : Z -> list Z) (lba : Z) (n : nat) : list Z :=
  match n with
  | O => []
  | S n' => f lba ++ sectors f (lba + 1) n'
  end.

Class DiskLaws (D : Type) `{Disk D} := {
  sector : D -> Z -> list Z;
  up : D -> Prop;
  sector_len d l : length (sector d l) = 512%nat;
  sector_ok d l : bytes_ok (sector d l);
  read_up d lba n :
    up d -> 0 <= lba -> 0 < n < 256 -> lba + n <= LBA_LIMIT ->
    exists d', disk_read lba n d = (Some (sectors (sector d) lba (Z.to_nat n)), d')
      /\ up d' /\ forall l, sector d' l = sector d l;
  write_up d lba n bs :
    up d -> 0 <= lba -> 0 < n < 256 -> lba + n <= LBA_LIMIT ->
    bytes_ok bs -> length bs = (512 * Z.to_nat n)%nat ->
    exists d', disk_write lba n bs d = (0, d') /\ up d'
      /\ forall l, sector d' l =
           if decide (lba <= l < lba + n) then slice (512 * Z.to_nat (l - lba)) 512 bs else sector d l
}.

(** ** A concrete device *)

Abbreviation ramdisk := (gmap Z (list Z)).
Definition zero_sector : list Z := replicate 512 0.

Definition rd_sector (d : ramdisk) (l : Z) : list Z :=
  match d !! l with
  | Some s => if decide (length s = 512%nat /\ bytes_ok s) then s else zero_sector
  | None => zero_sector
  end.

Fixpoint rd_write (lba : Z) (n : nat) (bs : list Z) (d : ramdisk) : ramdisk :=
  match n with
  | O => d
  | S n' => rd_write (lba + 1) n' (drop 512 bs) (<[lba := take 512 bs]> d)
  end.

#[export] Instance ram_disk : Disk ramdisk := {
  disk_read lba n d := (Some (sectors (rd_sector d) lba (Z.to_nat n)), d);
  disk_write lba n bs d := (0, rd_write lba (Z.to_nat n) bs d)
}.

Lemma rd_sector_insert d l s x :
  length s = 512%nat -> bytes_ok s ->
  rd_sector (<[l := s]> d) x = if decide (x = l) then s else rd_sector d x.
Proof.
  intros Hl Hs. unfold rd_sector. case_decide as E.
  - subst. rewrite lookup_insert_eq. by rewrite decide_True.
  - by rewrite lookup_insert_ne.
Qed.

Lemma rd_write_sector n lba bs d x :
  bytes_ok bs -> length bs = (512 * n)%nat ->
  rd_sector (rd_write lba n bs d) x =
    if decide (lba <= x < lba + Z.of_nat n) then slice (512 * Z.to_nat (x - lba)) 512 bs
    else rd_sector d x.
Proof.
  revert lba bs d. induction n as [|n IH]; intros lba bs d Hok Hl; cbn [rd_write].
  - by rewrite decide_False by lia.
  - rewrite IH; [|by apply Forall_drop|rewrite length_drop; lia].
    rewrite rd_sector_insert; [|rewrite length_take; lia|by apply Forall_take].
    destruct (decide (x = lba)) as [->|Hne].
    + rewrite decide_False, decide_True by lia. rewrite Z.sub_diag. done.
    + repeat case_decide; try lia; [|done]. unfold slice. rewrite drop_drop. do 2 f_equal. lia.
Qed.

#[export] Program Instance ram_disk_laws : DiskLaws ramdisk := {
  sector := rd_sector;
  up := fun _ => True
}.
Next Obligation.
  intros d l. unfold rd_sector. destruct (d !! l) as [s|]; [|done]. by case_decide as E; [destruct E|].
Qed.
Next Obligation.
  intros d l. unfold rd_sector.
  assert (bytes_ok zero_sector) by (apply Forall_replicate; unfold is_byte; lia).
  destruct (d !! l) as [s|]; [|done]. by case_decide as E; [destruct E|].
Qed.
Next Obligation. intros d lba n _ _ _ _. by exists d. Qed.
Next Obligation.
  intros d lba n bs _ Hlba Hn _ Hok Hl. eexists. split_and!; [done|done|].
  intros l. rewrite rd_write_sector by done. by replace (Z.of_nat (Z.to_nat n)) with n by lia.
Qed.

(** ** Blocks *)

Section Blocks.
Context {D : Type} `{DiskLaws D}.

Definition BLOCK_LIMIT : Z := LBA_LIMIT / 8.

(** The content of block [b]. *)
Definition blk (d : D) (b : Z) : list Z := sectors (sector d) (b * 8) 8.

Lemma sectors_length d lba n : length (sectors (sector d) lba n) = (512 * n)%nat.
Proof.
  revert lba. induction n as [|n IH]; intros lba; cbn [sectors]; [done|].
  rewrite length_app, sector_len, IH. lia.
Qed.

Lemma sectors_ok d lba n : bytes_ok (sectors (sector d) lba n).
Proof.
  revert lba. induction n as [|n IH]; intros lba; cbn [sectors]; [done|].
  apply Forall_app. split; [apply sector_ok|apply IH].
Qed.

Lemma blk_length d b : length (blk d b) = 4096%nat.
Proof. unfold blk. by rewrite sectors_length. Qed.

Lemma blk_ok d b : bytes_ok (blk d b).
Proof. apply sectors_ok. Qed.

Lemma sectors_ext (f g : Z -> list Z) lba n :
  (forall l, lba <= l < lba + Z.of_nat n -> f l = g l) -> sectors f lba n = sectors g lba n.
Proof.
  revert lba. induction n as [|n IH]; intros lba Hfg; cbn [sectors]; [done|].
  rewrite Hfg by lia. f_equal. apply IH. intros. apply Hfg. lia.
Qed.

Lemma sectors_slice bs lba n :
  length bs = (512 * n)%nat ->
  sectors (fun l => slice (512 * Z.to_nat (l - lba)) 512 bs) lba n = bs.
Proof.
  intros Hl.
  assert (Hg : forall k, (k <= n)%nat ->
    sectors (fun l => slice (512 * Z.to_nat (l - lba)) 512 bs) (lba + Z.of_nat (n - k)) k
      = drop (512 * (n - k)) bs).
  { induction k as [|k IH]; intros Hk; cbn [sectors].
    - rewrite drop_ge by lia. done.
    - replace (lba + Z.of_nat (n - S k) + 1) with (lba + Z.of_nat (n - k)) by lia.
      rewrite IH by lia. replace (Z.to_nat (lba + Z.of_nat (n - S k) - lba)) with (n - S k)%nat by lia.
      unfold slice. replace (512 * (n - k))%nat with (512 * (n - S k) + 512)%nat by lia.
      rewrite <- drop_drop. by rewrite take_drop. }
  specialize (Hg n ltac:(lia)). rewrite Nat.sub_diag, Z.add_0_r in Hg. rewrite Hg. done.
Qed.

Lemma blk_read d b :
  up d -> 0 <= b < BLOCK_LIMIT ->
  exists d', disk_read (b * 8) 8 d = (Some (blk d b), d') /\ up d'
    /\ forall x, blk d' x = blk d x.
Proof.
  intros Hu Hb. unfold BLOCK_LIMIT, LBA_LIMIT in *.
  destruct (read_up d (b * 8) 8 Hu) as (d' & Hr & Hu' & Hs); [lia|lia|unfold LBA_LIMIT; zlia|].
  exists d'. split_and!; [done|done|]. intros x. apply sectors_ext. auto.
Qed.

Lemma blk_write d b bs :
  up d -> 0 <= b < BLOCK_LIMIT -> bytes_ok bs -> length bs = 4096%nat ->
  exists d', disk_write (b * 8) 8 bs d = (0, d') /\ up d'
    /\ forall x, blk d' x = if decide (x = b) then bs else blk d x.
Proof.
  intros Hu Hb Hok Hl. unfold BLOCK_LIMIT, LBA_LIMIT in *.
  destruct (write_up d (b * 8) 8 bs Hu) as (d' & Hr & Hu' & Hs);
    [lia|lia|unfold LBA_LIMIT; zlia|done|done|].
  exists d'. split_and!; [done|done|]. intros x. unfold blk. case_decide as E.
  - subst. etrans; [|exact (sectors_slice bs (b * 8) 8 Hl)]. apply sectors_ext.
    intros l Hl'. rewrite Hs, decide_True by lia. done.
  - apply sectors_ext. intros l Hl'. rewrite Hs, decide_False by lia. done.
Qed.

End Blocks.
