(* ===== verification/Ata.v ===== *)
(** * The disk driver ([src/kernel/fs/ata.c])

    Programmed I/O over the ports of the primary ATA channel.  The processor's
    port instructions are the class [PortIO] (io.h wraps them); what the
    driver relies on in a drive is the class [AtaDrive]: the documented
    protocol of the register file, BSY/DRQ and the data port, as laws about an
    abstract drive.  Under these laws the driver is a [Disk] that satisfies
    [DiskLaws], so everything proved about the file system holds on top of it.
    [Sim] is a concrete drive that satisfies the laws. *)

From S2P Require Import Prelude.
From S2P Require Import Io.
From S2P Require Import Disk.

Definition ATA_DATA : Z := 0x1F0.
Definition ATA_SECT_COUNT : Z := 0x1F2.
Definition ATA_LBA_LO : Z := 0x1F3.
Definition ATA_LBA_MID : Z := 0x1F4.
Definition ATA_LBA_HI : Z := 0x1F5.
Definition ATA_DRIVE : Z := 0x1F6.
Definition ATA_CMD_STAT : Z := 0x1F7.
Definition ATA_CMD_READ : Z := 0x20.
Definition ATA_CMD_WRITE : Z := 0x30.
Definition ATA_MASTER : Z := 0xE0.
Definition ATA_STATUS_BSY : Z := 0x80.
Definition ATA_STATUS_DRQ : Z := 0x08.
Definition ATA_STATUS_ERR : Z := 0x01.
Definition ATA_TIMEOUT : Z := 10000000.

Section Driver.
Context {P : Type} `{PortIO P}.

(** The loops have [timeout] left when they start an iteration. *)
Fixpoint wait_busy_loop (timeout : nat) : ST P Z :=
  match timeout with
  | O => ret (-1)
  | S t =>
      let* s := inb ATA_CMD_STAT in
      if flag s ATA_STATUS_BSY then wait_busy_loop t else ret 0
  end.

Definition ata_wait_busy : ST P Z := wait_busy_loop (Z.to_nat ATA_TIMEOUT).

Fixpoint wait_drq_loop (timeout : nat) : ST P Z :=
  match timeout with
  | O => ret (-1)
  | S t =>
      let* s := inb ATA_CMD_STAT in
      if flag s ATA_STATUS_DRQ then ret 0
      else
        let* stat := inb ATA_CMD_STAT in
        if flag stat ATA_STATUS_ERR then ret (-1)
        else if flag stat ATA_STATUS_BSY then ret (-1)
        else wait_drq_loop t
  end.

Definition ata_wait_drq : ST P Z := wait_drq_loop (Z.to_nat ATA_TIMEOUT).

(** The six register writes both calls start a command with. *)
Definition ata_command (lba count cmd : Z) : ST P unit :=
  do* outb ATA_DRIVE (u8 (Z.lor ATA_MASTER (Z.land (Z.shiftr lba 24) 0x0F))) in
  do* outb ATA_SECT_COUNT count in
  do* outb ATA_LBA_LO (u8 (Z.land lba 0xFF)) in
  do* outb ATA_LBA_MID (u8 (Z.land (Z.shiftr lba 8) 0xFF)) in
  do* outb ATA_LBA_HI (u8 (Z.land (Z.shiftr lba 16) 0xFF)) in
  outb ATA_CMD_STAT cmd.

(** [for (i = 0; i < 256; i++) word_buf[s * 256 + i] = inw(ATA_DATA)]: the
    bytes stored, low byte first. *)
Fixpoint read_words (rounds : nat) : ST P (list Z) :=
  match rounds with
  | O => ret []
  | S n =>
      let* w := inw ATA_DATA in
      let* rest := read_words n in
      ret (le_bytes 2 (u16 w) ++ rest)
  end.

Fixpoint write_words (rounds : nat) (bs : list Z) : ST P unit :=
  match rounds with
  | O => ret tt
  | S n =>
      do* outw ATA_DATA (le_val (take 2 bs)) in
      write_words n (drop 2 bs)
  end.

(** The loop over the sectors; [None] is [return -1]. *)
Fixpoint read_sectors_loop (rounds : nat) : ST P (option (list Z)) :=
  match rounds with
  | O => ret (Some [])
  | S n =>
      chk* ata_wait_busy else None in
      chk* ata_wait_drq else None in
      let* sector := read_words 256 in
      try* rest := read_sectors_loop n else None in
      ret (Some (sector ++ rest))
  end.

Definition ata_read_sectors (lba count : Z) : ST P (option (list Z)) :=
  chk* ata_wait_busy else None in
  do* ata_command lba count ATA_CMD_READ in
  read_sectors_loop (Z.to_nat count).

Fixpoint write_sectors_loop (rounds : nat) (bs : list Z) : ST P Z :=
  match rounds with
  | O => ret 0
  | S n =>
      chk* ata_wait_busy else -1 in
      chk* ata_wait_drq else -1 in
      do* write_words 256 bs in
      write_sectors_loop n (drop 512 bs)
  end.

Definition ata_write_sectors (lba count : Z) (bs : list Z) : ST P Z :=
  chk* ata_wait_busy else -1 in
  do* ata_command lba count ATA_CMD_WRITE in
  write_sectors_loop (Z.to_nat count) bs.

End Driver.

#[export] Instance ata_disk {P} `{PortIO P} : Disk P := {
  disk_read := ata_read_sectors;
  disk_write := ata_write_sectors
}.

(** ** The drive *)

Record ata_regs := AtaRegs { r_drive : Z; r_count : Z; r_lo : Z; r_mid : Z; r_hi : Z }.

(** The sector the registers address. *)
Definition regs_lba (r : ata_regs) : Z :=
  r_lo r + 2 ^ 8 * r_mid r + 2 ^ 16 * r_hi r + 2 ^ 24 * (r_drive r mod 16).

Inductive ata_phase :=
| Idle
| Sending (lba : Z) (n : nat) (i : nat)             (* [n] sectors to go, the first from word [i] *)
| Receiving (lba : Z) (n : nat) (got : list Z).

(** Word [i] of a sector. *)
Definition word_of (s : list Z) (i : nat) : Z := le_val (slice (2 * i) 2 s).

(** The protocol.  [settle] is how many more reads of the status register
    show BSY; after them it shows DRQ in a data phase. *)
Class AtaDrive (P : Type) `{PortIO P} := {
  drv_sector : P -> Z -> list Z;
  drv_regs : P -> ata_regs;
  drv_phase : P -> ata_phase;
  settle : P -> nat;
  drv_sector_len p l : length (drv_sector p l) = 512%nat;
  drv_sector_ok p l : bytes_ok (drv_sector p l);
  settles p : (Z.of_nat (settle p) < ATA_TIMEOUT);
  status_law p : exists v p', inb ATA_CMD_STAT p = (v, p')
    /\ drv_phase p' = drv_phase p /\ drv_regs p' = drv_regs p /\ drv_sector p' = drv_sector p
    /\ settle p' = pred (settle p)
    /\ flag v ATA_STATUS_BSY = negb (settle p =? 0)%nat
    /\ (settle p = 0%nat -> drv_phase p <> Idle -> flag v ATA_STATUS_DRQ = true);
  reg_law p port v : settle p = 0%nat -> drv_phase p = Idle -> exists p', outb port v p = (tt, p')
    /\ (port <> ATA_CMD_STAT -> drv_phase p' = Idle /\ settle p' = 0%nat
        /\ drv_sector p' = drv_sector p
        /\ drv_regs p' =
             let r := drv_regs p in
             if port =? ATA_DRIVE then AtaRegs v (r_count r) (r_lo r) (r_mid r) (r_hi r)
             else if port =? ATA_SECT_COUNT then AtaRegs (r_drive r) v (r_lo r) (r_mid r) (r_hi r)
             else if port =? ATA_LBA_LO then AtaRegs (r_drive r) (r_count r) v (r_mid r) (r_hi r)
             else if port =? ATA_LBA_MID then AtaRegs (r_drive r) (r_count r) (r_lo r) v (r_hi r)
             else if port =? ATA_LBA_HI then AtaRegs (r_drive r) (r_count r) (r_lo r) (r_mid r) v
             else r)
    /\ (port = ATA_CMD_STAT -> 0 < r_count (drv_regs p) < 256 -> r_drive (drv_regs p) / 16 = 0xE ->
        drv_sector p' = drv_sector p
        /\ (v = ATA_CMD_READ -> drv_phase p' =
              Sending (regs_lba (drv_regs p)) (Z.to_nat (r_count (drv_regs p))) 0)
        /\ (v = ATA_CMD_WRITE -> drv_phase p' =
              Receiving (regs_lba (drv_regs p)) (Z.to_nat (r_count (drv_regs p))) []));
  read_law p l n i : settle p = 0%nat -> drv_phase p = Sending l (S n) i -> (i < 256)%nat ->
    exists p', inw ATA_DATA p = (word_of (drv_sector p l) i, p')
      /\ drv_sector p' = drv_sector p
      /\ (if decide (S i = 256)%nat
          then drv_phase p' = match n with O => Idle | _ => Sending (l + 1) n 0 end
          else drv_phase p' = Sending l (S n) (S i) /\ settle p' = 0%nat);
  write_law p l n got w : settle p = 0%nat -> drv_phase p = Receiving l (S n) got ->
    (length got < 512)%nat -> bytes_ok got -> 0 <= w < 65536 ->
    exists p', outw ATA_DATA w p = (tt, p')
      /\ (if decide (length got = 510)%nat
          then drv_phase p' = match n with O => Idle | _ => Receiving (l + 1) n [] end
            /\ forall x, drv_sector p' x =
                 if decide (x = l) then got ++ le_bytes 2 w else drv_sector p x
          else drv_phase p' = Receiving l (S n) (got ++ le_bytes 2 w) /\ settle p' = 0%nat
            /\ drv_sector p' = drv_sector p)
}.

Section Correct.
Context {P : Type} {io : PortIO P} {drive : AtaDrive P}.

(** What waiting does not change. *)
Definition same_drive (p p' : P) : Prop :=
  drv_phase p' = drv_phase p /\ drv_regs p' = drv_regs p /\ drv_sector p' = drv_sector p.

Lemma wait_busy_loop_ok t p : (settle p < t)%nat ->
  exists p', wait_busy_loop t p = (0, p') /\ same_drive p p' /\ settle p' = 0%nat.
Proof.
  revert p. induction t as [|t IH]; intros p Ht; [lia|]. cbn [wait_busy_loop].
  destruct (status_law p) as (v & p1 & Hin & Hph & Hrg & Hsc & Hse & Hb & _).
  rewrite (bind_run _ _ _ _ _ Hin), Hb. destruct (Nat.eqb_spec (settle p) 0) as [H0|H0]; cbn [negb].
  - exists p1. split_and!; [done|done|by rewrite Hse, H0].
  - destruct (IH p1) as (p2 & Hp2 & (Hph2 & Hrg2 & Hsc2) & Hse2); [lia|].
    exists p2. split_and!; [done| |done]. split_and!; congruence.
Qed.

Lemma wait_busy_ok p :
  exists p', ata_wait_busy p = (0, p') /\ same_drive p p' /\ settle p' = 0%nat.
Proof. apply wait_busy_loop_ok. pose proof (settles p). lia. Qed.

Lemma wait_drq_ok p : settle p = 0%nat -> drv_phase p <> Idle ->
  exists p', ata_wait_drq p = (0, p') /\ same_drive p p' /\ settle p' = 0%nat.
Proof.
  intros Hs Hp. unfold ata_wait_drq.
  assert (Ht : exists t, Z.to_nat ATA_TIMEOUT = S t)
    by (exists (Z.to_nat (ATA_TIMEOUT - 1)); unfold ATA_TIMEOUT; lia).
  destruct Ht as [t ->]. cbn [wait_drq_loop].
  destruct (status_law p) as (v & p1 & Hin & Hph & Hrg & Hsc & Hse & _ & Hd).
  rewrite (bind_run _ _ _ _ _ Hin), Hd by done.
  exists p1. split_and!; [done|done|by rewrite Hse, Hs].
Qed.

(** The registers spell the address. *)
Lemma lba_bytes lba :
  0 <= lba < LBA_LIMIT ->
  regs_lba (AtaRegs (u8 (Z.lor ATA_MASTER (Z.land (Z.shiftr lba 24) 0x0F))) 0
      (u8 (Z.land lba 0xFF)) (u8 (Z.land (Z.shiftr lba 8) 0xFF)) (u8 (Z.land (Z.shiftr lba 16) 0xFF)))
    = lba
  /\ u8 (Z.lor ATA_MASTER (Z.land (Z.shiftr lba 24) 0x0F)) / 16 = 0xE.
Proof.
  unfold LBA_LIMIT. intros Hl. rewrite !Z.shiftr_div_pow2 by lia.
  change 0x0F with (Z.ones 4). change 0xFF with (Z.ones 8). rewrite !Z.land_ones by lia.
  rewrite (lor_disjoint ATA_MASTER _ 4) by (done || (apply Z.mod_pos_bound; lia)).
  unfold regs_lba, ATA_MASTER. cbn [r_drive r_lo r_mid r_hi]. rewrite !u8_small by zlia.
  split; zlia.
Qed.

Lemma command_ok p lba count cmd :
  settle p = 0%nat -> drv_phase p = Idle -> 0 <= lba < LBA_LIMIT -> 0 < count < 256 ->
  exists p', ata_command lba count cmd p = (tt, p') /\ drv_sector p' = drv_sector p
    /\ (cmd = ATA_CMD_READ -> drv_phase p' = Sending lba (Z.to_nat count) 0)
    /\ (cmd = ATA_CMD_WRITE -> drv_phase p' = Receiving lba (Z.to_nat count) []).
Proof.
  intros Hs Hp Hl Hc. destruct (lba_bytes lba Hl) as [Hlba Hsel]. unfold ata_command.
  set (d := u8 (Z.lor _ _)) in *. set (lo := u8 (Z.land lba _)) in *.
  set (mid := u8 (Z.land (Z.shiftr lba 8) _)) in *. set (hi := u8 (Z.land (Z.shiftr lba 16) _)) in *.
  clearbody d lo mid hi.
  destruct (reg_law p ATA_DRIVE d Hs Hp) as (p1 & E1 & (P1 & S1 & C1 & R1) & _); [done|].
  destruct (reg_law p1 ATA_SECT_COUNT count S1 P1) as (p2 & E2 & (P2 & S2 & C2 & R2) & _); [done|].
  destruct (reg_law p2 ATA_LBA_LO lo S2 P2) as (p3 & E3 & (P3 & S3 & C3 & R3) & _); [done|].
  destruct (reg_law p3 ATA_LBA_MID mid S3 P3) as (p4 & E4 & (P4 & S4 & C4 & R4) & _); [done|].
  destruct (reg_law p4 ATA_LBA_HI hi S4 P4) as (p5 & E5 & (P5 & S5 & C5 & R5) & _); [done|].
  destruct (reg_law p5 ATA_CMD_STAT cmd S5 P5) as (p6 & E6 & _ & Hcmd).
  cbn in R1, R2, R3, R4, R5.
  assert (Hregs : drv_regs p5 = AtaRegs d count lo mid hi) by (rewrite R5, R4, R3, R2, R1; done).
  rewrite Hregs in Hcmd. destruct Hcmd as (C6 & Hrd & Hwr); [done|done|exact Hsel|].
  exists p6. split.
  - rewrite (bind_run _ _ _ _ _ E1), (bind_run _ _ _ _ _ E2), (bind_run _ _ _ _ _ E3),
      (bind_run _ _ _ _ _ E4), (bind_run _ _ _ _ _ E5). done.
  - change (regs_lba (AtaRegs d count lo mid hi)) with (regs_lba (AtaRegs d 0 lo mid hi)) in *.
    cbn [r_count] in *. rewrite Hlba in *. split_and!; [congruence|done|done].
Qed.

(** Both transfers start with the same lines. *)
Lemma start_ok p lba count cmd :
  drv_phase p = Idle -> 0 <= lba < LBA_LIMIT -> 0 < count < 256 ->
  exists p', (forall A (r : A) (k : ST P A),
      (chk* ata_wait_busy else r in do* ata_command lba count cmd in k) p = k p')
    /\ drv_sector p' = drv_sector p
    /\ (cmd = ATA_CMD_READ -> drv_phase p' = Sending lba (Z.to_nat count) 0)
    /\ (cmd = ATA_CMD_WRITE -> drv_phase p' = Receiving lba (Z.to_nat count) []).
Proof.
  intros Hp Hl Hc. destruct (wait_busy_ok p) as (p1 & E1 & (P1 & _ & C1) & S1).
  destruct (command_ok p1 lba count cmd S1) as (p2 & E2 & C2 & Hrd & Hwr); [congruence|done|done|].
  exists p2. split_and!; [|congruence|done|done]. intros A r k.
  rewrite (bind_run _ _ _ _ _ E1). cbn [Z.ltb Z.compare]. by rewrite (bind_run _ _ _ _ _ E2).
Qed.

Lemma word_bytes s i :
  bytes_ok s -> (2 * i + 2 <= length s)%nat -> le_bytes 2 (u16 (word_of s i)) = slice (2 * i) 2 s.
Proof.
  intros Hs Hl. pose proof (slice_ok (2 * i) 2 s Hs) as Hb.
  pose proof (length_slice (2 * i) 2 s Hl) as Hlen. unfold word_of.
  pose proof (le_val_range _ Hb) as Hr. rewrite Hlen in Hr.
  unfold u16. rewrite Z.mod_small by (change (2 ^ 16) with (256 ^ Z.of_nat 2); lia).
  pose proof (le_bytes_val _ Hb) as Hx. by rewrite Hlen in Hx.
Qed.

Lemma read_words_ok n : forall p l m i,
  settle p = 0%nat -> drv_phase p = Sending l (S m) i -> (i + S n = 256)%nat ->
  exists p', read_words (S n) p = (slice (2 * i) (2 * S n) (drv_sector p l), p')
    /\ drv_sector p' = drv_sector p
    /\ drv_phase p' = match m with O => Idle | _ => Sending (l + 1) m 0 end.
Proof.
  induction n as [|n IH]; intros p l m i Hs Hp Hi;
    destruct (read_law p l m i Hs Hp) as (p1 & E1 & C1 & Hn); [lia| |lia|];
    pose proof (drv_sector_len p l) as Hlen;
    assert (Hw : le_bytes 2 (u16 (word_of (drv_sector p l) i)) = slice (2 * i) 2 (drv_sector p l))
      by (apply word_bytes; [apply drv_sector_ok|lia]).
  - rewrite decide_True in Hn by lia. exists p1. split_and!; [|done|done].
    cbn [read_words]. rewrite (bind_run _ _ _ _ _ E1). unfold bind, ret. by rewrite app_nil_r, Hw.
  - rewrite decide_False in Hn by lia. destruct Hn as [P1 S1].
    destruct (IH p1 l m (S i) S1 P1) as (p2 & E2 & C2 & P2); [lia|]. exists p2. split_and!; [|congruence|done].
    change (read_words (S (S n))) with
      (let* w := inw ATA_DATA in let* rest := read_words (S n) in ret (le_bytes 2 (u16 w) ++ rest)).
    rewrite (bind_run _ _ _ _ _ E1), (bind_run _ _ _ _ _ E2). unfold ret.
    rewrite Hw, C1. replace (2 * S i)%nat with (2 * i + 2)%nat by lia. rewrite slice_cat.
    by replace (2 + 2 * S n)%nat with (2 * S (S n))%nat by lia.
Qed.

(** One round of either loop up to the data. *)
Lemma round_ok p :
  drv_phase p <> Idle ->
  exists p', (forall A (r : A) (k : ST P A),
      (chk* ata_wait_busy else r in chk* ata_wait_drq else r in k) p = k p')
    /\ same_drive p p' /\ settle p' = 0%nat.
Proof.
  intros Hp. destruct (wait_busy_ok p) as (p1 & E1 & (P1 & R1 & C1) & S1).
  destruct (wait_drq_ok p1 S1) as (p2 & E2 & (P2 & R2 & C2) & S2); [congruence|].
  exists p2. split_and!; [|split_and!; congruence|done]. intros A r k.
  rewrite (bind_run _ _ _ _ _ E1). cbn [Z.ltb Z.compare]. rewrite (bind_run _ _ _ _ _ E2). done.
Qed.

Definition sending (l : Z) (n : nat) : ata_phase := match n with O => Idle | _ => Sending l n 0 end.
Definition receiving (l : Z) (n : nat) : ata_phase := match n with O => Idle | _ => Receiving l n [] end.

Lemma read_loop_ok n : forall p l,
  drv_phase p = sending l n ->
  exists p', read_sectors_loop n p = (Some (sectors (drv_sector p) l n), p')
    /\ drv_sector p' = drv_sector p /\ drv_phase p' = Idle.
Proof.
  induction n as [|n IH]; intros p l Hp; cbn [read_sectors_loop sectors]; [exists p; auto|].
  destruct (round_ok p) as (p1 & E1 & (P1 & _ & C1) & S1); [by rewrite Hp|]. rewrite E1.
  destruct (read_words_ok 255 p1 l n 0 S1) as (p2 & E2 & C2 & P2); [by rewrite P1, Hp|lia|].
  replace (slice (2 * 0) (2 * 256) (drv_sector p1 l)) with (drv_sector p1 l) in E2.
  2: { change (2 * 0)%nat with 0%nat. change (2 * 256)%nat with 512%nat. symmetry.
       etrans; [|apply slice_all]. by rewrite drv_sector_len. }
  rewrite (bind_run _ _ _ _ _ E2). destruct (IH p2 (l + 1)) as (p3 & E3 & C3 & P3); [done|].
  rewrite (bind_run _ _ _ _ _ E3). exists p3. unfold ret. split_and!; [|congruence|done].
  by rewrite C2, C1.
Qed.

Lemma write_words_ok n : forall p l m got bs,
  settle p = 0%nat -> drv_phase p = Receiving l (S m) got ->
  (length got + 2 * S n = 512)%nat -> (2 * S n <= length bs)%nat -> bytes_ok got -> bytes_ok bs ->
  exists p', write_words (S n) bs p = (tt, p')
    /\ (forall x, drv_sector p' x = if decide (x = l) then got ++ take (2 * S n) bs else drv_sector p x)
    /\ drv_phase p' = receiving (l + 1) m.
Proof.
  induction n as [|n IH]; intros p l m got bs Hs Hp Hi Hl Hgot Hok;
    (assert (Hok2 : bytes_ok (take 2 bs)) by by apply Forall_take);
    (assert (Hl2 : length (take 2 bs) = 2%nat) by (rewrite length_take; lia));
    pose proof (le_val_range _ Hok2) as Hw; rewrite Hl2 in Hw; change (256 ^ Z.of_nat 2) with 65536 in Hw;
    pose proof (le_bytes_val _ Hok2) as Hle; rewrite Hl2 in Hle;
    destruct (write_law p l m got (le_val (take 2 bs)) Hs Hp) as (p1 & E1 & Hn); [lia|done|lia| |lia|done|lia|];
    rewrite Hle in Hn.
  - rewrite decide_True in Hn by lia. destruct Hn as [P1 C1]. exists p1.
    split_and!; [|done|by destruct m]. cbn [write_words]. by rewrite (bind_run _ _ _ _ _ E1).
  - rewrite decide_False in Hn by lia. destruct Hn as (P1 & S1 & C1).
    destruct (IH p1 l m (got ++ take 2 bs) (drop 2 bs) S1 P1) as (p2 & E2 & C2 & P2).
    { rewrite length_app. lia. } { rewrite length_drop. lia. } { by apply Forall_app. } { by apply Forall_drop. }
    exists p2. split_and!; [| |done].
    + change (write_words (S (S n)) bs) with
        (do* outw ATA_DATA (le_val (take 2 bs)) in write_words (S n) (drop 2 bs)).
      by rewrite (bind_run _ _ _ _ _ E1).
    + intros x. rewrite C2, C1. case_decide; [|done]. rewrite <- app_assoc. f_equal.
      replace (2 * S (S n))%nat with (2 + 2 * S n)%nat by lia. by rewrite <- take_take_drop.
Qed.

Lemma write_loop_ok n : forall p l bs,
  drv_phase p = receiving l n -> bytes_ok bs -> length bs = (512 * n)%nat ->
  exists p', write_sectors_loop n bs p = (0, p') /\ drv_phase p' = Idle
    /\ forall x, drv_sector p' x =
         if decide (l <= x < l + Z.of_nat n) then slice (512 * Z.to_nat (x - l)) 512 bs
         else drv_sector p x.
Proof.
  induction n as [|n IH]; intros p l bs Hp Hok Hl; cbn [write_sectors_loop].
  - exists p. split_and!; [done|done|]. intros x. by rewrite decide_False by lia.
  - destruct (round_ok p) as (p1 & E1 & (P1 & _ & C1) & S1); [by rewrite Hp|]. rewrite E1.
    destruct (write_words_ok 255 p1 l n [] bs S1) as (p2 & E2 & C2 & P2); [by rewrite P1, Hp|done|lia|done|done|].
    rewrite (bind_run _ _ _ _ _ E2).
    destruct (IH p2 (l + 1) (drop 512 bs) P2) as (p3 & E3 & P3 & C3);
      [by apply Forall_drop|rewrite length_drop; lia|].
    exists p3. split_and!; [done|done|]. intros x. rewrite C3, C2, C1.
    destruct (decide (x = l)) as [->|Hne].
    + rewrite decide_False, decide_True by lia. rewrite Z.sub_diag. done.
    + destruct (decide (l + 1 <= x < l + 1 + Z.of_nat n)).
      * rewrite decide_True by lia. unfold slice. rewrite drop_drop. do 2 f_equal. lia.
      * by rewrite decide_False by lia.
Qed.

(** The driver is a disk in the file system's sense. *)
#[export] Program Instance ata_disk_laws : DiskLaws P := {
  sector := drv_sector;
  up p := drv_phase p = Idle
}.
Next Obligation. intros. apply drv_sector_len. Qed.
Next Obligation. intros. apply drv_sector_ok. Qed.
Next Obligation.
  intros p lba n Hup Hl Hn Hlim.
  destruct (start_ok p lba n ATA_CMD_READ Hup) as (p1 & E1 & C1 & P1 & _); [lia|lia|].
  destruct (read_loop_ok (Z.to_nat n) p1 lba) as (p2 & E2 & C2 & P2).
  { rewrite P1 by done. unfold sending. destruct (Z.to_nat n) eqn:E; [lia|done]. }
  exists p2. cbn [disk_read ata_disk]. unfold ata_read_sectors. rewrite E1, E2, C1.
  split_and!; [done|done|]. intros l. by rewrite C2, C1.
Qed.
Next Obligation.
  intros p lba n bs Hup Hl Hn Hlim Hok Hlen.
  destruct (start_ok p lba n ATA_CMD_WRITE Hup) as (p1 & E1 & C1 & _ & P1); [lia|lia|].
  destruct (write_loop_ok (Z.to_nat n) p1 lba bs) as (p2 & E2 & P2 & C2); [|done|done|].
  { rewrite P1 by done. unfold receiving. destruct (Z.to_nat n) eqn:E; [lia|done]. }
  exists p2. cbn [disk_write ata_disk]. unfold ata_write_sectors. rewrite E1, E2.
  split_and!; [done|done|]. intros l. rewrite C2, C1. by replace (Z.of_nat (Z.to_nat n)) with n by lia.
Qed.

End Correct.

(** ** A drive *)

Module Sim.

Record drive := Drive { secs : ramdisk; regs : ata_regs; phase : ata_phase; busy : nat }.

Definition busy_left (d : drive) : nat := Nat.min (busy d) 2.

Definition status (d : drive) : Z :=
  if (busy_left d =? 0)%nat then match phase d with Idle => 0x40 | _ => 0x48 end else 0x80.

Definition set_reg (port v : Z) (r : ata_regs) : ata_regs :=
  if port =? ATA_DRIVE then AtaRegs v (r_count r) (r_lo r) (r_mid r) (r_hi r)
  else if port =? ATA_SECT_COUNT then AtaRegs (r_drive r) v (r_lo r) (r_mid r) (r_hi r)
  else if port =? ATA_LBA_LO then AtaRegs (r_drive r) (r_count r) v (r_mid r) (r_hi r)
  else if port =? ATA_LBA_MID then AtaRegs (r_drive r) (r_count r) (r_lo r) v (r_hi r)
  else if port =? ATA_LBA_HI then AtaRegs (r_drive r) (r_count r) (r_lo r) (r_mid r) v
  else r.

#[export] Instance sim_io : PortIO drive := {
  inb port d := (status d, Drive (secs d) (regs d) (phase d) (pred (busy_left d)));
  outb port v d := (tt,
    if port =? ATA_CMD_STAT then
      let r := regs d in
      Drive (secs d) r
        (if v =? ATA_CMD_READ then Sending (regs_lba r) (Z.to_nat (r_count r)) 0
         else if v =? ATA_CMD_WRITE then Receiving (regs_lba r) (Z.to_nat (r_count r)) []
         else Idle) 2
    else Drive (secs d) (set_reg port v (regs d)) (phase d) (busy d));
  inw port d :=
    match phase d with
    | Sending l (S n) i =>
        (word_of (rd_sector (secs d) l) i,
         if decide (S i = 256)%nat
         then Drive (secs d) (regs d) (match n with O => Idle | _ => Sending (l + 1) n 0 end) 2
         else Drive (secs d) (regs d) (Sending l (S n) (S i)) (busy d))
    | _ => (0, d)
    end;
  outw port w d :=
    (tt, match phase d with
         | Receiving l (S n) got =>
             if decide (length got = 510)%nat
             then Drive (<[l := got ++ le_bytes 2 w]> (secs d)) (regs d)
                    (match n with O => Idle | _ => Receiving (l + 1) n [] end) 2
             else Drive (secs d) (regs d) (Receiving l (S n) (got ++ le_bytes 2 w)) (busy d)
         | _ => d
         end)
}.

Lemma rd_len d l : length (rd_sector d l) = 512%nat.
Proof. apply (@sector_len _ _ ram_disk_laws d l). Qed.

Lemma rd_ok d l : bytes_ok (rd_sector d l).
Proof. apply (@sector_ok _ _ ram_disk_laws d l). Qed.

Lemma rd_set d l s x : length s = 512%nat -> bytes_ok s ->
  rd_sector (<[l := s]> d) x = if decide (x = l) then s else rd_sector d x.
Proof. apply rd_sector_insert. Qed.

#[export] Program Instance sim_drive : AtaDrive drive := {
  drv_sector d := rd_sector (secs d);
  drv_regs := regs;
  drv_phase := phase;
  settle := busy_left
}.
Next Obligation. intros. apply rd_len. Qed.
Next Obligation. intros. apply rd_ok. Qed.
Next Obligation. intros p. unfold busy_left, ATA_TIMEOUT. lia. Qed.
Next Obligation.
  intros p. do 2 eexists. split; [reflexivity|]. cbn. split_and!; try done.
  - unfold busy_left. cbn [busy]. lia.
  - unfold status. destruct (busy_left p =? 0)%nat; [by destruct (phase p)|done].
  - unfold status. intros -> Hp. by destruct (phase p).
Qed.
Next Obligation.
  intros p port v Hs Hp. eexists. split; [reflexivity|]. split.
  - intros Hport. cbn [outb sim_io]. rewrite (proj2 (Z.eqb_neq _ _) Hport). by split_and!.
  - intros -> _ _. cbn [outb sim_io]. rewrite Z.eqb_refl. split_and!; [done|by intros ->|by intros ->].
Qed.
Next Obligation.
  intros p l n i Hs Hp Hi. cbn in Hp. eexists. cbn [inw sim_io]. rewrite Hp. split; [reflexivity|].
  repeat case_decide; try lia; by split_and!.
Qed.
Next Obligation.
  intros p l n got w Hs Hp Hg Hok Hw. cbn in Hp. eexists. cbn [outw sim_io]. rewrite Hp. split; [reflexivity|].
  destruct (decide (length got = 510)%nat); split_and!; try done.
  intros x. apply rd_set; [rewrite length_app, length_le_bytes; lia|].
  apply Forall_app. split; [done|apply le_bytes_ok].
Qed.

End Sim.

#[local] Existing Instances Sim.sim_io Sim.sim_drive.

(** ** Properties *)

(** C31: the driver reads back what it wrote.  On a drive that follows the ATA
    protocol and is idle, [ata_write_sectors] of [n] sectors (any address
    below 2^28, 1 to 255 sectors) returns 0 and changes exactly these sectors,
    whatever time the drive takes below the driver's limit; then
    [ata_read_sectors] returns the same bytes, changes no sector and leaves
    the drive idle. *)
Theorem ata_write_then_read {P} {io : PortIO P} {drive : AtaDrive P} p lba n bs :
  drv_phase p = Idle -> 0 <= lba -> 0 < n < 256 -> lba + n <= LBA_LIMIT ->
  bytes_ok bs -> length bs = (512 * Z.to_nat n)%nat ->
  exists p1 p2, ata_write_sectors lba n bs p = (0, p1)
    /\ (forall x, x < lba \/ lba + n <= x -> drv_sector p1 x = drv_sector p x)
    /\ ata_read_sectors lba n p1 = (Some bs, p2)
    /\ (forall x, drv_sector p2 x = drv_sector p1 x) /\ drv_phase p2 = Idle.
Proof.
  intros Hp Hl Hn Hlim Hok Hlen.
  destruct (@write_up P _ ata_disk_laws p lba n bs Hp Hl Hn Hlim Hok Hlen) as (p1 & E1 & Hp1 & C1).
  destruct (@read_up P _ ata_disk_laws p1 lba n Hp1 Hl Hn Hlim) as (p2 & E2 & Hp2 & C2).
  exists p1, p2. split_and!; [exact E1| | |exact C2|exact Hp2].
  - intros x Hx. change (sector p1 x = sector p x). by rewrite C1, decide_False by lia.
  - etrans; [exact E2|]. do 2 f_equal. etrans; [|apply (sectors_slice bs lba (Z.to_nat n) Hlen)].
    apply sectors_ext. intros x Hx. by rewrite C1, decide_True by lia.
Qed.

Lemma ata_write_then_read_witness :
  let d := Sim.Drive ∅ (AtaRegs 0 0 0 0 0) Idle 1 in
  exists p1 p2, ata_write_sectors 77 2 (replicate 1024 5) d = (0, p1)
    /\ ata_read_sectors 77 2 p1 = (Some (replicate 1024 5), p2).
Proof.
  intros d. destruct (ata_write_then_read d 77 2 (replicate 1024 5)) as (p1 & p2 & H1 & _ & H2 & _).
  - reflexivity.
  - lia.
  - lia.
  - unfold LBA_LIMIT. lia.
  - apply Forall_replicate. unfold is_byte. lia.
  - by rewrite length_replicate.
  - exists p1, p2. split; [exact H1|exact H2].
Defined.
