(* ===== verification/TinyFS.v ===== *)
(** * TinyFS: the on-disk structures and the operations on them

    [src/kernel/fs/tinyfs.h] and [tinyfs.c]: the superblock, inodes and
    directory entries as bytes of 4096-byte blocks, the two allocation
    bitmaps, and reading and writing inodes, blocks and directory entries.
    The state [fs] holds the heap and the drive behind their interfaces
    ([Alloc], [Disk]) and the static data of [tinyfs.c] and [vfs.c].  A buffer
    a function allocates is private to it: its content is a list of bytes,
    and only its lifetime goes through the heap.  Where the code indexes a
    buffer without a check, the model notes an access outside it in [fs_wild];
    what C does from there on is not modelled.  (One read is not noted: a name
    without a zero in the last entry of a block ends with the block here.) *)

From S2P Require Import Prelude.
From S2P Require Import Alloc.
From S2P Require Import Disk.

Definition TINYFS_MAGIC : Z := 0x53465300.
Definition TINYFS_BLOCK_SIZE : Z := 4096.
Definition TINYFS_SUPER_BLOCK : Z := 16.
Definition SIZEOF_DIRENT : Z := 32.
Definition TINYFS_DIRENTS_PER_BLOCK : nat := Z.to_nat (TINYFS_BLOCK_SIZE / SIZEOF_DIRENT).
Definition SIZEOF_INODE : Z := 64.
Definition INODES_PER_BLOCK : Z := TINYFS_BLOCK_SIZE / SIZEOF_INODE.
Definition TINYFS_TYPE_FILE : Z := 0x8000.
Definition TINYFS_TYPE_DIR : Z := 0x4000.

(** ** The packed structures *)

Record superblock := Superblock {
  sb_magic : Z; sb_total_blocks : Z; sb_inode_count : Z; sb_block_size : Z; sb_root_inode : Z;
  sb_inode_bitmap_block : Z; sb_block_bitmap_block : Z; sb_inode_table_block : Z;
  sb_padding : list Z
}.

Definition superblock_of (buf : list Z) : superblock :=
  Superblock (le_val (slice 0 8 buf)) (le_val (slice 8 8 buf)) (le_val (slice 16 8 buf))
    (le_val (slice 24 4 buf)) (le_val (slice 28 4 buf)) (le_val (slice 32 8 buf))
    (le_val (slice 40 8 buf)) (le_val (slice 48 8 buf)) (slice 56 8 buf).

Record inode := Inode {
  i_mode : Z; i_uid : Z; i_size : Z; i_atime : Z; i_mtime : Z; i_ctime : Z;
  i_direct_block : Z; i_indirect_block : Z; i_refcount : Z; i_padding1 : Z; i_padding2 : list Z
}.

Definition inode_of (bs : list Z) : inode :=
  Inode (le_val (slice 0 2 bs)) (le_val (slice 2 2 bs)) (le_val (slice 4 4 bs))
    (le_val (slice 8 8 bs)) (le_val (slice 16 8 bs)) (le_val (slice 24 8 bs))
    (le_val (slice 32 4 bs)) (le_val (slice 36 4 bs)) (le_val (slice 40 4 bs))
    (le_val (slice 44 4 bs)) (slice 48 16 bs).

Definition inode_bytes (i : inode) : list Z :=
  le_bytes 2 (i_mode i) ++ le_bytes 2 (i_uid i) ++ le_bytes 4 (i_size i)
  ++ le_bytes 8 (i_atime i) ++ le_bytes 8 (i_mtime i) ++ le_bytes 8 (i_ctime i)
  ++ le_bytes 4 (i_direct_block i) ++ le_bytes 4 (i_indirect_block i)
  ++ le_bytes 4 (i_refcount i) ++ le_bytes 4 (i_padding1 i) ++ i_padding2 i.

(** [memory_set(&inode, 0, sizeof(inode))], and the assignments of the code. *)
Definition inode_zero : inode := Inode 0 0 0 0 0 0 0 0 0 0 (replicate 16 0).
Definition set_size (v : Z) (i : inode) : inode :=
  Inode (i_mode i) (i_uid i) (u32 v) (i_atime i) (i_mtime i) (i_ctime i) (i_direct_block i)
    (i_indirect_block i) (i_refcount i) (i_padding1 i) (i_padding2 i).
Definition set_direct (v : Z) (i : inode) : inode :=
  Inode (i_mode i) (i_uid i) (i_size i) (i_atime i) (i_mtime i) (i_ctime i) (u32 v)
    (i_indirect_block i) (i_refcount i) (i_padding1 i) (i_padding2 i).
Definition set_refcount (v : Z) (i : inode) : inode :=
  Inode (i_mode i) (i_uid i) (i_size i) (i_atime i) (i_mtime i) (i_ctime i) (i_direct_block i)
    (i_indirect_block i) (u32 v) (i_padding1 i) (i_padding2 i).
Definition set_mode (v : Z) (i : inode) : inode :=
  Inode (u16 v) (i_uid i) (i_size i) (i_atime i) (i_mtime i) (i_ctime i) (i_direct_block i)
    (i_indirect_block i) (i_refcount i) (i_padding1 i) (i_padding2 i).

(** [entries[i].inode], [entries[i].name] (a C string, which for a name of 28
    characters runs on into the next entry) and [entries[i].name[0]]. *)
Definition ent_off (i : nat) : nat := (32 * i)%nat.
Definition ent_inode (block : list Z) (i : nat) : Z := le_val (slice (ent_off i) 4 block).
Definition ent_name (block : list Z) (i : nat) : list Z := cstr (drop (ent_off i + 4) block).
Definition ent_used (block : list Z) (i : nat) : bool := negb (char_at block (ent_off i + 4) =? 0).

Definition set_ent_inode (i : nat) (v : Z) (block : list Z) : list Z :=
  splice (ent_off i) (le_bytes 4 v) block.

(** [for (j = 0; name[j] && j < 27; j++) entries[i].name[j] = name[j];
    entries[i].name[j] = 0;] from [j] on. *)
Fixpoint set_ent_name (i j : nat) (name : list Z) (block : list Z) : list Z :=
  match name with
  | [] => splice (ent_off i + 4 + j) [0] block
  | c :: rest =>
      if (j <? 27)%nat then set_ent_name i (S j) rest (splice (ent_off i + 4 + j) [c] block)
      else splice (ent_off i + 4 + j) [0] block
  end.

(** The loops over the entries of a block: the first free slot, and the
    first used one with the name. *)
Fixpoint find_free (rounds i : nat) (block : list Z) : option nat :=
  match rounds with
  | O => None
  | S r => if ent_used block i then find_free r (S i) block else Some i
  end.

Definition name_match (a b : list Z) : Z := str_diff a b.

Fixpoint find_name (rounds i : nat) (name block : list Z) : option nat :=
  match rounds with
  | O => None
  | S r => if negb (ent_used block i) then find_name r (S i) name block
           else if name_match name (ent_name block i) =? 0 then Some i
           else find_name r (S i) name block
  end.

(** ** Bitmaps *)

Definition bitmap_test (bitmap : list Z) (bit : Z) : bool :=
  z_true (Z.land (Z.shiftr (char_at bitmap (Z.to_nat (bit / 8))) (bit mod 8)) 1).

(** [bitmap[i / 8] |= (1 << (i % 8))] and [bitmap[i / 8] &= ~(1 << (i % 8))],
    for an index inside the bitmap; [at_bit] below is what the callers note of
    one outside. *)
Definition bitmap_set (bitmap : list Z) (i : Z) : list Z :=
  <[Z.to_nat (i / 8) := u8 (Z.lor (char_at bitmap (Z.to_nat (i / 8))) (Z.shiftl 1 (i mod 8)))]> bitmap.
Definition bitmap_clear (bitmap : list Z) (i : Z) : list Z :=
  <[Z.to_nat (i / 8) :=
      u8 (Z.land (char_at bitmap (Z.to_nat (i / 8))) (Z.lnot (Z.shiftl 1 (i mod 8))))]> bitmap.

(** The first clear bit among [rounds] bits from [i].  Past the bitmap every bit
    reads as clear, so the loop stops at the first access outside. *)
Fixpoint first_clear (rounds : nat) (i : Z) (bitmap : list Z) : option Z :=
  match rounds with
  | O => None
  | S r => if negb (bitmap_test bitmap i) then Some i else first_clear r (i + 1) bitmap
  end.

(** ** The state *)

Record fs (H D : Type) := Fs {
  fs_heap : H;
  fs_disk : D;
  fs_sb : superblock;          (* static tinyfs_superblock_t sb *)
  fs_cwd : Z;                  (* static uint32_t cwd_inum, of vfs.c *)
  fs_serial : list Z;          (* the bytes handed to serial_write *)
  fs_wild : bool               (* an access outside a buffer has happened *)
}.
Arguments Fs {H D}. Arguments fs_heap {H D}. Arguments fs_disk {H D}.
Arguments fs_sb {H D}. Arguments fs_cwd {H D}. Arguments fs_serial {H D}. Arguments fs_wild {H D}.

Section Operations.
Context {H D : Type} `{Allocator H} `{Disk D}.
Abbreviation FS := (ST (fs H D)).

Definition with_heap (h : H) (s : fs H D) : fs H D :=
  Fs h (fs_disk s) (fs_sb s) (fs_cwd s) (fs_serial s) (fs_wild s).
Definition with_disk (d : D) (s : fs H D) : fs H D :=
  Fs (fs_heap s) d (fs_sb s) (fs_cwd s) (fs_serial s) (fs_wild s).
Definition with_sb (sb : superblock) (s : fs H D) : fs H D :=
  Fs (fs_heap s) (fs_disk s) sb (fs_cwd s) (fs_serial s) (fs_wild s).
Definition with_cwd (c : Z) (s : fs H D) : fs H D :=
  Fs (fs_heap s) (fs_disk s) (fs_sb s) c (fs_serial s) (fs_wild s).

(** When [b], the C code accesses memory outside the buffer it means: from
    then on its memory is not what the model says. *)
Definition stray (b : bool) : FS unit := modify (fun s =>
  Fs (fs_heap s) (fs_disk s) (fs_sb s) (fs_cwd s) (fs_serial s) (fs_wild s || b)).

(** [bitmap[i / 8]], in a bitmap of one block. *)
Definition at_bit (i : Z) : FS unit := stray (TINYFS_BLOCK_SIZE <=? i / 8).

Definition memory_alloc (n : Z) : FS Z := fun s =>
  let '(p, h) := kalloc n (fs_heap s) in (p, with_heap h s).
Definition memory_free (p : Z) : FS unit := modify (fun s => with_heap (kfree p (fs_heap s)) s).

Definition block_to_lba (bnum : Z) : Z := i32 (u32 (bnum * (TINYFS_BLOCK_SIZE / ATA_SECTOR_SIZE))).

Definition read_blocks (bnum count : Z) : FS (option (list Z)) := fun s =>
  let '(r, d) := disk_read (u32 (block_to_lba bnum))
                   (u8 (count * (TINYFS_BLOCK_SIZE / ATA_SECTOR_SIZE))) (fs_disk s) in
  (r, with_disk d s).

Definition write_blocks (bnum count : Z) (buf : list Z) : FS Z := fun s =>
  let '(r, d) := disk_write (u32 (block_to_lba bnum))
                   (u8 (count * (TINYFS_BLOCK_SIZE / ATA_SECTOR_SIZE))) buf (fs_disk s) in
  (r, with_disk d s).

Definition get_sb : FS superblock := gets fs_sb.

Definition tinyfs_init : FS Z :=
  let* buf := memory_alloc TINYFS_BLOCK_SIZE in
  if buf =? 0 then ret (-1)
  else
    let* r := read_blocks TINYFS_SUPER_BLOCK 1 in
    match r with
    | None => do* memory_free buf in ret (-1)
    | Some data =>
        let sp := superblock_of data in
        if negb (sb_magic sp =? TINYFS_MAGIC) then do* memory_free buf in ret (-1)
        else
          do* modify (with_sb sp) in
          do* memory_free buf in
          ret 0
    end.

(** [Some inode]: returns 0 with [*inode] set; [None]: -1. *)
Definition tinyfs_read_inode (inum : Z) : FS (option inode) :=
  let* sb := get_sb in
  if sb_inode_count sb <=? inum then ret None
  else
    let block := u32 (sb_inode_table_block sb + inum / INODES_PER_BLOCK) in
    let offset := inum mod INODES_PER_BLOCK in
    let* buf := memory_alloc TINYFS_BLOCK_SIZE in
    if buf =? 0 then ret None
    else
      let* r := read_blocks block 1 in
      match r with
      | None => do* memory_free buf in ret None
      | Some data =>
          let i := inode_of (slice (64 * Z.to_nat offset) 64 data) in
          do* memory_free buf in
          ret (Some i)
      end.

Definition tinyfs_write_inode (inum : Z) (i : inode) : FS Z :=
  let* sb := get_sb in
  if sb_inode_count sb <=? inum then ret (-1)
  else
    let block := u32 (sb_inode_table_block sb + inum / INODES_PER_BLOCK) in
    let offset := inum mod INODES_PER_BLOCK in
    let* buf := memory_alloc TINYFS_BLOCK_SIZE in
    if buf =? 0 then ret (-1)
    else
      let* r := read_blocks block 1 in
      match r with
      | None => do* memory_free buf in ret (-1)
      | Some data =>
          let* res := write_blocks block 1 (splice (64 * Z.to_nat offset) (inode_bytes i) data) in
          do* memory_free buf in
          ret res
      end.

Definition tinyfs_read_block (bnum : Z) : FS (option (list Z)) :=
  let* sb := get_sb in
  if sb_total_blocks sb <=? bnum then ret None else read_blocks bnum 1.

Definition tinyfs_write_block (bnum : Z) (buf : list Z) : FS Z :=
  let* sb := get_sb in
  if sb_total_blocks sb <=? bnum then ret (-1) else write_blocks bnum 1 buf.

Definition tinyfs_block_alloc : FS Z :=
  let* bitmap := memory_alloc TINYFS_BLOCK_SIZE in
  if bitmap =? 0 then ret (-1)
  else
    let* sb := get_sb in
    let* r := read_blocks (u32 (sb_block_bitmap_block sb)) 1 in
    match r with
    | None => do* memory_free bitmap in ret (-1)
    | Some data =>
        match first_clear (Z.to_nat (sb_total_blocks sb)) 0 data with
        | Some i =>
            do* at_bit i in
            do* write_blocks (u32 (sb_block_bitmap_block sb)) 1 (bitmap_set data i) in
            do* memory_free bitmap in
            ret (i32 i)
        | None => do* memory_free bitmap in ret (-1)
        end
    end.

Definition tinyfs_block_free (bnum : Z) : FS unit :=
  let* bitmap := memory_alloc TINYFS_BLOCK_SIZE in
  if bitmap =? 0 then ret tt
  else
    let* sb := get_sb in
    let* r := read_blocks (u32 (sb_block_bitmap_block sb)) 1 in
    match r with
    | None => memory_free bitmap
    | Some data =>
        do* at_bit bnum in
        do* write_blocks (u32 (sb_block_bitmap_block sb)) 1 (bitmap_clear data bnum) in
        memory_free bitmap
    end.

Definition tinyfs_inode_alloc : FS Z :=
  let* bitmap := memory_alloc TINYFS_BLOCK_SIZE in
  if bitmap =? 0 then ret (-1)
  else
    let* sb := get_sb in
    let* r := read_blocks (u32 (sb_inode_bitmap_block sb)) 1 in
    match r with
    | None => do* memory_free bitmap in ret (-1)
    | Some data =>
        match first_clear (Z.to_nat (sb_inode_count sb - 1)) 1 data with
        | Some i =>
            do* at_bit i in
            do* write_blocks (u32 (sb_inode_bitmap_block sb)) 1 (bitmap_set data i) in
            do* memory_free bitmap in
            do* tinyfs_write_inode i (set_refcount 1 inode_zero) in
            ret (i32 i)
        | None => do* memory_free bitmap in ret (-1)
        end
    end.

Definition tinyfs_inode_free (inum : Z) : FS unit :=
  let* sb := get_sb in
  if sb_inode_count sb <=? inum then ret tt
  else
    let* bitmap := memory_alloc TINYFS_BLOCK_SIZE in
    if bitmap =? 0 then ret tt
    else
      let* r := read_blocks (u32 (sb_inode_bitmap_block sb)) 1 in
      match r with
      | None => memory_free bitmap
      | Some data =>
          do* at_bit inum in
          do* write_blocks (u32 (sb_inode_bitmap_block sb)) 1 (bitmap_clear data inum) in
          memory_free bitmap
      end.

Definition is_type_dir (i : inode) : bool := z_true (Z.land (i_mode i) TINYFS_TYPE_DIR).

(** The second half of [tinyfs_add_dirent], once the directory has a block. *)
Definition add_dirent_at (dir_inum ent_inum : Z) (name : list Z) (dir_inode : inode) : FS Z :=
  let* block := memory_alloc TINYFS_BLOCK_SIZE in
  if block =? 0 then ret (-1)
  else
    let* r := tinyfs_read_block (i_direct_block dir_inode) in
    match r with
    | None => do* memory_free block in ret (-1)
    | Some data =>
        match find_free TINYFS_DIRENTS_PER_BLOCK 0 data with
        | None => do* memory_free block in ret (-2)
        | Some found =>
            let data' := set_ent_name found 0 name (set_ent_inode found ent_inum data) in
            let new_size := i32 ((Z.of_nat found + 1) * SIZEOF_DIRENT) in
            let dir_inode' :=
              if i32 (i_size dir_inode) <? new_size then set_size new_size dir_inode else dir_inode in
            let* w := tinyfs_write_block (i_direct_block dir_inode') data' in
            if w <? 0 then do* memory_free block in ret (-1)
            else
              do* memory_free block in
              let* wi := tinyfs_write_inode dir_inum dir_inode' in
              if wi <? 0 then ret (-1) else ret 0
        end
    end.

Definition tinyfs_add_dirent (dir_inum ent_inum : Z) (name : list Z) : FS Z :=
  let* di := tinyfs_read_inode dir_inum in
  match di with
  | None => ret (-1)
  | Some dir_inode =>
      if negb (is_type_dir dir_inode) then ret (-1)
      else if i_direct_block dir_inode =? 0 then
        let* block := tinyfs_block_alloc in
        if block <? 0 then ret (-1)
        else add_dirent_at dir_inum ent_inum name (set_size 0 (set_direct block dir_inode))
      else add_dirent_at dir_inum ent_inum name dir_inode
  end.

Definition tinyfs_remove_dirent (dir_inum : Z) (name : list Z) : FS Z :=
  let* di := tinyfs_read_inode dir_inum in
  match di with
  | None => ret (-1)
  | Some dir_inode =>
      if negb (is_type_dir dir_inode) then ret (-1)
      else if i_direct_block dir_inode =? 0 then ret (-1)
      else
        let* block := memory_alloc TINYFS_BLOCK_SIZE in
        if block =? 0 then ret (-1)
        else
          let* r := tinyfs_read_block (i_direct_block dir_inode) in
          match r with
          | None => do* memory_free block in ret (-1)
          | Some data =>
              match find_name TINYFS_DIRENTS_PER_BLOCK 0 name data with
              | None => do* memory_free block in ret (-1)
              | Some found =>
                  let data' := splice (ent_off found + 4) [0] (set_ent_inode found 0 data) in
                  let* w := tinyfs_write_block (i_direct_block dir_inode) data' in
                  if w <? 0 then do* memory_free block in ret (-1)
                  else
                    do* memory_free block in
                    let* wi := tinyfs_write_inode dir_inum dir_inode in
                    if wi <? 0 then ret (-1) else ret 0
              end
          end
  end.

End Operations.
