(* ===== verification/Vfs.v ===== *)
(** * The file-system calls ([src/kernel/fs/vfs.c])

    Path resolution and the operations [fs_ls], [fs_cd], [fs_cat],
    [fs_mkdir], [fs_rmdir], [fs_create], [fs_delete], [fs_rename], [fs_copy]
    and [fs_write_file], over the operations of [TinyFS.v].  A path is the
    bytes of a C string, or [None] for a null pointer; a character buffer a
    call fills is the list of the bytes it stores, in order, with the
    terminator.  A store past the size the caller gives is noted in [fs_wild],
    like those of TinyFS. *)

From S2P Require Import Prelude.
From S2P Require Import Alloc.
From S2P Require Import Disk.
From S2P Require Import TinyFS.

Definition SLASH : Z := 47.
Definition DOT : Z := 46.
Definition NEWLINE : Z := 10.

Definition string_compare (a b : list Z) : Z := str_diff a b.

Definition is_dir (i : inode) : bool := Z.land (i_mode i) 0xF000 =? TINYFS_TYPE_DIR.
Definition is_file (i : inode) : bool := Z.land (i_mode i) 0xF000 =? TINYFS_TYPE_FILE.

(** The lookup loop of [find_dirent]. *)
Fixpoint lookup_name (rounds i : nat) (name block : list Z) : option Z :=
  match rounds with
  | O => None
  | S r => if negb (ent_used block i) then lookup_name r (S i) name block
           else if string_compare name (ent_name block i) =? 0 then Some (ent_inode block i)
           else lookup_name r (S i) name block
  end.

(** [last_slash - path], scanning from [i]; [last] is the last one so far. *)
Fixpoint find_last_slash (path : list Z) (i : nat) (last : option nat) : option nat :=
  match path with
  | [] => last
  | c :: rest => find_last_slash rest (S i) (if c =? SLASH then Some i else last)
  end.

(** The two buffers as C strings. *)
Definition split_path (path : list Z) (parent_size comp_size : nat) : list Z * list Z :=
  match find_last_slash path 0 None with
  | None => ([], take (comp_size - 1) path)
  | Some O => ([SLASH], take (comp_size - 1) (drop 1 path))
  | Some last_slash =>
      (take (Nat.min last_slash (parent_size - 1)) path,
       take (comp_size - 1) (drop (last_slash + 1) path))
  end.

(** [while (entries[i].name[j] && pos < buf_size - 2) buf[pos++] = ...]. *)
Fixpoint ls_name (name : list Z) (pos buf_size : Z) : list Z :=
  match name with
  | [] => []
  | c :: rest => if pos <? buf_size - 2 then c :: ls_name rest (pos + 1) buf_size else []
  end.

(** The loop over the entries: the bytes stored from [pos] on. *)
Fixpoint ls_entries (rounds i : nat) (block : list Z) (pos buf_size : Z) : list Z :=
  match rounds with
  | O => []
  | S r =>
      if negb (ent_used block i) then ls_entries r (S i) block pos buf_size
      else
        let out := ls_name (ent_name block i) pos buf_size ++ [NEWLINE] in
        out ++ ls_entries r (S i) block (pos + Z.of_nat (length out)) buf_size
  end.

(** Does the block hold an entry other than [.] and [..]? *)
Fixpoint has_children (rounds i : nat) (block : list Z) : bool :=
  match rounds with
  | O => false
  | S r =>
      if negb (ent_used block i) then has_children r (S i) block
      else if negb (string_compare (ent_name block i) [DOT] =? 0)
              && negb (string_compare (ent_name block i) [DOT; DOT] =? 0) then true
      else has_children r (S i) block
  end.

(** The block of a new directory: [.] and [..]. *)
Definition new_dir_block (inum parent_inum : Z) : list Z :=
  set_ent_name 1 0 [DOT; DOT] (set_ent_inode 1 parent_inum
    (set_ent_name 0 0 [DOT] (set_ent_inode 0 inum (replicate (Z.to_nat TINYFS_BLOCK_SIZE) 0)))).

Section Operations.
Context {H D : Type} `{Allocator H} `{Disk D}.
Abbreviation FS := (ST (fs H D)).

Definition get_cwd : FS Z := gets fs_cwd.
Definition serial_write (msg : list Z) (len : nat) : FS unit :=
  modify (fun s => Fs (fs_heap s) (fs_disk s) (fs_sb s) (fs_cwd s) (fs_serial s ++ take len msg) (fs_wild s)).

Definition fs_init : FS unit :=
  let* r := tinyfs_init in
  if r <? 0 then
    do* serial_write (str "TinyFS: no valid fs on disk, using read-only fallback" ++ [NEWLINE]) 51 in
    modify (with_cwd 0)
  else
    do* serial_write (str "TinyFS: mounted" ++ [NEWLINE]) 16 in
    modify (with_cwd 0).

(** [Some n]: returns 0 with [*out_inum = n]; [None]: -1. *)
Definition find_dirent (dir_inum : Z) (name : list Z) : FS (option Z) :=
  try* i := tinyfs_read_inode dir_inum else None in
  if negb (is_dir i) then ret None
  else
    let* block := memory_alloc TINYFS_BLOCK_SIZE in
    if block =? 0 then ret None
    else if 0 <? i_direct_block i then
      let* r := tinyfs_read_block (i_direct_block i) in
      let found := match r with
                   | Some data => lookup_name TINYFS_DIRENTS_PER_BLOCK 0 name data
                   | None => None
                   end in
      do* memory_free block in
      ret found
    else
      do* memory_free block in
      ret None.

(** One component of a path. *)
Definition resolve_component (current : Z) (component : list Z) : FS (option Z) :=
  if bool_decide (component = [DOT; DOT]) then
    if negb (current =? 0) then find_dirent current [DOT; DOT] else ret (Some current)
  else if bool_decide (component = [DOT]) then ret (Some current)
  else find_dirent current component.

(** The [while (1)] loop, at [path] with the characters of the component so
    far. *)
Fixpoint resolve_loop (path component : list Z) (current : Z) : FS (option Z) :=
  match path with
  | [] =>
      match component with
      | [] => ret (Some current)
      | _ => resolve_component current component
      end
  | c :: rest =>
      if c =? SLASH then
        match component with
        | [] => resolve_loop rest [] current
        | _ => try* next := resolve_component current component else None in
               resolve_loop rest [] next
        end
      else resolve_loop rest (if (length component <? 28)%nat then component ++ [c] else component)
             current
  end.

Definition resolve_path (path : list Z) : FS (option Z) :=
  let* cwd := get_cwd in
  let '(current, path) :=
    match path with
    | c :: rest => if c =? SLASH then (0, rest) else (cwd, path)
    | [] => (cwd, path)
    end in
  match path with
  | [] => ret (Some current)
  | _ => resolve_loop path [] current
  end.

(** [if (parent_path[0] == 0) parent_inum = cwd_inum; else resolve_path(...)]. *)
Definition resolve_parent (parent_path : list Z) : FS (option Z) :=
  match parent_path with
  | [] => let* cwd := get_cwd in ret (Some cwd)
  | _ => resolve_path parent_path
  end.

Definition PARENT_SIZE : nat := 256.
Definition COMPONENT_SIZE : nat := 29.

Definition fs_ls (path : option (list Z)) (buf_size : Z) : FS (Z * list Z) :=
  try* inum := (match path with
                | Some (c :: rest) => resolve_path (c :: rest)
                | _ => let* cwd := get_cwd in ret (Some cwd)
                end) else (-1, []) in
  try* i := tinyfs_read_inode inum else (-1, []) in
  if negb (is_dir i) then ret (-1, [])
  else
    let* block := memory_alloc TINYFS_BLOCK_SIZE in
    if block =? 0 then ret (-1, [])
    else
      let* r := (if 0 <? i_direct_block i then tinyfs_read_block (i_direct_block i) else ret None) in
      let out := match r with
                 | Some data => ls_entries TINYFS_DIRENTS_PER_BLOCK 0 data 0 buf_size
                 | None => []
                 end in
      do* stray (buf_size <? Z.of_nat (length out) + 1) in
      do* memory_free block in
      ret (i32 (Z.of_nat (length out)), out ++ [0]).

Definition fs_mkdir (path : option (list Z)) : FS Z :=
  match path with
  | None | Some [] => ret (-1)
  | Some path =>
      if bool_decide (path = [SLASH]) then ret (-1)
      else
        let '(parent_path, component) := split_path path PARENT_SIZE COMPONENT_SIZE in
        match component with
        | [] => ret (-1)
        | _ =>
          try* parent_inum := resolve_parent parent_path else -1 in
          try* pinode := tinyfs_read_inode parent_inum else -1 in
          if negb (is_dir pinode) then ret (-1)
          else
            let* existing := find_dirent parent_inum component in
            match existing with
            | Some _ => ret (-1)
            | None =>
              let* inum := tinyfs_inode_alloc in
              if inum <? 0 then ret (-1)
              else
                let i := set_refcount 1 (set_mode (Z.lor TINYFS_TYPE_DIR 0x01ED) inode_zero) in
                let* block := tinyfs_block_alloc in
                if block <? 0 then do* tinyfs_inode_free inum in ret (-1)
                else
                  let i := set_size (2 * SIZEOF_DIRENT) (set_direct block i) in
                  let* w := tinyfs_write_inode inum i in
                  if w <? 0 then
                    do* tinyfs_block_free block in
                    do* tinyfs_inode_free inum in
                    ret (-1)
                  else
                    let* dir_block := memory_alloc TINYFS_BLOCK_SIZE in
                    if dir_block =? 0 then do* tinyfs_inode_free inum in ret (-1)
                    else
                      let* w := tinyfs_write_block block (new_dir_block inum parent_inum) in
                      if w <? 0 then
                        do* memory_free dir_block in
                        do* tinyfs_inode_free inum in
                        ret (-1)
                      else
                        do* memory_free dir_block in
                        let* a := tinyfs_add_dirent parent_inum inum component in
                        if a <? 0 then
                          do* tinyfs_block_free block in
                          do* tinyfs_inode_free inum in
                          ret (-1)
                        else ret 0
            end
        end
  end.

(** The removal of an entry and of what it names: the tail of [fs_rmdir] and
    [fs_delete]. *)
Definition remove_target (path : list Z) (target_inum : Z) (i : inode) : FS Z :=
  let '(parent_path, component) := split_path path PARENT_SIZE COMPONENT_SIZE in
  try* parent_inum := resolve_parent parent_path else -1 in
  chk* tinyfs_remove_dirent parent_inum component else -1 in
  do* (if negb (i_direct_block i =? 0) then tinyfs_block_free (i_direct_block i) else ret tt) in
  do* tinyfs_inode_free target_inum in
  ret 0.

Definition fs_rmdir (path : option (list Z)) : FS Z :=
  match path with
  | None | Some [] => ret (-1)
  | Some path =>
      if bool_decide (path = [SLASH]) then ret (-1)
      else
        try* target_inum := resolve_path path else -1 in
        try* i := tinyfs_read_inode target_inum else -1 in
        if negb (is_dir i) then ret (-1)
        else if negb (i_direct_block i =? 0) then
          let* block := memory_alloc TINYFS_BLOCK_SIZE in
          if block =? 0 then ret (-1)
          else
            let* r := tinyfs_read_block (i_direct_block i) in
            let busy := match r with
                        | Some data => has_children TINYFS_DIRENTS_PER_BLOCK 0 data
                        | None => false
                        end in
            do* memory_free block in
            if busy then ret (-1) else remove_target path target_inum i
        else remove_target path target_inum i
  end.

Definition fs_create (path : option (list Z)) : FS Z :=
  match path with
  | None | Some [] => ret (-1)
  | Some path =>
      let '(parent_path, component) := split_path path PARENT_SIZE COMPONENT_SIZE in
      match component with
      | [] => ret (-1)
      | _ =>
        try* parent_inum := resolve_parent parent_path else -1 in
        try* pinode := tinyfs_read_inode parent_inum else -1 in
        if negb (is_dir pinode) then ret (-1)
        else
          let* existing := find_dirent parent_inum component in
          match existing with
          | Some _ => ret (-1)
          | None =>
            let* inum := tinyfs_inode_alloc in
            if inum <? 0 then ret (-1)
            else
              let i := set_refcount 1 (set_mode (Z.lor TINYFS_TYPE_FILE 0x01ED) inode_zero) in
              let* w := tinyfs_write_inode inum i in
              if w <? 0 then do* tinyfs_inode_free inum in ret (-1)
              else
                let* a := tinyfs_add_dirent parent_inum inum component in
                if a <? 0 then do* tinyfs_inode_free inum in ret (-1)
                else ret 0
          end
      end
  end.

Definition fs_delete (path : option (list Z)) : FS Z :=
  match path with
  | None | Some [] => ret (-1)
  | Some path =>
      try* target_inum := resolve_path path else -1 in
      try* i := tinyfs_read_inode target_inum else -1 in
      if is_dir i then ret (-1)
      else if negb (is_file i) then ret (-1)
      else remove_target path target_inum i
  end.

Definition fs_rename (oldpath newpath : option (list Z)) : FS Z :=
  match oldpath, newpath with
  | Some ((_ :: _) as oldpath), Some ((_ :: _) as newpath) =>
      try* target_inum := resolve_path oldpath else -1 in
      try* i := tinyfs_read_inode target_inum else -1 in
      let '(old_parent_path, old_component) := split_path oldpath PARENT_SIZE COMPONENT_SIZE in
      match old_component with
      | [] => ret (-1)
      | _ =>
        try* old_parent_inum := resolve_parent old_parent_path else -1 in
        let '(new_parent_path, new_component) := split_path newpath PARENT_SIZE COMPONENT_SIZE in
        match new_component with
        | [] => ret (-1)
        | _ =>
          try* new_parent_inum := resolve_parent new_parent_path else -1 in
          let* existing := find_dirent new_parent_inum new_component in
          match existing with
          | Some _ => ret (-1)
          | None =>
            chk* tinyfs_add_dirent new_parent_inum target_inum new_component else -1 in
            chk* tinyfs_remove_dirent old_parent_inum old_component else -1 in
            ret 0
          end
        end
      end
  | _, _ => ret (-1)
  end.

Definition fs_copy (src dst : option (list Z)) : FS Z :=
  match src, dst with
  | Some ((_ :: _) as src), Some ((_ :: _) as dst) =>
      try* src_inum := resolve_path src else -1 in
      try* src_inode := tinyfs_read_inode src_inum else -1 in
      if negb (is_file src_inode) then ret (-1)
      else
        chk* fs_create (Some dst) else -1 in
        try* dst_inum := resolve_path dst else -1 in
        try* dst_inode := tinyfs_read_inode dst_inum else -1 in
        if negb (is_file dst_inode) then ret (-1)
        else if i_size src_inode =? 0 then ret 0
        else
          let* buf := memory_alloc TINYFS_BLOCK_SIZE in
          if buf =? 0 then ret (-1)
          else
            let* r := tinyfs_read_block (i_direct_block src_inode) in
            match r with
            | None => do* memory_free buf in ret (-1)
            | Some data =>
              let* dst_block :=
                (if i_direct_block dst_inode =? 0 then tinyfs_block_alloc
                 else ret (i32 (i_direct_block dst_inode))) in
              if (i_direct_block dst_inode =? 0) && (dst_block <? 0)
              then do* memory_free buf in ret (-1)
              else
                let dst_inode :=
                  if i_direct_block dst_inode =? 0 then set_direct dst_block dst_inode else dst_inode in
                let* w := tinyfs_write_block (u32 dst_block) data in
                if w <? 0 then do* memory_free buf in ret (-1)
                else
                  do* memory_free buf in
                  chk* tinyfs_write_inode dst_inum (set_size (i_size src_inode) dst_inode) else -1 in
                  ret 0
            end
  | _, _ => ret (-1)
  end.

(** [data] holds at least [len] bytes. *)
Definition fs_write_file (path : option (list Z)) (data : list Z) (len : Z) : FS Z :=
  match path with
  | None | Some [] => ret (-1)
  | Some _ =>
      do* fs_delete path in
      chk* fs_create path else -1 in
      try* inum := resolve_path (default [] path) else -1 in
      try* i := tinyfs_read_inode inum else -1 in
      if len =? 0 then ret 0
      else
        let* block := tinyfs_block_alloc in
        if block <? 0 then ret (-1)
        else
          let* block_buf := memory_alloc TINYFS_BLOCK_SIZE in
          if block_buf =? 0 then do* tinyfs_block_free block in ret (-1)
          else
            let chunk := if TINYFS_BLOCK_SIZE <? len then TINYFS_BLOCK_SIZE else len in
            let content := splice 0 (take (Z.to_nat chunk) data)
                             (replicate (Z.to_nat TINYFS_BLOCK_SIZE) 0) in
            let* w := tinyfs_write_block block content in
            if w <? 0 then
              do* memory_free block_buf in
              do* tinyfs_block_free block in
              ret (-1)
            else
              do* memory_free block_buf in
              chk* tinyfs_write_inode inum (set_size len (set_direct block i)) else -1 in
              ret (i32 len)
  end.

Definition fs_cd (path : option (list Z)) : FS Z :=
  match path with
  | None | Some [] => do* modify (with_cwd 0) in ret 0
  | Some path =>
      if bool_decide (path = [SLASH]) then do* modify (with_cwd 0) in ret 0
      else
        try* inum := resolve_path path else -1 in
        try* i := tinyfs_read_inode inum else -1 in
        if negb (is_dir i) then ret (-1)
        else
          do* modify (with_cwd inum) in
          ret 0
  end.

(** The loop over the indirect block: [pos] bytes are already out.  The result
    is the bytes copied and whether the loop ended without a read error. *)
Fixpoint cat_indirect (rounds : nat) (i : nat) (indirect : list Z) (pos size : Z) : FS (list Z * bool) :=
  match rounds with
  | O => ret ([], true)
  | S r =>
      if negb (pos <? size) then ret ([], true)
      else
        let entry := le_val (slice (4 * i) 4 indirect) in
        if entry =? 0 then ret ([], true)
        else
          try* data := tinyfs_read_block entry else ([], false) in
          let chunk := if TINYFS_BLOCK_SIZE <? size - pos then TINYFS_BLOCK_SIZE else size - pos in
          let out := take (Z.to_nat chunk) data in
          let* '(more, ok) := cat_indirect r (S i) indirect (pos + chunk) size in
          ret (out ++ more, ok)
  end.

(** The second component is what is stored into [buf].  A negative [chunk] is a
    huge [size_t] for [memory_copy]. *)
Definition fs_cat (name : list Z) (buf_size : Z) : FS (Z * list Z) :=
  try* inum := resolve_path name else (-1, []) in
  try* i := tinyfs_read_inode inum else (-1, []) in
  if negb (is_file i) then ret (-1, [])
  else if i_size i =? 0 then ret (0, [])
  else
    let size := i32 (i_size i) in
    let size := if buf_size - 1 <? size then buf_size - 1 else size in
    let* block := memory_alloc TINYFS_BLOCK_SIZE in
    if block =? 0 then ret (-1, [])
    else
      let* first :=
        (if 0 <? i_direct_block i then
           try* data := tinyfs_read_block (i_direct_block i) else None in
           let chunk := if TINYFS_BLOCK_SIZE <? size then TINYFS_BLOCK_SIZE else size in
           do* stray (chunk <? 0) in
           ret (Some (take (Z.to_nat chunk) data, chunk))
         else ret (Some ([], 0))) in
      match first with
      | None => do* memory_free block in ret (-1, [])
      | Some (out, pos) =>
          if (pos <? size) && (0 <? i_indirect_block i) then
            let* indirect := memory_alloc TINYFS_BLOCK_SIZE in
            if indirect =? 0 then do* memory_free block in ret (-1, out)
            else
              let* r := tinyfs_read_block (i_indirect_block i) in
              match r with
              | None => do* memory_free block in do* memory_free indirect in ret (-1, out)
              | Some table =>
                  let* '(more, ok) := cat_indirect 1024 0 table pos size in
                  if negb ok then
                    do* memory_free block in do* memory_free indirect in ret (-1, out ++ more)
                  else
                    do* memory_free indirect in
                    do* memory_free block in
                    do* stray (buf_size <? Z.of_nat (length (out ++ more)) + 1) in
                    ret (i32 (pos + Z.of_nat (length more)), out ++ more ++ [0])
              end
          else
            do* memory_free block in
            do* stray (buf_size <? Z.of_nat (length out) + 1) in
            ret (i32 pos, out ++ [0])
      end.

End Operations.
