(* ===== verification/FsHeap.v ===== *)
(** * The file system and the kernel heap: nothing leaks, nothing is freed twice

    Every call of [src/kernel/fs] borrows buffers with [memory_alloc] and has
    to give each back on every path, errors included.  [releases ps m] says
    that [m], started with the buffers [ps] borrowed, gives back exactly
    those and everything it borrows itself; the tactic [balance] follows the
    code.  The proofs use the allocator only through [AllocLaws]. *)

From S2P Require Import Prelude.
From S2P Require Import Kmem.
From S2P Require Import Heap.
From S2P Require Import Alloc.
From S2P Require Import Disk.
From S2P Require Import TinyFS.
From S2P Require Import Vfs.

Section Balance.
Context {H D : Type} `{AllocLaws H} `{Disk D}.
Abbreviation FS := (ST (fs H D)).

Definition releases {A} (ps : list Z) (m : FS A) : Prop :=
  forall L n s, holds ps L n (fs_heap s) -> holds [] L (n + length ps) (fs_heap (m s).2).

Lemma rel_ret {A} (a : A) : releases [] (ret a).
Proof. intros L n s Hs. by rewrite Nat.add_0_r. Qed.

Lemma rel_bind {A B} ps (m : FS A) (k : A -> FS B) :
  releases [] m -> (forall a, releases ps (k a)) -> releases ps (bind m k).
Proof.
  intros Hm Hk L n s Hs. unfold bind. specialize (Hm).
  apply holds_absorb in Hs as (bs & Hbs & Hsz & Hs). apply Hm in Hs.
  destruct (m s) as [a s']. cbn [snd length] in Hs. rewrite Nat.add_0_r in Hs.
  apply Hk. apply holds_absorb. by exists bs.
Qed.

Lemma rel_alloc {A} ps (a : FS A) (b : Z -> FS A) :
  releases ps a -> (forall p, releases (p :: ps) (b p)) ->
  releases ps (bind (memory_alloc TINYFS_BLOCK_SIZE) (fun p => if p =? 0 then a else b p)).
Proof.
  intros Ha Hb L n s Hs. unfold bind, memory_alloc.
  destruct (kalloc TINYFS_BLOCK_SIZE (fs_heap s)) as [p h] eqn:E.
  pose proof (holds_alloc _ _ _ _ _ _ Hs E) as Hh. destruct (p =? 0).
  - destruct Hh as [-> ->]. by apply Ha.
  - pose proof (Hb p L (pred n) (with_heap h s) Hh) as Hr.
    eapply holds_le; [|exact Hr]. cbn [length]. lia.
Qed.

Lemma rel_free {A} p ps (k : unit -> FS A) :
  releases ps (k tt) -> releases (p :: ps) (bind (memory_free p) k).
Proof.
  intros Hk L n s Hs. apply holds_free in Hs as [_ Hs]. unfold bind, memory_free, modify.
  pose proof (Hk L (S n) (with_heap (kfree p (fs_heap s)) s) Hs) as Hr.
  eapply holds_le; [|exact Hr]. cbn [length]. lia.
Qed.

Lemma rel_free_last p : releases [p] (memory_free p).
Proof.
  intros L n s Hs. apply holds_free in Hs as [_ Hs]. unfold memory_free, modify. cbn [snd].
  eapply holds_le; [|exact Hs]. cbn. lia.
Qed.

Lemma rel_swap {A} p q ps (m : FS A) : releases (q :: p :: ps) m -> releases (p :: q :: ps) m.
Proof. intros Hm L n s Hs. apply (Hm L n s). by apply holds_swap. Qed.

(** Steps that do not touch the heap. *)
Lemma rel_frame {A} (m : FS A) : (forall s, fs_heap (m s).2 = fs_heap s) -> releases [] m.
Proof. intros Hm L n s Hs. rewrite Hm, Nat.add_0_r. done. Qed.

Lemma rel_read_blocks b c : releases [] (read_blocks b c).
Proof. apply rel_frame. intros s. unfold read_blocks. by destruct (disk_read _ _ _). Qed.

Lemma rel_write_blocks b c buf : releases [] (write_blocks b c buf).
Proof. apply rel_frame. intros s. unfold write_blocks. by destruct (disk_write _ _ _ _). Qed.

Lemma rel_get_sb : releases [] get_sb.
Proof. by apply rel_frame. Qed.

Lemma rel_get_cwd : releases [] get_cwd.
Proof. by apply rel_frame. Qed.

Lemma rel_with_sb sb : releases [] (modify (with_sb sb)).
Proof. by apply rel_frame. Qed.

Lemma rel_with_cwd c : releases [] (modify (with_cwd c)).
Proof. by apply rel_frame. Qed.

Lemma rel_serial msg n : releases [] (serial_write msg n).
Proof. by apply rel_frame. Qed.

Lemma rel_stray b : releases [] (stray b).
Proof. by apply rel_frame. Qed.

Lemma rel_at_bit i : releases [] (at_bit i).
Proof. apply rel_stray. Qed.

End Balance.

Create HintDb balance.
#[export] Hint Resolve rel_read_blocks rel_write_blocks rel_get_sb rel_get_cwd rel_with_sb
  rel_with_cwd rel_serial rel_free_last rel_stray rel_at_bit : balance.

(** Follow the code: branch, borrow, give back, and use the lemmas of the
    functions called. *)
Ltac balance_step :=
  match goal with
  | |- releases _ (if ?b then _ else _) => destruct b
  | |- releases _ (match ?x with _ => _ end) => destruct x
  | |- releases _ (let '(_, _) := ?x in _) => destruct x
  | |- releases [] (ret _) => apply rel_ret
  | |- releases _ (bind (memory_alloc _) _) => apply rel_alloc; [|intros ?]
  | |- releases (?p :: _) (bind (memory_free ?p) _) => apply rel_free
  | |- releases (?p :: ?q :: _) (bind (memory_free ?q) _) => apply rel_swap
  | |- releases _ (bind _ _) => apply rel_bind; [|intros ?]
  | |- releases _ _ => solve [eauto with balance]
  end.
Ltac balance := repeat balance_step.

Section Operations.
Context {H D : Type} `{AllocLaws H} `{Disk D}.
Abbreviation FS := (ST (fs H D)).

Lemma rel_init : releases [] tinyfs_init.
Proof. unfold tinyfs_init. balance. Qed.

Lemma rel_read_inode inum : releases [] (tinyfs_read_inode inum).
Proof. unfold tinyfs_read_inode. balance. Qed.

Lemma rel_write_inode inum i : releases [] (tinyfs_write_inode inum i).
Proof. unfold tinyfs_write_inode. balance. Qed.

Lemma rel_read_block b : releases [] (tinyfs_read_block b).
Proof. unfold tinyfs_read_block. balance. Qed.

Lemma rel_write_block b buf : releases [] (tinyfs_write_block b buf).
Proof. unfold tinyfs_write_block. balance. Qed.

#[local] Hint Resolve rel_init rel_read_inode rel_write_inode rel_read_block rel_write_block : balance.

Lemma rel_block_alloc : releases [] tinyfs_block_alloc.
Proof. unfold tinyfs_block_alloc. balance. Qed.

Lemma rel_block_free b : releases [] (tinyfs_block_free b).
Proof. unfold tinyfs_block_free. balance. Qed.

Lemma rel_inode_alloc : releases [] tinyfs_inode_alloc.
Proof. unfold tinyfs_inode_alloc. balance. Qed.

Lemma rel_inode_free inum : releases [] (tinyfs_inode_free inum).
Proof. unfold tinyfs_inode_free. balance. Qed.

Lemma rel_add_dirent_at d e name i : releases [] (add_dirent_at d e name i).
Proof. unfold add_dirent_at. balance. Qed.

#[local] Hint Resolve rel_block_alloc rel_block_free rel_inode_alloc rel_inode_free
  rel_add_dirent_at : balance.

Lemma rel_add_dirent d e name : releases [] (tinyfs_add_dirent d e name).
Proof. unfold tinyfs_add_dirent. balance. Qed.

Lemma rel_remove_dirent d name : releases [] (tinyfs_remove_dirent d name).
Proof. unfold tinyfs_remove_dirent. balance. Qed.

Lemma rel_find_dirent d name : releases [] (find_dirent d name).
Proof. unfold find_dirent. balance. Qed.

#[local] Hint Resolve rel_add_dirent rel_remove_dirent rel_find_dirent : balance.

Lemma rel_resolve_component c comp : releases [] (resolve_component c comp).
Proof. unfold resolve_component. balance. Qed.

#[local] Hint Resolve rel_resolve_component : balance.

Lemma rel_resolve_loop path comp c : releases [] (resolve_loop path comp c).
Proof.
  revert comp c. induction path as [|x path IH]; intros comp c; cbn [resolve_loop];
    balance; apply IH.
Qed.

#[local] Hint Resolve rel_resolve_loop : balance.

Lemma rel_resolve_path path : releases [] (resolve_path path).
Proof. unfold resolve_path. balance. Qed.

#[local] Hint Resolve rel_resolve_path : balance.

Lemma rel_resolve_parent path : releases [] (resolve_parent path).
Proof. unfold resolve_parent. balance. Qed.

#[local] Hint Resolve rel_resolve_parent : balance.

Lemma rel_fs_init : releases [] fs_init.
Proof. unfold fs_init. balance. Qed.

Lemma rel_ls path n : releases [] (fs_ls path n).
Proof. unfold fs_ls. balance. Qed.

Lemma rel_cd path : releases [] (fs_cd path).
Proof. unfold fs_cd. balance. Qed.

Lemma rel_mkdir path : releases [] (fs_mkdir path).
Proof. unfold fs_mkdir. balance. Qed.

Lemma rel_remove_target path t i : releases [] (remove_target path t i).
Proof. unfold remove_target. balance. Qed.

#[local] Hint Resolve rel_remove_target : balance.

Lemma rel_rmdir path : releases [] (fs_rmdir path).
Proof. unfold fs_rmdir. balance. Qed.

Lemma rel_create path : releases [] (fs_create path).
Proof. unfold fs_create. balance. Qed.

Lemma rel_delete path : releases [] (fs_delete path).
Proof. unfold fs_delete. balance. Qed.

#[local] Hint Resolve rel_create rel_delete : balance.

Lemma rel_rename a b : releases [] (fs_rename a b).
Proof. unfold fs_rename. balance. Qed.

Lemma rel_copy a b : releases [] (fs_copy a b).
Proof. unfold fs_copy. balance. Qed.

Lemma rel_write_file path data len : releases [] (fs_write_file path data len).
Proof. unfold fs_write_file. balance. Qed.

Lemma rel_cat_indirect r i t pos size : releases [] (cat_indirect r i t pos size).
Proof.
  revert i pos. induction r as [|r IH]; intros i pos; cbn [cat_indirect]; balance; apply IH.
Qed.

#[local] Hint Resolve rel_cat_indirect : balance.

Lemma rel_cat name n : releases [] (fs_cat name n).
Proof. unfold fs_cat. balance. Qed.

End Operations.

(** A state with an empty drive. *)
Definition blank_sb : superblock := Superblock TINYFS_MAGIC 16384 64 4096 0 17 18 19 (replicate 8 0).
Definition blank_fs : fs kmem ramdisk := Fs boot_kmem ∅ blank_sb 0 [] false.
