(* ===== verification/FsPure.v ===== *)
(** * The on-disk structures of TinyFS as data

    Facts about the codecs of [TinyFS.v], with no state: inodes and their 64
    bytes, the bitmaps, and the directory entries of a block.  A directory
    block is read as a partial function from its 128 slots to names and inode
    numbers. *)

From S2P Require Import Prelude.
From S2P Require Import Alloc.
From S2P Require Import Disk.
From S2P Require Import TinyFS.

(** ** Inodes *)

Record inode_ok (i : inode) : Prop := {
  io_mode : 0 <= i_mode i < 2 ^ 16; io_uid : 0 <= i_uid i < 2 ^ 16; io_size : 0 <= i_size i < 2 ^ 32;
  io_atime : 0 <= i_atime i < 2 ^ 64; io_mtime : 0 <= i_mtime i < 2 ^ 64;
  io_ctime : 0 <= i_ctime i < 2 ^ 64;
  io_direct : 0 <= i_direct_block i < 2 ^ 32; io_indirect : 0 <= i_indirect_block i < 2 ^ 32;
  io_refcount : 0 <= i_refcount i < 2 ^ 32; io_pad1 : 0 <= i_padding1 i < 2 ^ 32;
  io_pad2 : length (i_padding2 i) = 16%nat; io_pad2_ok : bytes_ok (i_padding2 i)
}.

Lemma le_val_bytes_small n v : 0 <= v < 256 ^ Z.of_nat n -> le_val (le_bytes n v) = v.
Proof. intros. rewrite le_val_bytes. by apply Z.mod_small. Qed.

Lemma inode_of_bytes i : inode_ok i -> inode_of (inode_bytes i) = i.
Proof.
  intros []. destruct i as [mode uid size at_ mt ct db ib rc p1 p2]. cbn in *.
  unfold inode_of.
  change (slice 0 2 _) with (le_bytes 2 mode). change (slice 2 2 _) with (le_bytes 2 uid).
  change (slice 4 4 _) with (le_bytes 4 size). change (slice 8 8 _) with (le_bytes 8 at_).
  change (slice 16 8 _) with (le_bytes 8 mt). change (slice 24 8 _) with (le_bytes 8 ct).
  change (slice 32 4 _) with (le_bytes 4 db). change (slice 36 4 _) with (le_bytes 4 ib).
  change (slice 40 4 _) with (le_bytes 4 rc). change (slice 44 4 _) with (le_bytes 4 p1).
  change (slice 48 16 _) with (take 16 p2).
  rewrite !le_val_bytes_small by done. by rewrite take_ge by lia.
Qed.

Lemma length_inode_bytes i : length (i_padding2 i) = 16%nat -> length (inode_bytes i) = 64%nat.
Proof. intros. unfold inode_bytes. by rewrite !length_app, !length_le_bytes, H. Qed.

Lemma inode_bytes_ok i : bytes_ok (i_padding2 i) -> bytes_ok (inode_bytes i).
Proof. intros. unfold inode_bytes. repeat (apply Forall_app; split; auto with bytes). Qed.

Lemma le_bytes_slice off n bs :
  bytes_ok bs -> (off + n <= length bs)%nat -> le_bytes n (le_val (slice off n bs)) = slice off n bs.
Proof.
  intros Hb Hl. rewrite <- (length_slice off n bs Hl) at 1. apply le_bytes_val. by apply slice_ok.
Qed.

Lemma inode_bytes_of bs : length bs = 64%nat -> bytes_ok bs -> inode_bytes (inode_of bs) = bs.
Proof.
  intros Hl Hb. unfold inode_of, inode_bytes. cbn [i_mode i_uid i_size i_atime i_mtime i_ctime
    i_direct_block i_indirect_block i_refcount i_padding1 i_padding2].
  rewrite !le_bytes_slice by (done || lia).
  rewrite (slice_cat 44 4 16), (slice_cat 40 4 20), (slice_cat 36 4 24), (slice_cat 32 4 28),
    (slice_cat 24 8 32), (slice_cat 16 8 40), (slice_cat 8 8 48), (slice_cat 4 4 56),
    (slice_cat 2 2 60), (slice_cat 0 2 62).
  rewrite <- (slice_all bs) at 2. by rewrite Hl.
Qed.

Lemma le_val_slice_range off n bs :
  bytes_ok bs -> (off + n <= length bs)%nat -> 0 <= le_val (slice off n bs) < 256 ^ Z.of_nat n.
Proof.
  intros Hb Hl. rewrite <- (length_slice off n bs Hl) at 3. apply le_val_range. by apply slice_ok.
Qed.

Lemma inode_of_ok bs : length bs = 64%nat -> bytes_ok bs -> inode_ok (inode_of bs).
Proof.
  intros Hl Hb.
  split; cbn [inode_of i_mode i_uid i_size i_atime i_mtime i_ctime
    i_direct_block i_indirect_block i_refcount i_padding1 i_padding2];
    try match goal with |- _ <= le_val (slice ?o ?n _) < _ =>
          exact (le_val_slice_range o n bs Hb ltac:(lia)) end.
  - apply length_slice. lia.
  - by apply slice_ok.
Qed.

(** ** Bitmaps *)

Lemma char_at_insert bm k v j :
  (k < length bm)%nat -> char_at (<[k := v]> bm) j = if decide (k = j) then v else char_at bm j.
Proof.
  intros Hk. unfold char_at. case_decide as E.
  - subst. by rewrite list_lookup_insert_eq.
  - by rewrite list_lookup_insert_ne.
Qed.

Lemma char_at_byte bm j : bytes_ok bm -> 0 <= char_at bm j < 256.
Proof.
  intros Hb. unfold char_at. destruct (bm !! j) as [c|] eqn:E; cbn; [|lia].
  by apply (Forall_lookup_1 _ _ _ _ Hb E).
Qed.

Lemma test_testbit bm i : 0 <= i -> bitmap_test bm i = Z.testbit (char_at bm (Z.to_nat (i / 8))) (i mod 8).
Proof.
  intros Hi. unfold bitmap_test, z_true. change 1 with (Z.ones 1).
  rewrite Z.land_ones, Z.shiftr_div_pow2 by zlia. change (2 ^ 1) with 2.
  rewrite <- Z.testbit_spec' by zlia. by destruct (Z.testbit _ _).
Qed.

Lemma same_bit i j :
  0 <= i -> 0 <= j -> (Z.to_nat (i / 8) = Z.to_nat (j / 8) /\ i mod 8 = j mod 8 <-> i = j).
Proof. intros. split; [|by intros ->]. intros [Hq Hr]. zlia. Qed.

Lemma bitmap_set_test bm i j :
  0 <= i < 8 * Z.of_nat (length bm) -> 0 <= j -> bytes_ok bm ->
  bitmap_test (bitmap_set bm i) j = bool_decide (i = j) || bitmap_test bm j.
Proof.
  intros Hi Hj Hb. rewrite !test_testbit by lia. unfold bitmap_set.
  rewrite char_at_insert by zlia. pose proof (same_bit i j ltac:(lia) Hj) as Hij.
  destruct (decide (Z.to_nat (i / 8) = Z.to_nat (j / 8))) as [E|E].
  - rewrite E. unfold u8. change (2 ^ 8) with (2 ^ 8). rewrite <- Z.land_ones by lia.
    rewrite Z.land_spec, Z.ones_spec_low, andb_true_r by zlia.
    rewrite Z.lor_spec, Z.shiftl_1_l, Z.pow2_bits_eqb by zlia.
    rewrite orb_comm. f_equal. case_bool_decide as Hd; destruct (Z.eqb_spec (i mod 8) (j mod 8)); tauto.
  - rewrite bool_decide_false by tauto. done.
Qed.

Lemma bitmap_clear_test bm i j :
  0 <= i < 8 * Z.of_nat (length bm) -> 0 <= j -> bytes_ok bm ->
  bitmap_test (bitmap_clear bm i) j = negb (bool_decide (i = j)) && bitmap_test bm j.
Proof.
  intros Hi Hj Hb. rewrite !test_testbit by lia. unfold bitmap_clear.
  rewrite char_at_insert by zlia. pose proof (same_bit i j ltac:(lia) Hj) as Hij.
  destruct (decide (Z.to_nat (i / 8) = Z.to_nat (j / 8))) as [E|E].
  - rewrite E. unfold u8. rewrite <- Z.land_ones by lia.
    rewrite Z.land_spec, Z.ones_spec_low, andb_true_r by zlia.
    rewrite Z.land_spec, Z.lnot_spec, Z.shiftl_1_l, Z.pow2_bits_eqb by zlia.
    rewrite andb_comm. f_equal. f_equal.
    case_bool_decide as Hd; destruct (Z.eqb_spec (i mod 8) (j mod 8)); tauto.
  - rewrite bool_decide_false by tauto. done.
Qed.

Lemma length_bitmap_set bm i : length (bitmap_set bm i) = length bm.
Proof. apply length_insert. Qed.
Lemma length_bitmap_clear bm i : length (bitmap_clear bm i) = length bm.
Proof. apply length_insert. Qed.

Lemma bitmap_set_ok bm i : bytes_ok bm -> bytes_ok (bitmap_set bm i).
Proof. intros. apply Forall_insert; [done|]. apply u8_range. Qed.
Lemma bitmap_clear_ok bm i : bytes_ok bm -> bytes_ok (bitmap_clear bm i).
Proof. intros. apply Forall_insert; [done|]. apply u8_range. Qed.

(** The scan finds the first clear bit. *)
Lemma first_clear_spec rounds i bm :
  match first_clear rounds i bm with
  | Some j => i <= j < i + Z.of_nat rounds /\ bitmap_test bm j = false
              /\ forall k, i <= k < j -> bitmap_test bm k = true
  | None => forall k, i <= k < i + Z.of_nat rounds -> bitmap_test bm k = true
  end.
Proof.
  revert i. induction rounds as [|r IH]; intros i; cbn [first_clear]; [lia|].
  destruct (bitmap_test bm i) eqn:E; cbn [negb].
  - specialize (IH (i + 1)). destruct (first_clear r (i + 1) bm) as [j|].
    + destruct IH as (H1 & H2 & H3). split_and!; [lia|lia|done|]. intros k Hk.
      destruct (decide (k = i)) as [->|]; [done|]. apply H3. lia.
    + intros k Hk. destruct (decide (k = i)) as [->|]; [done|]. apply IH. lia.
  - split_and!; [lia|lia|done|]. intros k Hk. lia.
Qed.

(** Allocating a bit and freeing it again. *)
Lemma bitmap_clear_set bm i :
  0 <= i < 8 * Z.of_nat (length bm) -> bytes_ok bm -> bitmap_test bm i = false ->
  bitmap_clear (bitmap_set bm i) i = bm.
Proof.
  intros Hi Hb Ht. unfold bitmap_clear, bitmap_set.
  set (k := Z.to_nat (i / 8)). assert (Hk : (k < length bm)%nat) by (subst k; zlia).
  rewrite char_at_insert, decide_True by done. rewrite list_insert_insert_eq.
  rewrite test_testbit in Ht by lia. fold k in Ht. pose proof (char_at_byte bm k Hb) as Hc.
  assert (E : u8 (Z.land (u8 (Z.lor (char_at bm k) (Z.shiftl 1 (i mod 8)))) (Z.lnot (Z.shiftl 1 (i mod 8))))
              = char_at bm k).
  { rewrite Z.shiftl_1_l. unfold u8. rewrite <- !Z.land_ones by lia.
    rewrite <- (Z.mod_small (char_at bm k) (2 ^ 8)) at 2 by (cbn; lia). rewrite <- Z.land_ones by lia.
    apply Z.bits_inj'. intros n Hn. rewrite !Z.land_spec, Z.lor_spec, Z.lnot_spec, Z.pow2_bits_eqb by zlia.
    destruct (Z.eqb_spec (i mod 8) n) as [<-|].
    - rewrite Ht. by rewrite andb_false_r.
    - cbn [negb]. rewrite orb_false_r, andb_true_r. by destruct (Z.testbit _ n), (Z.testbit _ n). }
  rewrite E. unfold char_at. destruct (lookup_lt_is_Some_2 bm k Hk) as [c Hc']. rewrite Hc'. cbn.
  by apply list_insert_id.
Qed.

(** ** Directory blocks *)

Lemma cstr_take n l : 0 ∈ take n l -> cstr (take n l) = cstr l.
Proof.
  revert n. induction l as [|c l IH]; intros [|n] Hin; cbn [take cstr] in *; try done.
  - by apply not_elem_of_nil in Hin.
  - destruct (Z.eqb_spec c 0); [done|]. f_equal. apply IH.
    apply elem_of_cons in Hin as [?|?]; [congruence|done].
Qed.

Lemma cstr_nil l : cstr l = [] <-> match l with [] => True | c :: _ => c = 0 end.
Proof. destruct l as [|c l]; cbn; [done|]. by destruct (Z.eqb_spec c 0). Qed.

(** What slot [i] of a block says. *)
Definition dir_ent (block : list Z) (i : nat) : option (list Z * Z) :=
  if ent_used block i then Some (ent_name block i, ent_inode block i) else None.

(** Every name ends inside its slot. *)
Record dir_block_ok (block : list Z) : Prop := {
  db_len : length block = 4096%nat;
  db_bytes : bytes_ok block;
  db_term i : (i < 128)%nat -> 0 ∈ slice (ent_off i + 4) 28 block
}.

Lemma ent_slot i : (i < 128)%nat -> (ent_off i + 32 <= 4096)%nat.
Proof. unfold ent_off. lia. Qed.

Lemma ent_apart i k : i <> k -> (ent_off i + 32 <= ent_off k \/ ent_off k + 32 <= ent_off i)%nat.
Proof. unfold ent_off. lia. Qed.

Lemma ent_name_slot block i :
  dir_block_ok block -> (i < 128)%nat -> ent_name block i = cstr (slice (ent_off i + 4) 28 block).
Proof. intros Hb Hi. unfold ent_name, slice. symmetry. apply cstr_take. by apply (db_term _ Hb). Qed.

Lemma char_at_drop l n : char_at l n = default 0 (head (drop n l)).
Proof.
  unfold char_at. revert l. induction n as [|n IH]; intros [|c l]; try done. cbn. apply IH.
Qed.

Lemma ent_used_name block i : ent_used block i = negb (bool_decide (ent_name block i = [])).
Proof.
  unfold ent_used, ent_name. rewrite char_at_drop.
  destruct (drop _ block) as [|c l]; [done|]. cbn.
  destruct (Z.eqb_spec c 0) as [->|]; [done|]. done.
Qed.

(** Slots are independent: a slot whose 32 bytes are the same says the same. *)
Lemma dir_ent_ext block block' i :
  dir_block_ok block -> dir_block_ok block' -> (i < 128)%nat ->
  slice (ent_off i) 32 block' = slice (ent_off i) 32 block ->
  dir_ent block' i = dir_ent block i.
Proof.
  intros Hb Hb' Hi He. rewrite <- (slice_cat _ 4 28 block), <- (slice_cat _ 4 28 block') in He.
  apply app_inj_1 in He as [He1 He2].
  2: { rewrite !length_slice; [done|..]; pose proof (ent_slot i Hi);
       [rewrite (db_len _ Hb)|rewrite (db_len _ Hb')]; lia. }
  unfold dir_ent, ent_inode. rewrite !ent_used_name, !ent_name_slot, He1, He2 by done. done.
Qed.

Lemma splice_splice_snoc off c t block :
  (off + 1 + length t <= length block)%nat ->
  splice (off + 1) t (splice off [c] block) = splice off (c :: t) block.
Proof.
  intros Hl. apply list_eq. intros k.
  rewrite splice_lookup by (rewrite length_splice by (cbn [length]; lia); lia).
  rewrite !splice_lookup by (cbn [length]; lia). cbn [length].
  repeat case_decide; try lia; try done.
  - replace (k - off)%nat with (S (k - (off + 1))) by lia. done.
  - by replace (k - off)%nat with 0%nat by lia.
Qed.

Lemma set_ent_name_eq i j name block :
  (j <= 27)%nat -> (ent_off i + 32 <= length block)%nat ->
  set_ent_name i j name block = splice (ent_off i + 4 + j) (take (27 - j) name ++ [0]) block.
Proof.
  revert j block. induction name as [|c name IH]; intros j block Hj Hl; cbn [set_ent_name].
  - by rewrite take_nil.
  - destruct (Nat.ltb_spec j 27).
    + rewrite IH by (rewrite ?length_splice by (cbn [length]; lia); lia).
      replace (27 - j)%nat with (S (27 - S j)) by lia. cbn [take app].
      replace (ent_off i + 4 + S j)%nat with (ent_off i + 4 + j + 1)%nat by lia.
      apply splice_splice_snoc. rewrite length_app, length_take. cbn [length]. lia.
    + replace (27 - j)%nat with 0%nat by lia. by rewrite take_0.
Qed.

(** *** Writing a slot *)

Definition put_ent (i : nat) (v : Z) (name : list Z) (block : list Z) : list Z :=
  set_ent_name i 0 name (set_ent_inode i v block).
Definition del_ent (i : nat) (block : list Z) : list Z :=
  splice (ent_off i + 4) [0] (set_ent_inode i 0 block).

(** Both leave the bytes outside the slot alone. *)
Lemma slot_write_ok block i v (t : list Z) :
  dir_block_ok block -> (i < 128)%nat -> (0 < length t <= 28)%nat -> bytes_ok t -> 0 ∈ t ->
  let b' := splice (ent_off i + 4) t (set_ent_inode i v block) in
  dir_block_ok b'
  /\ (forall k, (k < 128)%nat -> k <> i -> dir_ent b' k = dir_ent block k)
  /\ ent_inode b' i = u32 v /\ ent_name b' i = cstr t.
Proof.
  intros Hb Hi Hl Ht H0 b'. pose proof (ent_slot i Hi) as Hs. pose proof (db_len _ Hb) as Hlen.
  assert (Hl1 : length (set_ent_inode i v block) = 4096%nat).
  { unfold set_ent_inode. rewrite length_splice by (rewrite length_le_bytes; lia). done. }
  assert (Hlen' : length b' = 4096%nat) by (unfold b'; rewrite length_splice by lia; done).
  assert (Hother : forall off n, (off + n <= ent_off i \/ ent_off i + 32 <= off)%nat ->
            slice off n b' = slice off n block).
  { intros off n Hd. unfold b'. rewrite slice_splice_ne by lia.
    unfold set_ent_inode. apply slice_splice_ne; rewrite ?length_le_bytes; lia. }
  assert (Hname : cstr (slice (ent_off i + 4) 28 b') = cstr t /\ 0 ∈ slice (ent_off i + 4) 28 b').
  { assert (E : take (length t) (slice (ent_off i + 4) 28 b') = t).
    { unfold slice. rewrite take_take, Nat.min_l by lia.
      change (take (length t) (drop (ent_off i + 4) b')) with (slice (ent_off i + 4) (length t) b').
      unfold b'. by apply slice_splice_eq; [|lia]. }
    split.
    - rewrite <- (cstr_take (length t)) by (by rewrite E). by rewrite E.
    - rewrite <- (take_drop (length t) (slice _ _ b')), E. apply elem_of_app. by left. }
  assert (Hb' : dir_block_ok b').
  { split; [done| |].
    - unfold b', set_ent_inode. apply splice_ok; [done|].
      apply splice_ok; [apply le_bytes_ok|apply Hb].
    - intros k Hk. destruct (decide (k = i)) as [->|Hne]; [apply Hname|].
      pose proof (ent_apart i k (not_eq_sym Hne)).
      rewrite Hother by lia. by apply (db_term _ Hb). }
  split_and!; [done| | |].
  - intros k Hk Hne. pose proof (ent_apart i k (not_eq_sym Hne)).
    apply dir_ent_ext; [done|done|done|]. apply Hother. lia.
  - unfold ent_inode, b'. rewrite slice_splice_ne by lia. unfold set_ent_inode.
    rewrite slice_splice_eq by (rewrite ?length_le_bytes; lia). by rewrite le_val_bytes.
  - rewrite ent_name_slot by done. apply Hname.
Qed.

Lemma cstr_ok_bytes s : cstr_ok s -> bytes_ok s.
Proof. intros Hs. eapply Forall_impl; [exact Hs|]. intros c Hc. unfold is_byte. cbn in Hc. lia. Qed.

Lemma put_ent_spec block i v name :
  dir_block_ok block -> (i < 128)%nat -> cstr_ok name -> name <> [] ->
  dir_block_ok (put_ent i v name block)
  /\ (forall k, (k < 128)%nat -> dir_ent (put_ent i v name block) k =
        if decide (k = i) then Some (take 27 name, u32 v) else dir_ent block k).
Proof.
  intros Hb Hi Hn Hne. pose proof (ent_slot i Hi) as Hs. pose proof (db_len _ Hb) as Hlen.
  assert (Hl1 : length (set_ent_inode i v block) = 4096%nat).
  { unfold set_ent_inode. rewrite length_splice by (rewrite length_le_bytes; lia). done. }
  unfold put_ent. rewrite set_ent_name_eq by lia. rewrite Nat.sub_0_r, Nat.add_0_r.
  assert (Ht : cstr_ok (take 27 name)) by (by apply Forall_take).
  destruct (slot_write_ok block i v (take 27 name ++ [0]) Hb Hi) as (B1 & B2 & B3 & B4).
  - rewrite length_app, length_take. cbn [length]. lia.
  - apply Forall_app. split; [by apply cstr_ok_bytes|]. by repeat constructor.
  - apply elem_of_app. right. by left.
  - split; [done|]. intros k Hk. case_decide as E; [|by apply B2]. subst k.
    rewrite cstr_app_0 in B4 by done. unfold dir_ent. rewrite ent_used_name, B3, B4.
    rewrite bool_decide_false; [done|]. destruct name; [done|]. done.
Qed.

Lemma del_ent_spec block i :
  dir_block_ok block -> (i < 128)%nat ->
  dir_block_ok (del_ent i block)
  /\ (forall k, (k < 128)%nat -> dir_ent (del_ent i block) k =
        if decide (k = i) then None else dir_ent block k).
Proof.
  intros Hb Hi. unfold del_ent.
  destruct (slot_write_ok block i 0 [0] Hb Hi) as (B1 & B2 & B3 & B4);
    [cbn; lia|by repeat constructor|by left|].
  split; [done|]. intros k Hk. case_decide as E; [|by apply B2]. subst k.
  unfold dir_ent. by rewrite ent_used_name, B4.
Qed.

(** The loops, over [rounds] slots from [i]. *)
Lemma find_free_spec rounds i block :
  match find_free rounds i block with
  | Some j => (i <= j < i + rounds)%nat /\ dir_ent block j = None
              /\ forall k, (i <= k < j)%nat -> is_Some (dir_ent block k)
  | None => forall k, (i <= k < i + rounds)%nat -> is_Some (dir_ent block k)
  end.
Proof.
  revert i. induction rounds as [|r IH]; intros i; cbn [find_free]; [lia|].
  destruct (ent_used block i) eqn:E.
  - assert (Hi : is_Some (dir_ent block i)) by (unfold dir_ent; by rewrite E).
    specialize (IH (S i)). destruct (find_free r (S i) block) as [j|].
    + destruct IH as (H1 & H2 & H3). split_and!; [lia|lia|done|]. intros k Hk.
      destruct (decide (k = i)) as [->|]; [done|]. apply H3. lia.
    + intros k Hk. destruct (decide (k = i)) as [->|]; [done|]. apply IH. lia.
  - split_and!; [lia|lia|by unfold dir_ent; rewrite E|]. intros k Hk. lia.
Qed.

(** Slot [k] holds the name. *)
Definition has_name (block : list Z) (name : list Z) (k : nat) : Prop :=
  exists n, dir_ent block k = Some (name, n).

Lemma has_name_test block name k :
  cstr_ok name -> bytes_ok block ->
  has_name block name k <-> ent_used block k = true /\ str_diff name (ent_name block k) = 0.
Proof.
  intros Hn Hb. assert (He : cstr_ok (ent_name block k)) by (apply cstr_cstr_ok; by apply Forall_drop).
  rewrite (str_diff_0 _ _ Hn He). unfold has_name, dir_ent. destruct (ent_used block k).
  - split; [intros (n & E); split; congruence|intros [_ ->]; by eexists].
  - split; [by intros (n & ?)|by intros [? _]].
Qed.

Lemma find_name_spec rounds i name block :
  cstr_ok name -> bytes_ok block ->
  match find_name rounds i name block with
  | Some j => (i <= j < i + rounds)%nat /\ has_name block name j
              /\ forall k, (i <= k < j)%nat -> ~ has_name block name k
  | None => forall k, (i <= k < i + rounds)%nat -> ~ has_name block name k
  end.
Proof.
  intros Hn Hb. revert i. induction rounds as [|r IH]; intros i; cbn [find_name]; [lia|].
  pose proof (has_name_test block name i Hn Hb) as Ht. unfold name_match.
  assert (Hstep : ~ has_name block name i ->
    match find_name r (S i) name block with
    | Some j => (i <= j < i + S r)%nat /\ has_name block name j
                /\ forall k, (i <= k < j)%nat -> ~ has_name block name k
    | None => forall k, (i <= k < i + S r)%nat -> ~ has_name block name k
    end).
  { intros Hi. specialize (IH (S i)). destruct (find_name r (S i) name block) as [j|].
    - destruct IH as (H1 & H2 & H3). split_and!; [lia|lia|done|]. intros k Hk.
      destruct (decide (k = i)) as [->|]; [done|]. apply H3. lia.
    - intros k Hk. destruct (decide (k = i)) as [->|]; [done|]. apply IH. lia. }
  destruct (ent_used block i); cbn [negb].
  - destruct (Z.eqb_spec (str_diff name (ent_name block i)) 0) as [E|E].
    + split_and!; [lia|lia|by apply Ht|]. intros k Hk. lia.
    + apply Hstep. rewrite Ht. tauto.
  - apply Hstep. rewrite Ht. by intros [? _].
Qed.
