(* ===== verification/FsCalls.v ===== *)
(** * Any sequence of file-system calls, on any disk

    [run_calls] is what programs and the kernel's shell do to the file system:
    the calls of [src/kernel/fs/vfs.c] in any order with any arguments.  Two
    things are followed through it: the buffers borrowed from the kernel heap
    (FsHeap), and the accesses outside a buffer that [fs_wild] notes.  [tame]
    lists the circumstances in which a call makes none: each names a check
    that the code leaves out. *)

From S2P Require Import Prelude.
From S2P Require Import Kmem.
From S2P Require Import Heap.
From S2P Require Import Alloc.
From S2P Require Import Disk.
From S2P Require Import TinyFS.
From S2P Require Import Vfs.
From S2P Require Import FsHeap.
From S2P Require Import FsPure.

(** ** Calls that stay inside their buffers *)

(** The two bitmaps of the superblock fit the one block each is read into. *)
Definition small (g : superblock) : Prop := sb_total_blocks g <= 32768 /\ sb_inode_count g <= 32768.

Section Quiet.
Context {H D : Type} `{Allocator H} `{Disk D}.
Abbreviation FS := (ST (fs H D)).

(** Under such a superblock [m] makes no access outside a buffer, leaves the
    superblock alone and returns a value in [Q]. *)
Definition quiet {A} (Q : A -> Prop) (m : FS A) : Prop :=
  forall s, small (fs_sb s) ->
  let '(a, s') := m s in fs_sb s' = fs_sb s /\ fs_wild s' = fs_wild s /\ Q a.
Abbreviation calm := (quiet (fun _ => True)).

Lemma q_ret {A} (Q : A -> Prop) a : Q a -> quiet Q (ret a).
Proof. by intros HQ s _. Qed.

Lemma q_bind {A B} (Q : A -> Prop) (R : B -> Prop) (m : FS A) k :
  quiet Q m -> (forall a, Q a -> quiet R (k a)) -> quiet R (bind m k).
Proof.
  intros Hm Hk s Hs. unfold bind. specialize (Hm s Hs). destruct (m s) as [a s1].
  destruct Hm as (E1 & W1 & Ha). specialize (Hk a Ha s1 ltac:(by rewrite E1)).
  destruct (k a s1) as [b s2]. destruct Hk as (E2 & W2 & Hb). split_and!; [congruence|congruence|done].
Qed.

Lemma q_weaken {A} (Q R : A -> Prop) m : quiet Q m -> (forall a, Q a -> R a) -> quiet R m.
Proof.
  intros Hm HQ s Hs. specialize (Hm s Hs). destruct (m s) as [a s']. destruct Hm as (E & W & Ha).
  split_and!; auto.
Qed.

(** Steps that touch neither the superblock nor the note. *)
Lemma q_frame {A} (m : FS A) : (forall s, fs_sb (m s).2 = fs_sb s /\ fs_wild (m s).2 = fs_wild s) -> calm m.
Proof. intros Hm s _. specialize (Hm s). destruct (m s) as [a s']. by destruct Hm. Qed.

Lemma q_alloc n : calm (memory_alloc n).
Proof. apply q_frame. intros s. unfold memory_alloc. by destruct (kalloc n (fs_heap s)). Qed.

Lemma q_free p : calm (memory_free p).
Proof. by apply q_frame. Qed.

Lemma q_read_blocks b c : calm (read_blocks b c).
Proof. apply q_frame. intros s. unfold read_blocks. by destruct (disk_read _ _ _). Qed.

Lemma q_write_blocks b c buf : calm (write_blocks b c buf).
Proof. apply q_frame. intros s. unfold write_blocks. by destruct (disk_write _ _ _ _). Qed.

Lemma q_get_cwd : calm get_cwd.
Proof. by apply q_frame. Qed.

Lemma q_with_cwd c : calm (modify (with_cwd c)).
Proof. by apply q_frame. Qed.

Lemma q_get_sb : quiet small get_sb.
Proof. intros s Hs. by split_and!. Qed.

Lemma q_stray b : b = false -> calm (stray b).
Proof. intros ->. apply q_frame. intros s. cbn. by rewrite orb_false_r. Qed.

Lemma q_at_bit i : i < 32768 -> calm (at_bit i).
Proof. intros Hi. apply q_stray. unfold TINYFS_BLOCK_SIZE. apply Z.leb_gt. zlia. Qed.

End Quiet.
Abbreviation calm := (quiet (fun _ => True)).

Create HintDb quiet.
#[export] Hint Resolve q_alloc q_free q_read_blocks q_write_blocks q_get_cwd q_with_cwd q_get_sb : quiet.

(** Follow the code, with the lemmas of the functions called. *)
Ltac quiet_step :=
  match goal with
  | |- quiet _ (if ?b then _ else _) => destruct b eqn:?
  | |- quiet _ (match ?x with _ => _ end) => destruct x eqn:?
  | |- quiet _ (let '(_, _) := ?x in _) => destruct x eqn:?
  | |- quiet _ (ret _) => apply q_ret; (exact I || lia || idtac)
  | |- quiet _ (bind _ _) => eapply q_bind; [solve [eauto with quiet | quiet_go]|intros ? ?]
  | |- quiet _ _ => solve [eauto with quiet]
  end
with quiet_go := repeat quiet_step.
Ltac quiet := repeat quiet_step.

Section Operations.
Context {H D : Type} `{Allocator H} `{Disk D}.
Abbreviation FS := (ST (fs H D)).

Lemma q_read_inode inum : calm (tinyfs_read_inode inum).
Proof. unfold tinyfs_read_inode. quiet. Qed.

Lemma q_write_inode inum i : calm (tinyfs_write_inode inum i).
Proof. unfold tinyfs_write_inode. quiet. Qed.

Lemma q_read_block b : calm (tinyfs_read_block (H := H) b).
Proof. unfold tinyfs_read_block. quiet. Qed.

Lemma q_write_block b buf : calm (tinyfs_write_block (H := H) b buf).
Proof. unfold tinyfs_write_block. quiet. Qed.

#[local] Hint Resolve q_read_inode q_write_inode q_read_block q_write_block : quiet.

(** The loops find a bit inside the bitmap. *)
Lemma found_bit n i j data : first_clear n i data = Some j -> i <= j < i + Z.of_nat n.
Proof. intros E. pose proof (first_clear_spec n i data) as Hf. rewrite E in Hf. tauto. Qed.

Lemma q_block_alloc : quiet (fun b => b < 32768) tinyfs_block_alloc.
Proof.
  unfold tinyfs_block_alloc. quiet.
  match goal with Hs : small _, E : first_clear _ _ _ = _ |- _ => destruct Hs; apply found_bit in E end.
  eapply q_bind; [apply q_at_bit; lia|intros _ _]. quiet. rewrite i32_small by lia. lia.
Qed.

Lemma q_block_free b : b < 32768 -> calm (tinyfs_block_free b).
Proof. intros Hb. pose proof (q_at_bit (H := H) (D := D) b Hb). unfold tinyfs_block_free. quiet. Qed.

Lemma q_inode_alloc : calm tinyfs_inode_alloc.
Proof.
  unfold tinyfs_inode_alloc. quiet.
  match goal with Hs : small _, E : first_clear _ _ _ = _ |- _ => destruct Hs; apply found_bit in E end.
  eapply q_bind; [apply q_at_bit; lia|intros _ _]. quiet.
Qed.

Lemma q_inode_free inum : calm (tinyfs_inode_free inum).
Proof.
  unfold tinyfs_inode_free. eapply q_bind; [apply q_get_sb|intros g [_ Hg]].
  destruct (Z.leb_spec (sb_inode_count g) inum); [quiet|].
  pose proof (q_at_bit (H := H) (D := D) inum ltac:(lia)). quiet.
Qed.

#[local] Hint Resolve q_block_alloc q_inode_alloc q_inode_free : quiet.
#[local] Hint Resolve q_block_free : quiet.

Lemma q_serial msg n : calm (serial_write (H := H) (D := D) msg n).
Proof. by apply q_frame. Qed.

Lemma q_add_dirent_at d e name i : calm (add_dirent_at d e name i).
Proof. unfold add_dirent_at. quiet. Qed.

#[local] Hint Resolve q_add_dirent_at : quiet.

Lemma q_add_dirent d e name : calm (tinyfs_add_dirent d e name).
Proof. unfold tinyfs_add_dirent. quiet. Qed.

Lemma q_remove_dirent d name : calm (tinyfs_remove_dirent d name).
Proof. unfold tinyfs_remove_dirent. quiet. Qed.

Lemma q_find_dirent d name : calm (find_dirent d name).
Proof. unfold find_dirent. quiet. Qed.

#[local] Hint Resolve q_add_dirent q_remove_dirent q_find_dirent : quiet.

Lemma q_resolve_component c comp : calm (resolve_component c comp).
Proof. unfold resolve_component. quiet. Qed.

#[local] Hint Resolve q_resolve_component : quiet.

Lemma q_resolve_loop path comp c : calm (resolve_loop path comp c).
Proof. revert comp c. induction path as [|x path IH]; intros comp c; cbn [resolve_loop]; quiet. Qed.

#[local] Hint Resolve q_resolve_loop : quiet.

Lemma q_resolve_path path : calm (resolve_path path).
Proof. unfold resolve_path. quiet. Qed.

#[local] Hint Resolve q_resolve_path : quiet.

Lemma q_resolve_parent path : calm (resolve_parent path).
Proof. unfold resolve_parent. quiet. Qed.

#[local] Hint Resolve q_resolve_parent : quiet.

Lemma q_cd path : calm (fs_cd path).
Proof. unfold fs_cd. quiet. Qed.

Lemma q_mkdir path : calm (fs_mkdir path).
Proof. unfold fs_mkdir. quiet. Qed.

Lemma q_create path : calm (fs_create path).
Proof. unfold fs_create. quiet. Qed.

#[local] Hint Resolve q_create : quiet.

Lemma q_rename a b : calm (fs_rename a b).
Proof. unfold fs_rename. quiet. Qed.

Lemma q_block_for (b : bool) v : calm (if b then tinyfs_block_alloc else ret v).
Proof. destruct b; [|by apply q_ret]. by eapply q_weaken; [apply q_block_alloc|]. Qed.

#[local] Hint Resolve q_block_for : quiet.

Lemma q_copy a b : calm (fs_copy a b).
Proof. unfold fs_copy. quiet. Qed.

Lemma q_remove_target path t i : i_direct_block i < 32768 -> calm (remove_target path t i).
Proof. intros Hi. unfold remove_target. quiet. Qed.

(** ** Calls that depend on what is on the disk *)

(** [m] started in [s]. *)
Definition quiet_at {A} (m : FS A) (s : fs H D) : Prop :=
  fs_sb (m s).2 = fs_sb s /\ fs_wild (m s).2 = fs_wild s.

Lemma quiet_use {A} (Q : A -> Prop) (m : FS A) s : quiet Q m -> small (fs_sb s) -> quiet_at m s.
Proof. intros Hm Hs. specialize (Hm s Hs). unfold quiet_at. destruct (m s). by destruct Hm as (? & ? & _). Qed.

Lemma quiet_at_bind {A B} (m : FS A) (k : A -> FS B) s :
  quiet_at m s -> (forall a s1, m s = (a, s1) -> quiet_at (k a) s1) -> quiet_at (bind m k) s.
Proof.
  unfold quiet_at, bind. intros [E W] Hk. destruct (m s) as [a s1] eqn:Em. cbn [snd] in *.
  destruct (Hk a s1 eq_refl) as [E2 W2]. split; congruence.
Qed.

Lemma quiet_small {A} (m : FS A) a s s1 : quiet_at m s -> m s = (a, s1) -> small (fs_sb s) -> small (fs_sb s1).
Proof. intros [E _] Em. rewrite Em in E. cbn [snd] in E. by rewrite E. Qed.

(** What a path names. *)
Definition target (path : list Z) (s : fs H D) : option inode :=
  ((try* n := resolve_path path else None in tinyfs_read_inode n) s).1.

Lemma quiet_target {A} path (r : A) (k : Z -> inode -> FS A) s :
  small (fs_sb s) -> (forall n i, target path s = Some i -> calm (k n i)) ->
  quiet_at (try* n := resolve_path path else r in try* i := tinyfs_read_inode n else r in k n i) s.
Proof.
  intros Hs Hk. assert (Hr := quiet_use _ _ s (q_resolve_path path) Hs).
  apply quiet_at_bind; [exact Hr|]. intros [n|] s1 E1; [|done].
  pose proof (quiet_small _ _ _ _ Hr E1 Hs) as Hs1.
  assert (Hi := quiet_use _ _ s1 (q_read_inode n) Hs1).
  apply quiet_at_bind; [exact Hi|]. intros [i|] s2 E2; [|done].
  eapply quiet_use.
  - apply Hk. unfold target, bind. by rewrite E1, E2.
  - exact (quiet_small _ _ _ _ Hi E2 Hs1).
Qed.

Lemma at_rmdir path s : small (fs_sb s) ->
  (forall i, target (default [] path) s = Some i -> i_direct_block i < 32768) -> quiet_at (fs_rmdir path) s.
Proof.
  intros Hs Ht. unfold fs_rmdir. destruct path as [[|x path]|]; [done| |done]. cbn [default] in Ht.
  case_bool_decide; [done|]. apply quiet_target; [done|]. intros n i Hi. pose proof (q_remove_target (x :: path) n i (Ht i Hi)).
  quiet.
Qed.

Lemma at_delete path s : small (fs_sb s) ->
  (forall i, target (default [] path) s = Some i -> i_direct_block i < 32768) -> quiet_at (fs_delete path) s.
Proof.
  intros Hs Ht. unfold fs_delete. destruct path as [[|x path]|]; [done| |done]. cbn [default] in Ht.
  apply quiet_target; [done|]. intros n i Hi. pose proof (q_remove_target (x :: path) n i (Ht i Hi)). quiet.
Qed.

Lemma at_write_file path data len s : small (fs_sb s) ->
  (forall i, target (default [] path) s = Some i -> i_direct_block i < 32768) ->
  quiet_at (fs_write_file path data len) s.
Proof.
  intros Hs Ht. pose proof (at_delete path s Hs Ht) as Hd.
  unfold fs_write_file. destruct path as [[|x path]|]; [done| |done].
  apply quiet_at_bind; [exact Hd|]. intros v s1 E. eapply (quiet_use (fun _ => True)); [quiet|exact (quiet_small _ _ _ _ Hd E Hs)].
Qed.

(** [fs_cat] copies at most the bytes that were asked for. *)
Lemma q_cat_indirect r i t pos size :
  quiet (fun x : list Z * bool => Z.of_nat (length x.1) <= Z.max 0 (size - pos)) (cat_indirect (H := H) r i t pos size).
Proof.
  revert i pos. induction r as [|r IH]; intros i pos; cbn [cat_indirect]; [apply q_ret; cbn; lia|].
  destruct (Z.ltb_spec pos size); cbn [negb]; [|apply q_ret; cbn; lia].
  destruct (_ =? 0); [apply q_ret; cbn; lia|].
  eapply q_bind; [apply q_read_block|]. intros [data|] _; [|apply q_ret; cbn; lia].
  set (chunk := if _ <? _ then _ else _). cbv zeta.
  assert (Hc : 0 <= chunk <= size - pos).
  { unfold chunk, TINYFS_BLOCK_SIZE. destruct (Z.ltb_spec 4096 (size - pos)); lia. }
  eapply q_bind; [apply IH|]. intros [more ok] Hm. cbn in Hm. apply q_ret. cbn.
  rewrite length_app, length_take. lia.
Qed.

Lemma q_stored n k : k + 1 <= n -> calm (stray (H := H) (D := D) (n <? k + 1)).
Proof. intros Hk. apply q_stray. apply Z.ltb_ge. lia. Qed.

Lemma at_cat name n s : small (fs_sb s) -> 1 <= n ->
  (forall i, target name s = Some i -> 0 <= i_size i < 2 ^ 31) -> quiet_at (fs_cat name n) s.
Proof.
  intros Hs Hn Ht. unfold fs_cat. apply quiet_target; [done|]. intros inum i Hi. specialize (Ht i Hi).
  destruct (negb (is_file i)); [by apply q_ret|]. destruct (i_size i =? 0); [by apply q_ret|].
  rewrite i32_small by lia. cbv zeta.
  set (size := if n - 1 <? i_size i then n - 1 else i_size i).
  assert (Hsz : 0 <= size <= n - 1) by (unfold size; destruct (Z.ltb_spec (n - 1) (i_size i)); lia).
  clearbody size. eapply q_bind; [apply q_alloc|]. intros block _. destruct (block =? 0); [by apply q_ret|].
  eapply (q_bind (fun o => match o with
    | Some (out, pos) => Z.of_nat (length out) <= pos <= size | None => True end)).
  { destruct (0 <? i_direct_block i); [|apply q_ret; cbn; lia].
    eapply q_bind; [apply q_read_block|]. intros [data|] _; [|by apply q_ret].
    set (chunk := if TINYFS_BLOCK_SIZE <? size then TINYFS_BLOCK_SIZE else size).
    assert (Hc : 0 <= chunk <= size) by (unfold chunk, TINYFS_BLOCK_SIZE; destruct (Z.ltb_spec 4096 size); lia).
    eapply q_bind; [apply q_stray, Z.ltb_ge; lia|]. intros _ _. apply q_ret. rewrite length_take. lia. }
  intros [[out pos]|] Hp; [|quiet].
  destruct ((pos <? size) && (0 <? i_indirect_block i)).
  2: { pose proof (q_stored n (Z.of_nat (length out)) ltac:(lia)). quiet. }
  quiet. eapply q_bind; [apply q_cat_indirect|]. intros [more ok] Hm. cbn [fst] in Hm.
  pose proof (q_stored n (Z.of_nat (length (out ++ more))) ltac:(rewrite length_app; lia)). quiet.
Qed.

(** [m] makes an access outside only if its result says so. *)
Definition quiet_if {A} (T : A -> Prop) (m : FS A) : Prop :=
  forall s, small (fs_sb s) -> let '(a, s') := m s in fs_sb s' = fs_sb s /\ (T a -> fs_wild s' = fs_wild s).

Lemma qi_quiet {A} Q (T : A -> Prop) m : quiet Q m -> quiet_if T m.
Proof. intros Hm s Hs. specialize (Hm s Hs). destruct (m s) as [a s']. destruct Hm as (? & ? & _). by split. Qed.

Lemma qi_bind {A B} Q (T : B -> Prop) (m : FS A) k :
  quiet Q m -> (forall a, Q a -> quiet_if T (k a)) -> quiet_if T (bind m k).
Proof.
  intros Hm Hk s Hs. unfold bind. specialize (Hm s Hs). destruct (m s) as [a s1].
  destruct Hm as (E1 & W1 & Ha). specialize (Hk a Ha s1 ltac:(by rewrite E1)).
  destruct (k a s1) as [b s2]. destruct Hk as [E2 W2]. split; [congruence|]. intros Hb. by rewrite W2.
Qed.

Lemma at_ls path n s : small (fs_sb s) -> Z.of_nat (length (fs_ls path n s).1.2) <= n -> quiet_at (fs_ls path n) s.
Proof.
  intros Hs. cut (quiet_if (fun r : Z * list Z => Z.of_nat (length r.2) <= n) (fs_ls path n)).
  { intros Hq Hl. specialize (Hq s Hs). unfold quiet_at. destruct (fs_ls path n s) as [r s']. cbn in *. by destruct Hq; auto. }
  unfold fs_ls. eapply qi_bind; [instantiate (1 := fun _ => True); quiet|]. intros [inum|] _; [|by eapply qi_quiet, (q_ret (fun _ => True))].
  eapply qi_bind; [apply q_read_inode|]. intros [i|] _; [|by eapply qi_quiet, (q_ret (fun _ => True))].
  destruct (negb (is_dir i)); [by eapply qi_quiet, (q_ret (fun _ => True))|].
  eapply qi_bind; [apply q_alloc|]. intros block _. destruct (block =? 0); [by eapply qi_quiet, (q_ret (fun _ => True))|].
  eapply qi_bind; [instantiate (1 := fun _ => True); quiet|]. intros r _. cbv zeta.
  set (out := match r with Some _ => _ | None => _ end). clearbody out.
  intros s1 Hs1. unfold bind, stray, memory_free, modify, ret. cbn. split; [done|]. intros Hl.
  rewrite length_app in Hl. cbn in Hl. rewrite (proj2 (Z.ltb_ge _ _)) by lia. apply orb_false_r.
Qed.

End Operations.

(** ** Any sequence of calls *)

Inductive fs_call :=
| CallInit
| CallLs (path : option (list Z)) (buf_size : Z)
| CallCd (path : option (list Z))
| CallCat (name : list Z) (buf_size : Z)
| CallMkdir (path : option (list Z))
| CallRmdir (path : option (list Z))
| CallCreate (path : option (list Z))
| CallDelete (path : option (list Z))
| CallRename (oldpath newpath : option (list Z))
| CallCopy (src dst : option (list Z))
| CallWriteFile (path : option (list Z)) (data : list Z) (len : Z).

Section Calls.
Context {H D : Type} `{AllocLaws H} `{Disk D}.

(** The state after a call; the results are the callers' business. *)
Definition run_call (c : fs_call) (s : fs H D) : fs H D :=
  match c with
  | CallInit => (fs_init s).2
  | CallLs path n => (fs_ls path n s).2
  | CallCd path => (fs_cd path s).2
  | CallCat name n => (fs_cat name n s).2
  | CallMkdir path => (fs_mkdir path s).2
  | CallRmdir path => (fs_rmdir path s).2
  | CallCreate path => (fs_create path s).2
  | CallDelete path => (fs_delete path s).2
  | CallRename a b => (fs_rename a b s).2
  | CallCopy a b => (fs_copy a b s).2
  | CallWriteFile path data len => (fs_write_file path data len s).2
  end.

Definition run_calls (cs : list fs_call) (s : fs H D) : fs H D := fold_left (fun s c => run_call c s) cs s.

Lemma releases_use {A} (m : ST (fs H D) A) L n s :
  releases [] m -> holds [] L n (fs_heap s) -> holds [] L n (fs_heap (m s).2).
Proof. intros Hm Hs. apply Hm in Hs. cbn [length] in Hs. by rewrite Nat.add_0_r in Hs. Qed.

Lemma run_call_keeps c L n s : holds [] L n (fs_heap s) -> holds [] L n (fs_heap (run_call c s)).
Proof.
  intros Hs. destruct c; cbn [run_call]; apply releases_use; try exact Hs.
  - apply rel_fs_init.
  - apply rel_ls.
  - apply rel_cd.
  - apply rel_cat.
  - apply rel_mkdir.
  - apply rel_rmdir.
  - apply rel_create.
  - apply rel_delete.
  - apply rel_rename.
  - apply rel_copy.
  - apply rel_write_file.
Qed.

(** When a call stays inside its buffers.  The superblock counts at most
    32768 blocks and inodes (the kernel reads one block of each bitmap); what
    is removed has its block below 32768 ([tinyfs_block_free] does not compare
    it with anything); [fs_cat] is given room for the terminator and the file
    is shorter than 2^31 bytes (its size becomes an [int]); and the listing of
    [fs_ls], newlines included, fits the buffer. *)
Definition tame (c : fs_call) (s : fs H D) : Prop :=
  let removable path := forall i, target (default [] path) s = Some i -> i_direct_block i < 32768 in
  match c with
  | CallInit => True
  | CallLs path n => small (fs_sb s) /\ Z.of_nat (length (fs_ls path n s).1.2) <= n
  | CallCat name n => small (fs_sb s) /\ 1 <= n /\ forall i, target name s = Some i -> 0 <= i_size i < 2 ^ 31
  | CallRmdir path | CallDelete path | CallWriteFile path _ _ => small (fs_sb s) /\ removable path
  | _ => small (fs_sb s)
  end.

Fixpoint tame_calls (cs : list fs_call) (s : fs H D) : Prop :=
  match cs with
  | [] => True
  | c :: cs => tame c s /\ tame_calls cs (run_call c s)
  end.

Lemma init_quiet s : fs_wild (fs_init s).2 = fs_wild s.
Proof.
  unfold fs_init, tinyfs_init, bind, memory_alloc, read_blocks, ret, modify, memory_free, serial_write.
  destruct (kalloc _ _) as [p h]. destruct (p =? 0); [done|]. destruct (disk_read _ _ _) as [[data|] d]; [|done].
  by destruct (negb _).
Qed.

Lemma run_call_tame c s : tame c s -> fs_wild (run_call c s) = fs_wild s.
Proof.
  intros Hc. destruct c; cbn [tame run_call] in *; [apply init_quiet|..]; refine (proj2 (_ : quiet_at _ s)).
  - apply at_ls; tauto.
  - by eapply quiet_use, Hc; apply q_cd.
  - apply at_cat; tauto.
  - by eapply quiet_use, Hc; apply q_mkdir.
  - apply at_rmdir; tauto.
  - by eapply quiet_use, Hc; apply q_create.
  - apply at_delete; tauto.
  - by eapply quiet_use, Hc; apply q_rename.
  - by eapply quiet_use, Hc; apply q_copy.
  - apply at_write_file; tauto.
Qed.

(** A block number past the bitmap is not refused. *)
Lemma block_free_strays b s p h data d :
  kalloc TINYFS_BLOCK_SIZE (fs_heap s) = (p, h) -> p <> 0 ->
  disk_read (u32 (block_to_lba (u32 (sb_block_bitmap_block (fs_sb s))))) 8 (fs_disk s) = (Some data, d) ->
  32768 <= b -> fs_wild (tinyfs_block_free b s).2 = true.
Proof.
  intros Ha Hp Hr Hb. unfold tinyfs_block_free, bind, memory_alloc, get_sb, gets, read_blocks. rewrite Ha.
  rewrite (proj2 (Z.eqb_neq _ _) Hp). cbn [fs_sb with_heap fs_disk]. change (u8 (1 * _)) with 8. rewrite Hr.
  unfold at_bit, stray, modify, write_blocks, memory_free, modify. cbn.
  destruct (disk_write _ _ _ _) as [v d']. cbn.
  rewrite (proj2 (Z.leb_le _ _)); [apply orb_true_r|]. unfold TINYFS_BLOCK_SIZE. zlia.
Qed.


End Calls.

