(* ===== verification/FsSpec.v ===== *)
(** * TinyFS on a working disk: what each operation computes

    On a drive without faults and with buffers to spare, every operation of
    [tinyfs.c] is a function of the disk's contents: [yields P m a Q] says
    that from a state in [P] the operation [m] returns [a] and ends in [Q],
    and [st] fixes the contents of the blocks ([c]), the superblock and the
    working directory.  The rules for the primitive steps come first; then
    one lemma per operation, and the properties. *)

From S2P Require Import Prelude.
From S2P Require Import Kmem.
From S2P Require Import Heap.
From S2P Require Import Alloc.
From S2P Require Import Disk.
From S2P Require Import TinyFS.
From S2P Require Import Vfs.
From S2P Require Import FsHeap.
From S2P Require Import FsPure.

(** The blocks a superblock names are on the drive, and a bitmap is one block. *)
Record geo (g : superblock) : Prop := {
  ge_total : 0 <= sb_total_blocks g <= 32768;
  ge_count : 0 <= sb_inode_count g <= 32768;
  ge_ibm : 0 <= sb_inode_bitmap_block g < BLOCK_LIMIT;
  ge_bbm : 0 <= sb_block_bitmap_block g < BLOCK_LIMIT;
  ge_itab : 0 <= sb_inode_table_block g /\ sb_inode_table_block g + 512 <= BLOCK_LIMIT
}.

(** Disk contents, and what they say. *)
Definition upd (c : Z -> list Z) (b : Z) (bs : list Z) : Z -> list Z :=
  fun x => if decide (x = b) then bs else c x.

Definition inode_block (g : superblock) (inum : Z) : Z := sb_inode_table_block g + inum / INODES_PER_BLOCK.
Definition inode_off (inum : Z) : nat := (64 * Z.to_nat (inum mod INODES_PER_BLOCK))%nat.
Definition get_inode (g : superblock) (c : Z -> list Z) (inum : Z) : inode :=
  inode_of (slice (inode_off inum) 64 (c (inode_block g inum))).
Definition put_inode (g : superblock) (c : Z -> list Z) (inum : Z) (i : inode) : Z -> list Z :=
  upd c (inode_block g inum) (splice (inode_off inum) (inode_bytes i) (c (inode_block g inum))).

(** Every block has 4096 bytes. *)
Definition blocks_ok (c : Z -> list Z) : Prop := forall x, length (c x) = 4096%nat /\ bytes_ok (c x).

Lemma upd_ok c b bs : blocks_ok c -> length bs = 4096%nat -> bytes_ok bs -> blocks_ok (upd c b bs).
Proof. intros Hc Hl Hb x. unfold upd. by case_decide. Qed.

Lemma inode_off_bound inum : (inode_off inum + 64 <= 4096)%nat.
Proof. unfold inode_off. change INODES_PER_BLOCK with 64. zlia. Qed.

Lemma put_inode_ok g c inum i : blocks_ok c -> inode_ok i -> blocks_ok (put_inode g c inum i).
Proof.
  intros Hc Hi. pose proof (inode_off_bound inum). destruct (Hc (inode_block g inum)) as [Hl Hb].
  apply upd_ok; [done| |].
  - rewrite length_splice; [done|]. rewrite length_inode_bytes by apply Hi. lia.
  - apply splice_ok; [apply inode_bytes_ok, Hi|done].
Qed.

(** Inodes are independent of each other and of the other blocks. *)
Lemma get_put_inode g c a i b :
  blocks_ok c -> inode_ok i -> 0 <= a -> 0 <= b ->
  get_inode g (put_inode g c a i) b = if decide (b = a) then i else get_inode g c b.
Proof.
  intros Hc Hi Ha Hb. unfold get_inode, put_inode, upd.
  pose proof (inode_off_bound a) as Hoa. pose proof (inode_off_bound b) as Hob.
  pose proof (length_inode_bytes i (io_pad2 i Hi)) as Hlen.
  destruct (Hc (inode_block g a)) as [Hl _]. case_decide as Eb.
  - rewrite Eb. destruct (decide (b = a)) as [->|Hne].
    + rewrite slice_splice_eq by lia. by apply inode_of_bytes.
    + rewrite slice_splice_ne; [done|lia|]. rewrite Hlen. unfold inode_block, inode_off in *.
      change INODES_PER_BLOCK with 64 in *.
      assert (b mod 64 <> a mod 64) by zlia.
      assert (0 <= a mod 64 < 64 /\ 0 <= b mod 64 < 64) by zlia. lia.
  - by rewrite decide_False by congruence.
Qed.

Lemma get_inode_ok g c inum : blocks_ok c -> inode_ok (get_inode g c inum).
Proof.
  intros Hc. destruct (Hc (inode_block g inum)) as [Hl Hb]. pose proof (inode_off_bound inum).
  apply inode_of_ok; [apply length_slice; lia|by apply slice_ok].
Qed.

Section Spec.
Context {H D : Type} `{AllocLaws H} `{DiskLaws D}.
Abbreviation FS := (ST (fs H D)).

Record st (ps : list Z) (L : list (Z * Z)) (n : nat) (c : Z -> list Z) (g : superblock) (w : Z)
    (s : fs H D) : Prop := {
  st_holds : holds ps L n (fs_heap s);
  st_up : up (fs_disk s);
  st_blk x : blk (fs_disk s) x = c x;
  st_sb : fs_sb s = g;
  st_cwd : fs_cwd s = w
}.

Definition yields {A} (P : fs H D -> Prop) (m : FS A) (a : A) (Q : fs H D -> Prop) : Prop :=
  forall s, P s -> exists s', m s = (a, s') /\ Q s'.

Lemma st_blocks_ok ps L n c g w s : st ps L n c g w s -> blocks_ok c.
Proof. intros Hs x. rewrite <- (st_blk _ _ _ _ _ _ _ Hs). split; [apply blk_length|apply blk_ok]. Qed.

(** Use what the blocks are, when proving a [yields]. *)
Lemma y_blocks {A} ps L n c g w (m : FS A) a Q :
  (blocks_ok c -> yields (st ps L n c g w) m a Q) -> yields (st ps L n c g w) m a Q.
Proof. intros Hy s Hs. apply Hy; [by eapply st_blocks_ok|done]. Qed.

Lemma y_ret {A} (a : A) (P : fs H D -> Prop) : yields P (ret a) a P.
Proof. intros s Hs. by exists s. Qed.

Lemma y_bind {A B} P (m : FS A) a R (k : A -> FS B) b Q :
  yields P m a R -> yields R (k a) b Q -> yields P (bind m k) b Q.
Proof.
  intros Hm Hk s Hs. destruct (Hm s Hs) as (s1 & Hr & Hs1). destruct (Hk s1 Hs1) as (s2 & Hr2 & Hs2).
  exists s2. unfold bind. by rewrite Hr.
Qed.

Lemma y_alloc {A} ps L n c g w (a : FS A) (b : Z -> FS A) r Q :
  (forall p, yields (st (p :: ps) L n c g w) (b p) r Q) ->
  yields (st ps L (S n) c g w)
    (bind (memory_alloc TINYFS_BLOCK_SIZE) (fun p => if p =? 0 then a else b p)) r Q.
Proof.
  intros Hb s [Hh Hu Hc Hg Hw]. unfold bind, memory_alloc.
  destruct (kalloc TINYFS_BLOCK_SIZE (fs_heap s)) as [p h] eqn:E.
  pose proof (holds_alloc _ _ _ _ _ _ Hh E) as Hp. destruct (p =? 0); [by destruct Hp|].
  apply (Hb p). by split.
Qed.

Lemma y_free p ps L n c g w :
  yields (st (p :: ps) L n c g w) (memory_free p) tt (st ps L (S n) c g w).
Proof.
  intros s [Hh Hu Hc Hg Hw]. apply holds_free in Hh as [_ Hh]. eexists. split; [done|]. by split.
Qed.

Lemma y_get_sb ps L n c g w : yields (st ps L n c g w) get_sb g (st ps L n c g w).
Proof. intros s Hs. exists s. split; [|done]. unfold get_sb, gets. by rewrite (st_sb _ _ _ _ _ _ _ Hs). Qed.

Lemma y_get_cwd ps L n c g w : yields (st ps L n c g w) get_cwd w (st ps L n c g w).
Proof. intros s Hs. exists s. split; [|done]. unfold get_cwd, gets. by rewrite (st_cwd _ _ _ _ _ _ _ Hs). Qed.

Lemma y_stray ps L n c g w b : yields (st ps L n c g w) (stray b) tt (st ps L n c g w).
Proof. intros s []. eexists. split; [done|]. by split. Qed.

Lemma block_lba b : 0 <= b < BLOCK_LIMIT -> u32 (block_to_lba b) = b * 8.
Proof.
  intros Hb. unfold BLOCK_LIMIT, LBA_LIMIT in Hb. change (2 ^ 28 / 8) with 33554432 in Hb.
  unfold block_to_lba. change (TINYFS_BLOCK_SIZE / ATA_SECTOR_SIZE) with 8.
  rewrite (u32_small (b * 8)), i32_small, u32_small by lia. done.
Qed.

Lemma y_read ps L n c g w b :
  0 <= b < BLOCK_LIMIT -> yields (st ps L n c g w) (read_blocks b 1) (Some (c b)) (st ps L n c g w).
Proof.
  intros Hb s [Hh Hu Hc Hg Hw]. destruct (blk_read (fs_disk s) b Hu Hb) as (d & Hr & Hu' & Hx).
  unfold read_blocks. rewrite block_lba by done. change (u8 _) with 8. rewrite Hr, Hc.
  eexists. split; [done|]. split; try done. intros x. change (blk d x = c x). by rewrite Hx.
Qed.

Lemma y_write ps L n c g w b bs :
  0 <= b < BLOCK_LIMIT -> bytes_ok bs -> length bs = 4096%nat ->
  yields (st ps L n c g w) (write_blocks b 1 bs) 0 (st ps L n (upd c b bs) g w).
Proof.
  intros Hb Hok Hl s [Hh Hu Hc Hg Hw].
  destruct (blk_write (fs_disk s) b bs Hu Hb Hok Hl) as (d & Hr & Hu' & Hx).
  unfold write_blocks. rewrite block_lba by done. change (u8 _) with 8. rewrite Hr.
  eexists. split; [done|]. split; try done. intros x. change (blk d x = upd c b bs x).
  rewrite Hx. unfold upd. by rewrite Hc.
Qed.

(** ** The operations *)

Lemma geo_inode_block g inum :
  geo g -> 0 <= inum < sb_inode_count g ->
  u32 (sb_inode_table_block g + inum / INODES_PER_BLOCK) = inode_block g inum
  /\ 0 <= inode_block g inum < BLOCK_LIMIT.
Proof.
  intros [] Hi. unfold inode_block. change INODES_PER_BLOCK with 64.
  assert (0 <= inum / 64 < 512) by zlia. unfold BLOCK_LIMIT, LBA_LIMIT in *.
  change (2 ^ 28 / 8) with 33554432 in *. rewrite u32_small by lia. lia.
Qed.

Lemma block_u32 x : 0 <= x < BLOCK_LIMIT -> u32 x = x.
Proof.
  intros Hx. unfold BLOCK_LIMIT, LBA_LIMIT in Hx. change (2 ^ 28 / 8) with 33554432 in Hx.
  apply u32_small. lia.
Qed.

Lemma y_read_inode ps L n c g w inum :
  geo g -> 0 <= inum < sb_inode_count g ->
  yields (st ps L (S n) c g w) (tinyfs_read_inode inum) (Some (get_inode g c inum))
    (st ps L (S n) c g w).
Proof.
  intros Hg Hi. unfold tinyfs_read_inode. eapply y_bind; [apply y_get_sb|].
  destruct (Z.leb_spec (sb_inode_count g) inum); [lia|].
  destruct (geo_inode_block g inum Hg Hi) as [E Hb]. rewrite E. apply y_alloc. intros p.
  eapply y_bind; [by apply y_read|]. cbn beta iota. eapply y_bind; [apply y_free|]. apply y_ret.
Qed.

Lemma y_write_inode ps L n c g w inum i :
  geo g -> 0 <= inum < sb_inode_count g -> inode_ok i ->
  yields (st ps L (S n) c g w) (tinyfs_write_inode inum i) 0 (st ps L (S n) (put_inode g c inum i) g w).
Proof.
  intros Hg Hi Hok. unfold tinyfs_write_inode. apply y_blocks. intros Hc.
  eapply y_bind; [apply y_get_sb|]. destruct (Z.leb_spec (sb_inode_count g) inum); [lia|].
  destruct (geo_inode_block g inum Hg Hi) as [E Hb]. rewrite E. apply y_alloc. intros p.
  eapply y_bind; [by apply y_read|]. cbn beta iota.
  destruct (put_inode_ok g c inum i Hc Hok (inode_block g inum)) as [Hl Hbs].
  unfold put_inode, upd in Hl, Hbs. rewrite decide_True in Hl, Hbs by done.
  eapply y_bind; [by apply y_write|]. eapply y_bind; [apply y_free|]. apply y_ret.
Qed.

Lemma geo_total_limit g b : geo g -> b < sb_total_blocks g -> b < BLOCK_LIMIT.
Proof. intros [] Hb. unfold BLOCK_LIMIT, LBA_LIMIT. change (2 ^ 28 / 8) with 33554432. lia. Qed.

Lemma y_read_block ps L n c g w b :
  geo g -> 0 <= b < sb_total_blocks g ->
  yields (st ps L n c g w) (tinyfs_read_block b) (Some (c b)) (st ps L n c g w).
Proof.
  intros Hg Hb. unfold tinyfs_read_block. eapply y_bind; [apply y_get_sb|].
  destruct (Z.leb_spec (sb_total_blocks g) b); [lia|]. apply y_read.
  split; [lia|]. by apply (geo_total_limit g).
Qed.

Lemma y_write_block ps L n c g w b bs :
  geo g -> 0 <= b < sb_total_blocks g -> bytes_ok bs -> length bs = 4096%nat ->
  yields (st ps L n c g w) (tinyfs_write_block b bs) 0 (st ps L n (upd c b bs) g w).
Proof.
  intros Hg Hb Hok Hl. unfold tinyfs_write_block. eapply y_bind; [apply y_get_sb|].
  destruct (Z.leb_spec (sb_total_blocks g) b); [lia|]. apply y_write; [|done|done].
  split; [lia|]. by apply (geo_total_limit g).
Qed.

Lemma bitmap_room g : geo g ->
  forall c b i, blocks_ok c -> 0 <= i < sb_total_blocks g \/ 0 <= i < sb_inode_count g ->
  0 <= i < 8 * Z.of_nat (length (c b)).
Proof. intros [] c b i Hc Hi. destruct (Hc b) as [-> _]. lia. Qed.

Lemma y_set_bit ps L n c g w b i :
  geo g -> 0 <= b < BLOCK_LIMIT ->
  yields (st ps L n c g w) (write_blocks b 1 (bitmap_set (c b) i)) 0
    (st ps L n (upd c b (bitmap_set (c b) i)) g w).
Proof.
  intros Hg Hb. apply y_blocks. intros Hc. destruct (Hc b) as [Hl Hok].
  apply y_write; [done|by apply bitmap_set_ok|by rewrite length_bitmap_set].
Qed.

Lemma y_clear_bit ps L n c g w b i :
  geo g -> 0 <= b < BLOCK_LIMIT ->
  yields (st ps L n c g w) (write_blocks b 1 (bitmap_clear (c b) i)) 0
    (st ps L n (upd c b (bitmap_clear (c b) i)) g w).
Proof.
  intros Hg Hb. apply y_blocks. intros Hc. destruct (Hc b) as [Hl Hok].
  apply y_write; [done|by apply bitmap_clear_ok|by rewrite length_bitmap_clear].
Qed.

Definition free_block (g : superblock) (c : Z -> list Z) : option Z :=
  first_clear (Z.to_nat (sb_total_blocks g)) 0 (c (sb_block_bitmap_block g)).
Definition free_inode (g : superblock) (c : Z -> list Z) : option Z :=
  first_clear (Z.to_nat (sb_inode_count g - 1)) 1 (c (sb_inode_bitmap_block g)).
Definition mark_block (g : superblock) (c : Z -> list Z) (i : Z) : Z -> list Z :=
  upd c (sb_block_bitmap_block g) (bitmap_set (c (sb_block_bitmap_block g)) i).
Definition unmark_block (g : superblock) (c : Z -> list Z) (i : Z) : Z -> list Z :=
  upd c (sb_block_bitmap_block g) (bitmap_clear (c (sb_block_bitmap_block g)) i).
Definition mark_inode (g : superblock) (c : Z -> list Z) (i : Z) : Z -> list Z :=
  upd c (sb_inode_bitmap_block g) (bitmap_set (c (sb_inode_bitmap_block g)) i).
Definition unmark_inode (g : superblock) (c : Z -> list Z) (i : Z) : Z -> list Z :=
  upd c (sb_inode_bitmap_block g) (bitmap_clear (c (sb_inode_bitmap_block g)) i).

Definition new_inode : inode := set_refcount 1 inode_zero.

Lemma new_inode_ok : inode_ok new_inode.
Proof.
  split; try (split; [vm_compute; discriminate|vm_compute; reflexivity]); [reflexivity|].
  change (i_padding2 new_inode) with (replicate 16 0).
  apply Forall_replicate. unfold is_byte. lia.
Qed.

Lemma y_block_alloc ps L n c g w :
  geo g ->
  yields (st ps L (S n) c g w) tinyfs_block_alloc
    (match free_block g c with Some i => i | None => -1 end)
    (st ps L (S n) (match free_block g c with Some i => mark_block g c i | None => c end) g w).
Proof.
  intros Hg. unfold tinyfs_block_alloc. apply y_alloc. intros p.
  eapply y_bind; [apply y_get_sb|]. rewrite block_u32 by apply Hg.
  eapply y_bind; [apply y_read, Hg|]. cbn beta iota. fold (free_block g c).
  destruct (free_block g c) as [i|] eqn:E.
  - eapply y_bind; [apply y_stray|]. eapply y_bind; [apply y_set_bit, Hg; done|]. eapply y_bind; [apply y_free|].
    assert (Hi : i32 i = i).
    { unfold free_block in E.
      pose proof (first_clear_spec (Z.to_nat (sb_total_blocks g)) 0 (c (sb_block_bitmap_block g))) as Hf.
      rewrite E in Hf. destruct Hg. apply i32_small. lia. }
    rewrite Hi. apply y_ret.
  - eapply y_bind; [apply y_free|]. apply y_ret.
Qed.

Lemma y_block_free ps L n c g w b :
  geo g ->
  yields (st ps L (S n) c g w) (tinyfs_block_free b) tt (st ps L (S n) (unmark_block g c b) g w).
Proof.
  intros Hg. unfold tinyfs_block_free. apply y_alloc. intros p.
  eapply y_bind; [apply y_get_sb|]. rewrite block_u32 by apply Hg.
  eapply y_bind; [apply y_read, Hg|]. cbn beta iota.
  eapply y_bind; [apply y_stray|]. eapply y_bind; [apply y_clear_bit, Hg; done|]. apply y_free.
Qed.

Lemma y_inode_alloc ps L n c g w :
  geo g ->
  yields (st ps L (S n) c g w) tinyfs_inode_alloc
    (match free_inode g c with Some i => i | None => -1 end)
    (st ps L (S n) (match free_inode g c with
                    | Some i => put_inode g (mark_inode g c i) i new_inode | None => c end) g w).
Proof.
  intros Hg. unfold tinyfs_inode_alloc. apply y_alloc. intros p.
  eapply y_bind; [apply y_get_sb|]. rewrite block_u32 by apply Hg.
  eapply y_bind; [apply y_read, Hg|]. cbn beta iota. fold (free_inode g c).
  destruct (free_inode g c) as [i|] eqn:E.
  - eapply y_bind; [apply y_stray|]. eapply y_bind; [apply y_set_bit, Hg; done|]. eapply y_bind; [apply y_free|].
    assert (Hi : 0 <= i < sb_inode_count g).
    { unfold free_inode in E.
      pose proof (first_clear_spec (Z.to_nat (sb_inode_count g - 1)) 1 (c (sb_inode_bitmap_block g))) as Hf.
      rewrite E in Hf. lia. }
    eapply y_bind; [apply y_write_inode; [done|done|apply new_inode_ok]|].
    rewrite i32_small by (destruct Hg; lia). apply y_ret.
  - eapply y_bind; [apply y_free|]. apply y_ret.
Qed.

Lemma y_inode_free ps L n c g w i :
  geo g -> 0 <= i < sb_inode_count g ->
  yields (st ps L (S n) c g w) (tinyfs_inode_free i) tt (st ps L (S n) (unmark_inode g c i) g w).
Proof.
  intros Hg Hi. unfold tinyfs_inode_free. eapply y_bind; [apply y_get_sb|].
  destruct (Z.leb_spec (sb_inode_count g) i); [lia|]. apply y_alloc. intros p.
  rewrite block_u32 by apply Hg. eapply y_bind; [apply y_read, Hg|]. cbn beta iota.
  eapply y_bind; [apply y_stray|]. eapply y_bind; [apply y_clear_bit, Hg; done|]. apply y_free.
Qed.

(** The inode of a directory after an entry in slot [j]. *)
Definition grown (i : inode) (j : nat) : inode :=
  let new_size := i32 ((Z.of_nat j + 1) * SIZEOF_DIRENT) in
  if i32 (i_size i) <? new_size then set_size new_size i else i.

Lemma set_size_ok v i : inode_ok i -> inode_ok (set_size v i).
Proof. intros []. split; try done. apply u32_range. Qed.

Lemma set_direct_ok v i : inode_ok i -> inode_ok (set_direct v i).
Proof. intros []. split; try done. apply u32_range. Qed.

Lemma grown_ok i j : inode_ok i -> inode_ok (grown i j).
Proof. intros Hi. unfold grown. destruct (_ <? _); [by apply set_size_ok|done]. Qed.

Lemma grown_direct i j : i_direct_block (grown i j) = i_direct_block i.
Proof. unfold grown. by destruct (_ <? _). Qed.

Lemma y_add_dirent ps L n c g w dir e name :
  geo g -> 0 <= dir < sb_inode_count g ->
  let d := get_inode g c dir in
  let b := i_direct_block d in
  is_type_dir d = true -> 0 < b < sb_total_blocks g -> dir_block_ok (c b) ->
  cstr_ok name -> name <> [] ->
  yields (st ps L (S n) c g w) (tinyfs_add_dirent dir e name)
    (match find_free TINYFS_DIRENTS_PER_BLOCK 0 (c b) with Some _ => 0 | None => -2 end)
    (st ps L (S n)
      (match find_free TINYFS_DIRENTS_PER_BLOCK 0 (c b) with
       | Some j => put_inode g (upd c b (put_ent j e name (c b))) dir (grown d j)
       | None => c
       end) g w).
Proof.
  intros Hg Hdir d b Hd Hb Hdb Hn Hne. unfold tinyfs_add_dirent. apply y_blocks. intros Hc.
  eapply y_bind; [by apply y_read_inode|]. cbn beta iota. fold d. rewrite Hd. cbn [negb].
  fold b. destruct (Z.eqb_spec b 0); [lia|]. unfold add_dirent_at.
  apply y_alloc. intros p. fold b. eapply y_bind; [apply y_read_block; [done|lia]|]. cbn beta iota.
  pose proof (find_free_spec TINYFS_DIRENTS_PER_BLOCK 0 (c b)) as Hf.
  destruct (find_free TINYFS_DIRENTS_PER_BLOCK 0 (c b)) as [j|] eqn:E.
  - destruct Hf as (Hj & _ & _). change (0 + TINYFS_DIRENTS_PER_BLOCK)%nat with 128%nat in Hj.
    destruct (put_ent_spec (c b) j e name Hdb ltac:(lia) Hn Hne) as [Hdb' _].
    change (set_ent_name j 0 name (set_ent_inode j e (c b))) with (put_ent j e name (c b)).
    cbv zeta. fold (grown d j). rewrite grown_direct. fold b.
    eapply y_bind; [apply y_write_block; [done|lia|apply Hdb'|apply Hdb']|]. cbn beta iota.
    eapply y_bind; [apply y_free|].
    eapply y_bind; [apply y_write_inode; [done|done|apply grown_ok; by apply get_inode_ok]|].
    apply y_ret.
  - eapply y_bind; [apply y_free|]. apply y_ret.
Qed.

Lemma y_remove_dirent ps L n c g w dir name :
  geo g -> 0 <= dir < sb_inode_count g ->
  let d := get_inode g c dir in
  let b := i_direct_block d in
  is_type_dir d = true -> 0 < b < sb_total_blocks g -> dir_block_ok (c b) ->
  yields (st ps L (S n) c g w) (tinyfs_remove_dirent dir name)
    (match find_name TINYFS_DIRENTS_PER_BLOCK 0 name (c b) with Some _ => 0 | None => -1 end)
    (st ps L (S n)
      (match find_name TINYFS_DIRENTS_PER_BLOCK 0 name (c b) with
       | Some j => put_inode g (upd c b (del_ent j (c b))) dir d
       | None => c
       end) g w).
Proof.
  intros Hg Hdir d b Hd Hb Hdb. unfold tinyfs_remove_dirent. apply y_blocks. intros Hc.
  eapply y_bind; [by apply y_read_inode|]. cbn beta iota. fold d. rewrite Hd. cbn [negb].
  fold b. destruct (Z.eqb_spec b 0); [lia|].
  apply y_alloc. intros p. eapply y_bind; [apply y_read_block; [done|lia]|]. cbn beta iota.
  destruct (find_name TINYFS_DIRENTS_PER_BLOCK 0 name (c b)) as [j|] eqn:E.
  - assert (Hj : (j < 128)%nat).
    { clear - E. change 128%nat with (0 + TINYFS_DIRENTS_PER_BLOCK)%nat. revert E.
      generalize 0%nat. induction TINYFS_DIRENTS_PER_BLOCK as [|r IH]; intros i; cbn [find_name]; [done|].
      destruct (negb (ent_used (c b) i)); [intros E; apply IH in E; lia|].
      destruct (_ =? 0); [intros [= ->]; lia|intros E; apply IH in E; lia]. }
    destruct (del_ent_spec (c b) j Hdb Hj) as [Hdb' _].
    change (splice (ent_off j + 4) [0] (set_ent_inode j 0 (c b))) with (del_ent j (c b)).
    eapply y_bind; [apply y_write_block; [done|lia|apply Hdb'|apply Hdb']|]. cbn beta iota.
    eapply y_bind; [apply y_free|].
    eapply y_bind; [apply y_write_inode; [done|done|by apply get_inode_ok]|]. apply y_ret.
  - eapply y_bind; [apply y_free|]. apply y_ret.
Qed.

(** [lookup_name] is the inode number in the slot [find_name] finds. *)
Lemma lookup_find rounds i name block :
  lookup_name rounds i name block = ent_inode block <$> find_name rounds i name block.
Proof.
  revert i. induction rounds as [|r IH]; intros i; cbn [lookup_name find_name]; [done|].
  unfold string_compare, name_match.
  destruct (negb (ent_used block i)); [apply IH|]. by destruct (_ =? 0).
Qed.

Lemma y_find_dirent ps L n c g w dir name :
  geo g -> 0 <= dir < sb_inode_count g ->
  let d := get_inode g c dir in
  let b := i_direct_block d in
  is_dir d = true -> 0 < b < sb_total_blocks g ->
  yields (st ps L (S n) c g w) (find_dirent dir name)
    (ent_inode (c b) <$> find_name TINYFS_DIRENTS_PER_BLOCK 0 name (c b)) (st ps L (S n) c g w).
Proof.
  intros Hg Hdir d b Hd Hb. unfold find_dirent.
  eapply y_bind; [by apply y_read_inode|]. cbn beta iota. fold d. rewrite Hd. cbn [negb].
  apply y_alloc. intros p. fold b. destruct (Z.ltb_spec 0 b); [|lia].
  eapply y_bind; [apply y_read_block; [done|lia]|]. cbn beta iota.
  eapply y_bind; [apply y_free|]. rewrite lookup_find. apply y_ret.
Qed.

End Spec.
