(* ===== verification/FsProps.v ===== *)
(** * TinyFS: properties

    The inode codec, the bitmaps as allocators, and directories as finite
    maps from names to inode numbers, each for the operations of
    [tinyfs.c] (and [find_dirent] of [vfs.c]) on a working disk, from the
    lemmas of [FsSpec]. *)

From S2P Require Import Prelude.
From S2P Require Import Kmem.
From S2P Require Import Heap.
From S2P Require Import Alloc.
From S2P Require Import Disk.
From S2P Require Import TinyFS.
From S2P Require Import Vfs.
From S2P Require Import FsHeap.
From S2P Require Import FsPure.
From S2P Require Import FsSpec.

(** ** A directory block as a map *)

Definition dir_find (block : list Z) (name : list Z) : option Z :=
  ent_inode block <$> find_name TINYFS_DIRENTS_PER_BLOCK 0 name block.

(** [find_name] finds the first slot with the name. *)
Definition first_with (block name : list Z) (j : nat) : Prop :=
  (j < 128)%nat /\ has_name block name j /\ forall k, (k < j)%nat -> ~ has_name block name k.

Lemma find_name_first block name j :
  cstr_ok name -> bytes_ok block ->
  find_name TINYFS_DIRENTS_PER_BLOCK 0 name block = Some j <-> first_with block name j.
Proof.
  intros Hn Hb. pose proof (find_name_spec TINYFS_DIRENTS_PER_BLOCK 0 name block Hn Hb) as Hf.
  change (0 + TINYFS_DIRENTS_PER_BLOCK)%nat with 128%nat in Hf. unfold first_with.
  destruct (find_name _ _ _ _) as [i|]; split.
  - intros [= <-]. destruct Hf as (? & ? & Hlt). split_and!; [lia|done|]. intros. apply Hlt. lia.
  - intros (? & ? & Hlt). destruct Hf as (? & ? & Hlt'). f_equal.
    destruct (decide (i < j)%nat); [by destruct (Hlt i)|].
    destruct (decide (j < i)%nat); [by destruct (Hlt' j); [lia|]|lia].
  - done.
  - intros (? & ? & _). by destruct (Hf j); [lia|].
Qed.

Lemma find_name_none block name :
  cstr_ok name -> bytes_ok block ->
  find_name TINYFS_DIRENTS_PER_BLOCK 0 name block = None <->
  forall k, (k < 128)%nat -> ~ has_name block name k.
Proof.
  intros Hn Hb. pose proof (find_name_spec TINYFS_DIRENTS_PER_BLOCK 0 name block Hn Hb) as Hf.
  change (0 + TINYFS_DIRENTS_PER_BLOCK)%nat with 128%nat in Hf.
  destruct (find_name _ _ _ _) as [i|]; split; try done.
  - intros Hall. destruct Hf as (? & ? & _). by destruct (Hall i); [lia|].
  - intros _ k Hk. apply Hf. lia.
Qed.

Lemma dir_ent_inode block k name n : dir_ent block k = Some (name, n) -> ent_inode block k = n.
Proof. unfold dir_ent. destruct (ent_used block k); [|done]. congruence. Qed.

Lemma dir_find_some block name j n :
  cstr_ok name -> bytes_ok block -> first_with block name j -> dir_ent block j = Some (name, n) ->
  dir_find block name = Some n.
Proof.
  intros Hn Hb Hf He. unfold dir_find. rewrite (proj2 (find_name_first block name j Hn Hb) Hf).
  cbn [fmap option_fmap option_map]. by rewrite (dir_ent_inode _ _ _ _ He).
Qed.

Lemma dir_find_none block name :
  cstr_ok name -> bytes_ok block ->
  dir_find block name = None <-> forall k, (k < 128)%nat -> ~ has_name block name k.
Proof. intros Hn Hb. unfold dir_find. by rewrite fmap_None, find_name_none. Qed.

Lemma dir_find_cases block name :
  cstr_ok name -> bytes_ok block ->
  (exists j n, first_with block name j /\ dir_ent block j = Some (name, n) /\ dir_find block name = Some n)
  \/ dir_find block name = None.
Proof.
  intros Hn Hb. destruct (find_name TINYFS_DIRENTS_PER_BLOCK 0 name block) as [j|] eqn:E.
  - left. apply find_name_first in E; [|done|done]. pose proof E as (_ & (n & Hh) & _).
    exists j, n. split_and!; [done|done|]. by eapply dir_find_some.
  - right. unfold dir_find. by rewrite E.
Qed.

#[local] Opaque find_name put_ent del_ent dir_find TINYFS_DIRENTS_PER_BLOCK.

(** Two blocks with the same slots for a name find the same. *)
Lemma dir_find_ext block block' name :
  cstr_ok name -> bytes_ok block -> bytes_ok block' ->
  (forall k, (k < 128)%nat -> has_name block' name k <-> has_name block name k) ->
  (forall k, (k < 128)%nat -> has_name block name k -> dir_ent block' k = dir_ent block k) ->
  dir_find block' name = dir_find block name.
Proof.
  intros Hn Hb Hb' Hs He.
  destruct (dir_find_cases block name Hn Hb) as [(j & n & (Hj & Hh & Hlt) & Hd & ->)|E].
  - eapply (dir_find_some _ _ j); [done|done| |by rewrite He].
    split_and!; [done|by apply Hs|]. intros k Hk. rewrite Hs by lia. by apply Hlt.
  - rewrite E. apply dir_find_none; [done|done|]. intros k Hk. rewrite Hs by done.
    by apply (proj1 (dir_find_none block name Hn Hb)).
Qed.

(** A block that has one more name. *)
Lemma dir_find_new block block' i v name q :
  dir_block_ok block -> dir_block_ok block' -> (i < 128)%nat -> dir_ent block i = None ->
  (forall k, (k < 128)%nat -> dir_ent block' k = if decide (k = i) then Some (name, v) else dir_ent block k) ->
  cstr_ok name -> cstr_ok q -> dir_find block name = None ->
  dir_find block' q = if decide (q = name) then Some v else dir_find block q.
Proof.
  intros Hb Hb' Hi Hfree He Hn Hq Hnone. case_decide as Eq.
  - subst q. pose proof (proj1 (dir_find_none _ _ Hq (db_bytes _ Hb)) Hnone) as Hno.
    apply (dir_find_some _ _ i); [done|apply Hb'| |by rewrite He, decide_True].
    split_and!; [done| |].
    + exists v. by rewrite He, decide_True.
    + intros k Hk (n & Hh). rewrite He, decide_False in Hh by lia.
      apply (Hno k ltac:(lia)). by exists n.
  - apply dir_find_ext; [done|apply Hb|apply Hb'| |].
    + intros k Hk. unfold has_name. rewrite He by done. case_decide as Ek; [|done]. subst k.
      split; intros (n & Hx); [congruence|by rewrite Hfree in Hx].
    + intros k Hk (n & Hx). rewrite He by done. case_decide; [|done]. subst. by rewrite Hfree in Hx.
Qed.

Lemma dir_find_put block i v name q :
  dir_block_ok block -> (i < 128)%nat -> dir_ent block i = None ->
  cstr_ok name -> name <> [] -> cstr_ok q -> dir_find block (take 27 name) = None ->
  dir_find (put_ent i v name block) q =
    if decide (q = take 27 name) then Some (u32 v) else dir_find block q.
Proof.
  intros Hb Hi Hfree Hn Hne Hq Hnone. destruct (put_ent_spec block i v name Hb Hi Hn Hne) as [Hb' He].
  eapply dir_find_new; [exact Hb|exact Hb'|exact Hi|done|exact He| |done|done]. by apply Forall_take.
Qed.

Definition names_unique (block : list Z) : Prop :=
  forall i j q, (i < 128)%nat -> (j < 128)%nat -> has_name block q i -> has_name block q j -> i = j.

Lemma dir_find_del block i name q :
  dir_block_ok block -> names_unique block -> (i < 128)%nat -> has_name block name i -> cstr_ok q ->
  dir_find (del_ent i block) q = if decide (q = name) then None else dir_find block q.
Proof.
  intros Hb Hu Hi (n & Hh) Hq. destruct (del_ent_spec block i Hb Hi) as [Hb' He].
  case_decide as Eq.
  - subst q. apply dir_find_none; [done|apply Hb'|].
    intros k Hk (m & Hx). rewrite He in Hx by done. case_decide; [done|].
    assert (k = i); [|done]. eapply (Hu k i name); [done|done|by exists m|by exists n].
  - apply dir_find_ext; [done|apply Hb|apply Hb'| |].
    + intros k Hk. unfold has_name. rewrite He by done. case_decide as Ek; [|done]. subst k.
      split; intros (m & Hx); [done|]. rewrite Hh in Hx. congruence.
    + intros k Hk (m & Hx). rewrite He by done. case_decide; [|done]. subst. congruence.
Qed.

Lemma put_ent_unique block i v name :
  dir_block_ok block -> (i < 128)%nat -> cstr_ok name -> name <> [] ->
  dir_find block (take 27 name) = None -> names_unique block -> names_unique (put_ent i v name block).
Proof.
  intros Hb Hi Hn Hne Hnone Hu. destruct (put_ent_spec block i v name Hb Hi Hn Hne) as [_ He].
  assert (Ht : cstr_ok (take 27 name)) by (by apply Forall_take).
  pose proof (proj1 (dir_find_none _ _ Ht (db_bytes _ Hb)) Hnone) as Hno.
  intros a b q Ha Hb' (n & Hx) (m & Hy). rewrite He in Hx, Hy by done.
  repeat case_decide; simplify_eq; [done| | |by eapply Hu; [..|by exists n|by exists m]];
    exfalso; eapply Hno; [|by eexists| |by eexists]; done.
Qed.

(** The inode codec is exact.  Every inode of field values that fit
    survives [inode_bytes] followed by [inode_of], and every 64 bytes are
    the encoding of the inode they decode to. *)
Theorem inode_codec_roundtrip i bs :
  inode_ok i -> length bs = 64%nat -> bytes_ok bs ->
  inode_of (inode_bytes i) = i /\ length (inode_bytes i) = 64%nat /\ bytes_ok (inode_bytes i)
  /\ inode_bytes (inode_of bs) = bs /\ inode_ok (inode_of bs).
Proof.
  intros Hi Hl Hb. split_and!.
  - by apply inode_of_bytes.
  - apply length_inode_bytes, Hi.
  - apply inode_bytes_ok, Hi.
  - by apply inode_bytes_of.
  - by apply inode_of_ok.
Qed.

Section Props.
Context {H D : Type} `{AllocLaws H} `{DiskLaws D}.
Abbreviation FS := (ST (fs H D)).

Lemma yields_run {A} (P : fs H D -> Prop) (m : FS A) a Q s :
  yields P m a Q -> P s -> exists s', m s = (a, s') /\ Q s'.
Proof. auto. Qed.

(** The blocks of the inode table. *)
Definition off_table (g : superblock) (b : Z) : Prop :=
  forall inum, 0 <= inum < sb_inode_count g -> inode_block g inum <> b.

Lemma get_inode_upd g c b bs inum :
  off_table g b -> 0 <= inum < sb_inode_count g -> get_inode g (upd c b bs) inum = get_inode g c inum.
Proof. intros Ho Hi. unfold get_inode, upd. by rewrite decide_False by (by apply Ho). Qed.

Lemma put_inode_other g c inum i b :
  off_table g b -> 0 <= inum < sb_inode_count g -> put_inode g c inum i b = c b.
Proof. intros Ho Hi. unfold put_inode, upd. rewrite decide_False; [done|]. intros ->. by eapply Ho. Qed.

(** Inodes are stored independently.  On a working disk
    [tinyfs_write_inode] succeeds, after it [tinyfs_read_inode] gives the
    inode that was written, every other inode reads as before, and no block
    but the one of that inode changes. *)
Theorem inode_write_read L n c g w s a i :
  geo g -> st [] L (S n) c g w s -> 0 <= a < sb_inode_count g -> inode_ok i ->
  let '(r, s1) := tinyfs_write_inode a i s in
  r = 0
  /\ (forall b, 0 <= b < sb_inode_count g ->
        (tinyfs_read_inode b s1).1 = if decide (b = a) then Some i else (tinyfs_read_inode b s).1)
  /\ (forall x, x <> inode_block g a -> blk (fs_disk s1) x = blk (fs_disk s) x).
Proof.
  intros Hg Hs Ha Hi. pose proof (st_blocks_ok _ _ _ _ _ _ _ Hs) as Hc.
  destruct (y_write_inode [] L n c g w a i Hg Ha Hi s Hs) as (s1 & E & Hs1). rewrite E.
  split_and!; [done| |].
  - intros b Hb. destruct (y_read_inode [] L n _ g w b Hg Hb s1 Hs1) as (s2 & E2 & _).
    destruct (y_read_inode [] L n _ g w b Hg Hb s Hs) as (s3 & E3 & _). rewrite E2, E3. cbn [fst].
    rewrite get_put_inode by (done || lia). by case_decide.
  - intros x Hx. rewrite (st_blk _ _ _ _ _ _ _ Hs1), (st_blk _ _ _ _ _ _ _ Hs).
    unfold put_inode, upd. by rewrite decide_False.
Qed.

(** [tinyfs_block_alloc] hands out the lowest block whose bit is clear and
    marks exactly that bit, or answers -1 when every bit is set and writes
    nothing; [tinyfs_block_free] of the block restores the whole disk. *)
Theorem block_alloc_lowest_free L n c g w s :
  geo g -> st [] L (S n) c g w s ->
  let bm := blk (fs_disk s) (sb_block_bitmap_block g) in
  let '(r, s1) := tinyfs_block_alloc s in
  let bm1 := blk (fs_disk s1) (sb_block_bitmap_block g) in
  (r = -1 /\ (forall k, 0 <= k < sb_total_blocks g -> bitmap_test bm k = true)
   /\ forall x, blk (fs_disk s1) x = blk (fs_disk s) x)
  \/ (0 <= r < sb_total_blocks g /\ bitmap_test bm r = false
      /\ (forall k, 0 <= k < r -> bitmap_test bm k = true)
      /\ (forall k, 0 <= k -> bitmap_test bm1 k = bool_decide (r = k) || bitmap_test bm k)
      /\ (forall x, x <> sb_block_bitmap_block g -> blk (fs_disk s1) x = blk (fs_disk s) x)
      /\ forall x, blk (fs_disk (tinyfs_block_free r s1).2) x = blk (fs_disk s) x).
Proof.
  intros Hg Hs bm. pose proof (st_blocks_ok _ _ _ _ _ _ _ Hs) as Hc.
  destruct (y_block_alloc [] L n c g w Hg s Hs) as (s1 & E & Hs1). rewrite E. cbv zeta.
  assert (Hbm : bm = c (sb_block_bitmap_block g)) by apply (st_blk _ _ _ _ _ _ _ Hs).
  pose proof (st_blk _ _ _ _ _ _ _ Hs1) as Hb1. pose proof (st_blk _ _ _ _ _ _ _ Hs) as Hb0.
  pose proof (first_clear_spec (Z.to_nat (sb_total_blocks g)) 0 bm) as Hf.
  rewrite Hbm in Hf |- *. fold (free_block g c) in Hf.
  destruct (free_block g c) as [i|] eqn:Ei; [right|left].
  - destruct Hf as (Hi & Hclear & Hlow). pose proof (ge_total g Hg).
    pose proof (bitmap_room g Hg c (sb_block_bitmap_block g) i Hc ltac:(left; lia)) as Hroom.
    destruct (Hc (sb_block_bitmap_block g)) as [Hlen Hok].
    split_and!; [lia|lia|exact Hclear|exact Hlow| | |].
    + intros k Hk. rewrite Hb1. unfold mark_block, upd. rewrite decide_True by done.
      by apply bitmap_set_test.
    + intros x Hx. rewrite Hb1, Hb0. unfold mark_block, upd. by rewrite decide_False.
    + intros x. destruct (y_block_free [] L n _ g w i Hg s1 Hs1) as (s2 & E2 & Hs2).
      rewrite E2. cbn [snd]. rewrite (st_blk _ _ _ _ _ _ _ Hs2), Hb0.
      unfold unmark_block, mark_block, upd. case_decide as Ex; [|done].
      rewrite decide_True by done. subst x. by apply bitmap_clear_set.
  - split_and!; [done| |].
    + intros k Hk. apply Hf. lia.
    + intros x. by rewrite Hb1, Hb0.
Qed.

(** [tinyfs_inode_alloc] hands out the lowest free inode from 1 on (inode 0
    is the root), marks exactly that bit and leaves a zeroed inode with one
    reference there; every other inode and every data block is unchanged.
    When none is free it answers -1 and writes nothing. *)
Theorem inode_alloc_lowest_free L n c g w s :
  geo g -> off_table g (sb_inode_bitmap_block g) -> st [] L (S n) c g w s ->
  let bm := blk (fs_disk s) (sb_inode_bitmap_block g) in
  let '(r, s1) := tinyfs_inode_alloc s in
  let bm1 := blk (fs_disk s1) (sb_inode_bitmap_block g) in
  (r = -1 /\ (forall k, 1 <= k < sb_inode_count g -> bitmap_test bm k = true)
   /\ forall x, blk (fs_disk s1) x = blk (fs_disk s) x)
  \/ (1 <= r < sb_inode_count g /\ bitmap_test bm r = false
      /\ (forall k, 1 <= k < r -> bitmap_test bm k = true)
      /\ (forall k, 0 <= k -> bitmap_test bm1 k = bool_decide (r = k) || bitmap_test bm k)
      /\ (forall b, 0 <= b < sb_inode_count g -> (tinyfs_read_inode b s1).1 =
            if decide (b = r) then Some new_inode else (tinyfs_read_inode b s).1)
      /\ forall x, x <> sb_inode_bitmap_block g -> off_table g x ->
           blk (fs_disk s1) x = blk (fs_disk s) x).
Proof.
  intros Hg Hoff Hs bm. pose proof (st_blocks_ok _ _ _ _ _ _ _ Hs) as Hc.
  destruct (y_inode_alloc [] L n c g w Hg s Hs) as (s1 & E & Hs1). rewrite E. cbv zeta.
  assert (Hbm : bm = c (sb_inode_bitmap_block g)) by apply (st_blk _ _ _ _ _ _ _ Hs).
  pose proof (st_blk _ _ _ _ _ _ _ Hs1) as Hb1. pose proof (st_blk _ _ _ _ _ _ _ Hs) as Hb0.
  pose proof (first_clear_spec (Z.to_nat (sb_inode_count g - 1)) 1 bm) as Hf.
  rewrite Hbm in Hf |- *. fold (free_inode g c) in Hf.
  destruct (free_inode g c) as [i|] eqn:Ei; [right|left].
  - destruct Hf as (Hi & Hclear & Hlow). assert (Hir : 0 <= i < sb_inode_count g) by lia.
    pose proof (bitmap_room g Hg c (sb_inode_bitmap_block g) i Hc ltac:(right; lia)) as Hroom.
    destruct (Hc (sb_inode_bitmap_block g)) as [Hlen Hok].
    assert (Hcm : blocks_ok (mark_inode g c i)).
    { apply upd_ok; [done|by rewrite length_bitmap_set|by apply bitmap_set_ok]. }
    split_and!; [lia|lia|exact Hclear|exact Hlow| | |].
    + intros k Hk. rewrite Hb1, put_inode_other by done. unfold mark_inode, upd.
      rewrite decide_True by done. by apply bitmap_set_test.
    + intros b Hb. destruct (y_read_inode [] L n _ g w b Hg Hb s1 Hs1) as (s2 & E2 & _).
      destruct (y_read_inode [] L n _ g w b Hg Hb s Hs) as (s3 & E3 & _). rewrite E2, E3. cbn [fst].
      rewrite get_put_inode by (done || lia || apply new_inode_ok). case_decide; [done|].
      f_equal. by apply get_inode_upd.
    + intros x Hx Hox. rewrite Hb1, Hb0, put_inode_other by done. unfold mark_inode, upd.
      by rewrite decide_False.
  - split_and!; [done| |].
    + intros k Hk. apply Hf. lia.
    + intros x. by rewrite Hb1, Hb0.
Qed.

(** [dir] is a directory whose entries are in block [b]. *)
Record dir_at (g : superblock) (c : Z -> list Z) (dir b : Z) : Prop := {
  da_dir : is_dir (get_inode g c dir) = true;
  da_block : i_direct_block (get_inode g c dir) = b;
  da_range : 0 < b < sb_total_blocks g;
  da_off : off_table g b;
  da_ok : dir_block_ok (c b);
  da_unique : names_unique (c b)
}.

Lemma is_dir_type i : is_dir i = true -> is_type_dir i = true.
Proof.
  unfold is_dir, is_type_dir, z_true, TINYFS_TYPE_DIR. intros Hd%Z.eqb_eq.
  change 0x4000 with (Z.land 0xF000 0x4000) at 1. by rewrite Z.land_assoc, Hd.
Qed.

Lemma y_dir_find L n c g w dir b q :
  geo g -> 0 <= dir < sb_inode_count g -> dir_at g c dir b ->
  yields (st [] L (S n) c g w) (find_dirent dir q) (dir_find (c b) q) (st [] L (S n) c g w).
Proof.
  intros Hg Hdir [Hd Hb Hr Ho Hok Hu]. rewrite <- Hb.
  apply y_find_dirent; [done|done|done|by rewrite Hb].
Qed.

Lemma grown_dir i j : is_dir (grown i j) = is_dir i.
Proof. unfold grown. by destruct (_ <? _). Qed.

(** Rewriting the block and the inode of a directory. *)
Lemma dir_at_put g c dir b bs i :
  blocks_ok c -> blocks_ok (upd c b bs) -> 0 <= dir < sb_inode_count g -> dir_at g c dir b ->
  inode_ok i -> is_dir i = true -> i_direct_block i = b -> dir_block_ok bs -> names_unique bs ->
  dir_at g (put_inode g (upd c b bs) dir i) dir b /\ put_inode g (upd c b bs) dir i b = bs.
Proof.
  intros Hc Hc' Hdir Hda Hi Hd Hb Hok Hu.
  assert (E : put_inode g (upd c b bs) dir i b = bs).
  { rewrite put_inode_other by (done || apply Hda). unfold upd. by rewrite decide_True. }
  split; [|exact E].
  assert (Ei : get_inode g (put_inode g (upd c b bs) dir i) dir = i)
    by (rewrite get_put_inode by (done || lia); by rewrite decide_True).
  split; rewrite ?Ei, ?E; try done; apply Hda.
Qed.

Lemma y_dir_add L n c g w dir b e name :
  geo g -> 0 <= dir < sb_inode_count g -> dir_at g c dir b -> cstr_ok name -> name <> [] ->
  dir_find (c b) (take 27 name) = None ->
  (forall k, (k < 128)%nat -> is_Some (dir_ent (c b) k)) /\
     yields (st [] L (S n) c g w) (tinyfs_add_dirent dir e name) (-2) (st [] L (S n) c g w)
  \/ exists c1, yields (st [] L (S n) c g w) (tinyfs_add_dirent dir e name) 0 (st [] L (S n) c1 g w)
     /\ (blocks_ok c -> dir_at g c1 dir b)
     /\ (forall q, cstr_ok q ->
           dir_find (c1 b) q = if decide (q = take 27 name) then Some (u32 e) else dir_find (c b) q)
     /\ (forall x, x <> b -> off_table g x -> c1 x = c x).
Proof.
  intros Hg Hdir Hda Hn Hne Hnone. pose proof Hda as [Hd Hb Hr Ho Hok Hu].
  pose proof (y_add_dirent [] L n c g w dir e name Hg Hdir (is_dir_type _ Hd)) as Hy.
  cbv zeta in Hy. rewrite Hb in Hy. specialize (Hy Hr Hok Hn Hne).
  pose proof (find_free_spec TINYFS_DIRENTS_PER_BLOCK 0 (c b)) as Hf.
  change (0 + TINYFS_DIRENTS_PER_BLOCK)%nat with 128%nat in Hf.
  destruct (find_free TINYFS_DIRENTS_PER_BLOCK 0 (c b)) as [j|]; [right|left].
  - destruct Hf as ([_ Hj] & Hfree & _). eexists. split; [exact Hy|].
    destruct (put_ent_spec (c b) j e name Hok Hj Hn Hne) as [Hok' _].
    assert (E : put_inode g (upd c b (put_ent j e name (c b))) dir (grown (get_inode g c dir) j) b
                = put_ent j e name (c b)).
    { rewrite put_inode_other by done. unfold upd. by rewrite decide_True. }
    split_and!.
    + intros Hc. apply dir_at_put; try done.
      * apply upd_ok; [done|apply Hok'|apply Hok'].
      * apply grown_ok. by apply get_inode_ok.
      * by rewrite grown_dir.
      * by rewrite grown_direct.
      * by apply put_ent_unique.
    + intros q Hq. rewrite E. by apply dir_find_put.
    + intros x Hx Hox. rewrite put_inode_other by done. unfold upd. by rewrite decide_False.
  - split; [|exact Hy]. intros k Hk. apply Hf. lia.
Qed.

Lemma y_dir_remove L n c g w dir b name :
  geo g -> 0 <= dir < sb_inode_count g -> dir_at g c dir b -> cstr_ok name ->
  is_Some (dir_find (c b) name) ->
  exists c1, yields (st [] L (S n) c g w) (tinyfs_remove_dirent dir name) 0 (st [] L (S n) c1 g w)
     /\ (blocks_ok c -> dir_at g c1 dir b)
     /\ (forall q, cstr_ok q -> dir_find (c1 b) q = if decide (q = name) then None else dir_find (c b) q)
     /\ (forall x, x <> b -> off_table g x -> c1 x = c x).
Proof.
  intros Hg Hdir Hda Hn [e He]. pose proof Hda as [Hd Hb Hr Ho Hok Hu].
  pose proof (y_remove_dirent [] L n c g w dir name Hg Hdir (is_dir_type _ Hd)) as Hy.
  cbv zeta in Hy. rewrite Hb in Hy. specialize (Hy Hr Hok).
  destruct (dir_find_cases (c b) name Hn (db_bytes _ Hok)) as [(j & m & Hj & Hent & _)|?]; [|congruence].
  rewrite (proj2 (find_name_first _ _ j Hn (db_bytes _ Hok)) Hj) in Hy.
  destruct Hj as (Hj & Hh & _). destruct (del_ent_spec (c b) j Hok Hj) as [Hok' Hent'].
  eexists. split; [exact Hy|].
  assert (E : put_inode g (upd c b (del_ent j (c b))) dir (get_inode g c dir) b = del_ent j (c b)).
  { rewrite put_inode_other by done. unfold upd. by rewrite decide_True. }
  split_and!.
  - intros Hc. apply dir_at_put; try done.
    + apply upd_ok; [done|apply Hok'|apply Hok'].
    + by apply get_inode_ok.
    + intros a a' q Ha Ha' (x & Hx) (y & Hy'). rewrite Hent' in Hx, Hy' by done.
      repeat case_decide; simplify_eq. eapply Hu; [done|done|by exists x|by exists y].
  - intros q Hq. rewrite E. by apply dir_find_del.
  - intros x Hx Hox. rewrite put_inode_other by done. unfold upd. by rewrite decide_False.
Qed.

(** C24: a directory is a map from names to inodes.  Adding a name that is not
    there either finds all 128 slots taken, answers -2 and writes nothing, or
    succeeds, and then [find_dirent] gives the new inode for the first 27
    characters of the name and for every other name what it gave before;
    removing the name again brings every lookup back.  No block but the
    directory's own and the inode table changes. *)
Theorem directory_is_a_map L n c g w s dir b e name :
  geo g -> 0 <= dir < sb_inode_count g -> dir_at g c dir b -> st [] L (S n) c g w s ->
  0 <= e < 2 ^ 32 -> cstr_ok name -> name <> [] -> (find_dirent dir (take 27 name) s).1 = None ->
  let '(r, s1) := tinyfs_add_dirent dir e name s in
  (r = -2 /\ (forall k, (k < 128)%nat -> is_Some (dir_ent (blk (fs_disk s) b) k))
   /\ forall x, blk (fs_disk s1) x = blk (fs_disk s) x)
  \/ (r = 0
      /\ (forall q, cstr_ok q -> (find_dirent dir q s1).1 =
             if decide (q = take 27 name) then Some e else (find_dirent dir q s).1)
      /\ (forall x, x <> b -> off_table g x -> blk (fs_disk s1) x = blk (fs_disk s) x)
      /\ let '(r2, s2) := tinyfs_remove_dirent dir (take 27 name) s1 in
         r2 = 0 /\ forall q, cstr_ok q -> (find_dirent dir q s2).1 = (find_dirent dir q s).1).
Proof.
  intros Hg Hdir Hda Hs He Hn Hne Hnone. pose proof (st_blocks_ok _ _ _ _ _ _ _ Hs) as Hc.
  assert (Hfind : forall q, (find_dirent dir q s).1 = dir_find (c b) q).
  { intros q. by destruct (y_dir_find L n c g w dir b q Hg Hdir Hda s Hs) as (s' & -> & _). }
  rewrite Hfind in Hnone. assert (Ht : cstr_ok (take 27 name)) by (by apply Forall_take).
  destruct (y_dir_add L n c g w dir b e name Hg Hdir Hda Hn Hne Hnone)
    as [[Hfull Hy]|(c1 & Hy & Hda1 & Hf1 & Hx1)];
    destruct (Hy s Hs) as (s1 & E & Hs1); rewrite E; [left|right].
  - split_and!; [done| |].
    + by rewrite (st_blk _ _ _ _ _ _ _ Hs).
    + intros x. by rewrite (st_blk _ _ _ _ _ _ _ Hs1), (st_blk _ _ _ _ _ _ _ Hs).
  - specialize (Hda1 Hc). pose proof (st_blocks_ok _ _ _ _ _ _ _ Hs1) as Hc1.
    rewrite u32_small in Hf1 by lia. split_and!; [done| | |].
    + intros q Hq. destruct (y_dir_find L n c1 g w dir b q Hg Hdir Hda1 s1 Hs1) as (s' & -> & _).
      rewrite Hfind. by apply Hf1.
    + intros x Hx Hox. rewrite (st_blk _ _ _ _ _ _ _ Hs1), (st_blk _ _ _ _ _ _ _ Hs). by apply Hx1.
    + destruct (y_dir_remove L n c1 g w dir b (take 27 name) Hg Hdir Hda1 Ht)
        as (c2 & Hy2 & Hda2 & Hf2 & _); [rewrite Hf1, decide_True by done; done|].
      destruct (Hy2 s1 Hs1) as (s2 & E2 & Hs2). rewrite E2. split; [done|].
      intros q Hq. destruct (y_dir_find L n c2 g w dir b q Hg Hdir (Hda2 Hc1) s2 Hs2) as (s' & -> & _).
      rewrite Hfind. cbn [fst]. rewrite Hf2 by done. case_decide as Eq; [by subst|].
      rewrite Hf1 by done. by rewrite decide_False.
Qed.

End Props.

(** ** A concrete volume

    The boot heap and a RAM disk with an empty root directory: inode 0 in
    the first sector of the inode table, its entries in block 21. *)

Definition root_inode : inode := set_direct 21 (set_mode (Z.lor TINYFS_TYPE_DIR 0x01ED) new_inode).
Definition root_disk : ramdisk := {[ 152 := inode_bytes root_inode ++ replicate 448 0 ]}.
Definition root_fs : fs kmem ramdisk := Fs boot_kmem root_disk blank_sb 0 [] false.

Lemma root_fs_st n : (n <= 509)%nat -> st [] [] n (blk root_disk) blank_sb 0 root_fs.
Proof. intros Hn. split; try done. by apply boot_holds. Qed.

Lemma blank_geo : geo blank_sb.
Proof.
  assert (E : BLOCK_LIMIT = 33554432) by reflexivity.
  split; rewrite ?E; cbn [sb_total_blocks sb_inode_count sb_inode_bitmap_block sb_block_bitmap_block
    sb_inode_table_block blank_sb]; lia.
Qed.

Lemma blank_off_table b : b <> 19 -> off_table blank_sb b.
Proof.
  intros Hb inum Hi. unfold inode_block. change (sb_inode_count blank_sb) with 64 in Hi.
  change (sb_inode_table_block blank_sb) with 19. change INODES_PER_BLOCK with 64. zlia.
Qed.

Lemma zero_dir_block : dir_block_ok (replicate 4096 0) /\ names_unique (replicate 4096 0).
Proof.
  assert (Hu : forall i, (i < 128)%nat -> dir_ent (replicate 4096 0) i = None).
  { intros i Hi. unfold dir_ent, ent_used, char_at.
    rewrite lookup_replicate_2; [done|]. unfold ent_off. lia. }
  split.
  - split.
    + apply length_replicate.
    + apply Forall_replicate. unfold is_byte. lia.
    + intros i Hi. apply (list_elem_of_lookup_2 _ 0).
      rewrite slice_lookup, decide_True by lia. apply lookup_replicate_2. unfold ent_off. lia.
  - intros i j q Hi Hj (n & Hx). by rewrite Hu in Hx.
Qed.

Lemma root_dir_at : dir_at blank_sb (blk root_disk) 0 21.
Proof.
  assert (E : blk root_disk 21 = replicate 4096 0) by (vm_compute; reflexivity).
  split.
  - vm_compute. reflexivity.
  - vm_compute. reflexivity.
  - cbn. lia.
  - by apply blank_off_table.
  - rewrite E. apply zero_dir_block.
  - rewrite E. apply zero_dir_block.
Qed.

Lemma directory_is_a_map_witness :
  exists r s1, tinyfs_add_dirent 0 7 (str "notes") root_fs = (r, s1) /\ r <= 0.
Proof.
  pose proof (directory_is_a_map [] 0 _ _ _ root_fs 0 21 7 (str "notes") blank_geo ltac:(cbn; lia)
    root_dir_at (root_fs_st 1 ltac:(lia)) ltac:(lia)) as Hw.
  assert (Hn : cstr_ok (str "notes")) by (repeat constructor; cbn; lia).
  assert (Hnone : (find_dirent 0 (take 27 (str "notes")) root_fs).1 = None).
  { destruct (y_dir_find [] 0 _ _ _ 0 21 (take 27 (str "notes")) blank_geo ltac:(cbn; lia)
      root_dir_at root_fs (root_fs_st 1 ltac:(lia))) as (s' & -> & _). cbn [fst].
    apply dir_find_none; [exact Hn|apply blk_ok|].
    replace (blk root_disk 21) with (replicate 4096 0) by (vm_compute; reflexivity).
    intros k Hk (n & Hx). unfold dir_ent, ent_used, char_at in Hx.
    rewrite lookup_replicate_2 in Hx; [discriminate Hx|]. unfold ent_off. lia. }
  specialize (Hw Hn ltac:(discriminate) Hnone).
  destruct (tinyfs_add_dirent 0 7 (str "notes") root_fs) as [r s1]. exists r, s1.
  split; [reflexivity|]. destruct Hw as [(-> & _)|(-> & _)]; lia.
Defined.
