(* ===== verification/VfsPath.v ===== *)
(** * Paths

    [resolve_path] and [split_path] of [src/kernel/fs/vfs.c] against their
    meaning: a path is the list of its non-empty components (each cut to the
    28 characters the code keeps), walked from the root or from the working
    directory; [split_path] cuts off the last component. *)

From S2P Require Import Prelude.
From S2P Require Import Kmem.
From S2P Require Import Heap.
From S2P Require Import Alloc.
From S2P Require Import Disk.
From S2P Require Import TinyFS.
From S2P Require Import Vfs.
From S2P Require Import FsHeap.

(** ** The meaning of a path *)

(** The pieces between slashes, [piece] being the one under way. *)
Fixpoint pieces (path piece : list Z) : list (list Z) :=
  match path with
  | [] => [piece]
  | c :: rest => if c =? SLASH then piece :: pieces rest [] else pieces rest (piece ++ [c])
  end.

Fixpoint nonempty (l : list (list Z)) : list (list Z) :=
  match l with
  | [] => []
  | [] :: l => nonempty l
  | p :: l => p :: nonempty l
  end.

Definition components (path : list Z) : list (list Z) :=
  map (take 28) (nonempty (pieces path [])).

Definition absolute (path : list Z) : bool :=
  match path with c :: _ => c =? SLASH | [] => false end.

Section Walk.
Context {H D : Type} `{Allocator H} `{Disk D}.
Abbreviation FS := (ST (fs H D)).

Fixpoint walk (cs : list (list Z)) (current : Z) : FS (option Z) :=
  match cs with
  | [] => ret (Some current)
  | c :: cs' => try* next := resolve_component current c else None in walk cs' next
  end.

Definition start (path : list Z) : FS Z :=
  let* cwd := get_cwd in ret (if absolute path then 0 else cwd).

(** ** [resolve_path] *)

Lemma nonempty_cons p l : p <> [] -> nonempty (p :: l) = p :: nonempty l.
Proof. by destruct p. Qed.

Lemma nonempty_app l1 l2 : nonempty (l1 ++ l2) = nonempty l1 ++ nonempty l2.
Proof. induction l1 as [|[|] l1 IH]; cbn [app nonempty]; [done|done|by rewrite IH]. Qed.

Lemma walk_app cs1 cs2 current s :
  walk (cs1 ++ cs2) current s = (try* next := walk cs1 current else None in walk cs2 next) s.
Proof.
  revert current s. induction cs1 as [|c cs1 IH]; intros current s; cbn [app walk]; [done|].
  unfold bind. destruct (resolve_component current c s) as [[next|] s1]; [|done].
  rewrite IH. unfold bind. done.
Qed.

Lemma pieces_app path p piece : pieces path (p ++ piece) =
  match pieces path piece with
  | [] => []
  | q :: qs => (p ++ q) :: qs
  end.
Proof.
  revert piece. induction path as [|c path IH]; intros piece; cbn [pieces]; [done|].
  destruct (c =? SLASH); [done|]. by rewrite <- app_assoc, IH.
Qed.

(** The loop keeps at most 28 characters of the component; the rest of the
    piece is dropped. *)
Lemma resolve_loop_walk path component piece current s :
  component = take 28 piece ->
  resolve_loop path component current s =
    walk (map (take 28) (nonempty (pieces path piece))) current s.
Proof.
  revert component piece current s. induction path as [|c path IH]; intros component piece current s Hc;
    cbn [resolve_loop pieces].
  - destruct component as [|x comp].
    + assert (piece = []) as -> by (by destruct piece). done.
    + assert (Hp : piece <> []) by (by intros ->). rewrite nonempty_cons by done.
      cbn [map walk nonempty]. rewrite <- Hc. unfold bind.
      by destruct (resolve_component current (x :: comp) s) as [[next|] s1].
  - destruct (c =? SLASH).
    + destruct component as [|x comp].
      * assert (piece = []) as -> by (by destruct piece).
        by apply IH.
      * assert (Hp : piece <> []) by (by intros ->). rewrite nonempty_cons by done.
        cbn [map walk]. rewrite <- Hc. unfold bind.
        destruct (resolve_component current (x :: comp) s) as [[next|] s1]; [|done]. by apply IH.
    + apply IH. subst component. rewrite length_take.
      destruct (Nat.ltb_spec (Nat.min 28 (length piece)) 28).
      * rewrite !take_ge; [done| |lia]. rewrite length_app. cbn. lia.
      * rewrite take_app_le by lia. done.
Qed.

Lemma components_slash rest : components (SLASH :: rest) = components rest.
Proof. unfold components. cbn [pieces Z.eqb SLASH]. done. Qed.

Lemma resolve_path_walk path s :
  resolve_path path s = (let* from := start path in walk (components path) from) s.
Proof.
  unfold resolve_path, start. unfold bind, get_cwd, gets, ret. cbn [fst snd].
  destruct path as [|c path]; [done|]. cbn [absolute].
  destruct (Z.eqb_spec c SLASH) as [->|Hne].
  - rewrite components_slash. destruct path as [|d path]; [done|].
    by apply (resolve_loop_walk _ _ []).
  - by apply (resolve_loop_walk _ _ []).
Qed.

End Walk.

(** ** [split_path] *)

Lemma last_slash_spec path i last :
  match find_last_slash path i last with
  | Some j =>
      (exists a b, path = a ++ SLASH :: b /\ j = (i + length a)%nat /\ Forall (fun c => c <> SLASH) b)
      \/ (Some j = last /\ Forall (fun c => c <> SLASH) path)
  | None => last = None /\ Forall (fun c => c <> SLASH) path
  end.
Proof.
  revert i last. induction path as [|c path IH]; intros i last; cbn [find_last_slash].
  - destruct last as [j|]; [right|]; by split.
  - specialize (IH (S i) (if c =? SLASH then Some i else last)).
    destruct (find_last_slash path (S i) _) as [j|].
    + destruct IH as [(a & b & -> & -> & Hb)|[Hj Hp]].
      * left. exists (c :: a), b. split_and!; [done|cbn; lia|done].
      * destruct (Z.eqb_spec c SLASH) as [->|Hc]; [|right; split; [done|by constructor]].
        left. exists [], path. injection Hj as <-. split_and!; [done|cbn; lia|done].
    + destruct IH as [Hl Hp]. destruct (Z.eqb_spec c SLASH); [done|]. split; [done|by constructor].
Qed.

Lemma pieces_no_slash path piece :
  Forall (fun c => c <> SLASH) path -> pieces path piece = [piece ++ path].
Proof.
  intros Hp. revert piece. induction Hp as [|c path Hc Hp IH]; intros piece; cbn [pieces].
  - by rewrite app_nil_r.
  - destruct (Z.eqb_spec c SLASH); [done|]. by rewrite IH, <- app_assoc.
Qed.

Lemma pieces_slash a b piece : pieces (a ++ SLASH :: b) piece = pieces a piece ++ pieces b [].
Proof.
  revert piece. induction a as [|c a IH]; intros piece; cbn [app pieces]; [done|].
  destruct (c =? SLASH); [cbn; by rewrite IH|apply IH].
Qed.

Lemma components_last a b :
  Forall (fun c => c <> SLASH) b -> b <> [] ->
  components (a ++ SLASH :: b) = components a ++ [take 28 b].
Proof.
  intros Hb Hne. unfold components. rewrite pieces_slash, nonempty_app, map_app.
  rewrite (pieces_no_slash b) by done. cbn [app]. by rewrite nonempty_cons.
Qed.

(** What the two buffers mean: the path's last component, and a path to the
    directory of the rest; [true] when nothing was cut off the latter. *)
Lemma split_path_spec path :
  let '(parent, component) := split_path path PARENT_SIZE COMPONENT_SIZE in
  component <> [] ->
  (parent = [] /\ absolute path = false /\ components path = [component])
  \/ (parent <> [] /\ ((length path < PARENT_SIZE)%nat ->
        components path = components parent ++ [component] /\ absolute parent = absolute path)).
Proof.
  unfold split_path. pose proof (last_slash_spec path 0 None) as Hl.
  destruct (find_last_slash path 0 None) as [j|].
  - destruct Hl as [(a & b & -> & -> & Hb)|[? _]]; [|done]. cbn [Nat.add].
    unfold PARENT_SIZE, COMPONENT_SIZE. destruct a as [|c a]; cbn [length].
    + cbn [app drop]. change (29 - 1)%nat with 28%nat. intros Hne. right.
      assert (Hne' : b <> []) by (by intros ->). split; [done|]. intros _.
      split; [|done]. apply (components_last []); done.
    + change (29 - 1)%nat with 28%nat.
      replace (drop (S (length a) + 1) ((c :: a) ++ SLASH :: b)) with b.
      2: { replace (S (length a) + 1)%nat with (length ((c :: a) ++ [SLASH])) by (rewrite length_app; cbn; lia).
           change ((c :: a) ++ SLASH :: b) with ((c :: a) ++ [SLASH] ++ b).
           rewrite app_assoc. by rewrite drop_app_length. }
      intros Hne. assert (Hne' : b <> []) by (by intros ->). right.
      split; [rewrite Nat.min_comm; destruct (Nat.min _ _) eqn:E; [lia|done]|].
      intros Hlen. rewrite length_app in Hlen. cbn [length] in Hlen.
      rewrite Nat.min_l by lia. change (S (length a)) with (length (c :: a)). rewrite take_app_length.
      split; [by apply components_last|done].
  - destruct Hl as [_ Hp]. unfold COMPONENT_SIZE. change (29 - 1)%nat with 28%nat.
    intros Hne. left. assert (Hne' : path <> []) by (by intros ->). split_and!; [done| |].
    + destruct path as [|c path]; [done|]. cbn. inversion_clear Hp. by apply Z.eqb_neq.
    + unfold components. rewrite (pieces_no_slash path) by done. cbn [app]. by rewrite nonempty_cons.
Qed.

(** C37: [resolve_path] walks the components of the path.  It is the walk that
    looks each non-empty component up in turn (empty ones between slashes
    are skipped, names are cut to 28 characters), from inode 0 for an
    absolute path and from the working directory otherwise, whatever the
    state of the disk and of memory. *)
Theorem resolve_path_is_walk {H D} `{Allocator H} `{Disk D} path (s : fs H D) :
  resolve_path path s =
    walk (components path) (if absolute path then 0 else fs_cwd s) s.
Proof. rewrite resolve_path_walk. done. Qed.

(** [split_path] is consistent with [resolve_path].  When it finds a last
    component (and the path is shorter than its 256-byte buffer), resolving
    the path is resolving the parent it computes and then that component:
    the two ways the calls of vfs.c name a file agree. *)
Theorem split_path_agrees {H D} `{Allocator H} `{Disk D} path (s : fs H D) :
  (length path < PARENT_SIZE)%nat ->
  let '(parent, component) := split_path path PARENT_SIZE COMPONENT_SIZE in
  component <> [] ->
  resolve_path path s =
    (try* p := resolve_parent parent else None in resolve_component p component) s.
Proof.
  intros Hlen. pose proof (split_path_spec path) as Hs.
  destruct (split_path path PARENT_SIZE COMPONENT_SIZE) as [parent component]. intros Hne.
  assert (Hstep : forall cur (s0 : fs H D), walk [component] cur s0 = resolve_component cur component s0).
  { intros cur s0. cbn [walk]. unfold bind.
    by destruct (resolve_component cur component s0) as [[next|] s1]. }
  rewrite resolve_path_walk. destruct (Hs Hne) as [(-> & Ha & Hc)|(Hp & Hx)].
  - unfold start, resolve_parent, bind, get_cwd, gets, ret. rewrite Ha, Hc. apply Hstep.
  - destruct (Hx Hlen) as [Hc Ha]. unfold resolve_parent. destruct parent as [|x xs]; [done|].
    unfold bind at 2. rewrite resolve_path_walk. unfold start, bind at 1 2 3 4, get_cwd, gets, ret.
    rewrite Ha, Hc, walk_app. unfold bind.
    destruct (walk (components (x :: xs)) _ s) as [[next|] s1]; [|done]. apply Hstep.
Qed.
