(* ===== verification/FsRead.v ===== *)
(** * Mounting and reading on a working disk

    What [fs_init], the resolution of a single name, [fs_ls] and [fs_cat]
    compute from the contents of the blocks, in the style of [FsSpec]. *)

From S2P Require Import Prelude.
From S2P Require Import Alloc.
From S2P Require Import Disk.
From S2P Require Import TinyFS.
From S2P Require Import Vfs.
From S2P Require Import FsPure.
From S2P Require Import FsSpec.

Definition no_slash (s : list Z) : Prop := Forall (fun c => c <> SLASH) s.

(** A path that is one name. *)
Record plain_name (name : list Z) : Prop := {
  pn_slash : no_slash name;
  pn_nonempty : name <> [];
  pn_dot : name <> [DOT];
  pn_dotdot : name <> [DOT; DOT];
  pn_length : (length name <= 28)%nat
}.

#[export] Instance no_slash_dec s : Decision (no_slash s).
Proof. unfold no_slash. apply _. Defined.

(** A literal name. *)
Ltac plain :=
  split; [apply (bool_decide_unpack _); by vm_compute|done|done|done|apply Nat.leb_le; reflexivity].

Section Read.
Context {H D : Type} `{AllocLaws H} `{DiskLaws D}.
Abbreviation FS := (ST (fs H D)).

Lemma y_ext {A} (P Q : fs H D -> Prop) (m m' : FS A) a :
  (forall s, m s = m' s) -> yields P m' a Q -> yields P m a Q.
Proof. intros He Hy s Hs. rewrite He. by apply Hy. Qed.

(** [tinyfs_init] takes the superblock of block 16. *)
Lemma y_init L n c g g0 w :
  superblock_of (c TINYFS_SUPER_BLOCK) = g -> sb_magic g = TINYFS_MAGIC ->
  yields (st [] L (S n) c g0 w) fs_init tt (st [] L (S n) c g 0).
Proof.
  intros Hg Hm. unfold fs_init. eapply (y_bind _ _ 0 (st [] L (S n) c g w)).
  - unfold tinyfs_init. apply y_alloc. intros p.
    eapply y_bind; [apply y_read; unfold TINYFS_SUPER_BLOCK, BLOCK_LIMIT, LBA_LIMIT; by split|].
    cbn beta iota. rewrite Hg, Hm, Z.eqb_refl. cbn [negb].
    eapply (y_bind _ _ tt (st [p] L n c g w)); [|eapply y_bind; [apply y_free|apply y_ret]].
    intros s [Hh Hu Hc _ Hw]. eexists. split; [reflexivity|]. by split.
  - cbn. eapply (y_bind _ _ tt (st [] L (S n) c g w)).
    + intros s [Hh Hu Hc Hs Hw]. eexists. split; [reflexivity|]. by split.
    + intros s [Hh Hu Hc Hs _]. eexists. split; [reflexivity|]. by split.
Qed.

Lemma resolve_loop_plain name comp current s :
  no_slash name -> (length comp + length name <= 28)%nat ->
  resolve_loop name comp current s
  = match comp ++ name with [] => ret (Some current) | full => resolve_component current full end s.
Proof.
  intros Hn. revert comp. induction Hn as [|x name Hx Hn IH]; intros comp Hl; cbn [resolve_loop length] in *.
  - rewrite app_nil_r. by destruct comp.
  - destruct (Z.eqb_spec x SLASH); [done|]. rewrite (proj2 (Nat.ltb_lt _ _)) by lia.
    rewrite IH by (rewrite length_app; cbn [length]; lia). rewrite <- app_assoc. cbn [app].
    by destruct (comp ++ x :: name).
Qed.

Lemma resolve_plain name s :
  plain_name name -> resolve_path name s = (let* cwd := get_cwd in find_dirent cwd name) s.
Proof.
  intros [Hs Hne Hd Hdd Hl]. unfold resolve_path, bind.
  destruct (get_cwd s) as [cwd s1] eqn:E. destruct name as [|x name]; [done|].
  pose proof (proj1 (Forall_cons _ _ _) Hs) as [Hx _]. destruct (Z.eqb_spec x SLASH); [done|].
  rewrite resolve_loop_plain by (done || cbn [length] in *; lia). cbn [app]. unfold resolve_component.
  by rewrite !bool_decide_false by done.
Qed.

(** The names of the directory [d]. *)
Definition dir_lookup (g : superblock) (c : Z -> list Z) (dir : Z) (name : list Z) : option Z :=
  let b := i_direct_block (get_inode g c dir) in
  ent_inode (c b) <$> find_name TINYFS_DIRENTS_PER_BLOCK 0 name (c b).

Record dir_in_use (g : superblock) (c : Z -> list Z) (dir : Z) : Prop := {
  da_range : 0 <= dir < sb_inode_count g;
  da_dir : is_dir (get_inode g c dir) = true;
  da_block : 0 < i_direct_block (get_inode g c dir) < sb_total_blocks g
}.

Lemma y_lookup ps L n c g w dir name :
  geo g -> dir_in_use g c dir ->
  yields (st ps L (S n) c g w) (find_dirent dir name) (dir_lookup g c dir name) (st ps L (S n) c g w).
Proof. intros Hg [Hr Hd Hb]. unfold dir_lookup. by apply y_find_dirent. Qed.

Lemma y_resolve_plain L n c g w name :
  geo g -> dir_in_use g c w -> plain_name name ->
  yields (st [] L (S n) c g w) (resolve_path name) (dir_lookup g c w name) (st [] L (S n) c g w).
Proof.
  intros Hg Hd Hn. eapply y_ext; [intros s; by apply resolve_plain|].
  eapply y_bind; [apply y_get_cwd|]. by apply y_lookup.
Qed.

(** A file of one block. *)
Record small_file (g : superblock) (c : Z -> list Z) (inum : Z) : Prop := {
  sf_range : 0 <= inum < sb_inode_count g;
  sf_file : is_file (get_inode g c inum) = true;
  sf_size : 0 < i_size (get_inode g c inum) <= TINYFS_BLOCK_SIZE;
  sf_block : 0 < i_direct_block (get_inode g c inum) < sb_total_blocks g
}.

Definition file_bytes (g : superblock) (c : Z -> list Z) (inum : Z) : list Z :=
  let i := get_inode g c inum in take (Z.to_nat (i_size i)) (c (i_direct_block i)).

Lemma y_cat_small L n c g w name inum size :
  geo g -> dir_in_use g c w -> plain_name name -> dir_lookup g c w name = Some inum -> small_file g c inum ->
  i_size (get_inode g c inum) < size ->
  yields (st [] L (S n) c g w) (fs_cat name size)
    (i_size (get_inode g c inum), file_bytes g c inum ++ [0]) (st [] L (S n) c g w).
Proof.
  intros Hg Hd Hn Hl [Hr Hf Hs Hb] Hsz. unfold fs_cat, file_bytes.
  unfold TINYFS_BLOCK_SIZE in Hs.
  eapply y_bind; [by apply y_resolve_plain|]. rewrite Hl. cbn beta iota.
  eapply y_bind; [by apply y_read_inode|]. cbn beta iota. set (i := get_inode g c inum) in *.
  rewrite Hf. cbn [negb]. destruct (Z.eqb_spec (i_size i) 0); [lia|].
  rewrite i32_small by lia. destruct (Z.ltb_spec (size - 1) (i_size i)); [lia|].
  apply y_alloc. intros p. destruct (Z.ltb_spec 0 (i_direct_block i)); [|lia].
  eapply y_bind.
  - eapply y_bind; [apply y_read_block; [done|lia]|]. cbn beta iota.
    eapply y_bind; [apply y_stray|]. apply y_ret.
  - cbn beta iota. unfold TINYFS_BLOCK_SIZE. destruct (Z.ltb_spec 4096 (i_size i)); [lia|].
    destruct (Z.ltb_spec (i_size i) (i_size i)); [lia|]. cbn [andb].
    eapply y_bind; [apply y_free|]. eapply y_bind; [apply y_stray|]. rewrite i32_small by lia. apply y_ret.
Qed.

(** The same for an inode that is known. *)
Lemma cat_known L n c g w name inum i size s :
  st [] L (S n) c g w s -> geo g -> dir_in_use g c w -> plain_name name -> dir_lookup g c w name = Some inum ->
  get_inode g c inum = i -> 0 <= inum < sb_inode_count g -> is_file i = true ->
  0 < i_size i <= TINYFS_BLOCK_SIZE -> 0 < i_direct_block i < sb_total_blocks g -> i_size i < size ->
  (fs_cat name size s).1 = (i_size i, take (Z.to_nat (i_size i)) (c (i_direct_block i)) ++ [0]).
Proof.
  intros Hs Hg Hd Hn Hl <- Hr Hf Hz Hb Hsz.
  assert (Hsf : small_file g c inum) by (by split).
  by destruct (y_cat_small L n c g w name inum size Hg Hd Hn Hl Hsf Hsz s Hs) as (s' & -> & _).
Qed.

(** The names [fs_ls] lists for the working directory. *)
Lemma y_ls_cwd L n c g w size :
  geo g -> dir_in_use g c w ->
  let out := ls_entries TINYFS_DIRENTS_PER_BLOCK 0 (c (i_direct_block (get_inode g c w))) 0 size in
  yields (st [] L (S n) c g w) (fs_ls None size) (i32 (Z.of_nat (length out)), out ++ [0])
    (st [] L (S n) c g w).
Proof.
  intros Hg [Hr Hd Hb] out. unfold fs_ls.
  eapply y_bind; [eapply y_bind; [apply y_get_cwd|apply y_ret]|]. cbn beta iota.
  eapply y_bind; [by apply y_read_inode|]. cbn beta iota. rewrite Hd. cbn [negb].
  apply y_alloc. intros p. destruct (Z.ltb_spec 0 (i_direct_block (get_inode g c w))); [|lia].
  eapply y_bind; [apply y_read_block; [done|lia]|]. cbn beta iota zeta. fold out.
  eapply y_bind; [apply y_stray|]. eapply y_bind; [apply y_free|]. apply y_ret.
Qed.

End Read.
