(* ===== verification/Tools.v ===== *)
(** * The image tools ([src/tools/mkfs.tinyfs.c], [src/tools/tinyfs-add.c])

    Two programs of the host that write a TinyFS image.  An [image] is a
    regular file: a size, and a byte for every offset below it.  [write_at]
    and [read_at] are the functions of that name over [pwrite] and [pread];
    the host's calls are taken to succeed (a file that can be opened, no I/O
    error, memory available), but a read past the end of the image ends the
    program, and so do the checks of tinyfs-add.  [None] is an exit with an
    error message; what was written before it stays in the image. *)

From S2P Require Import Prelude.
From S2P Require Import ByteMem.
From S2P Require Import TinyFS.
From S2P Require Import Vfs.

Record image := Image { im_size : Z; im_data : mem }.

(** The bytes from the smaller of the old and the new size on are zero. *)
Definition ftruncate (n : Z) (img : image) : image :=
  Image n (filter (fun e : Z * Z => e.1 < Z.min n (im_size img)) (im_data img)).

(** A write of no bytes does not extend the file. *)
Definition write_at (offset : Z) (buf : list Z) : ST image unit := modify (fun img =>
  let size := Z.of_nat (length buf) in
  Image (if size =? 0 then im_size img else Z.max (im_size img) (offset + size))
    (store_bytes (im_data img) offset buf)).

Definition read_at (offset : Z) (n : nat) : ST image (option (list Z)) := fun img =>
  (if offset + Z.of_nat n <=? im_size img then Some (load_bytes (im_data img) offset n) else None, img).

(** A block of an image. *)
Definition image_block (img : image) (b : Z) : list Z := load_bytes (im_data img) (b * 4096) 4096.

(** ** The constants of both tools *)

Definition TINYFS_INODE_COUNT : Z := 64.
Definition TINYFS_TOTAL_BLOCKS : Z := 16384.
Definition SUPER_BLOCK : Z := 16.
Definition INODE_BITMAP_BLOCK : Z := SUPER_BLOCK + 1.
Definition BLOCK_BITMAP_BLOCK : Z := INODE_BITMAP_BLOCK + 4.
Definition INODE_TABLE_BLOCK : Z := BLOCK_BITMAP_BLOCK + 4.
Definition INODE_TABLE_BLOCKS : Z := 64.
Definition ROOT_DATA_BLOCK : Z := INODE_TABLE_BLOCK + INODE_TABLE_BLOCKS.
Definition METADATA_END_BLOCK : Z := ROOT_DATA_BLOCK + 1.
Definition TINYFS_MODE_755 : Z := 0x01ED.

Definition zeros (n : Z) : list Z := replicate (Z.to_nat n) 0.

(** The packed superblock and a directory entry, its name copied into
    zeroed bytes. *)
Definition superblock_bytes (g : superblock) : list Z :=
  le_bytes 8 (sb_magic g) ++ le_bytes 8 (sb_total_blocks g) ++ le_bytes 8 (sb_inode_count g)
  ++ le_bytes 4 (sb_block_size g) ++ le_bytes 4 (sb_root_inode g)
  ++ le_bytes 8 (sb_inode_bitmap_block g) ++ le_bytes 8 (sb_block_bitmap_block g)
  ++ le_bytes 8 (sb_inode_table_block g) ++ sb_padding g.

Definition dirent_bytes (inum : Z) (name : list Z) : list Z :=
  le_bytes 4 inum ++ name ++ zeros (28 - Z.of_nat (length name)).

(** ** mkfs.tinyfs.c *)

Definition mkfs_superblock : superblock :=
  Superblock TINYFS_MAGIC TINYFS_TOTAL_BLOCKS TINYFS_INODE_COUNT TINYFS_BLOCK_SIZE 0
    INODE_BITMAP_BLOCK BLOCK_BITMAP_BLOCK INODE_TABLE_BLOCK (zeros 8).

(** [for (i = 0; i < n; i++) block_bitmap[i / 8] |= (1 << (i % 8));] *)
Fixpoint mark_first (rounds : nat) (i : Z) (bitmap : list Z) : list Z :=
  match rounds with
  | O => bitmap
  | S r => mark_first r (i + 1) (bitmap_set bitmap i)
  end.

Definition mkfs_inode (type size block : Z) : inode :=
  Inode (Z.lor type TINYFS_MODE_755) 0 size 0 0 0 block 0 1 0 (zeros 16).

Definition mkfs_inodes : list inode :=
  [mkfs_inode TINYFS_TYPE_DIR (9 * SIZEOF_DIRENT) ROOT_DATA_BLOCK;
   mkfs_inode TINYFS_TYPE_FILE 25 (ROOT_DATA_BLOCK + 1);
   mkfs_inode TINYFS_TYPE_FILE 13 (ROOT_DATA_BLOCK + 2);
   mkfs_inode TINYFS_TYPE_DIR (2 * SIZEOF_DIRENT) (ROOT_DATA_BLOCK + 3);
   mkfs_inode TINYFS_TYPE_DIR (2 * SIZEOF_DIRENT) (ROOT_DATA_BLOCK + 4);
   mkfs_inode TINYFS_TYPE_DIR (2 * SIZEOF_DIRENT) (ROOT_DATA_BLOCK + 5);
   mkfs_inode TINYFS_TYPE_DIR (2 * SIZEOF_DIRENT) (ROOT_DATA_BLOCK + 6);
   mkfs_inode TINYFS_TYPE_DIR (2 * SIZEOF_DIRENT) (ROOT_DATA_BLOCK + 7)].

Definition mkfs_inode_table : list Z :=
  concat (map inode_bytes mkfs_inodes)
  ++ zeros (TINYFS_BLOCK_SIZE * INODE_TABLE_BLOCKS - 8 * SIZEOF_INODE).

Definition root_entries : list (Z * list Z) :=
  [(0, str "."); (0, str ".."); (1, str "README.txt"); (2, str "hello.txt"); (3, str "bin");
   (4, str "tmp"); (5, str "dev"); (6, str "home"); (7, str "usr")].
Definition sub_entries (inum : Z) : list (Z * list Z) := [(inum, str "."); (0, str "..")].
Definition entries_bytes (es : list (Z * list Z)) : list Z :=
  concat (map (fun e => dirent_bytes e.1 e.2) es).

Definition readme : list Z := str "welcome to some-tiny-os!" ++ [10].
Definition hello : list Z := str "hello there!" ++ [10].

Definition mkfs_writes : ST image unit :=
  do* write_at (SUPER_BLOCK * TINYFS_BLOCK_SIZE) (superblock_bytes mkfs_superblock) in
  do* write_at (INODE_BITMAP_BLOCK * TINYFS_BLOCK_SIZE) (<[0%nat := 0xFF]> (zeros (TINYFS_BLOCK_SIZE * 4))) in
  do* write_at (BLOCK_BITMAP_BLOCK * TINYFS_BLOCK_SIZE)
        (mark_first (Z.to_nat (METADATA_END_BLOCK + 7)) 0 (zeros (TINYFS_BLOCK_SIZE * 4))) in
  do* write_at (INODE_TABLE_BLOCK * TINYFS_BLOCK_SIZE) mkfs_inode_table in
  do* write_at (ROOT_DATA_BLOCK * TINYFS_BLOCK_SIZE) (entries_bytes root_entries) in
  do* write_at ((ROOT_DATA_BLOCK + 1) * TINYFS_BLOCK_SIZE) readme in
  do* write_at ((ROOT_DATA_BLOCK + 2) * TINYFS_BLOCK_SIZE) hello in
  do* write_at ((ROOT_DATA_BLOCK + 3) * TINYFS_BLOCK_SIZE) (entries_bytes (sub_entries 3)) in
  do* write_at ((ROOT_DATA_BLOCK + 4) * TINYFS_BLOCK_SIZE) (entries_bytes (sub_entries 4)) in
  do* write_at ((ROOT_DATA_BLOCK + 5) * TINYFS_BLOCK_SIZE) (entries_bytes (sub_entries 5)) in
  do* write_at ((ROOT_DATA_BLOCK + 6) * TINYFS_BLOCK_SIZE) (entries_bytes (sub_entries 6)) in
  write_at ((ROOT_DATA_BLOCK + 7) * TINYFS_BLOCK_SIZE) (entries_bytes (sub_entries 7)).

Definition mkfs : ST image unit :=
  do* modify (ftruncate (TINYFS_TOTAL_BLOCKS * TINYFS_BLOCK_SIZE)) in
  mkfs_writes.

(** ** tinyfs-add.c *)

(** [entries[i].inode == 0] is skipped, else the names are compared. *)
Fixpoint find_entry (rounds i : nat) (block comp : list Z) : option Z :=
  match rounds with
  | O => None
  | S r =>
      if ent_inode block i =? 0 then find_entry r (S i) block comp
      else if str_diff (ent_name block i) comp =? 0 then Some (ent_inode block i)
      else find_entry r (S i) block comp
  end.

Definition inode_offset (inum : Z) : Z := INODE_TABLE_BLOCK * TINYFS_BLOCK_SIZE + inum * SIZEOF_INODE.

Definition read_inode_at (inum : Z) : ST image (option inode) :=
  try* bs := read_at (inode_offset inum) 64 else None in
  ret (Some (inode_of bs)).

(** One component; [None]: not found, or the read failed. *)
Definition enter_dir (current : Z) (comp : list Z) : ST image (option Z) :=
  try* dir_inode := read_inode_at current else None in
  try* block := read_at (i_direct_block dir_inode * TINYFS_BLOCK_SIZE) 4096 else None in
  ret (find_entry 128 0 block comp).

(** The [while (1)] loop of [resolve_dir], at [path] with the characters of
    the component so far. *)
Fixpoint resolve_dir_loop (path comp : list Z) (current : Z) : ST image (option Z) :=
  match path with
  | [] => match comp with [] => ret (Some current) | _ => enter_dir current comp end
  | c :: rest =>
      if c =? SLASH then
        match comp with
        | [] => resolve_dir_loop rest [] current
        | _ => try* next := enter_dir current comp else None in resolve_dir_loop rest [] next
        end
      else resolve_dir_loop rest (if (length comp <? 27)%nat then comp ++ [c] else comp) current
  end.

Definition resolve_dir (path : list Z) : ST image (option Z) :=
  match path with
  | [] => ret (Some 0)
  | _ =>
      try* current := resolve_dir_loop path [] 0 else None in
      try* final_inode := read_inode_at current else None in
      ret (if Z.land (i_mode final_inode) 0xF000 =? 0x4000 then Some current else None)
  end.

(** The first [needed] clear bits from [b] on. *)
Fixpoint clear_bits (rounds : nat) (b : Z) (needed : nat) (bitmap : list Z) : list Z :=
  match rounds, needed with
  | S r, S n =>
      if negb (bitmap_test bitmap b) then b :: clear_bits r (b + 1) n bitmap
      else clear_bits r (b + 1) needed bitmap
  | _, _ => []
  end.

(** The sizes of [inode_bitmap], [block_bitmap] and [inode_table_data]. *)
Definition BITMAP_BYTES : nat := Z.to_nat (TINYFS_BLOCK_SIZE * 4).
Definition TABLE_BYTES : nat := Z.to_nat (TINYFS_BLOCK_SIZE * INODE_TABLE_BLOCKS).

Definition DATA_ROUNDS : nat := Z.to_nat (TINYFS_TOTAL_BLOCKS - ROOT_DATA_BLOCK).

(** The table of an indirect block. *)
Definition table_bytes (blocks : list Z) : list Z :=
  concat (map (le_bytes 4) blocks) ++ zeros (TINYFS_BLOCK_SIZE - 4 * Z.of_nat (length blocks)).

(** The loop over the table; [file] is what is left. *)
Fixpoint write_chunks (rounds i : nat) (table file : list Z) : ST image unit :=
  match rounds with
  | O => ret tt
  | S r =>
      match file with
      | [] => ret tt
      | _ =>
          let entry := le_val (slice (4 * i) 4 table) in
          if entry =? 0 then write_chunks r (S i) table file
          else
            do* write_at (entry * TINYFS_BLOCK_SIZE) (take 4096 file) in
            write_chunks r (S i) table (drop 4096 file)
      end
  end.

(** The index of the last slash, and the two names. *)
Definition dst_names (dst : list Z) : list Z * list Z :=
  match find_last_slash dst 0 None with
  | Some k => (take 255 (take k dst), take 27 (drop (S k) dst))
  | None => ([], take 27 dst)
  end.

(** The entry is written into the parent's block, and everything back to the
    image: the inode table last read before the parent's size was changed. *)
Definition link_entry (dst : list Z) (inum : Z) (ibm bbm table : list Z) : ST image (option Z) :=
  let '(parent_path, filename) := dst_names dst in
  try* parent_inum := resolve_dir parent_path else None in
  try* parent_inode := read_inode_at parent_inum else None in
  if negb (Z.land (i_mode parent_inode) 0xF000 =? TINYFS_TYPE_DIR) then ret None
  else
    try* block := read_at (i_direct_block parent_inode * TINYFS_BLOCK_SIZE) 4096 else None in
    match find_free 128 0 block with
    | None => ret None
    | Some slot =>
        let block' := splice (ent_off slot) (dirent_bytes inum filename) block in
        let parent_inode := set_size ((Z.of_nat slot + 1) * SIZEOF_DIRENT) parent_inode in
        do* write_at (inode_offset parent_inum) (inode_bytes parent_inode) in
        do* write_at (INODE_BITMAP_BLOCK * TINYFS_BLOCK_SIZE) ibm in
        do* write_at (BLOCK_BITMAP_BLOCK * TINYFS_BLOCK_SIZE) bbm in
        do* write_at (INODE_TABLE_BLOCK * TINYFS_BLOCK_SIZE) table in
        do* write_at (i_direct_block parent_inode * TINYFS_BLOCK_SIZE) block' in
        ret (Some inum)
    end.

(** The program for an image, a source file and a destination name.  [junk]
    is the value of the uninitialised [data_blocks[0]], which an empty file
    uses (not negative here, or the offset of the write is refused).  [Some inum]: success. *)
Definition tinyfs_add (junk : Z) (file dst : list Z) : ST image (option Z) :=
  let file_size := u32 (Z.of_nat (length file)) in
  if TINYFS_BLOCK_SIZE + 1024 * TINYFS_BLOCK_SIZE <? file_size then ret None
  else
    let file := take (Z.to_nat file_size) file in
    try* ibm := read_at (INODE_BITMAP_BLOCK * TINYFS_BLOCK_SIZE) BITMAP_BYTES else None in
    try* bbm := read_at (BLOCK_BITMAP_BLOCK * TINYFS_BLOCK_SIZE) BITMAP_BYTES else None in
    try* table := read_at (INODE_TABLE_BLOCK * TINYFS_BLOCK_SIZE) TABLE_BYTES else None in
    match first_clear 60 4 ibm with
    | None => ret None
    | Some inum =>
        let needed := Z.to_nat ((file_size + TINYFS_BLOCK_SIZE - 1) / TINYFS_BLOCK_SIZE) in
        let blocks := clear_bits DATA_ROUNDS ROOT_DATA_BLOCK needed bbm in
        if (length blocks <? needed)%nat then ret None
        else
          let direct := default junk (head blocks) in
          let bbm1 := foldl bitmap_set bbm blocks in
          try* indirect :=
            (if (1 <? length blocks)%nat then
               match first_clear DATA_ROUNDS ROOT_DATA_BLOCK bbm1 with
               | None => ret None
               | Some b => do* write_at (b * TINYFS_BLOCK_SIZE) (table_bytes (tail blocks)) in ret (Some b)
               end
             else ret (Some 0)) else None in
          do* write_at (direct * TINYFS_BLOCK_SIZE) (take 4096 file) in
          try* _ :=
            (if negb (indirect =? 0) && (0 <? length (drop 4096 file))%nat then
               try* t := read_at (indirect * TINYFS_BLOCK_SIZE) 4096 else None in
               do* write_chunks 1024 0 t (drop 4096 file) in ret (Some tt)
             else ret (Some tt)) else None in
          let ibm1 := bitmap_set ibm inum in
          let bbm2 := if negb (indirect =? 0) then bitmap_set bbm1 indirect else bbm1 in
          let i := Inode (Z.lor TINYFS_TYPE_FILE TINYFS_MODE_755) 0 file_size 0 0 0 (u32 direct)
                     (u32 indirect) 1 0 (zeros 16) in
          let table1 := splice (64 * Z.to_nat inum) (inode_bytes i) table in
          link_entry dst inum ibm1 bbm2 table1
    end.
