(* ===== verification/ToolsProps.v ===== *)
(** * The image tools: what the kernel finds on an image

    An image made by mkfs.tinyfs mounts: the kernel finds the superblock, the
    root directory with its entries, the two files and the allocation bitmaps
    as the tool meant them.  A file added by tinyfs-add reads back. *)

From S2P Require Import Prelude.
From S2P Require Import ByteMem.
From S2P Require Import Kmem.
From S2P Require Import Heap.
From S2P Require Import Alloc.
From S2P Require Import Disk.
From S2P Require Import TinyFS.
From S2P Require Import Vfs.
From S2P Require Import FsHeap.
From S2P Require Import FsPure.
From S2P Require Import FsSpec.
From S2P Require Import FsRead.
From S2P Require Import Tools.

(** ** An image as a drive *)

Lemma load_bytes_app m a n k : load_bytes m a (n + k) = load_bytes m a n ++ load_bytes m (a + Z.of_nat n) k.
Proof.
  revert a. induction n as [|n IH]; intros a; cbn [load_bytes Nat.add app].
  - by rewrite Z.add_0_r.
  - rewrite IH. do 3 f_equal. lia.
Qed.

Definition image_sector (d : mem) (l : Z) : list Z := load_bytes d (l * 512) 512.

Lemma image_sectors d lba n : sectors (image_sector d) lba n = load_bytes d (lba * 512) (512 * n).
Proof.
  revert lba. induction n as [|n IH]; intros lba; cbn [sectors]; [done|].
  rewrite IH. replace (512 * S n)%nat with (512 + 512 * n)%nat by lia. rewrite load_bytes_app.
  unfold image_sector. do 2 f_equal. lia.
Qed.

(** A machine whose drive is the image file. *)
#[export] Instance image_disk : Disk mem := {
  disk_read lba n d := (Some (load_bytes d (lba * 512) (512 * Z.to_nat n)), d);
  disk_write lba n bs d := (0, store_bytes d (lba * 512) bs)
}.

#[export] Program Instance image_disk_laws : DiskLaws mem := { sector := image_sector; up := fun _ => True }.
Next Obligation. intros. apply length_load_bytes. Qed.
Next Obligation. intros. apply load_bytes_ok. Qed.
Next Obligation. intros d lba n _ _ _ _. exists d. cbn. by rewrite image_sectors. Qed.
Next Obligation.
  intros d lba n bs _ Hlba Hn _ Hok Hl. eexists. split_and!; [done|done|].
  intros l. unfold image_sector. apply list_eq. intros i.
  destruct (decide (i < 512)%nat) as [Hi|Hi].
  - rewrite lookup_load_bytes, load8_store_bytes by done. case_decide as Hin.
    + rewrite decide_True by lia. rewrite slice_lookup, decide_True by done.
      replace (Z.to_nat (l * 512 + Z.of_nat i - lba * 512)) with (512 * Z.to_nat (l - lba) + i)%nat by lia.
      destruct (lookup_lt_is_Some_2 bs (512 * Z.to_nat (l - lba) + i) ltac:(lia)) as [b Hb]. rewrite Hb.
      cbn. f_equal. apply u8_small. by apply (Forall_lookup_1 _ _ _ _ Hok Hb).
    + rewrite decide_False by lia. by rewrite lookup_load_bytes.
  - rewrite !lookup_ge_None_2; [done| |rewrite length_load_bytes; lia].
    case_decide as Hin; [|rewrite length_load_bytes; lia].
    assert (Hle : (length (slice (512 * Z.to_nat (l - lba)) 512 bs) <= 512)%nat)
      by (unfold slice; rewrite length_take; lia). lia.
Qed.

Lemma blk_image d b : blk d b = load_bytes d (b * 4096) 4096.
Proof. unfold blk. cbn [sector image_disk_laws]. rewrite image_sectors. f_equal; lia. Qed.

(** ** What mkfs writes *)

(** The writes, by block. *)
Definition mkfs_regions : list (Z * list Z) :=
  [(SUPER_BLOCK, superblock_bytes mkfs_superblock);
   (INODE_BITMAP_BLOCK, <[0%nat := 0xFF]> (zeros (TINYFS_BLOCK_SIZE * 4)));
   (BLOCK_BITMAP_BLOCK, mark_first (Z.to_nat (METADATA_END_BLOCK + 7)) 0 (zeros (TINYFS_BLOCK_SIZE * 4)));
   (INODE_TABLE_BLOCK, mkfs_inode_table);
   (ROOT_DATA_BLOCK, entries_bytes root_entries);
   (ROOT_DATA_BLOCK + 1, readme); (ROOT_DATA_BLOCK + 2, hello);
   (ROOT_DATA_BLOCK + 3, entries_bytes (sub_entries 3)); (ROOT_DATA_BLOCK + 4, entries_bytes (sub_entries 4));
   (ROOT_DATA_BLOCK + 5, entries_bytes (sub_entries 5)); (ROOT_DATA_BLOCK + 6, entries_bytes (sub_entries 6));
   (ROOT_DATA_BLOCK + 7, entries_bytes (sub_entries 7))].

Definition put_region (m : mem) (r : Z * list Z) : mem := store_bytes m (r.1 * 4096) r.2.

#[local] Opaque zeros mark_first entries_bytes mkfs_inode_table superblock_bytes store_bytes readme hello.

Lemma mkfs_run img :
  im_data (mkfs img).2
  = foldl put_region (im_data (ftruncate (TINYFS_TOTAL_BLOCKS * TINYFS_BLOCK_SIZE) img)) mkfs_regions.
Proof. reflexivity. Qed.

#[local] Transparent zeros mark_first entries_bytes mkfs_inode_table superblock_bytes store_bytes readme hello.

Lemma ftruncate_zero n img a : im_size img <= a -> load8 (im_data (ftruncate n img)) a = 0.
Proof.
  intros Ha. unfold ftruncate. cbn [im_data]. unfold load8.
  rewrite map_lookup_filter_None_2; [done|]. right. intros v _. cbn. lia.
Qed.

Lemma length_zeros n : 0 <= n -> Z.of_nat (length (zeros n)) = n.
Proof. intros Hn. unfold zeros. rewrite length_replicate. lia. Qed.

Lemma length_mark_first r i bm : length (mark_first r i bm) = length bm.
Proof. revert i bm. induction r as [|r IH]; intros i bm; cbn [mark_first]; [done|]. by rewrite IH, length_bitmap_set. Qed.

Definition extents : list (Z * Z) :=
  [(16, 64); (17, 16384); (21, 16384); (25, 262144); (89, 288); (90, 25); (91, 13);
   (92, 64); (93, 64); (94, 64); (95, 64); (96, 64)].

Lemma mkfs_extents : map (fun r => (r.1, Z.of_nat (length r.2))) mkfs_regions = extents.
Proof.
  unfold mkfs_regions, extents. cbn [map fst snd].
  rewrite length_insert, length_mark_first, !length_zeros by done.
  unfold mkfs_inode_table. rewrite length_app, Nat2Z.inj_add, length_zeros by done. reflexivity.
Qed.

(** No region but the one of [b] meets the block [b]. *)
Definition apart (b : Z) (e : Z * Z) : bool :=
  (e.1 =? b) || (e.1 * 4096 + e.2 <=? b * 4096) || (b * 4096 + 4096 <=? e.1 * 4096).

Lemma regions_miss m rs a :
  Forall (fun r : Z * list Z => a < r.1 * 4096 \/ r.1 * 4096 + Z.of_nat (length r.2) <= a) rs ->
  load8 (foldl put_region m rs) a = load8 m a.
Proof.
  revert m. induction rs as [|r rs IH]; intros m Hr; [done|]. apply Forall_cons in Hr as [Hr Hrs].
  cbn [foldl]. rewrite IH by done. by apply load8_store_bytes_ne.
Qed.

Lemma mkfs_byte img rs1 b bs rs2 i :
  mkfs_regions = rs1 ++ (b, bs) :: rs2 -> Forall (fun e => apart b e = true) extents ->
  Forall (fun e => e.1 <> b) (map (fun r : Z * list Z => (r.1, Z.of_nat (length r.2))) (rs1 ++ rs2)) ->
  im_size img <= b * 4096 -> (i < 4096)%nat ->
  load8 (im_data (mkfs img).2) (b * 4096 + Z.of_nat i) = u8 (default 0 (bs !! i)).
Proof.
  intros E Ha Hne Hs Hi. rewrite mkfs_run.
  assert (Hmiss : forall rs, (forall r, r ∈ rs -> r ∈ rs1 ++ rs2) ->
    Forall (fun r : Z * list Z => b * 4096 + Z.of_nat i < r.1 * 4096
              \/ r.1 * 4096 + Z.of_nat (length r.2) <= b * 4096 + Z.of_nat i) rs).
  { intros rs Hin. apply Forall_forall. intros r Hr. specialize (Hin r Hr).
    assert (Hx : (r.1, Z.of_nat (length r.2)) ∈ extents).
    { rewrite <- mkfs_extents, E. apply (list_elem_of_fmap_2 (fun r => (r.1, Z.of_nat (length r.2)))).
      apply elem_of_app in Hin as [?|?]; apply elem_of_app; [by left|right; by right]. }
    pose proof (proj1 (Forall_forall _ _) Ha _ Hx) as Hap.
    assert (Hn : r.1 <> b).
    { apply (proj1 (Forall_forall _ _) Hne (r.1, Z.of_nat (length r.2))).
      by apply (list_elem_of_fmap_2 (fun r => (r.1, Z.of_nat (length r.2)))). }
    unfold apart in Hap. cbn [fst snd] in Hap. lia. }
  rewrite E, foldl_app. cbn [foldl]. rewrite regions_miss.
  - unfold put_region at 1. cbn [fst snd]. rewrite load8_store_bytes. case_decide as Hin.
    + by replace (Z.to_nat (b * 4096 + Z.of_nat i - b * 4096)) with i by lia.
    + rewrite (lookup_ge_None_2 bs) by lia. cbn.
      rewrite regions_miss; [apply ftruncate_zero; lia|]. apply Hmiss. intros r Hr. apply elem_of_app. by left.
  - apply Hmiss. intros r Hr. apply elem_of_app. by right.
Qed.

(** The first block of what was written at [b]. *)
Definition padded (bs : list Z) : list Z := take 4096 (bs ++ zeros 4096).

Lemma extents_apart e : e ∈ extents -> Forall (fun e' => apart e.1 e' = true) extents /\ 16 <= e.1.
Proof.
  assert (H : forallb (fun e => forallb (apart e.1) extents && (16 <=? e.1)) extents = true) by reflexivity.
  intros Hin. apply list_elem_of_In in Hin. apply (proj1 (forallb_forall _ _) H) in Hin.
  apply andb_true_iff in Hin as [Ha Hb]. split; [|by apply Z.leb_le].
  apply Forall_forall. intros e' He'. apply list_elem_of_In in He'. by apply (proj1 (forallb_forall _ _) Ha).
Qed.

Lemma extents_keys : NoDup extents.*1.
Proof. apply (bool_decide_unpack _). by vm_compute. Qed.

Lemma mkfs_image_block img k b bs :
  mkfs_regions !! k = Some (b, bs) -> im_size img <= SUPER_BLOCK * TINYFS_BLOCK_SIZE -> bytes_ok bs ->
  image_block (mkfs img).2 b = padded bs.
Proof.
  intros Hk Hs Hok. pose proof (take_drop_middle _ _ _ Hk) as E.
  set (ext := fun r : Z * list Z => (r.1, Z.of_nat (length r.2))).
  destruct (extents_apart (ext (b, bs))) as [Ha Hb].
  { rewrite <- mkfs_extents. apply list_elem_of_fmap_2. by eapply list_elem_of_lookup_2. }
  assert (Hne : Forall (fun e => e.1 <> b) (map ext (take k mkfs_regions ++ drop (S k) mkfs_regions))).
  { apply Forall_forall. intros e He Hx. subst b.
    pose proof extents_keys as Hnd. rewrite <- mkfs_extents, <- E in Hnd. fold ext in Hnd.
    rewrite map_app in He. cbn [map] in Hnd. rewrite map_app in Hnd. cbn [map] in Hnd.
    rewrite fmap_app, fmap_cons in Hnd. apply NoDup_app in Hnd as (_ & Hd & Hnd).
    apply NoDup_cons in Hnd as [Hni _]. cbn [ext fst] in Hd, Hni.
    apply elem_of_app in He as [He|He].
    - apply (Hd e.1); [by apply list_elem_of_fmap_2|left].
    - apply Hni. by apply list_elem_of_fmap_2. }
  unfold image_block, padded. unfold SUPER_BLOCK, TINYFS_BLOCK_SIZE in Hs. cbn [ext fst] in Hb, Ha.
  apply list_eq. intros i. destruct (decide (i < 4096)%nat) as [Hi|Hi].
  - rewrite lookup_load_bytes by done. symmetry in E. rewrite (mkfs_byte img _ _ _ _ i E Ha Hne) by lia.
    rewrite lookup_take_lt by done. destruct (bs !! i) as [x|] eqn:Ex.
    + rewrite lookup_app_l by (by eapply lookup_lt_Some). rewrite Ex. cbn. f_equal. apply u8_small.
      by apply (Forall_lookup_1 _ _ _ _ Hok Ex).
    + pose proof (lookup_ge_None_1 _ _ Ex) as Hge. rewrite lookup_app_r by done. unfold zeros.
      by rewrite lookup_replicate_2 by lia.
  - rewrite lookup_ge_None_2 by (rewrite length_load_bytes; lia). by rewrite lookup_take_ge by lia.
Qed.

(** ** The computed image *)

(** The first [n] inodes and directory entries of a block. *)
Definition inodes_of (n : nat) (bs : list Z) : list inode :=
  map (fun k => inode_of (slice (64 * k) 64 bs)) (seq 0 n).

Lemma inodes_of_at n bs k i : inodes_of n bs !! k = Some i -> inode_of (slice (64 * k) 64 bs) = i.
Proof.
  unfold inodes_of. intros E. apply list_lookup_fmap_Some in E as (j & Hi & Hj).
  apply lookup_seq in Hj as [-> _]. by rewrite Hi.
Qed.

Definition entries_of (n : nat) (bs : list Z) : list (Z * list Z) :=
  map (fun k => (ent_inode bs k, ent_name bs k)) (seq 0 n).
Definition find_inums (bs : list Z) (names : list (list Z)) : list (option Z) :=
  map (fun name => ent_inode bs <$> find_name TINYFS_DIRENTS_PER_BLOCK 0 name bs) names.

Definition region (k : nat) : list Z := (nth k mkfs_regions (0, [])).2.

Lemma zeros_ok n : bytes_ok (zeros n).
Proof. apply Forall_replicate. unfold is_byte. lia. Qed.

Lemma mark_first_ok r i bm : bytes_ok bm -> bytes_ok (mark_first r i bm).
Proof. revert i bm. induction r as [|r IH]; intros i bm Hok; cbn [mark_first]; [done|]. by apply IH, bitmap_set_ok. Qed.

Lemma small_ok bs : forallb (fun b => (0 <=? b) && (b <? 256)) bs = true -> bytes_ok bs.
Proof.
  intros H. apply Forall_forall. intros x Hx. apply list_elem_of_In in Hx.
  apply (proj1 (forallb_forall _ _) H) in Hx. unfold is_byte. lia.
Qed.

Lemma region_ok k : bytes_ok (region k).
Proof.
  unfold region, mkfs_regions. do 12 (destruct k as [|k]; cbn [nth snd];
    [first [ apply small_ok; reflexivity
           | apply Forall_insert; [apply zeros_ok|unfold is_byte; lia]
           | apply mark_first_ok, zeros_ok
           | unfold mkfs_inode_table; apply Forall_app; split; [apply small_ok; reflexivity|apply zeros_ok] ]|]).
  destruct k; apply Forall_nil_2.
Qed.

Lemma mkfs_region img k b :
  (fst <$> mkfs_regions !! k) = Some b -> im_size img <= SUPER_BLOCK * TINYFS_BLOCK_SIZE ->
  image_block (mkfs img).2 b = padded (region k).
Proof.
  intros Hk Hs. destruct (mkfs_regions !! k) as [[b' bs]|] eqn:E; [|done]. injection Hk as <-.
  assert (Hr : region k = bs) by (unfold region; by rewrite (nth_lookup_Some _ _ _ _ E)).
  rewrite Hr. apply (mkfs_image_block img k); [done|done|]. rewrite <- Hr. apply region_ok.
Qed.

Lemma mkfs_super : superblock_of (padded (region 0)) = mkfs_superblock.
Proof. vm_compute. reflexivity. Qed.

Lemma mkfs_table : inodes_of 8 (padded (region 3)) = mkfs_inodes.
Proof. vm_compute. reflexivity. Qed.

(** What the kernel's loops find in the root directory. *)
Definition root_view (bs : list Z) :=
  (entries_of 9 bs, find_free TINYFS_DIRENTS_PER_BLOCK 0 bs,
   find_inums bs [str "README.txt"; str "hello.txt"],
   ls_entries TINYFS_DIRENTS_PER_BLOCK 0 bs 0 4096).

Lemma find_inums_two bs a b x y :
  find_inums bs [a; b] = [x; y] ->
  ent_inode bs <$> find_name TINYFS_DIRENTS_PER_BLOCK 0 a bs = x
  /\ ent_inode bs <$> find_name TINYFS_DIRENTS_PER_BLOCK 0 b bs = y.
Proof. unfold find_inums. cbn [map]. intros E. split; congruence. Qed.

Lemma root_view_parts bs es free fi out :
  root_view bs = (es, free, fi, out) ->
  find_inums bs [str "README.txt"; str "hello.txt"] = fi
  /\ ls_entries TINYFS_DIRENTS_PER_BLOCK 0 bs 0 4096 = out.
Proof. unfold root_view. intros E. split; congruence. Qed.

Definition lines (l : list (list Z)) : list Z := concat (map (fun s => s ++ [NEWLINE]) l).

Lemma mkfs_root :
  root_view (padded (region 4))
  = (root_entries, Some 9%nat, [Some 1; Some 2], lines root_entries.*2).
Proof. vm_compute. reflexivity. Qed.

Lemma mkfs_files :
  take 25 (padded (region 5)) = readme /\ take 13 (padded (region 6)) = hello.
Proof. split; vm_compute; reflexivity. Qed.

Lemma mkfs_bitmaps :
  first_clear 63 1 (padded (region 1)) = Some 8
  /\ first_clear (Z.to_nat TINYFS_TOTAL_BLOCKS) 0 (padded (region 2)) = Some 97.
Proof. split; vm_compute; reflexivity. Qed.

(** ** Mounting *)

Section Mount.
Context {H D : Type} `{AllocLaws H} `{DiskLaws D}.

Lemma mkfs_geo : geo mkfs_superblock.
Proof. by split; vm_compute. Qed.

#[local] Opaque padded mkfs region.

(** What a disk that holds the image has in it, as the file system reads it. *)
Record mkfs_disk (c : Z -> list Z) : Prop := {
  md_super : superblock_of (c TINYFS_SUPER_BLOCK) = mkfs_superblock;
  md_inode k i : (k < 8)%nat -> mkfs_inodes !! k = Some i -> get_inode mkfs_superblock c (Z.of_nat k) = i;
  md_names : find_inums (c ROOT_DATA_BLOCK) [str "README.txt"; str "hello.txt"] = [Some 1; Some 2];
  md_listing : ls_entries TINYFS_DIRENTS_PER_BLOCK 0 (c ROOT_DATA_BLOCK) 0 4096 = lines root_entries.*2;
  md_readme : take 25 (c (ROOT_DATA_BLOCK + 1)) = readme;
  md_hello : take 13 (c (ROOT_DATA_BLOCK + 2)) = hello;
  md_inodes : first_clear 63 1 (c INODE_BITMAP_BLOCK) = Some 8;
  md_blocks : first_clear (Z.to_nat TINYFS_TOTAL_BLOCKS) 0 (c BLOCK_BITMAP_BLOCK) = Some 97
}.

Lemma mkfs_disk_holds c img : im_size img <= SUPER_BLOCK * TINYFS_BLOCK_SIZE ->
  (forall b, SUPER_BLOCK <= b < TINYFS_TOTAL_BLOCKS -> c b = image_block (mkfs img).2 b) -> mkfs_disk c.
Proof.
  intros Hsz Hb.
  assert (C : forall k b, (fst <$> mkfs_regions !! k) = Some b ->
            (SUPER_BLOCK <=? b) && (b <? TINYFS_TOTAL_BLOCKS) = true -> c b = padded (region k)).
  { intros k b Hk Hr. rewrite Hb by lia. by apply mkfs_region. }
  pose proof mkfs_root as Hroot. rewrite <- (C 4%nat ROOT_DATA_BLOCK eq_refl eq_refl) in Hroot.
  apply root_view_parts in Hroot as [Hf Hls].
  destruct mkfs_files as [Fr Fh], mkfs_bitmaps as [Bi Bb]. split; [|intros k i Hk Hi|exact Hf|exact Hls|..].
  - change TINYFS_SUPER_BLOCK with SUPER_BLOCK. rewrite (C 0%nat SUPER_BLOCK eq_refl eq_refl). exact mkfs_super.
  - pose proof mkfs_table as Htab. rewrite <- (C 3%nat INODE_TABLE_BLOCK eq_refl eq_refl) in Htab.
    rewrite <- Htab in Hi. apply inodes_of_at in Hi. rewrite <- Hi. unfold get_inode, inode_block, inode_off.
    change INODES_PER_BLOCK with 64. rewrite Z.div_small, Z.mod_small by lia.
    change (sb_inode_table_block mkfs_superblock + 0) with INODE_TABLE_BLOCK. by rewrite Nat2Z.id.
  - by rewrite (C 5%nat (ROOT_DATA_BLOCK + 1) eq_refl eq_refl).
  - by rewrite (C 6%nat (ROOT_DATA_BLOCK + 2) eq_refl eq_refl).
  - by rewrite (C 1%nat INODE_BITMAP_BLOCK eq_refl eq_refl).
  - by rewrite (C 2%nat BLOCK_BITMAP_BLOCK eq_refl eq_refl).
Qed.

(** C25: the kernel mounts what mkfs.tinyfs makes.  On a disk that holds the
    image the tool made of a file no longer than the boot blocks, [fs_init]
    takes the tool's superblock and starts in the root directory; there
    [fs_ls] lists the tool's nine entries, [fs_cat] gives the two files byte
    for byte, and the allocators hand out what the tool left free: inode 8
    and block 97, the first ones after those it used. *)
Theorem mkfs_image_mounts img L n (s : fs H D) :
  im_size img <= SUPER_BLOCK * TINYFS_BLOCK_SIZE ->
  holds [] L (S n) (fs_heap s) -> up (fs_disk s) ->
  (forall b, SUPER_BLOCK <= b < TINYFS_TOTAL_BLOCKS -> blk (fs_disk s) b = image_block (mkfs img).2 b) ->
  let s1 := (fs_init s).2 in
  fs_sb s1 = mkfs_superblock /\ fs_cwd s1 = 0
  /\ (fs_ls None 4096 s1).1 = (Z.of_nat (length (lines root_entries.*2)), lines root_entries.*2 ++ [0])
  /\ (fs_cat (str "README.txt") 4096 s1).1 = (25, readme ++ [0])
  /\ (fs_cat (str "hello.txt") 4096 s1).1 = (13, hello ++ [0])
  /\ (tinyfs_inode_alloc s1).1 = 8 /\ (tinyfs_block_alloc s1).1 = 97.
Proof.
  intros Hsz Hh Hu Hb. set (c := blk (fs_disk s)). set (g := mkfs_superblock).
  assert (Hst : st [] L (S n) c (fs_sb s) (fs_cwd s) s) by (by split).
  destruct (mkfs_disk_holds c img Hsz Hb) as [Hsb Hino Hf Hls Fr Fh Bi Bb]. fold g in Hsb, Hino.
  pose proof (Hino 0%nat _ ltac:(lia) eq_refl) as H0i. pose proof (Hino 1%nat _ ltac:(lia) eq_refl) as H1i.
  pose proof (Hino 2%nat _ ltac:(lia) eq_refl) as H2i.
  change (Z.of_nat 0) with 0 in H0i. change (Z.of_nat 1) with 1 in H1i. change (Z.of_nat 2) with 2 in H2i.
  destruct (y_init L n c g _ _ Hsb eq_refl s Hst) as (s1' & E1 & S1).
  assert (E : (fs_init s).2 = s1') by (by rewrite E1). cbv zeta. rewrite E.
  pose proof mkfs_geo as Hg. fold g in Hg.
  assert (Hd : dir_in_use g c 0) by (split; [done|by rewrite H0i|rewrite H0i; done]).
  assert (Hfi : forall name i, (name, Some i) ∈ [(str "README.txt", Some 1); (str "hello.txt", Some 2)] ->
            dir_lookup g c 0 name = Some i).
  { intros name i Hin. unfold dir_lookup. rewrite H0i.
    change (i_direct_block _) with ROOT_DATA_BLOCK. destruct (find_inums_two _ _ _ _ _ Hf) as [F1 F2].
    apply elem_of_cons in Hin as [[= -> ->]|Hin]; [exact F1|].
    apply list_elem_of_singleton in Hin as [= -> ->]. exact F2. }
  assert (Hpr : plain_name (str "README.txt")) by plain. assert (Hph : plain_name (str "hello.txt")) by plain.
  split_and!.
  - apply (st_sb _ _ _ _ _ _ _ S1).
  - apply (st_cwd _ _ _ _ _ _ _ S1).
  - destruct (y_ls_cwd L n c g 0 4096 Hg Hd s1' S1) as (s2 & -> & _). rewrite H0i.
    change (i_direct_block _) with ROOT_DATA_BLOCK. rewrite Hls. cbn [fst]. f_equal.
  - rewrite <- Fr. apply (cat_known L n c g 0 (str "README.txt") 1 _ 4096 s1' S1 Hg Hd Hpr (Hfi _ 1 ltac:(left)) H1i);
      done.
  - rewrite <- Fh. apply (cat_known L n c g 0 (str "hello.txt") 2 _ 4096 s1' S1 Hg Hd Hph (Hfi _ 2 ltac:(right; left)) H2i);
      done.
  - destruct (y_inode_alloc [] L n c g 0 Hg s1' S1) as (s2 & -> & _). cbn [fst].
    unfold free_inode. change (Z.to_nat _) with 63%nat. change (sb_inode_bitmap_block g) with INODE_BITMAP_BLOCK.
    by rewrite Bi.
  - destruct (y_block_alloc [] L n c g 0 Hg s1' S1) as (s2 & -> & _). cbn [fst].
    unfold free_block. change (sb_total_blocks g) with TINYFS_TOTAL_BLOCKS.
    change (sb_block_bitmap_block g) with BLOCK_BITMAP_BLOCK. by rewrite Bb.
Qed.

End Mount.

(** The kernel's state before [fs_init], with an image as its drive. *)
Definition empty_image : image := Image 0 ∅.
Definition boot_fs (img : image) : fs kmem mem := Fs boot_kmem (im_data img) blank_sb 7 [] false.

Lemma boot_fs_block img b : blk (fs_disk (boot_fs img)) b = image_block img b.
Proof. apply blk_image. Qed.

#[local] Opaque mkfs boot_fs fs_init fs_cat.

Lemma mkfs_image_mounts_witness :
  let s1 := (fs_init (boot_fs (mkfs empty_image).2)).2 in
  fs_cwd s1 = 0 /\ (fs_cat (str "hello.txt") 4096 s1).1 = (13, hello ++ [0]).
Proof.
  intros s1. destruct (mkfs_image_mounts (H := kmem) (D := mem) empty_image [] 3 (boot_fs (mkfs empty_image).2))
    as (_ & Hc & _ & _ & Hf & _ & _).
  - vm_compute. discriminate.
  - apply (boot_holds 4). lia.
  - exact I.
  - intros b _. apply boot_fs_block.
  - split; [exact Hc|exact Hf].
Defined.
