(* ===== verification/ToolsAdd.v ===== *)
(** * A file added by tinyfs-add reads back

    The bytes tinyfs-add leaves in an image for a file of one block, block by
    block, and what the kernel then finds there. *)

From S2P Require Import Prelude.
From S2P Require Import ByteMem.
From S2P Require Import Kmem.
From S2P Require Import Heap.
From S2P Require Import Alloc.
From S2P Require Import Disk.
From S2P Require Import TinyFS.
From S2P Require Import Vfs.
From S2P Require Import FsHeap.
From S2P Require Import FsPure.
From S2P Require Import FsSpec.
From S2P Require Import FsProps.
From S2P Require Import FsRead.
From S2P Require Import Tools.
From S2P Require Import ToolsProps.

(** ** Loads of ranges *)

Lemma load_store_out m o bs a n :
  a + Z.of_nat n <= o \/ o + Z.of_nat (length bs) <= a ->
  load_bytes (store_bytes m o bs) a n = load_bytes m a n.
Proof. intros H. apply load_bytes_ext. intros x Hx. apply load8_store_bytes_ne. lia. Qed.

Lemma load_store_in m o bs a n :
  bytes_ok bs -> o <= a -> a + Z.of_nat n <= o + Z.of_nat (length bs) ->
  load_bytes (store_bytes m o bs) a n = slice (Z.to_nat (a - o)) n bs.
Proof.
  intros Hok Ho Ha. apply list_eq. intros i. rewrite slice_lookup. case_decide as Hi.
  - rewrite lookup_load_bytes, load8_store_bytes, decide_True by lia.
    replace (Z.to_nat (a + Z.of_nat i - o)) with (Z.to_nat (a - o) + i)%nat by lia.
    destruct (lookup_lt_is_Some_2 bs (Z.to_nat (a - o) + i) ltac:(lia)) as [b Hb]. rewrite Hb.
    cbn. f_equal. apply u8_small. by apply (Forall_lookup_1 _ _ _ _ Hok Hb).
  - apply lookup_ge_None_2. rewrite length_load_bytes. lia.
Qed.

Lemma load_bytes_take m a n k : (k <= n)%nat -> take k (load_bytes m a n) = load_bytes m a k.
Proof.
  intros Hk. replace n with (k + (n - k))%nat by lia. rewrite load_bytes_app.
  by rewrite take_app_length' by (by rewrite length_load_bytes).
Qed.

Lemma load_bytes_slice m a n k : (k <= n)%nat -> forall off, (off + k <= n)%nat ->
  slice off k (load_bytes m a n) = load_bytes m (a + Z.of_nat off) k.
Proof.
  intros Hk off Ho. unfold slice. replace n with (off + (n - off))%nat at 1 by lia. rewrite load_bytes_app.
  rewrite drop_app_length' by (by rewrite length_load_bytes). apply load_bytes_take. lia.
Qed.

Lemma read_at_run o n img :
  o + Z.of_nat n <= im_size img -> read_at o n img = (Some (load_bytes (im_data img) o n), img).
Proof. intros H. unfold read_at. by rewrite (proj2 (Z.leb_le _ _)). Qed.

Lemma char_at_load m a n k : (k < n)%nat -> char_at (load_bytes m a n) k = load8 m (a + Z.of_nat k).
Proof. intros Hk. unfold char_at. by rewrite lookup_load_bytes. Qed.

Lemma clear_bits_one r b bm :
  clear_bits r b 1 bm = match first_clear r b bm with Some x => [x] | None => [] end.
Proof.
  revert b. induction r as [|r IH]; intros b; cbn [clear_bits first_clear]; [done|].
  destruct (negb (bitmap_test bm b)); [|apply IH]. by destruct r.
Qed.

(** ** One file in the root directory *)

(** The image before: the tool's superblock, and the root's block. *)
Record root_image (img : image) (r : Z) : Prop := {
  ri_size : im_size img = TINYFS_TOTAL_BLOCKS * TINYFS_BLOCK_SIZE;
  ri_super : superblock_of (image_block img SUPER_BLOCK) = mkfs_superblock;
  ri_dir : is_dir (get_inode mkfs_superblock (image_block img) 0) = true;
  ri_root : i_direct_block (get_inode mkfs_superblock (image_block img) 0) = r;
  ri_range : ROOT_DATA_BLOCK <= r < TINYFS_TOTAL_BLOCKS;
  ri_used : bitmap_test (image_block img BLOCK_BITMAP_BLOCK) r = true;
  ri_block : dir_block_ok (image_block img r)
}.

Definition added_inode (size block : Z) : inode :=
  Inode (Z.lor TINYFS_TYPE_FILE TINYFS_MODE_755) 0 size 0 0 0 block 0 1 0 (zeros 16).

Definition added_table (img : image) (b0 inum : Z) (file : list Z) : list Z :=
  splice (64 * Z.to_nat inum) (inode_bytes (added_inode (Z.of_nat (length file)) (u32 b0)))
    (load_bytes (im_data img) (INODE_TABLE_BLOCK * TINYFS_BLOCK_SIZE) TABLE_BYTES).

Lemma added_inode_ok size block :
  0 <= size < 2 ^ 32 -> 0 <= block < 2 ^ 32 -> inode_ok (added_inode size block).
Proof.
  intros Hs Hb. split; unfold added_inode; cbn [i_mode i_uid i_size i_atime i_mtime i_ctime
    i_direct_block i_indirect_block i_refcount i_padding1 i_padding2];
    first [exact Hs | exact Hb | apply zeros_ok | reflexivity | by vm_compute].
Qed.

(** What the run leaves: the file in block [b0], the inode [inum], the entry
    in [slot], the bitmaps. *)
Definition added (img : image) (r b0 inum : Z) (slot : nat) (file name : list Z) : mem :=
  let m := im_data img in
  let ibm := load_bytes m (INODE_BITMAP_BLOCK * TINYFS_BLOCK_SIZE) BITMAP_BYTES in
  let bbm := load_bytes m (BLOCK_BITMAP_BLOCK * TINYFS_BLOCK_SIZE) BITMAP_BYTES in
  let root := get_inode mkfs_superblock (image_block img) 0 in
  let m := store_bytes m (b0 * TINYFS_BLOCK_SIZE) file in
  let m := store_bytes m (inode_offset 0) (inode_bytes (set_size ((Z.of_nat slot + 1) * SIZEOF_DIRENT) root)) in
  let m := store_bytes m (INODE_BITMAP_BLOCK * TINYFS_BLOCK_SIZE) (bitmap_set ibm inum) in
  let m := store_bytes m (BLOCK_BITMAP_BLOCK * TINYFS_BLOCK_SIZE) (bitmap_set bbm b0) in
  let m := store_bytes m (INODE_TABLE_BLOCK * TINYFS_BLOCK_SIZE) (added_table img b0 inum file) in
  store_bytes m (r * TINYFS_BLOCK_SIZE) (splice (ent_off slot) (dirent_bytes inum name) (image_block img r)).

Lemma image_inode img inum :
  0 <= inum < 4096 ->
  get_inode mkfs_superblock (image_block img) inum = inode_of (load_bytes (im_data img) (inode_offset inum) 64).
Proof.
  intros Hi. unfold get_inode, inode_block, inode_off, image_block. change INODES_PER_BLOCK with 64.
  rewrite load_bytes_slice by zlia. f_equal. f_equal. unfold inode_offset.
  change (sb_inode_table_block mkfs_superblock) with 25. change (INODE_TABLE_BLOCK * TINYFS_BLOCK_SIZE) with 102400.
  change SIZEOF_INODE with 64. zlia.
Qed.

Lemma find_last_slash_none name i last : no_slash name -> find_last_slash name i last = last.
Proof.
  intros Hn. revert i last. induction Hn as [|c name Hc Hn IH]; intros i last; cbn [find_last_slash]; [done|].
  rewrite IH. by destruct (Z.eqb_spec c SLASH).
Qed.

Lemma dst_names_plain name : no_slash name -> (length name <= 27)%nat -> dst_names name = ([], name).
Proof. intros Hn Hl. unfold dst_names. rewrite find_last_slash_none by done. by rewrite take_ge. Qed.

Lemma bitmap_test_load m a n b :
  0 <= b < 8 * Z.of_nat n ->
  bitmap_test (load_bytes m a n) b = Z.testbit (load8 m (a + b / 8)) (b mod 8).
Proof.
  intros Hb. rewrite test_testbit by lia. rewrite char_at_load by zlia. do 2 f_equal. zlia.
Qed.

(** The read-and-write steps of the tool on the image. *)
Lemma write_at_run o bs img :
  o + Z.of_nat (length bs) <= im_size img ->
  write_at o bs img = (tt, Image (im_size img) (store_bytes (im_data img) o bs)).
Proof. intros Ho. unfold write_at, modify. rewrite Z.max_l by done. by destruct (_ =? _). Qed.

Lemma length_dirent_bytes inum name : (length name <= 28)%nat -> length (dirent_bytes inum name) = 32%nat.
Proof.
  intros Hl. unfold dirent_bytes, zeros. rewrite !length_app, length_le_bytes, length_replicate. lia.
Qed.

Lemma link_entry_run name inum ibm bbm table img root r block :
  no_slash name -> (length name <= 27)%nat -> im_size img = TINYFS_TOTAL_BLOCKS * TINYFS_BLOCK_SIZE ->
  length ibm = BITMAP_BYTES -> length bbm = BITMAP_BYTES -> length table = TABLE_BYTES ->
  inode_of (load_bytes (im_data img) (inode_offset 0) 64) = root -> is_dir root = true ->
  length (i_padding2 root) = 16%nat -> i_direct_block root = r -> 0 <= r < TINYFS_TOTAL_BLOCKS ->
  load_bytes (im_data img) (r * TINYFS_BLOCK_SIZE) 4096 = block ->
  link_entry name inum ibm bbm table img
  = match find_free 128 0 block with
    | None => (None, img)
    | Some slot => (Some inum, Image (im_size img)
      (let m := store_bytes (im_data img) (inode_offset 0)
                  (inode_bytes (set_size ((Z.of_nat slot + 1) * SIZEOF_DIRENT) root)) in
       let m := store_bytes m (INODE_BITMAP_BLOCK * TINYFS_BLOCK_SIZE) ibm in
       let m := store_bytes m (BLOCK_BITMAP_BLOCK * TINYFS_BLOCK_SIZE) bbm in
       let m := store_bytes m (INODE_TABLE_BLOCK * TINYFS_BLOCK_SIZE) table in
       store_bytes m (r * TINYFS_BLOCK_SIZE) (splice (ent_off slot) (dirent_bytes inum name) block)))
    end.
Proof.
  intros Hn Hl Hs Li Lb Lt Hi Hd Hp Hr Hrr Hb.
  pose proof (find_free_spec 128 0 block) as Hsl.
  assert (Lblock : length block = 4096%nat) by (rewrite <- Hb; apply length_load_bytes).
  change (Z.of_nat BITMAP_BYTES) with 16384 in *. change TINYFS_TOTAL_BLOCKS with 16384 in *.
  change TINYFS_BLOCK_SIZE with 4096 in *.
  unfold link_entry. rewrite dst_names_plain by done. cbn beta iota.
  unfold resolve_dir, bind, ret, read_inode_at, bind. rewrite read_at_run by (rewrite Hs; vm_compute; discriminate).
  cbn beta iota. unfold ret. rewrite Hi. cbn beta iota. unfold is_dir in Hd. rewrite Hd. cbn [negb].
  rewrite Hr. rewrite read_at_run by (change TINYFS_BLOCK_SIZE with 4096; lia). cbn beta iota.
  change TINYFS_BLOCK_SIZE with 4096. rewrite Hb.
  destruct (find_free 128 0 block) as [slot|]; [|done]. destruct Hsl as [Hsl _].
  assert (Lb' : length (splice (ent_off slot) (dirent_bytes inum name) block) = 4096%nat).
  { rewrite length_splice; [done|]. rewrite length_dirent_bytes by lia. unfold ent_off. lia. }
  assert (Hin : length (inode_bytes (set_size ((Z.of_nat slot + 1) * SIZEOF_DIRENT) root)) = 64%nat)
    by (by apply length_inode_bytes).
  rewrite write_at_run by (cbn [im_size]; rewrite Hin, Hs; vm_compute; discriminate). cbn [im_size im_data].
  rewrite write_at_run by (cbn [im_size]; rewrite Li, Hs; vm_compute; discriminate). cbn [im_size im_data].
  rewrite write_at_run by (cbn [im_size]; rewrite Lb, Hs; vm_compute; discriminate). cbn [im_size im_data].
  rewrite write_at_run by (cbn [im_size]; rewrite Lt, Hs; vm_compute; discriminate). cbn [im_size im_data].
  change (i_direct_block (set_size _ root)) with (i_direct_block root). rewrite Hr.
  rewrite write_at_run by (cbn [im_size]; rewrite Lb', Hs; lia). done.
Qed.

(** What the choices of the run guarantee. *)
Record choice (img : image) (r b0 inum : Z) (slot : nat) : Prop := {
  ch_inum : 4 <= inum < 64;
  ch_block : ROOT_DATA_BLOCK <= b0 < TINYFS_TOTAL_BLOCKS;
  ch_apart : b0 <> r;
  ch_slot : (slot < 128)%nat;
  ch_free : dir_ent (image_block img r) slot = None
}.

(** A block that is in use is not the one the scan finds. *)
Lemma used_apart img r b :
  0 <= r < 16384 -> bitmap_test (image_block img BLOCK_BITMAP_BLOCK) r = true ->
  bitmap_test (load_bytes (im_data img) (BLOCK_BITMAP_BLOCK * TINYFS_BLOCK_SIZE) BITMAP_BYTES) b = false -> b <> r.
Proof.
  intros Hr Hu Hc ->. unfold image_block in Hu. rewrite bitmap_test_load in Hu by lia.
  rewrite bitmap_test_load in Hc by (change (Z.of_nat BITMAP_BYTES) with 16384; lia).
  change TINYFS_BLOCK_SIZE with 4096 in Hc. congruence.
Qed.

(** The program on such a file, its three choices and their failures. *)
Lemma add_run junk file name img r :
  root_image img r -> 0 < Z.of_nat (length file) <= 4096 -> no_slash name -> (length name <= 27)%nat ->
  tinyfs_add junk file name img
  = match first_clear 60 4 (load_bytes (im_data img) (INODE_BITMAP_BLOCK * TINYFS_BLOCK_SIZE) BITMAP_BYTES),
          first_clear DATA_ROUNDS ROOT_DATA_BLOCK
            (load_bytes (im_data img) (BLOCK_BITMAP_BLOCK * TINYFS_BLOCK_SIZE) BITMAP_BYTES),
          find_free 128 0 (image_block img r) with
    | Some inum, Some b0, Some slot => (Some inum, Image (im_size img) (added img r b0 inum slot file name))
    | Some inum, Some b0, None =>
        (None, Image (im_size img) (store_bytes (im_data img) (b0 * TINYFS_BLOCK_SIZE) file))
    | _, _, _ => (None, img)
    end.
Proof.
  intros [Rs Rsup Rd Rr Rrange Rused Rblock] Hf Hn Hl. unfold tinyfs_add.
  rewrite (u32_small (Z.of_nat (length file))) by lia.
  destruct (Z.ltb_spec (TINYFS_BLOCK_SIZE + 1024 * TINYFS_BLOCK_SIZE) (Z.of_nat (length file))) as [Hbig|_];
    [change (TINYFS_BLOCK_SIZE + 1024 * TINYFS_BLOCK_SIZE) with 4198400 in Hbig; lia|].
  unfold bind at 1. rewrite read_at_run by (rewrite Rs; vm_compute; discriminate). cbn beta iota.
  unfold bind at 1. rewrite read_at_run by (rewrite Rs; vm_compute; discriminate). cbn beta iota.
  unfold bind at 1. rewrite read_at_run by (rewrite Rs; vm_compute; discriminate). cbn beta iota.
  rewrite Nat2Z.id, firstn_all.
  set (ibm := load_bytes _ (INODE_BITMAP_BLOCK * _) _). set (bbm := load_bytes _ (BLOCK_BITMAP_BLOCK * _) _).
  set (table := load_bytes _ (INODE_TABLE_BLOCK * _) _).
  pose proof (first_clear_spec 60 4 ibm) as Hi. destruct (first_clear 60 4 ibm) as [i|]; [|done].
  destruct Hi as [Hi _].
  assert (Hneed : Z.to_nat ((Z.of_nat (length file) + TINYFS_BLOCK_SIZE - 1) / TINYFS_BLOCK_SIZE) = 1%nat)
    by (change TINYFS_BLOCK_SIZE with 4096; zlia).
  rewrite Hneed, clear_bits_one.
  pose proof (first_clear_spec DATA_ROUNDS ROOT_DATA_BLOCK bbm) as Hb.
  destruct (first_clear DATA_ROUNDS ROOT_DATA_BLOCK bbm) as [b0|]; [|done].
  destruct Hb as (Hb & Hclear & _). change (Z.of_nat DATA_ROUNDS) with 16295 in Hb.
  change ROOT_DATA_BLOCK with 89 in *. change TINYFS_TOTAL_BLOCKS with 16384 in *.
  change (default junk (head [b0])) with b0. cbn [length Nat.ltb Nat.leb foldl]. unfold bind at 1, ret at 1. cbn beta iota zeta.
  assert (Hap : b0 <> r) by (by apply (used_apart img); [lia|..]).
  rewrite (take_ge file 4096) by lia. rewrite (drop_ge file 4096) by lia.
  unfold bind at 1. rewrite write_at_run by (rewrite Rs; change TINYFS_BLOCK_SIZE with 4096; lia).
  unfold bind at 1, ret at 1. cbn beta iota zeta.
  change (negb (0 =? 0)) with false. cbn [andb]. unfold ret at 1. cbn beta iota zeta.
  set (img1 := Image _ _). set (root := get_inode mkfs_superblock (image_block img) 0) in *.
  assert (Hroot : inode_of (load_bytes (im_data img1) (inode_offset 0) 64) = root).
  { unfold root. rewrite image_inode by lia. cbn [img1 im_data].
    rewrite load_store_out; [done|]. change (inode_offset 0) with 102400. change TINYFS_BLOCK_SIZE with 4096. lia. }
  assert (Hblk : load_bytes (im_data img1) (r * TINYFS_BLOCK_SIZE) 4096 = image_block img r).
  { cbn [img1 im_data]. rewrite load_store_out; [done|]. change TINYFS_BLOCK_SIZE with 4096. lia. }
  rewrite (link_entry_run name i _ _ _ img1 root r (image_block img r) Hn Hl); cbn [img1 im_size im_data].
  - destruct (find_free 128 0 (image_block img r)) as [slot|]; [|reflexivity]. unfold added, added_table.
    rewrite (u32_small b0) by lia. reflexivity.
  - done.
  - by rewrite length_bitmap_set.
  - by rewrite length_bitmap_set.
  - rewrite length_splice; [apply length_load_bytes|].
    rewrite length_inode_bytes by done. unfold table. rewrite length_load_bytes.
    assert (64 * Z.of_nat (Z.to_nat i) + 64 <= Z.of_nat TABLE_BYTES); [|lia].
    change (Z.of_nat TABLE_BYTES) with 262144. lia.
  - done.
  - done.
  - unfold root. rewrite image_inode by lia. apply io_pad2, inode_of_ok; [apply length_load_bytes|apply load_bytes_ok].
  - done.
  - change TINYFS_TOTAL_BLOCKS with 16384. lia.
  - done.
Qed.

Lemma add_choice junk file name img r inum img' :
  root_image img r -> 0 < Z.of_nat (length file) <= 4096 -> no_slash name -> (length name <= 27)%nat ->
  tinyfs_add junk file name img = (Some inum, img') ->
  exists b0 slot, choice img r b0 inum slot
    /\ img' = Image (im_size img) (added img r b0 inum slot file name).
Proof.
  intros Himg Hf Hn Hl. rewrite (add_run _ _ _ _ r) by done.
  set (ibm := load_bytes _ (INODE_BITMAP_BLOCK * _) _). set (bbm := load_bytes _ (BLOCK_BITMAP_BLOCK * _) _).
  pose proof (first_clear_spec 60 4 ibm) as Hi. destruct (first_clear 60 4 ibm) as [i|]; [|done].
  pose proof (first_clear_spec DATA_ROUNDS ROOT_DATA_BLOCK bbm) as Hb.
  destruct (first_clear DATA_ROUNDS ROOT_DATA_BLOCK bbm) as [b0|]; [|done].
  pose proof (find_free_spec 128 0 (image_block img r)) as Hslot.
  destruct (find_free 128 0 (image_block img r)) as [slot|]; [|done]. destruct Hslot as (Hslot & Hfree & _).
  intros E. apply pair_equal_spec in E as [Ei Em]. apply Some_inj in Ei. subst i img'. exists b0, slot.
  split; [|done]. destruct Hi as [Hi _], Hb as (Hb & Hclear & _). change (Z.of_nat DATA_ROUNDS) with 16295 in Hb.
  destruct Himg as [_ _ _ _ Rrange Rused _].
  change ROOT_DATA_BLOCK with 89 in *. change TINYFS_TOTAL_BLOCKS with 16384 in *.
  split; [exact Hi|exact Hb|by apply (used_apart img); [lia|..]|lia|exact Hfree].
Qed.

(** ** The image after *)

#[local] Opaque TABLE_BYTES BITMAP_BYTES.

Section Added.
Context (img : image) (r b0 inum : Z) (slot : nat) (file name : list Z).
Context (Himg : root_image img r) (Hch : choice img r b0 inum slot).
Context (Hok : bytes_ok file) (Hsize : 0 < Z.of_nat (length file) <= 4096).
Context (Hname : cstr_ok name) (Hne : name <> []) (Hlen : (length name <= 27)%nat).

Let img' := Image (im_size img) (added img r b0 inum slot file name).

Lemma added_sizes :
  Z.of_nat (length (added_table img b0 inum file)) = 262144 /\ Z.of_nat BITMAP_BYTES = 16384
  /\ length (splice (ent_off slot) (dirent_bytes inum name) (image_block img r)) = 4096%nat.
Proof.
  destruct Hch as [Hi _ _ Hs _]. assert (Ht : Z.of_nat TABLE_BYTES = 262144) by reflexivity.
  split_and!; [|reflexivity|].
  { unfold added_table. rewrite length_splice; rewrite length_load_bytes; [done|].
    rewrite length_inode_bytes by done. lia. }
  assert (El : length (image_block img r) = 4096%nat) by apply length_load_bytes.
  rewrite length_splice; [exact El|]. rewrite length_dirent_bytes, El by lia. unfold ent_off. lia.
Qed.

(** The superblock and the file's block. *)
Lemma added_far a n :
  a + Z.of_nat n <= INODE_BITMAP_BLOCK * TINYFS_BLOCK_SIZE \/ ROOT_DATA_BLOCK * TINYFS_BLOCK_SIZE <= a ->
  a + Z.of_nat n <= r * TINYFS_BLOCK_SIZE \/ (r + 1) * TINYFS_BLOCK_SIZE <= a ->
  load_bytes (im_data img') a n = load_bytes (store_bytes (im_data img) (b0 * TINYFS_BLOCK_SIZE) file) a n.
Proof.
  destruct added_sizes as (S1 & S2 & S3). destruct Hch as [Hi _ _ _ _].
  change TINYFS_BLOCK_SIZE with 4096. change INODE_BITMAP_BLOCK with 17. change ROOT_DATA_BLOCK with 89.
  intros H1 H2. cbn [img' im_data]. unfold added.
  change TINYFS_BLOCK_SIZE with 4096. change INODE_BITMAP_BLOCK with 17.
  change BLOCK_BITMAP_BLOCK with 21. change INODE_TABLE_BLOCK with 25.
  rewrite load_store_out by (rewrite S3; lia).
  rewrite load_store_out by (rewrite S1; lia).
  rewrite load_store_out by (rewrite length_bitmap_set, length_load_bytes, S2; lia).
  rewrite load_store_out by (rewrite length_bitmap_set, length_load_bytes, S2; lia).
  rewrite load_store_out; [done|]. change (inode_offset 0) with 102400.
  rewrite length_inode_bytes; [lia|]. change (i_padding2 (set_size ?x ?i)) with (i_padding2 i).
  rewrite image_inode by lia. apply io_pad2, inode_of_ok; [apply length_load_bytes|apply load_bytes_ok].
Qed.

Lemma added_super : image_block img' SUPER_BLOCK = image_block img SUPER_BLOCK.
Proof.
  destruct Hch as [_ Hb _ _ _], Himg as [_ _ _ _ Hr _ _]. unfold image_block.
  change ROOT_DATA_BLOCK with 89 in *. change SUPER_BLOCK with 16.
  rewrite added_far; change TINYFS_BLOCK_SIZE with 4096; change INODE_BITMAP_BLOCK with 17; [|lia|lia].
  apply load_store_out. lia.
Qed.

Lemma added_file : take (length file) (image_block img' b0) = file.
Proof.
  destruct Hch as [_ Hb Hap _ _], Himg as [_ _ _ _ Hr _ _]. unfold image_block.
  change ROOT_DATA_BLOCK with 89 in *.
  rewrite load_bytes_take by lia.
  rewrite added_far; change TINYFS_BLOCK_SIZE with 4096; change ROOT_DATA_BLOCK with 89; [|lia|lia].
  rewrite load_store_in by (done || lia). rewrite Z.sub_diag. apply slice_all.
Qed.

Lemma dirent_bytes_ok : bytes_ok (dirent_bytes inum name).
Proof.
  unfold dirent_bytes. apply Forall_app. split; [apply le_bytes_ok|].
  apply Forall_app. split; [by apply cstr_ok_bytes|apply zeros_ok].
Qed.

Lemma added_root :
  image_block img' r = splice (ent_off slot) (dirent_bytes inum name) (image_block img r).
Proof.
  destruct added_sizes as (_ & _ & S3). unfold image_block at 1, img'. cbn [im_data]. unfold added.
  change TINYFS_BLOCK_SIZE with 4096. cbv zeta.
  rewrite load_store_in; [|apply splice_ok; [apply dirent_bytes_ok|apply load_bytes_ok]|lia|rewrite S3; lia].
  rewrite Z.sub_diag. rewrite <- S3 at 1. apply slice_all.
Qed.

Lemma added_inodes k :
  0 <= k < 64 ->
  get_inode mkfs_superblock (image_block img') k
  = if decide (k = inum) then added_inode (Z.of_nat (length file)) b0
    else get_inode mkfs_superblock (image_block img) k.
Proof.
  intros Hk. destruct added_sizes as (S1 & S2 & S3). destruct Hch as [Hi Hb _ _ _], Himg as [_ _ _ _ Hr _ _].
  change ROOT_DATA_BLOCK with 89 in *. change TINYFS_TOTAL_BLOCKS with 16384 in *.
  rewrite !image_inode by lia. unfold img'. cbn [im_data]. unfold added.
  change (inode_offset k) with (102400 + k * 64). change TINYFS_BLOCK_SIZE with 4096. cbv zeta.
  rewrite load_store_out by (rewrite S3; lia).
  change (INODE_TABLE_BLOCK * 4096) with 102400.
  set (i := added_inode (Z.of_nat (length file)) (u32 b0)).
  assert (Hli : length (inode_bytes i) = 64%nat) by done.
  assert (Hfit : (64 * Z.to_nat inum + 64 <= TABLE_BYTES)%nat)
    by (assert (Z.of_nat TABLE_BYTES = 262144) by reflexivity; lia).
  rewrite load_store_in; [| |lia|rewrite S1; lia].
  2: { apply splice_ok; [apply inode_bytes_ok, zeros_ok|apply load_bytes_ok]. }
  replace (Z.to_nat (102400 + k * 64 - 102400)) with (64 * Z.to_nat k)%nat by lia.
  unfold added_table. fold i. case_decide as Ek.
  - subst k. rewrite slice_splice_eq by (rewrite ?length_load_bytes; done).
    unfold i. rewrite u32_small by lia. apply inode_of_bytes, added_inode_ok; lia.
  - rewrite slice_splice_ne by (rewrite ?length_load_bytes; lia).
    rewrite load_bytes_slice by (assert (Z.of_nat TABLE_BYTES = 262144) by reflexivity; lia).
    do 2 f_equal. change (INODE_TABLE_BLOCK * TINYFS_BLOCK_SIZE) with 102400. lia.
Qed.

(** The directory has one more name. *)
Lemma added_dir q :
  cstr_ok q -> dir_find (image_block img r) name = None ->
  dir_find (image_block img' r) q = if decide (q = name) then Some inum else dir_find (image_block img r) q.
Proof.
  intros Hq Hnone. destruct Hch as [Hi _ _ Hs Hfree], Himg as [_ _ _ _ _ _ Hb].
  pose proof (ent_slot slot Hs) as Hfit. pose proof (db_len _ Hb) as Lb.
  set (t := name ++ zeros (28 - Z.of_nat (length name))).
  assert (Lz : length (zeros (28 - Z.of_nat (length name))) = (28 - length name)%nat)
    by (unfold zeros; rewrite length_replicate; lia).
  assert (Lt : length t = 28%nat) by (unfold t; rewrite length_app, Lz; lia).
  assert (E : image_block img' r = splice (ent_off slot + 4) t (set_ent_inode slot inum (image_block img r))).
  { rewrite added_root. unfold dirent_bytes, set_ent_inode. apply list_eq. intros j.
    rewrite !splice_lookup; rewrite ?length_splice; rewrite ?length_app, ?length_le_bytes, ?Lz; try lia.
    fold t. repeat case_decide; try lia; try done.
    - rewrite lookup_app_r by (rewrite length_le_bytes; lia). rewrite length_le_bytes. f_equal. lia.
    - by rewrite lookup_app_l by (rewrite length_le_bytes; lia). }
  assert (H0 : exists w, zeros (28 - Z.of_nat (length name)) = 0 :: w).
  { unfold zeros. replace (Z.to_nat (28 - Z.of_nat (length name))) with (S (27 - length name)) by lia. by eexists. }
  destruct H0 as [w Hw].
  destruct (slot_write_ok (image_block img r) slot inum t Hb Hs) as (B1 & B2 & B3 & B4).
  - lia.
  - apply Forall_app. split; [by apply cstr_ok_bytes|apply zeros_ok].
  - unfold t. rewrite Hw. apply elem_of_app. right. by left.
  - rewrite <- E in B1, B2, B3, B4. assert (B5 : ent_name (image_block img' r) slot = name).
    { rewrite B4. unfold t. rewrite Hw. by apply cstr_app_0. }
    apply (dir_find_new (image_block img r) (image_block img' r) slot inum name q Hb B1 Hs Hfree); [|done|done|done].
    intros j Hj. case_decide as Ej; [|by apply B2]. subst j. unfold dir_ent. rewrite ent_used_name, B5, B3.
    rewrite bool_decide_false by done. by rewrite u32_small by lia.
Qed.

End Added.

(** ** What the kernel finds *)

Section Mounted.
Context {H D : Type} `{AllocLaws H} `{DiskLaws D}.

#[local] Opaque tinyfs_add fs_init fs_cat find_dirent.

(** From the contents of the image alone. *)
Lemma mounted_file g file name (img img1 : image) r inum b0 L n (s : fs H D) :
  geo g -> sb_magic g = TINYFS_MAGIC -> sb_inode_count g = 64 -> sb_total_blocks g = 16384 ->
  sb_inode_table_block g = 25 ->
  superblock_of (image_block img1 16) = g ->
  is_dir (get_inode g (image_block img) 0) = true ->
  i_direct_block (get_inode g (image_block img) 0) = r -> 89 <= r < 16384 ->
  4 <= inum < 64 -> 89 <= b0 < 16384 -> 0 < Z.of_nat (length file) <= 4096 -> plain_name name -> cstr_ok name ->
  take (length file) (image_block img1 b0) = file ->
  (forall k, 0 <= k < 64 -> get_inode g (image_block img1) k
     = if decide (k = inum) then added_inode (Z.of_nat (length file)) b0
       else get_inode g (image_block img) k) ->
  (forall q, cstr_ok q -> dir_find (image_block img1 r) q
     = if decide (q = name) then Some inum else dir_find (image_block img r) q) ->
  holds [] L (S n) (fs_heap s) -> up (fs_disk s) ->
  (forall b, 16 <= b < 16384 -> blk (fs_disk s) b = image_block img1 b) ->
  let s1 := (fs_init s).2 in
  (fs_cat name 8192 s1).1 = (Z.of_nat (length file), file ++ [0])
  /\ (forall q, cstr_ok q -> (find_dirent 0 q s1).1 =
        if decide (q = name) then Some inum else dir_find (image_block img r) q).
Proof.
  intros Hg Hm Hcnt Htot Htab Rsup Rd Rr Rrange Hi Hb0 Hf Hn Hc Efile Eino Edir Hh Hu Hb.
  set (c := blk (fs_disk s)).
  assert (Hst : st [] L (S n) c (fs_sb s) (fs_cwd s) s) by (by split).
  assert (Hsb : superblock_of (c TINYFS_SUPER_BLOCK) = g).
  { change TINYFS_SUPER_BLOCK with 16. unfold c. rewrite Hb by lia. exact Rsup. }
  assert (Hino : forall k, 0 <= k < 64 -> get_inode g c k = get_inode g (image_block img1) k).
  { intros k Hk. unfold get_inode, c. rewrite Hb; [done|]. unfold inode_block. change INODES_PER_BLOCK with 64.
    rewrite Z.div_small by lia. rewrite Htab. lia. }
  destruct (y_init L n c g _ _ Hsb Hm s Hst) as (s1' & E1 & S1).
  assert (E : (fs_init s).2 = s1') by (by rewrite E1). cbv zeta. rewrite E.
  assert (Hroot0 : get_inode g c 0 = get_inode g (image_block img) 0).
  { rewrite Hino, Eino by lia. by rewrite decide_False by lia. }
  assert (Hd : dir_in_use g c 0).
  { split; [rewrite Hcnt; lia|rewrite Hroot0; exact Rd|]. rewrite Hroot0, Rr. rewrite Htot. lia. }
  assert (Hroot : forall q, dir_lookup g c 0 q = dir_find (image_block img1 r) q).
  { intros q. unfold dir_lookup, dir_find. rewrite Hroot0, Rr. unfold c. rewrite Hb by lia. reflexivity. }
  split_and!.
  - assert (Hk : get_inode g c inum = added_inode (Z.of_nat (length file)) b0).
    { rewrite Hino, Eino by lia. by rewrite decide_True. }
    assert (Hlook : dir_lookup g c 0 name = Some inum) by (by rewrite Hroot, Edir, decide_True).
    assert (Hcat := cat_known L n c g 0 name inum _ 8192 s1' S1 Hg Hd Hn Hlook Hk).
    rewrite Hcnt, Htot in Hcat.
    change TINYFS_BLOCK_SIZE with 4096 in Hcat. cbn [i_size i_direct_block added_inode] in Hcat.
    rewrite Hcat by (reflexivity || lia).
    f_equal. f_equal. rewrite Nat2Z.id. unfold c.
    rewrite Hb by lia. exact Efile.
  - intros q Hq. destruct (y_lookup [] L n c g 0 0 q Hg Hd s1' S1) as (s2 & -> & _). cbn [fst].
    rewrite <- Edir by done. apply Hroot.
Qed.

(** C26: a file added by tinyfs-add reads back.  When the tool puts a file of
    one block under a new name into the root directory of an image, the
    kernel that mounts the image reads the file byte for byte with [fs_cat];
    the directory has the new name and keeps every other name, and every
    other inode is what it was, the root's own inode too, whose size the
    tool means to update. *)
Theorem added_file_is_read junk file name img r inum img' L n (s : fs H D) :
  root_image img r -> bytes_ok file -> 0 < Z.of_nat (length file) <= 4096 ->
  plain_name name -> cstr_ok name -> (length name <= 27)%nat -> dir_find (image_block img r) name = None ->
  tinyfs_add junk file name img = (Some inum, img') ->
  holds [] L (S n) (fs_heap s) -> up (fs_disk s) ->
  (forall b, SUPER_BLOCK <= b < TINYFS_TOTAL_BLOCKS -> blk (fs_disk s) b = image_block img' b) ->
  let s1 := (fs_init s).2 in
  (fs_cat name 8192 s1).1 = (Z.of_nat (length file), file ++ [0])
  /\ (forall q, cstr_ok q -> (find_dirent 0 q s1).1 =
        if decide (q = name) then Some inum else dir_find (image_block img r) q)
  /\ (forall k, 0 <= k < 64 -> k <> inum ->
        get_inode mkfs_superblock (image_block img') k = get_inode mkfs_superblock (image_block img) k).
Proof.
  intros Himg Hok Hf Hn Hc Hl Hnone Hrun Hh Hu Hb. pose proof (pn_slash _ Hn) as Hns. pose proof (pn_nonempty _ Hn) as Hne.
  destruct (add_choice _ _ _ _ _ _ _ Himg Hf Hns Hl Hrun) as (b0 & slot & Hch & ->).
  pose proof (added_super img r b0 inum slot file name Himg Hch Hl) as Esup.
  pose proof (added_file img r b0 inum slot file name Himg Hch Hok Hf Hl) as Efile.
  pose proof (added_inodes img r b0 inum slot file name Himg Hch Hf Hl) as Eino.
  pose proof (fun q Hq => added_dir img r b0 inum slot file name Himg Hch Hc Hne Hl q Hq Hnone) as Edir.
  destruct Himg as [_ Rsup Rd Rr Rrange _ _], Hch as [Hi Hb0 Hap _ _].
  rewrite <- Esup in Rsup.
  destruct (mounted_file mkfs_superblock file name img _ r inum b0 L n s mkfs_geo eq_refl eq_refl eq_refl
    eq_refl Rsup Rd Rr Rrange Hi Hb0 Hf Hn Hc Efile Eino Edir Hh Hu Hb) as [G1 G2].
  split; [exact G1|]. split; [exact G2|]. intros k Hk Hneq. rewrite Eino by done. by rewrite decide_False.
Qed.

End Mounted.

(** ** On a new image *)

Lemma first_clear_ext rounds i bm bm' :
  (forall j, i <= j < i + Z.of_nat rounds -> bitmap_test bm j = bitmap_test bm' j) ->
  first_clear rounds i bm = first_clear rounds i bm'.
Proof.
  revert i. induction rounds as [|k IH]; intros i He; cbn [first_clear]; [done|].
  rewrite He by lia. rewrite IH; [done|]. intros j Hj. apply He. lia.
Qed.

(** The scan of the whole buffer stays in its first block. *)
Lemma first_clear_block img b rounds i :
  0 <= i -> i + Z.of_nat rounds <= 32768 ->
  first_clear rounds i (load_bytes (im_data img) (b * TINYFS_BLOCK_SIZE) BITMAP_BYTES)
  = first_clear rounds i (image_block img b).
Proof.
  intros Hi Hr. apply first_clear_ext. intros j Hj. unfold image_block. change TINYFS_BLOCK_SIZE with 4096.
  assert (Hm : Z.of_nat BITMAP_BYTES = 16384) by reflexivity. by rewrite !bitmap_test_load by lia.
Qed.

#[local] Opaque zeros mark_first entries_bytes mkfs_inode_table superblock_bytes store_bytes readme hello.

Lemma mkfs_size_run img :
  im_size (mkfs img).2
  = foldl (fun n (r : Z * list Z) =>
        if Z.of_nat (length r.2) =? 0 then n else Z.max n (r.1 * 4096 + Z.of_nat (length r.2)))
      (TINYFS_TOTAL_BLOCKS * TINYFS_BLOCK_SIZE) mkfs_regions.
Proof. reflexivity. Qed.

#[local] Transparent zeros mark_first entries_bytes mkfs_inode_table superblock_bytes store_bytes readme hello.

Lemma foldl_map {A B C} (f : C -> B -> C) (h : A -> B) l c :
  foldl f c (map h l) = foldl (fun c x => f c (h x)) c l.
Proof. revert c. induction l as [|x l IH]; intros c; [done|]. apply IH. Qed.

Lemma mkfs_size img : im_size (mkfs img).2 = TINYFS_TOTAL_BLOCKS * TINYFS_BLOCK_SIZE.
Proof.
  rewrite mkfs_size_run. trans (foldl (fun n (e : Z * Z) => if e.2 =? 0 then n else Z.max n (e.1 * 4096 + e.2))
    (TINYFS_TOTAL_BLOCKS * TINYFS_BLOCK_SIZE) extents); [|reflexivity].
  rewrite <- mkfs_extents. by rewrite foldl_map.
Qed.

Lemma mkfs_terminated : forallb (fun i => existsb (Z.eqb 0) (slice (ent_off i + 4) 28 (padded (region 4)))) (seq 0 128) = true.
Proof. vm_compute. reflexivity. Qed.

Lemma padded_ok bs : bytes_ok bs -> bytes_ok (padded bs).
Proof. intros Hb. apply Forall_take, Forall_app. split; [done|apply zeros_ok]. Qed.

Lemma mkfs_new : dir_find (padded (region 4)) (str "note") = None.
Proof. vm_compute. reflexivity. Qed.

Lemma mkfs_choices :
  first_clear 60 4 (padded (region 1)) = Some 8
  /\ first_clear DATA_ROUNDS ROOT_DATA_BLOCK (padded (region 2)) = Some 97
  /\ find_free 128 0 (padded (region 4)) = Some 9%nat.
Proof. split_and!; vm_compute; reflexivity. Qed.

#[local] Opaque padded mkfs region.

Lemma mkfs_root_image img :
  im_size img <= SUPER_BLOCK * TINYFS_BLOCK_SIZE -> root_image (mkfs img).2 ROOT_DATA_BLOCK.
Proof.
  intros Hs.
  assert (H0 : get_inode mkfs_superblock (image_block (mkfs img).2) 0
               = mkfs_inode TINYFS_TYPE_DIR (9 * SIZEOF_DIRENT) ROOT_DATA_BLOCK).
  { unfold get_inode, inode_block, inode_off. change (sb_inode_table_block mkfs_superblock + 0 / INODES_PER_BLOCK)
      with INODE_TABLE_BLOCK. rewrite (mkfs_region img 3) by done.
    apply (inodes_of_at 8 (padded (region 3)) 0). rewrite mkfs_table. reflexivity. }
  split.
  - apply mkfs_size.
  - rewrite (mkfs_region img 0) by done. exact mkfs_super.
  - rewrite H0. reflexivity.
  - rewrite H0. reflexivity.
  - change ROOT_DATA_BLOCK with 89. change TINYFS_TOTAL_BLOCKS with 16384. lia.
  - rewrite (mkfs_region img 2) by done. destruct mkfs_bitmaps as [_ Hb].
    pose proof (first_clear_spec (Z.to_nat TINYFS_TOTAL_BLOCKS) 0 (padded (region 2))) as Hf. rewrite Hb in Hf.
    apply Hf. change ROOT_DATA_BLOCK with 89. lia.
  - rewrite (mkfs_region img 4) by done. split.
    + rewrite <- (mkfs_region img 4 ROOT_DATA_BLOCK) by done. apply length_load_bytes.
    + apply padded_ok, region_ok.
    + intros i Hi. pose proof (proj1 (forallb_forall _ _) mkfs_terminated i) as Hx. cbn beta in Hx.
      assert (Hin : In i (seq 0 128)) by (apply in_seq; lia). apply Hx, existsb_exists in Hin as (x & Hin & E).
      apply Z.eqb_eq in E. subst x. by apply list_elem_of_In.
Qed.

Lemma mkfs_add_run junk file name img :
  im_size img <= SUPER_BLOCK * TINYFS_BLOCK_SIZE -> 0 < Z.of_nat (length file) <= 4096 ->
  no_slash name -> (length name <= 27)%nat ->
  tinyfs_add junk file name (mkfs img).2
  = (Some 8, Image (TINYFS_TOTAL_BLOCKS * TINYFS_BLOCK_SIZE)
               (added (mkfs img).2 ROOT_DATA_BLOCK 97 8 9 file name)).
Proof.
  intros Hs Hf Hn Hl. rewrite (add_run _ _ _ _ _ (mkfs_root_image img Hs) Hf Hn Hl), mkfs_size.
  rewrite !first_clear_block by (vm_compute; discriminate).
  rewrite (mkfs_region img 1), (mkfs_region img 2), (mkfs_region img 4) by done.
  destruct mkfs_choices as (-> & -> & ->). reflexivity.
Qed.

(** Two bytes as the file [note]. *)
Lemma added_file_is_read_witness :
  let '(res, img) := tinyfs_add 0 [104; 105] (str "note") (mkfs empty_image).2 in
  res = Some 8 /\ (fs_cat (str "note") 8192 (fs_init (boot_fs img)).2).1 = (2, [104; 105; 0]).
Proof.
  assert (Hs : im_size empty_image <= SUPER_BLOCK * TINYFS_BLOCK_SIZE) by (vm_compute; discriminate).
  assert (Hn : plain_name (str "note")) by plain.
  pose proof (mkfs_add_run 0 [104; 105] (str "note") empty_image Hs ltac:(cbn; lia) (pn_slash _ Hn)
    ltac:(cbn; lia)) as E.
  set (img1 := Image _ _) in E. rewrite E. split; [reflexivity|].
  destruct (added_file_is_read (H := kmem) (D := mem) 0 [104; 105] (str "note") (mkfs empty_image).2
    ROOT_DATA_BLOCK 8 img1 [] 3 (boot_fs img1)) as [G _].
  - by apply mkfs_root_image.
  - apply small_ok. reflexivity.
  - cbn. lia.
  - exact Hn.
  - repeat constructor; cbn; lia.
  - cbn. lia.
  - rewrite (mkfs_region empty_image 4) by done. apply mkfs_new.
  - exact E.
  - apply (boot_holds 4). lia.
  - exact I.
  - intros b _. apply boot_fs_block.
  - exact G.
Defined.
