(* ===== verification/Task.v ===== *)
(** * Tasks and the scheduler ([src/kernel/scheduler.c], [src/kernel/scheduler.h])

    [task] is [task_t] and [sched] the static data of scheduler.c with what
    its calls work on: the kernel's memory ([km]), the pipes, and the stack
    the processor takes on an interrupt ([tss_rsp0]).  A [task_t*] is the
    index of its slot in [task_pool], [None] being NULL.  Control leaves a
    call only at [int $32]: [sys_exit], [task_block] and the waiting loop of
    [sys_waitpid] are cut there, and the timer's handler ([scheduler_tick]) is
    the next step.  The switch of stacks done by isr.asm and the output to the
    serial port are not part of the state. *)

From S2P Require Import Prelude.
From S2P Require Import ByteMem.
From S2P Require Import Kmem.
From S2P Require Import Heap.
From S2P Require Import Alloc.
From S2P Require Import VmRegion.
From S2P Require Import Cow.
From S2P Require Import Pipe.

Definition TASK_NAME_MAX : nat := 16.
Definition MAX_TASKS : nat := 16.
Definition STACK_SIZE : Z := 4096.
Definition NSIGS : nat := 32.
Definition SIG_DFL : Z := 0.
Definition SIG_IGN : Z := 1.
Definition SIGINT : Z := 2.
Definition SIGKILL : Z := 9.
Definition KERNEL_CR3 : Z := 0x1000.

Inductive task_state := TASK_READY | TASK_RUNNING | TASK_BLOCKED | TASK_ZOMBIE.

#[export] Instance task_state_eq_dec : EqDecision task_state.
Proof. solve_decision. Defined.

(** The signal fields of [task_t]. *)
Record sigctx := SigCtx {
  signal_handlers : list Z;
  signal_pending : Z;
  signal_mask : Z;
  saved_rip : Z;
  saved_rsp : Z;
  saved_rflags : Z;
  trampoline_addr : Z;
  in_signal : bool
}.

Record task := Task {
  pid : Z;
  name : list Z;                (* the C string in name[], without its NUL *)
  state : task_state;
  rsp : Z;
  stack_base : Z;
  cr3 : Z;
  next_task : option nat;       (* next *)
  parent_pid : Z;
  exit_code : Z;
  waited : bool;
  vm_regions : list vm_region;
  fds : list fd;                (* fd_type[i], fd_data[i] *)
  sig : sigctx
}.

Definition set_pid v t := Task v (name t) (state t) (rsp t) (stack_base t) (cr3 t) (next_task t)
  (parent_pid t) (exit_code t) (waited t) (vm_regions t) (fds t) (sig t).
Definition set_state v t := Task (pid t) (name t) v (rsp t) (stack_base t) (cr3 t) (next_task t)
  (parent_pid t) (exit_code t) (waited t) (vm_regions t) (fds t) (sig t).
Definition set_stack v t := Task (pid t) (name t) (state t) (rsp t) v (cr3 t) (next_task t)
  (parent_pid t) (exit_code t) (waited t) (vm_regions t) (fds t) (sig t).
Definition set_rsp v t := Task (pid t) (name t) (state t) v (stack_base t) (cr3 t) (next_task t)
  (parent_pid t) (exit_code t) (waited t) (vm_regions t) (fds t) (sig t).
Definition set_cr3 v t := Task (pid t) (name t) (state t) (rsp t) (stack_base t) v (next_task t)
  (parent_pid t) (exit_code t) (waited t) (vm_regions t) (fds t) (sig t).
Definition set_next v t := Task (pid t) (name t) (state t) (rsp t) (stack_base t) (cr3 t) v
  (parent_pid t) (exit_code t) (waited t) (vm_regions t) (fds t) (sig t).
Definition set_exit_code v t := Task (pid t) (name t) (state t) (rsp t) (stack_base t) (cr3 t)
  (next_task t) (parent_pid t) v (waited t) (vm_regions t) (fds t) (sig t).
Definition set_waited v t := Task (pid t) (name t) (state t) (rsp t) (stack_base t) (cr3 t)
  (next_task t) (parent_pid t) (exit_code t) v (vm_regions t) (fds t) (sig t).
Definition set_regions v t := Task (pid t) (name t) (state t) (rsp t) (stack_base t) (cr3 t)
  (next_task t) (parent_pid t) (exit_code t) (waited t) v (fds t) (sig t).
Definition set_fds v t := Task (pid t) (name t) (state t) (rsp t) (stack_base t) (cr3 t)
  (next_task t) (parent_pid t) (exit_code t) (waited t) (vm_regions t) v (sig t).
Definition set_sig v t := Task (pid t) (name t) (state t) (rsp t) (stack_base t) (cr3 t)
  (next_task t) (parent_pid t) (exit_code t) (waited t) (vm_regions t) (fds t) v.

Definition set_handlers v (c : sigctx) := SigCtx v (signal_pending c) (signal_mask c) (saved_rip c)
  (saved_rsp c) (saved_rflags c) (trampoline_addr c) (in_signal c).
Definition set_pending v (c : sigctx) := SigCtx (signal_handlers c) v (signal_mask c) (saved_rip c)
  (saved_rsp c) (saved_rflags c) (trampoline_addr c) (in_signal c).
Definition set_saved rip rsp rflags (c : sigctx) := SigCtx (signal_handlers c) (signal_pending c)
  (signal_mask c) rip rsp rflags (trampoline_addr c) (in_signal c).
Definition set_trampoline v (c : sigctx) := SigCtx (signal_handlers c) (signal_pending c)
  (signal_mask c) (saved_rip c) (saved_rsp c) (saved_rflags c) v (in_signal c).
Definition set_in_signal v (c : sigctx) := SigCtx (signal_handlers c) (signal_pending c)
  (signal_mask c) (saved_rip c) (saved_rsp c) (saved_rflags c) (trampoline_addr c) v.

Definition signal_init_task (c : sigctx) : sigctx :=
  SigCtx (replicate NSIGS SIG_DFL) 0 0 0 0 0 0 false.

(** A slot of the zero-initialised pool. *)
Definition no_fd : fd := (0, None).
Definition sig_zero : sigctx := SigCtx (replicate NSIGS 0) 0 0 0 0 0 0 false.
Definition task_zero : task :=
  Task 0 [] TASK_READY 0 0 0 None 0 0 false vm_region_init (replicate MAX_FDS no_fd) sig_zero.

Record sched := Sched {
  task_pool : list task;
  task_count : nat;
  current_task : option nat;
  task_list : option nat;
  next_pid : Z;
  pending_switch : option nat;   (* the task whose rsp it points to *)
  pending_rsp : Z;
  pending_cr3 : Z;
  tss_rsp0 : Z;
  km : kmem;
  pipes : list pipe
}.

Definition set_pool v s := Sched v (task_count s) (current_task s) (task_list s) (next_pid s)
  (pending_switch s) (pending_rsp s) (pending_cr3 s) (tss_rsp0 s) (km s) (pipes s).
Definition set_count v s := Sched (task_pool s) v (current_task s) (task_list s) (next_pid s)
  (pending_switch s) (pending_rsp s) (pending_cr3 s) (tss_rsp0 s) (km s) (pipes s).
Definition set_next_pid v s := Sched (task_pool s) (task_count s) (current_task s) (task_list s) v
  (pending_switch s) (pending_rsp s) (pending_cr3 s) (tss_rsp0 s) (km s) (pipes s).
Definition set_km v s := Sched (task_pool s) (task_count s) (current_task s) (task_list s) (next_pid s)
  (pending_switch s) (pending_rsp s) (pending_cr3 s) (tss_rsp0 s) v (pipes s).
Definition set_pipes v s := Sched (task_pool s) (task_count s) (current_task s) (task_list s)
  (next_pid s) (pending_switch s) (pending_rsp s) (pending_cr3 s) (tss_rsp0 s) (km s) v.
(** What [scheduler_tick] sets for the switch. *)
Definition set_switch (cur : nat) (rsp0 : Z) (sw : option nat) (r c : Z) s :=
  Sched (task_pool s) (task_count s) (Some cur) (task_list s) (next_pid s) sw r c rsp0 (km s) (pipes s).

Definition task_at (s : sched) (i : nat) : task := default task_zero (task_pool s !! i).
Definition upd_task (i : nat) (f : task -> task) (s : sched) : sched :=
  set_pool (alter f i (task_pool s)) s.

Definition on_km {A} (m : ST kmem A) : ST sched A := fun s =>
  let '(a, k) := m (km s) in (a, set_km k s).

(** ** Choosing the next task *)

Definition is_ready (s : sched) (i : nat) : bool :=
  bool_decide (state (task_at s i) = TASK_READY).

(** [while (t != start)]; [None]: no more fuel. *)
Fixpoint next_loop (fuel : nat) (s : sched) (start : nat) (t : option nat) : option (option nat) :=
  match fuel with
  | O => None
  | S f =>
      if bool_decide (t = Some start) then Some (Some start)
      else match t with
           | None => next_loop f s start (task_list s)
           | Some i =>
               if is_ready s i then Some (Some i)
               else if bool_decide (next_task (task_at s i) = Some start) then Some (Some start)
               else next_loop f s start (next_task (task_at s i))
           end
  end.

Definition next_fuel : nat := MAX_TASKS.

Definition scheduler_next (s : sched) : option (option nat) :=
  match current_task s with
  | None => Some (task_list s)
  | Some c =>
      match next_task (task_at s c) with
      | None => Some (task_list s)
      | Some n => next_loop next_fuel s c (Some n)
      end
  end.

(** The part of [scheduler_tick] after the choice. *)
Definition switch_to (old next : nat) (s : sched) : sched :=
  let s1 := if bool_decide (state (task_at s old) = TASK_RUNNING)
            then upd_task old (set_state TASK_READY) s else s in
  let s2 := upd_task next (set_state TASK_RUNNING) s1 in
  set_switch next (u64 (stack_base (task_at s2 next) + STACK_SIZE)) (Some old)
    (rsp (task_at s2 next)) (cr3 (task_at s2 next)) s2.

(** [None]: the search for the next task does not end, or [old] is NULL. *)
Definition scheduler_tick (s : sched) : option sched :=
  if bool_decide (task_list s = None) || (task_count s <? 2)%nat then Some s
  else
    match scheduler_next s with
    | None => None
    | Some None => Some s
    | Some (Some next) =>
        if bool_decide (current_task s = Some next) then Some s
        else match current_task s with
             | None => None
             | Some old => Some (switch_to old next s)
             end
    end.

(** ** Start-up *)

Definition scheduler_init (s : sched) : sched :=
  let main_task :=
    Task 0 (str "main") TASK_RUNNING 0 0 KERNEL_CR3 (Some 0%nat) 0 0 false vm_region_init
      (replicate MAX_FDS no_fd) (signal_init_task (sig (task_at s 0))) in
  Sched (<[0%nat := main_task]> (task_pool s)) 1 (Some 0%nat) (Some 0%nat) 1 None 0 0
    (tss_rsp0 s) (km s) (pipes s).

(** [last = task_list; while (last->next != task_list) last = last->next;]
    [None]: it does not end, or follows NULL. *)
Fixpoint last_loop (fuel : nat) (s : sched) (last : nat) : option nat :=
  match fuel with
  | O => None
  | S f =>
      if bool_decide (next_task (task_at s last) = task_list s) then Some last
      else match next_task (task_at s last) with
           | None => None
           | Some n => last_loop f s n
           end
  end.

(** The last lines of [task_create] and [sys_fork]: [last->next = task;
    task->next = task_list; task_count++; return task->pid]. *)
Definition link_task (i : nat) (s : sched) : option (Z * sched) :=
  match task_list s with
  | None => None
  | Some l =>
      match last_loop MAX_TASKS s l with
      | None => None
      | Some last =>
          let s1 := upd_task last (set_next (Some i)) s in
          let s2 := upd_task i (set_next (task_list s1)) s1 in
          Some (i32 (pid (task_at s2 i)), set_count (S (task_count s2)) s2)
      end
  end.

(** [*--sp = v]. *)
Definition push (v : Z) (sp : Z) : ST sched Z :=
  do* on_km (st64 (u64 (sp - 8)) v) in ret (u64 (sp - 8)).

Fixpoint push_all (vs : list Z) (sp : Z) : ST sched Z :=
  match vs with
  | [] => ret sp
  | v :: vs' => let* sp' := push v sp in push_all vs' sp'
  end.

Definition task_create (nm : list Z) (entry : Z) (s : sched) : option (Z * sched) :=
  if (MAX_TASKS <=? task_count s)%nat then Some (-1, s)
  else
    let i := task_count s in
    let s1 := upd_task i (fun t =>
      Task (next_pid s) (take (TASK_NAME_MAX - 1) nm) TASK_READY (rsp t) (stack_base t) KERNEL_CR3
        (next_task t) 0 0 false vm_region_init (replicate MAX_FDS no_fd) (signal_init_task (sig t)))
      (set_next_pid (u32 (next_pid s + 1)) s) in
    let '(stack, s2) := on_km (kalloc STACK_SIZE) s1 in
    let s3 := upd_task i (set_stack stack) s2 in
    if stack =? 0 then Some (-1, s3)
    else
      let '(_, s4) := on_km (modify (fun k => set_phys (memory_set stack 0 STACK_SIZE (phys k)) k)) s3 in
      let '(sp, s5) :=
        push_all ([0x10; u64 (stack + STACK_SIZE - 256); 0x202; 0x08; entry; 0; 0] ++ replicate 15 0)
          (u64 (stack + STACK_SIZE)) s4 in
      link_task i (upd_task i (set_rsp sp) s5).

(** ** [sys_fork] *)

(** The child's slot before its memory is set up; the pipes count the
    descriptors it now shares. *)
Definition fork_slot (parent t : task) (pid_ : Z) (child_fds : list fd) : task :=
  Task pid_ (take (TASK_NAME_MAX - 1) (name parent)) TASK_READY (rsp t) (stack_base t) (cr3 t)
    (next_task t) (pid parent) 0 false (vm_region_copy (vm_regions t) (vm_regions parent)) child_fds
    (SigCtx (signal_handlers (sig parent)) 0 (signal_mask (sig parent)) (saved_rip (sig t))
       (saved_rsp (sig t)) (saved_rflags (sig t)) (trampoline_addr (sig parent)) false).

Definition sys_fork (parent_rsp parent_cr3 r : Z) (s : sched) : option (Z * sched) :=
  if (MAX_TASKS <=? task_count s)%nat then Some (-1, s)
  else
    match current_task s with
    | None => None                  (* parent->name with parent == NULL *)
    | Some p =>
        let parent := task_at s p in
        let i := task_count s in
        let '(child_fds, pipes1) := task_copy_fds (fds parent) (pipes s) in
        let s1 := set_pipes pipes1
          (upd_task i (fun t => fork_slot parent t (next_pid s) child_fds)
             (set_next_pid (u32 (next_pid s + 1)) s)) in
        let '(stack, s2) := on_km (kalloc STACK_SIZE) s1 in
        let s3 := upd_task i (set_stack stack) s2 in
        if stack =? 0 then Some (-1, s3)
        else
          let '(_, s4) := on_km (modify (fun k =>
            set_phys (memory_copy stack (stack_base parent) STACK_SIZE (phys k)) k)) s3 in
          let s5 := upd_task i (set_rsp (u64 (stack + u64 (parent_rsp - stack_base parent)))) s4 in
          let child_r := u64 (stack + u64 (r - stack_base parent)) in
          let '(_, s6) := on_km (st64 child_r 0) s5 in
          let '(new_cr3, s7) := on_km paging_create s6 in
          let s8 := upd_task i (set_cr3 new_cr3) s7 in
          let undo (s : sched) : sched :=
            upd_task i (set_state TASK_ZOMBIE) (on_km (fun k => (tt, kfree stack k)) s).2 in
          if new_cr3 =? 0 then Some (-1, undo s8)
          else
            let '(res, s9) := on_km (paging_cow_clone_user new_cr3 parent_cr3) s8 in
            if res <? 0 then Some (-1, undo (on_km (paging_destroy new_cr3) s9).2)
            else link_task i s9
    end.

(** ** Sleeping and waking *)

(** [task_block] up to its [scheduler_yield]. *)
Definition task_block (t : option nat) (s : sched) : sched :=
  match t with None => s | Some i => upd_task i (set_state TASK_BLOCKED) s end.

Definition task_wakeup (i : nat) (s : sched) : sched :=
  if bool_decide (state (task_at s i) = TASK_BLOCKED)
  then upd_task i (set_state TASK_READY) s else s.

(** The wake-ups a pipe operation asks for, in order. *)
Definition wake_all (ts : list nat) (s : sched) : sched := foldl (fun s i => task_wakeup i s) s ts.

(** ** [sys_exit] up to its [int $32], [sys_waitpid] *)

Definition close_fds (i : nat) (s : sched) : sched :=
  let '(fds', pool, woken) := task_close_fds (fds (task_at s i)) (pipes s) in
  wake_all woken (upd_task i (set_fds fds') (set_pipes pool s)).

Definition sys_exit (code : Z) (s : sched) : sched :=
  match current_task s with
  | None => s
  | Some c => upd_task c (fun t => set_exit_code code (set_state TASK_ZOMBIE t)) (close_fds c s)
  end.

Definition is_zombie (t : task) : bool := bool_decide (state t = TASK_ZOMBIE).

(** The body of the loop for the slot it stops at. *)
Definition reap (i : nat) (s : sched) : sched :=
  let t := task_at s i in
  let s1 := if stack_base t =? 0 then s
            else upd_task i (set_stack 0) (on_km (fun k => (tt, kfree (stack_base t) k)) s).2 in
  let s2 := if (cr3 t =? 0) || (cr3 t =? KERNEL_CR3) then s1
            else upd_task i (set_cr3 0) (on_km (paging_destroy (cr3 t)) s1).2 in
  close_fds i (upd_task i (fun t => set_state TASK_ZOMBIE (set_pid 0 t)) s2).

(** [for (i = 0; i < task_count; i++)] with [rounds] left. *)
Fixpoint remove_loop (rounds i : nat) (pid_ : Z) (s : sched) : sched :=
  match rounds with
  | O => s
  | S n =>
      let t := task_at s i in
      if (pid t =? pid_) && is_zombie t && waited t then reap i s else remove_loop n (S i) pid_ s
  end.

Definition scheduler_remove_zombie (pid_ : Z) (s : sched) : sched :=
  remove_loop (task_count s) 0 pid_ s.

Inductive wait_result :=
| WaitDone (ret : Z) (s : sched)
| WaitYield (child : nat) (s : sched).  (* scheduler_yield has been called *)

(** The loop over the ring that looks for the child; [None]: it does not
    end, [Some None]: there is none. *)
Fixpoint wait_find (fuel : nat) (s : sched) (pid_ my_pid : Z) (t : option nat) : option (option nat) :=
  match fuel with
  | O => None
  | S f =>
      if bool_decide (t = task_list s) then Some None
      else match t with
           | None =>
               match task_list s with
               | None => None
               | Some l => wait_find f s pid_ my_pid (next_task (task_at s l))
               end
           | Some i =>
               if (pid (task_at s i) =? pid_) && (parent_pid (task_at s i) =? my_pid)
               then Some (Some i)
               else wait_find f s pid_ my_pid (next_task (task_at s i))
           end
  end.

(** What follows for the child [t] that was found; run again when the task
    is scheduled after a yield. *)
Definition wait_on (pid_ : Z) (t : nat) (s : sched) : wait_result :=
  if is_zombie (task_at s t) then
    if waited (task_at s t) then WaitDone (-1) s
    else
      let s1 := upd_task t (set_waited true) s in
      WaitDone (exit_code (task_at s1 t)) (scheduler_remove_zombie pid_ s1)
  else WaitYield t s.

Definition wait_fuel : nat := S MAX_TASKS.

Definition sys_waitpid (pid_ : Z) (s : sched) : option wait_result :=
  match task_list s, current_task s with
  | Some l, Some c =>
      match wait_find wait_fuel s pid_ (pid (task_at s c)) (next_task (task_at s l)) with
      | None => None
      | Some None => Some (WaitDone (-1) s)
      | Some (Some t) => Some (wait_on pid_ t s)
      end
  | _, _ => None
  end.

(** ** [sys_kill] *)

Definition sig_bit (signo : Z) : Z := Z.shiftl 1 signo.
Definition add_pending (signo : Z) (t : task) : task :=
  set_sig (set_pending (Z.lor (signal_pending (sig t)) (sig_bit signo)) (sig t)) t.

(** The [do ... while (t != task_list)] loop. *)
Fixpoint kill_loop (fuel : nat) (pid_ signo : Z) (t : option nat) (s : sched) : option (Z * sched) :=
  match fuel with
  | O => None
  | S f =>
      match t with
      | None => Some (-1, s)   (* continue: t is task_list, which ends the loop *)
      | Some i =>
          if (pid (task_at s i) =? pid_) && negb (is_zombie (task_at s i)) then
            let s1 := upd_task i (add_pending signo) s in
            Some (0, if bool_decide (state (task_at s1 i) = TASK_BLOCKED)
                     then upd_task i (set_state TASK_READY) s1 else s1)
          else if bool_decide (next_task (task_at s i) = task_list s) then Some (-1, s)
          else kill_loop f pid_ signo (next_task (task_at s i)) s
      end
  end.

Definition sys_kill (pid_ signo : Z) (s : sched) : option (Z * sched) :=
  if (signo <? 1) || (Z.of_nat NSIGS <=? signo) then Some (-1, s)
  else kill_loop MAX_TASKS pid_ signo (task_list s) s.
