(* ===== verification/Fd.v ===== *)
(** * System calls on descriptors, and SYS_SBRK ([src/kernel/syscall.c])

    The cases 22 to 25 of [syscall_handler] as operations on the tasks: a
    descriptor is a slot of the current task's table that points to a pipe of
    the pool with one reference counted there.  [heap_break] is the function's
    static variable. *)

From S2P Require Import Prelude.
From S2P Require Import ByteMem.
From S2P Require Import Kmem.
From S2P Require Import Heap.
From S2P Require Import Paging.
From S2P Require Import VmRegion.
From S2P Require Import Pipe.
From S2P Require Import Task.

Definition fd_at (s : sched) (c i : nat) : fd := default no_fd (fds (task_at s c) !! i).
Definition set_fd (c i : nat) (f : fd) (s : sched) : sched :=
  upd_task c (fun t => set_fds (<[i := f]> (fds t)) t) s.

(** ** SYS_PIPE *)

(** [for (i = 3; i < MAX_FDS; i++)]: the first two free slots from [i]. *)
Fixpoint find_free_fds (rounds i : nat) (s : sched) (c : nat) (free1 : option nat)
    : option nat * option nat :=
  match rounds with
  | O => (free1, None)
  | S n =>
      if (fd_at s c i).1 =? 0 then
        match free1 with
        | None => find_free_fds n (S i) s c (Some i)
        | Some _ => (free1, Some i)
        end
      else find_free_fds n (S i) s c free1
  end.

(** [Some (free1, free2)]: what is stored to [user_fds]; [None] is -1. *)
Definition sys_pipe (c : nat) : ST sched (option (nat * nat)) := fun s =>
  match find_free_fds (MAX_FDS - 3) 3 s c None with
  | (Some free1, Some free2) =>
      match pipe_create (pipes s) with
      | (None, _) => (None, s)
      | (Some i, pool) =>
          let s1 := set_fd c free2 (FD_PIPE_WRITE, Some i)
                      (set_fd c free1 (FD_PIPE_READ, Some i) (set_pipes pool s)) in
          (Some (free1, free2),
           set_pipes (pool_inc (pool_inc (pipes s1) (Some i) true) (Some i) false) s1)
      end
  | _ => (None, s)
  end.

(** ** SYS_DUP2 and SYS_CLOSE *)

(** [pipe_ref_dec] / [pipe_close_end] of a descriptor of type [ty], with the
    tasks it wakes. *)
Definition drop_fd (ty : Z) (d : option nat) (s : sched) : sched :=
  let '(pool, woken) := pool_close (pipes s) d (ty =? FD_PIPE_READ) in
  wake_all woken (set_pipes pool s).

Definition in_table (fd : Z) : bool := (0 <=? fd) && (fd <? Z.of_nat MAX_FDS).

Definition sys_dup2 (c : nat) (oldfd newfd : Z) : ST sched Z := fun s =>
  if negb (in_table oldfd && in_table newfd) then (-1, s)
  else
    let o := Z.to_nat oldfd in
    let n := Z.to_nat newfd in
    if (fd_at s c o).1 =? 0 then (-1, s)
    else if oldfd =? newfd then (newfd, s)
    else
      let s1 := if (fd_at s c n).1 =? 0 then s
                else drop_fd (fd_at s c n).1 (fd_at s c n).2 s in
      let s2 := set_fd c n (fd_at s1 c o) s1 in
      (newfd, set_pipes (pool_inc (pipes s2) (fd_at s2 c n).2 ((fd_at s2 c n).1 =? FD_PIPE_READ)) s2).

Definition sys_close (c : nat) (fd : Z) : ST sched Z := fun s =>
  if negb (in_table fd) || (fd <? 3) then (-1, s)
  else
    let i := Z.to_nat fd in
    let '(ty, d) := fd_at s c i in
    let s1 := if (ty =? FD_PIPE_READ) || (ty =? FD_PIPE_WRITE) then drop_fd ty d s else s in
    (0, set_fd c i no_fd s1).

(** ** SYS_SBRK *)

Definition HEAP_START : Z := 0x510000.
Definition HEAP_END : Z := 0x600000.

(** [(v + 0xFFF) & ~0xFFF]. *)
Definition page_round (v : Z) : Z := Z.land (u64 (v + 0xFFF)) (u64 (Z.lnot 0xFFF)).

(** The loop over the pages from [page] with [rounds] left; [false] is the
    jump to [sbrk_done]. *)
Fixpoint sbrk_pages (rounds : nat) (root page : Z) : ST kmem bool :=
  match rounds with
  | O => ret true
  | S n =>
      if HEAP_END <=? page then ret false
      else
        let* p := memory_alloc_page in
        if p =? 0 then ret false
        else
          do* modify (fun k => set_phys (memory_set p 0 4096 (phys k)) k) in
          do* paging_map_4kb root page p (Z.lor (Z.lor PAGE_PRESENT PAGE_RW) PAGE_USER) in
          sbrk_pages n root (u64 (page + 0x1000))
  end.

(** The result and the new break; the pages of a failed call stay mapped. *)
Definition sys_sbrk (root increment heap_break : Z) : ST kmem (Z * Z) :=
  if increment <? 0 then
    let new_break := i64 (i64 heap_break + increment) in
    let new_break := if new_break <? HEAP_START then HEAP_START else new_break in
    ret (heap_break, u64 new_break)
  else if 0 <? increment then
    let new_break := u64 (heap_break + increment) in
    let old := page_round heap_break in
    let new := page_round new_break in
    let* ok := (if old <? new then sbrk_pages (Z.to_nat ((new - old) / 0x1000)) root old else ret true) in
    if ok then ret (heap_break, new_break) else ret (u64 (-1), heap_break)
  else ret (heap_break, heap_break).
