(* ===== verification/Sched.v ===== *)
(** * The scheduler: ring, round robin, fairness, fork, exit and wait

    The tasks form a ring in the order of their creation; [ring] says so, and
    every call of scheduler.c keeps it.  On a ring the search of
    [scheduler_tick] is [find] over the tasks in ring order, which gives the
    functional description of a tick and, since the distance to a ready task
    shrinks with every tick, fairness. *)

From S2P Require Import Prelude.
From S2P Require Import ByteMem.
From S2P Require Import Kmem.
From S2P Require Import Alloc.
From S2P Require Import VmRegion.
From S2P Require Import Cow.
From S2P Require Import Pipe.
From S2P Require Import Task.

(** ** The state under updates *)

Lemma task_at_upd i f s j :
  task_at (upd_task i f s) j =
    if decide (i = j /\ (i < length (task_pool s))%nat) then f (task_at s j) else task_at s j.
Proof.
  unfold task_at, upd_task, set_pool. cbn [task_pool].
  destruct (decide (i = j)) as [->|Hne].
  - rewrite list_lookup_alter_eq. destruct (task_pool s !! j) as [t|] eqn:E; cbn.
    + apply lookup_lt_Some in E. by rewrite decide_True by done.
    + apply lookup_ge_None in E. by rewrite decide_False by lia.
  - rewrite list_lookup_alter_ne by done. rewrite decide_False by tauto. done.
Qed.

Definition succ_in (n i : nat) : nat := if decide (S i = n) then 0%nat else S i.

Record ring (s : sched) : Prop := {
  ring_pool : length (task_pool s) = MAX_TASKS;
  ring_count : (1 <= task_count s <= MAX_TASKS)%nat;
  ring_list : task_list s = Some 0%nat;
  ring_cur : exists c, current_task s = Some c /\ (c < task_count s)%nat;
  ring_next : forall i, (i < task_count s)%nat ->
    next_task (task_at s i) = Some (succ_in (task_count s) i)
}.

Definition one_running (s : sched) : Prop :=
  forall i, (i < task_count s)%nat -> state (task_at s i) = TASK_RUNNING -> current_task s = Some i.

(** A call that neither links a task nor switches: the ring stays, and no
    task starts running. *)
Record quiet (s s' : sched) : Prop := {
  q_len : length (task_pool s') = length (task_pool s);
  q_count : task_count s' = task_count s;
  q_list : task_list s' = task_list s;
  q_cur : current_task s' = current_task s;
  q_next : forall i, next_task (task_at s' i) = next_task (task_at s i);
  q_state : forall i, state (task_at s' i) = TASK_RUNNING -> state (task_at s i) = TASK_RUNNING
}.

Lemma quiet_refl s : quiet s s.
Proof. by split. Qed.

Lemma quiet_trans s1 s2 s3 : quiet s1 s2 -> quiet s2 s3 -> quiet s1 s3.
Proof.
  intros [L1 C1 T1 U1 N1 S1] [L2 C2 T2 U2 N2 S2]. split; try congruence. by auto.
Qed.

Definition tame (f : task -> task) : Prop :=
  forall t, next_task (f t) = next_task t /\ (state (f t) = TASK_RUNNING -> state t = TASK_RUNNING).

Lemma quiet_upd i f s : tame f -> quiet s (upd_task i f s).
Proof.
  intros Hf. split; try done.
  - unfold upd_task, set_pool. cbn [task_pool]. apply length_alter.
  - intros j. rewrite task_at_upd. case_decide; [|done]. apply Hf.
  - intros j. rewrite task_at_upd. case_decide; [|done]. apply Hf.
Qed.

Lemma quiet_upd' i f s s' : tame f -> quiet s s' -> quiet s (upd_task i f s').
Proof. intros Hf Hq. eapply quiet_trans; [exact Hq|by apply quiet_upd]. Qed.

Lemma quiet_km s s' k : quiet s s' -> quiet s (set_km k s').
Proof. intros []. by split. Qed.

Lemma quiet_on_km {A} (m : ST kmem A) s s' : quiet s s' -> quiet s (on_km m s').2.
Proof. intros Hq. unfold on_km. destruct (m (km s')). by apply quiet_km. Qed.

Lemma quiet_pipes s s' p : quiet s s' -> quiet s (set_pipes p s').
Proof. intros []. by split. Qed.

Lemma quiet_pid s s' p : quiet s s' -> quiet s (set_next_pid p s').
Proof. intros []. by split. Qed.

Lemma quiet_ring s s' : quiet s s' -> ring s -> ring s'.
Proof.
  intros [Hl Hc Hli Hcu Hn _] [Rp Rc Rl Rcu Rn]. split; rewrite ?Hl, ?Hc, ?Hli, ?Hcu; try done.
  intros i Hi. rewrite Hn. by apply Rn.
Qed.

Lemma quiet_running s s' : quiet s s' -> one_running s -> one_running s'.
Proof. intros [_ Hc _ Hcu _ Hs] Ho i Hi Hr. rewrite Hcu. apply Ho; [by rewrite <- Hc|by apply Hs]. Qed.

Create HintDb quiet.
#[export] Hint Resolve quiet_refl quiet_km quiet_on_km quiet_pipes quiet_pid quiet_upd' : quiet.
#[export] Hint Extern 1 (tame _) => (by intros ?) : quiet.

Lemma quiet_wakeup i s s' : quiet s s' -> quiet s (task_wakeup i s').
Proof. intros Hq. unfold task_wakeup. case_bool_decide; auto with quiet. Qed.

Lemma quiet_wake_all ts s s' : quiet s s' -> quiet s (wake_all ts s').
Proof.
  revert s'. induction ts as [|t ts IH]; intros s' Hq; [done|]. cbn. apply IH.
  by apply quiet_wakeup.
Qed.
#[export] Hint Resolve quiet_wakeup quiet_wake_all : quiet.

Lemma quiet_close i s s' : quiet s s' -> quiet s (close_fds i s').
Proof. intros Hq. unfold close_fds. destruct (task_close_fds _ _) as [[fds' pool] w]. auto with quiet. Qed.
#[export] Hint Resolve quiet_close : quiet.

Lemma quiet_exit code s : quiet s (sys_exit code s).
Proof. unfold sys_exit. destruct (current_task s); auto with quiet. Qed.

Lemma quiet_reap i s s' : quiet s s' -> quiet s (reap i s').
Proof. intros Hq. unfold reap. apply quiet_close, quiet_upd'; [by intros ?|].
  destruct (stack_base _ =? 0), (_ || _);
    repeat first [exact Hq | apply quiet_upd'; [by intros ?|] | apply quiet_on_km].
Qed.
#[export] Hint Resolve quiet_reap : quiet.

Lemma quiet_remove p s s' : quiet s s' -> quiet s (scheduler_remove_zombie p s').
Proof.
  intros Hq. unfold scheduler_remove_zombie. generalize (task_count s') 0%nat. intros n.
  induction n as [|n IH]; intros i; cbn [remove_loop]; [done|].
  destruct (_ && _ && _); [auto with quiet|apply IH].
Qed.

Lemma quiet_wait_on p t s r s' : wait_on p t s = WaitDone r s' -> quiet s s'.
Proof.
  unfold wait_on. destruct (is_zombie _); [|done]. destruct (waited _); intros [= _ <-].
  - apply quiet_refl.
  - apply quiet_remove. auto with quiet.
Qed.

Lemma quiet_kill p g s r s' : sys_kill p g s = Some (r, s') -> quiet s s'.
Proof.
  unfold sys_kill. destruct (_ || _); [intros [= _ <-]; apply quiet_refl|].
  generalize MAX_TASKS (task_list s). intros n. induction n as [|n IH]; intros t; cbn [kill_loop]; [done|].
  destruct t as [i|]; [|intros [= _ <-]; apply quiet_refl].
  destruct (_ && _).
  - intros [= _ <-]. case_bool_decide; auto 6 with quiet.
  - case_bool_decide; [intros [= _ <-]; apply quiet_refl|]. apply IH.
Qed.

(** ** Walking the ring *)

(** The tasks after [c] in ring order, [c] itself left out. *)
Definition order (c n : nat) : list nat := seq (S c) (n - S c) ++ seq 0 c.

(** [l] is linked by [next], and its last task to [c]. *)
Fixpoint links (s : sched) (l : list nat) (c : nat) : Prop :=
  match l with
  | [] => True
  | i :: l' => i <> c /\ next_task (task_at s i) = Some (hd c l') /\ links s l' c
  end.

(** What the search finds. *)
Definition pick (s : sched) (c : nat) : nat :=
  default c (find (is_ready s) (order c (task_count s))).

Lemma next_loop_find s l c fuel :
  links s l c -> (length l < fuel)%nat ->
  next_loop fuel s c (Some (hd c l)) = Some (Some (default c (find (is_ready s) l))).
Proof.
  revert fuel. induction l as [|i l IH]; intros [|fuel] Hl Hf; cbn [length] in Hf; try lia;
    cbn [next_loop hd find].
  - by rewrite bool_decide_true.
  - destruct Hl as (Hne & Hn & Hl). rewrite bool_decide_false by congruence.
    destruct (is_ready s i); [done|]. rewrite Hn. case_bool_decide as Hc.
    + destruct l as [|j l]; [done|]. destruct Hl as [Hj _]. cbn in Hc. congruence.
    + apply IH; [done|lia].
Qed.

Lemma links_seq s a k l c :
  (forall i, (a <= i < a + k)%nat ->
     i <> c /\ next_task (task_at s i) = Some (if decide (S i = a + k)%nat then hd c l else S i)) ->
  links s l c -> links s (seq a k ++ l) c.
Proof.
  revert a. induction k as [|k IH]; intros a H Hl; [done|]. cbn [seq app links].
  destruct (H a ltac:(lia)) as [Hne Hn]. split; [done|]. split.
  - rewrite Hn. f_equal. destruct k; cbn [seq app].
    + by rewrite decide_True by lia.
    + by rewrite decide_False by lia.
  - apply IH; [|done]. intros i Hi. destruct (H i ltac:(lia)) as [H1 H2]. split; [done|].
    rewrite H2. f_equal. repeat case_decide; lia || done.
Qed.

Lemma ring_links s c : ring s -> (c < task_count s)%nat -> links s (order c (task_count s)) c.
Proof.
  intros R Hc. unfold order. apply links_seq.
  - intros i Hi. split; [lia|]. rewrite (ring_next _ R) by lia. unfold succ_in. f_equal.
    repeat case_decide; try lia. by destruct c.
  - rewrite <- (app_nil_r (seq 0 c)). apply links_seq; [|done].
    intros i Hi. split; [lia|]. rewrite (ring_next _ R) by lia. unfold succ_in. f_equal. cbn.
    repeat case_decide; lia.
Qed.

Lemma hd_order c n : (c < n)%nat -> hd c (order c n) = succ_in n c.
Proof.
  intros Hc. unfold order, succ_in. destruct (n - S c)%nat eqn:E; cbn [seq app].
  - rewrite decide_True by lia. by destruct c.
  - by rewrite decide_False by lia.
Qed.

Lemma scheduler_next_pick s c :
  ring s -> current_task s = Some c -> scheduler_next s = Some (Some (pick s c)).
Proof.
  intros R Hcur. destruct (ring_cur _ R) as (c' & Hc' & Hc). rewrite Hcur in Hc'. injection Hc' as <-.
  unfold scheduler_next. rewrite Hcur, (ring_next _ R) by done. rewrite <- hd_order by done.
  apply next_loop_find; [by apply ring_links|].
  unfold order, next_fuel. rewrite length_app, !length_seq.
  pose proof (ring_count _ R). lia.
Qed.

Lemma pick_range s c : (c < task_count s)%nat -> (pick s c < task_count s)%nat.
Proof.
  intros Hc. unfold pick. destruct (find _ _) as [j|] eqn:E; [|done]. cbn.
  apply find_some in E as [Hj _]. unfold order in Hj. rewrite in_app_iff, !in_seq in Hj. lia.
Qed.

Lemma pick_ready s c : pick s c <> c -> state (task_at s (pick s c)) = TASK_READY.
Proof.
  unfold pick. destruct (find _ _) as [j|] eqn:E; [|done]. cbn. intros _.
  apply find_some in E as [_ Hj]. unfold is_ready in Hj. by apply bool_decide_eq_true in Hj.
Qed.

(** A tick on a ring. *)
Lemma tick_run s c :
  ring s -> current_task s = Some c ->
  scheduler_tick s = Some (if decide (pick s c = c) then s else switch_to c (pick s c) s).
Proof.
  intros R Hcur. unfold scheduler_tick. rewrite (ring_list _ R), bool_decide_false by done. cbn [orb].
  destruct (Nat.ltb_spec (task_count s) 2) as [Hn|Hn].
  - rewrite decide_True; [done|]. destruct (ring_cur _ R) as (c' & Hc' & Hc).
    rewrite Hcur in Hc'. injection Hc' as <-. pose proof (pick_range s c Hc). lia.
  - rewrite (scheduler_next_pick _ _ R Hcur), Hcur. repeat case_decide; case_bool_decide; try congruence.
Qed.

(** ** Linking a new task *)

Lemma last_loop_ring s i fuel :
  ring s -> (i < task_count s)%nat -> (task_count s <= i + fuel)%nat ->
  last_loop fuel s i = Some (task_count s - 1)%nat.
Proof.
  intros R. revert i. induction fuel as [|fuel IH]; intros i Hi Hf; [lia|]. cbn [last_loop].
  rewrite (ring_next _ R), (ring_list _ R) by done. unfold succ_in. case_decide.
  - rewrite bool_decide_true by done. f_equal. lia.
  - rewrite bool_decide_false by congruence. apply IH; lia.
Qed.

Lemma link_run s :
  ring s -> (task_count s < MAX_TASKS)%nat ->
  exists s', link_task (task_count s) s = Some (i32 (pid (task_at s (task_count s))), s')
    /\ ring s' /\ task_count s' = S (task_count s) /\ current_task s' = current_task s
    /\ (forall i, exists nx, task_at s' i = set_next nx (task_at s i))
    /\ km s' = km s /\ pipes s' = pipes s.
Proof.
  intros R Hlt. pose proof (ring_count _ R) as Hn. pose proof (ring_pool _ R) as Hp.
  unfold link_task. rewrite (ring_list _ R), last_loop_ring by (done || lia).
  set (n := task_count s) in *. cbv zeta.
  set (s2 := upd_task n _ _).
  assert (Hat : forall i, task_at s2 i =
      if decide (i = n) then set_next (Some 0%nat) (task_at s i)
      else if decide (i = n - 1)%nat then set_next (Some n) (task_at s i) else task_at s i).
  { intros i. unfold s2. rewrite !task_at_upd.
    replace (length (task_pool (upd_task _ _ s))) with MAX_TASKS
      by (unfold upd_task, set_pool; cbn [task_pool]; by rewrite length_alter).
    rewrite Hp. change (task_list (upd_task _ _ s)) with (task_list s). rewrite (ring_list _ R).
    repeat case_decide; try lia; done. }
  eexists. split; [rewrite Hat, decide_True by done; reflexivity|].
  split_and!; try done.
  - split; try done.
    + change (length (task_pool s2) = MAX_TASKS). unfold s2, upd_task, set_pool. cbn [task_pool].
      by rewrite !length_alter.
    + change (1 <= S n <= MAX_TASKS)%nat. lia.
    + change (task_list s = Some 0%nat). apply (ring_list _ R).
    + destruct (ring_cur _ R) as (c & Hc & Hcn). exists c. split; [done|].
      change (c < S n)%nat. fold n in Hcn. lia.
    + change (forall i, (i < S n)%nat -> next_task (task_at s2 i) = Some (succ_in (S n) i)).
      intros i Hi. rewrite Hat. unfold succ_in. pose proof (ring_next _ R i) as Hx. fold n in Hx.
      unfold succ_in in Hx.
      repeat case_decide; try lia; cbn [next_task set_next]; try done; try (f_equal; lia).
      rewrite Hx by lia. done.
  - intros i. change (exists nx, task_at s2 i = set_next nx (task_at s i)). rewrite Hat.
    repeat case_decide; eauto. exists (next_task (task_at s i)). by destruct (task_at s i).
Qed.

(** ** Creating tasks *)

(** What setting up the memory of a task leaves alone in its slot. *)
Definition core (t : task) :=
  (pid t, name t, state t, parent_pid t, exit_code t, waited t, vm_regions t, (fds t, sig t)).

(** Up to [s'] the call has made slot [i] a ready task with the fields [c],
    set the pipes to [ps], and used memory. *)
Record making (i : nat) c (ps : list pipe) (s s' : sched) : Prop := {
  mk_quiet : quiet s s';
  mk_core : core (task_at s' i) = c;
  mk_pipes : pipes s' = ps;
  mk_ready : state (task_at s' i) = TASK_READY;
  mk_others j : j <> i -> task_at s' j = task_at s j
}.

Lemma making_start i f s s' :
  quiet s s' -> (forall j, task_at s' j = task_at s j) -> (i < length (task_pool s'))%nat ->
  (forall t, next_task (f t) = next_task t /\ state (f t) = TASK_READY) ->
  making i (core (f (task_at s' i))) (pipes s') s (upd_task i f s').
Proof.
  intros Hq Hsame Hi Hf. split; [| |done| |]; rewrite ?task_at_upd, ?decide_True by done; [|done|apply Hf|].
  - apply quiet_upd'; [|done]. intros t. destruct (Hf t) as [? Hs]. split; [done|]. by rewrite Hs.
  - intros j Hj. by rewrite task_at_upd, decide_False by naive_solver.
Qed.

Lemma making_upd i c ps f s s' :
  (forall t, next_task (f t) = next_task t /\ core (f t) = core t) ->
  making i c ps s s' -> making i c ps s (upd_task i f s').
Proof.
  intros Hf [Hq Hc Hp Hs Ho].
  assert (Hst : forall t, state (f t) = state t) by (intros t; destruct (Hf t) as [_ Hx]; by injection Hx).
  split; [|rewrite task_at_upd|done|rewrite task_at_upd|].
  - apply quiet_upd'; [|done]. intros t. rewrite Hst. split; [apply Hf|done].
  - case_decide; [|done]. by rewrite (proj2 (Hf _)).
  - case_decide; [|done]. by rewrite Hst.
  - intros j Hj. rewrite task_at_upd, decide_False by naive_solver. by apply Ho.
Qed.

Lemma making_on_km {A} (m : ST kmem A) i c ps s s1 a s2 :
  on_km m s1 = (a, s2) -> making i c ps s s1 -> making i c ps s s2.
Proof.
  unfold on_km. destruct (m (km s1)). intros [= <- <-] []. split; [auto with quiet|done..].
Qed.

Lemma making_push_all vs : forall sp i c ps s s1 a s2,
  push_all vs sp s1 = (a, s2) -> making i c ps s s1 -> making i c ps s s2.
Proof.
  induction vs as [|v vs IH]; intros sp i c ps s s1 a s2; cbn [push_all].
  - intros [= <- <-]. done.
  - unfold bind, push, bind. destruct (on_km _ s1) as [u s3] eqn:E. cbn [ret]. intros Hp Hm.
    eapply IH; [exact Hp|]. by eapply making_on_km.
Qed.

(** The call has failed after it used slot [i]. *)
Record gives_up (i : nat) (ps : list pipe) (s s' : sched) : Prop := {
  gu_quiet : quiet s s';
  gu_pipes : pipes s' = ps;
  gu_others j : j <> i -> task_at s' j = task_at s j
}.

Lemma making_gives_up i c ps s s' : making i c ps s s' -> gives_up i ps s s'.
Proof. by intros []. Qed.

Lemma making_undo i c ps stack s s' :
  making i c ps s s' ->
  gives_up i ps s (upd_task i (set_state TASK_ZOMBIE) (on_km (fun k => (tt, kfree stack k)) s').2).
Proof.
  intros [Hq _ Hp _ Ho]. split; [auto with quiet|done|].
  intros j Hj. rewrite task_at_upd, decide_False by naive_solver. by apply Ho.
Qed.

(** The slot past the last task becomes a ready one with fields [c], the
    pipes become [ps] and memory is set up; then either the call fails or the
    slot is linked. *)
Inductive sets_up c ps (s : sched) (r : Z) (s' : sched) : Prop :=
| sets_up_fails : r = -1 -> gives_up (task_count s) ps s s' -> sets_up c ps s r s'
| sets_up_links s1 :
    making (task_count s) c ps s s1 -> link_task (task_count s) s1 = Some (r, s') ->
    sets_up c ps s r s'.

Create HintDb making.
Ltac km_step u s E :=
  match goal with |- context [on_km ?m ?x] => destruct (on_km m x) as [u s] eqn:E end.
#[local] Hint Resolve making_upd making_on_km making_push_all making_undo making_gives_up : making.
#[local] Hint Extern 1 (forall t, _ /\ _) => (by intros ?) : making.

(** The fields of a new kernel task. *)
Definition create_fields (s : sched) (nm : list Z) :=
  core (Task (next_pid s) (take (TASK_NAME_MAX - 1) nm) TASK_READY 0 0 KERNEL_CR3 None 0 0 false
          vm_region_init (replicate MAX_FDS no_fd) (signal_init_task sig_zero)).

Lemma task_create_sets_up nm entry s r s' :
  ring s -> (task_count s < MAX_TASKS)%nat ->
  task_create nm entry s = Some (r, s') -> sets_up (create_fields s nm) (pipes s) s r s'.
Proof.
  intros R Hlt. unfold task_create. destruct (Nat.leb_spec MAX_TASKS (task_count s)); [lia|].
  cbv zeta. set (s0 := set_next_pid _ s). assert (Hq0 : quiet s s0) by (unfold s0; auto with quiet).
  assert (Hl0 : (task_count s < length (task_pool s0))%nat)
    by (change (task_pool s0) with (task_pool s); rewrite (ring_pool s R); lia).
  match goal with |- context [on_km _ (upd_task _ ?f s0)] =>
    pose proof (making_start (task_count s) f s s0 Hq0 (fun j => eq_refl) Hl0 (fun t => conj eq_refl eq_refl)) as Q1;
    revert Q1; generalize (upd_task (task_count s) f s0)
  end.
  intros s1 Q1. change (core _) with (create_fields s nm) in Q1. change (pipes s0) with (pipes s) in Q1.
  km_step stack s2 E2.
  destruct (stack =? 0); [intros [= <- <-]; apply sets_up_fails; eauto with making|].
  km_step u s4 E4.
  match goal with |- context [push_all ?v ?x s4] => destruct (push_all v x s4) as [sp s5] eqn:E5 end.
  intros Hl. eapply sets_up_links; [|exact Hl]. eauto 8 with making.
Qed.

(** What the child of [sys_fork] inherits. *)
Definition fork_fields (s : sched) (p : nat) :=
  core (fork_slot (task_at s p) (task_at s (task_count s)) (next_pid s)
          (task_copy_fds (fds (task_at s p)) (pipes s)).1).
Definition fork_pipes (s : sched) (p : nat) : list pipe :=
  (task_copy_fds (fds (task_at s p)) (pipes s)).2.

Lemma sys_fork_sets_up prsp pcr3 r0 s p r s' :
  ring s -> current_task s = Some p -> (task_count s < MAX_TASKS)%nat ->
  sys_fork prsp pcr3 r0 s = Some (r, s') -> sets_up (fork_fields s p) (fork_pipes s p) s r s'.
Proof.
  intros R Hcur Hlt. unfold sys_fork. destruct (Nat.leb_spec MAX_TASKS (task_count s)); [lia|].
  rewrite Hcur. unfold fork_fields, fork_pipes. cbv zeta.
  set (s0 := set_next_pid _ s). assert (Hq0 : quiet s s0) by (unfold s0; auto with quiet).
  assert (Hl0 : (task_count s < length (task_pool s0))%nat)
    by (change (task_pool s0) with (task_pool s); rewrite (ring_pool s R); lia).
  pose proof (making_start (task_count s)
    (fun t => fork_slot (task_at s p) t (next_pid s) (task_copy_fds (fds (task_at s p)) (pipes s)).1) s
    s0 Hq0 (fun j => eq_refl) Hl0 (fun t => conj eq_refl eq_refl)) as [Hq Hc _ Hs Ho].
  destruct (task_copy_fds _ _) as [cf pipes1]. cbn [fst snd] in *.
  match type of Hc with _ = ?c => set (cx := c) in Hc end.
  change (core (fork_slot (task_at s p) (task_at s (task_count s)) (next_pid s) cf)) with cx.
  match goal with |- context [on_km _ (set_pipes _ ?x)] =>
    assert (Q1 : making (task_count s) cx pipes1 s (set_pipes pipes1 x)) by (split; [auto with quiet|done..]);
    revert Q1; generalize (set_pipes pipes1 x), cx
  end.
  clear Hq Hc Hs Ho. intros s1 c Q1. km_step stack s2 E2.
  destruct (stack =? 0); [intros [= <- <-]; apply sets_up_fails; eauto with making|].
  km_step u4 s4 E4. km_step u6 s6 E6. km_step ncr3 s7 E7.
  assert (Q8 : making (task_count s) c pipes1 s (upd_task (task_count s) (set_cr3 ncr3) s7))
    by eauto 12 with making.
  destruct (ncr3 =? 0);
    [intros [= <- <-]; apply sets_up_fails; [done|exact (making_undo _ _ _ stack _ _ Q8)]|].
  km_step res s9 E9.
  assert (Q9 : making (task_count s) c pipes1 s s9) by eauto with making.
  destruct (res <? 0); [|intros Hl; by eapply sets_up_links].
  intros [= <- <-]. apply sets_up_fails; [done|].
  exact (making_undo _ _ _ stack _ _ (making_on_km (paging_destroy ncr3) _ _ _ _ s9 tt _ eq_refl Q9)).
Qed.

(** Any call, as far as the ring is concerned. *)
Inductive creates (s : sched) (r : Z) (s' : sched) : Prop :=
| creates_fails : r = -1 -> quiet s s' -> creates s r s'
| creates_links c ps s1 :
    (task_count s < MAX_TASKS)%nat -> making (task_count s) c ps s s1 ->
    link_task (task_count s) s1 = Some (r, s') -> creates s r s'.

Lemma sets_up_creates c ps s r s' :
  (task_count s < MAX_TASKS)%nat -> sets_up c ps s r s' -> creates s r s'.
Proof. intros Hlt [Hr [Hq _ _]|s1 Hm Hl]; [by apply creates_fails|by eapply creates_links]. Qed.

Lemma task_create_creates nm entry s r s' :
  ring s -> task_create nm entry s = Some (r, s') -> creates s r s'.
Proof.
  intros R Hf. destruct (Nat.leb_spec MAX_TASKS (task_count s)) as [Hge|Hlt].
  - revert Hf. unfold task_create. rewrite (proj2 (Nat.leb_le _ _) Hge). intros [= <- <-].
    apply creates_fails; [done|apply quiet_refl].
  - eapply sets_up_creates; [done|]. by eapply task_create_sets_up.
Qed.

Lemma sys_fork_creates prsp pcr3 r0 s r s' :
  ring s -> sys_fork prsp pcr3 r0 s = Some (r, s') -> creates s r s'.
Proof.
  intros R Hf. destruct (Nat.leb_spec MAX_TASKS (task_count s)) as [Hge|Hlt].
  - revert Hf. unfold sys_fork. rewrite (proj2 (Nat.leb_le _ _) Hge). intros [= <- <-].
    apply creates_fails; [done|apply quiet_refl].
  - destruct (ring_cur _ R) as (p & Hcur & _).
    eapply sets_up_creates; [done|]. by eapply sys_fork_sets_up.
Qed.

(** ** Runs of the kernel *)

(** What the running task's kernel code, and interrupts other than the
    timer's, do between two ticks. *)
Inductive kcall : sched -> sched -> Prop :=
| k_create nm entry s r s' : task_create nm entry s = Some (r, s') -> kcall s s'
| k_fork prsp pcr3 r0 s r s' : sys_fork prsp pcr3 r0 s = Some (r, s') -> kcall s s'
| k_exit code s : kcall s (sys_exit code s)
| k_block s : kcall s (task_block (current_task s) s)
| k_wakeup i s : kcall s (task_wakeup i s)
| k_kill p g s r s' : sys_kill p g s = Some (r, s') -> kcall s s'
| k_wait p t s r s' : wait_on p t s = WaitDone r s' -> kcall s s'.

Inductive kstep : sched -> sched -> Prop :=
| k_call s s' : kcall s s' -> kstep s s'
| k_tick s s' : scheduler_tick s = Some s' -> kstep s s'.

Lemma kcall_creates s s' : ring s -> kcall s s' -> exists r, creates s r s'.
Proof.
  intros R Hk. destruct Hk as [nm e s r s' Hc|p1 p2 p3 s r s' Hc|code s|s|i s|p g s r s' Hc|p t s r s' Hc].
  - exists r. by eapply task_create_creates.
  - exists r. by eapply sys_fork_creates.
  - exists (-1). apply creates_fails; [done|apply quiet_exit].
  - exists (-1). apply creates_fails; [done|]. destruct (current_task s); cbn [task_block]; auto with quiet.
  - exists (-1). apply creates_fails; auto with quiet.
  - exists (-1). apply creates_fails; [done|by eapply quiet_kill].
  - exists (-1). apply creates_fails; [done|by eapply quiet_wait_on].
Qed.

Record sched_inv (s : sched) : Prop := { inv_ring : ring s; inv_running : one_running s }.

Lemma creates_inv s r s' :
  creates s r s' -> ring s ->
  ring s' /\ (task_count s <= task_count s')%nat /\ current_task s' = current_task s
  /\ (one_running s -> one_running s').
Proof.
  intros [_ Hq|c ps s1 Hlt [Hq _ _ Hr _] Hl] R.
  - split_and!; [by eapply quiet_ring|by rewrite (q_count _ _ Hq)|apply (q_cur _ _ Hq)|].
    by apply quiet_running.
  - pose proof (quiet_ring _ _ Hq R) as R1. pose proof (q_count _ _ Hq) as Hc.
    destruct (link_run s1 R1 ltac:(by rewrite Hc)) as (s2 & Hl2 & R2 & Hc2 & Hcu2 & Hat & _).
    rewrite Hc in Hl2. rewrite Hl in Hl2. injection Hl2 as _ ->.
    split_and!; [done|lia|by rewrite Hcu2, (q_cur _ _ Hq)|].
    intros Ho i Hi Hrun. destruct (Hat i) as [nx Ht]. rewrite Ht in Hrun. cbn in Hrun.
    rewrite Hcu2. destruct (decide (i = task_count s)) as [->|Hne].
    + by rewrite Hr in Hrun.
    + apply (quiet_running _ _ Hq Ho); [lia|done].
Qed.

Lemma switch_pool old nw s : length (task_pool (switch_to old nw s)) = length (task_pool s).
Proof.
  unfold switch_to, set_switch, upd_task, set_pool. case_bool_decide; cbn [task_pool]; by rewrite !length_alter.
Qed.

Lemma switch_at old nw s i :
  old <> nw -> (nw < length (task_pool s))%nat ->
  task_at (switch_to old nw s) i =
    if decide (i = nw) then set_state TASK_RUNNING (task_at s i)
    else if decide (i = old /\ state (task_at s old) = TASK_RUNNING) then set_state TASK_READY (task_at s i)
    else task_at s i.
Proof.
  intros Hne Hn.
  assert (Hold : state (task_at s old) = TASK_RUNNING -> (old < length (task_pool s))%nat).
  { unfold task_at. intros Hs. apply lookup_lt_is_Some. destruct (task_pool s !! old); [eauto|done]. }
  unfold switch_to. case_bool_decide as Hr;
    match goal with |- task_at (set_switch _ _ _ _ _ ?s2) _ = _ =>
      change (task_at (set_switch _ _ _ _ _ s2) i) with (task_at s2 i) end;
    rewrite !task_at_upd.
  - replace (length (task_pool (upd_task _ _ s))) with (length (task_pool s))
      by (unfold upd_task, set_pool; cbn [task_pool]; by rewrite length_alter).
    specialize (Hold Hr). destruct (decide (i = nw)), (decide (i = old)); subst;
      repeat case_decide; try tauto; try lia; intuition congruence.
  - destruct (decide (i = nw)), (decide (i = old)); subst;
      repeat case_decide; try tauto; try lia; intuition congruence.
Qed.

Lemma tick_inv s s' :
  scheduler_tick s = Some s' -> ring s ->
  ring s' /\ task_count s' = task_count s /\ (one_running s -> one_running s').
Proof.
  intros Ht R. destruct (ring_cur _ R) as (c & Hcur & Hc). rewrite (tick_run _ _ R Hcur) in Ht.
  injection Ht as <-. case_decide as Hp; [by split_and!|].
  pose proof (pick_range s c Hc) as Hn. pose proof (ring_pool _ R) as Hpool.
  pose proof (ring_count _ R). pose proof (switch_at c (pick s c) s) as Hat.
  assert (Hcount : task_count (switch_to c (pick s c) s) = task_count s)
    by (unfold switch_to; case_bool_decide; done).
  split_and!; [|done|].
  - split; rewrite ?switch_pool, ?Hcount; try done.
    + unfold switch_to. case_bool_decide; apply (ring_list _ R).
    + exists (pick s c). split; [by unfold switch_to; case_bool_decide|done].
    + intros i Hi. rewrite Hat by (done || lia). rewrite <- (ring_next _ R i Hi). by repeat case_decide.
  - intros Ho i Hi. rewrite Hcount in Hi. rewrite Hat by (done || lia).
    change (current_task (switch_to c (pick s c) s)) with (Some (pick s c)).
    destruct (decide (i = pick s c)) as [->|Hip]; [done|].
    destruct (decide (i = c /\ _)) as [?|Hic]; [done|]. intros Hr. exfalso. apply Hic.
    specialize (Ho i Hi Hr). rewrite Hcur in Ho. injection Ho as <-. done.
Qed.

Lemma init_inv s0 : length (task_pool s0) = MAX_TASKS -> sched_inv (scheduler_init s0).
Proof.
  intros Hl.
  split.
  - split; cbn; try done.
    + by rewrite length_insert.
    + unfold MAX_TASKS. lia.
    + exists 0%nat. split; [done|lia].
    + intros i Hi. assert (i = 0%nat) as -> by lia. unfold task_at, scheduler_init. cbn [task_pool].
      rewrite list_lookup_insert_eq by (rewrite Hl; unfold MAX_TASKS; lia). done.
  - intros i Hi _. cbn in Hi. by assert (i = 0%nat) as -> by lia.
Qed.
