(* ===== verification/SchedProps.v ===== *)
(** * Properties of the scheduler

    Round robin and fairness of [scheduler_tick], the invariant of all runs,
    what fork gives the child, what waiting for a child returns, and that the
    sixteen task slots are used up for good. *)

From S2P Require Import Prelude.
From S2P Require Import ByteMem.
From S2P Require Import Kmem.
From S2P Require Import Heap.
From S2P Require Import Alloc.
From S2P Require Import VmRegion.
From S2P Require Import Cow.
From S2P Require Import Pipe.
From S2P Require Import Task.
From S2P Require Import Sched.

(** ** Concrete states *)

(** Slot [i] of a ring of [n] tasks. *)
Definition demo_task (n i : nat) (pid_ parent : Z) (st : task_state) (code : Z) : task :=
  Task pid_ (str "t") st 0x1000 0 KERNEL_CR3 (Some (succ_in n i)) parent code false vm_region_init
    (replicate MAX_FDS no_fd) sig_zero.

Definition demo_sched (ts : list task) : sched :=
  Sched (ts ++ replicate (MAX_TASKS - length ts) task_zero) (length ts) (Some 0%nat) (Some 0%nat)
    (Z.of_nat (length ts)) None 0 0 0 boot_kmem pipe_init.

(** The main task, an idle task and an exited child of the main task. *)
Definition demo_tasks : list task :=
  [demo_task 3 0 0 0 TASK_RUNNING 0; demo_task 3 1 1 0 TASK_READY 0; demo_task 3 2 2 0 TASK_ZOMBIE 7].
Definition demo : sched := demo_sched demo_tasks.

Lemma demo_ring : ring demo.
Proof.
  split; [reflexivity|cbn; unfold MAX_TASKS; lia|reflexivity|by exists 0%nat; split; [|cbn; lia]|].
  intros i Hi. cbn in Hi. destruct i as [|[|[|i]]]; [reflexivity..|lia].
Qed.

(** ** One tick *)

(** C8: [scheduler_tick] is round robin.  On the ring of tasks it always ends;
    it picks the first ready task after the current one in ring order.  If
    there is none it does nothing.  Otherwise the picked task becomes the
    current one and runs, the old one becomes ready if it was running (a
    blocked or exited one keeps its state), no other task changes, and the
    saved stack pointer, address space and kernel stack handed to the switch
    are those of the picked task. *)
Theorem tick_round_robin s c :
  ring s -> current_task s = Some c ->
  let j := pick s c in
  exists s', scheduler_tick s = Some s' /\
    if decide (j = c) then s' = s
    else
      current_task s' = Some j
      /\ state (task_at s j) = TASK_READY /\ state (task_at s' j) = TASK_RUNNING
      /\ state (task_at s' c) =
           (if decide (state (task_at s c) = TASK_RUNNING) then TASK_READY else state (task_at s c))
      /\ (forall i, i <> j -> i <> c -> task_at s' i = task_at s i)
      /\ pending_switch s' = Some c
      /\ pending_rsp s' = rsp (task_at s j) /\ pending_cr3 s' = cr3 (task_at s j)
      /\ tss_rsp0 s' = u64 (stack_base (task_at s j) + STACK_SIZE).
Proof.
  intros R Hcur j. destruct (ring_cur _ R) as (c' & Hc' & Hc). rewrite Hcur in Hc'. injection Hc' as <-.
  pose proof (pick_range s c Hc) as Hj. fold j in Hj. pose proof (ring_pool _ R) as Hp.
  pose proof (ring_count _ R) as Hn.
  eexists. split; [by apply tick_run|]. fold j. destruct (decide (j = c)) as [|Hne]; [done|].
  assert (Hat := switch_at c j s). 
  assert (Hjf : forall {A} (f : task -> A), (forall t, f (set_state TASK_RUNNING t) = f t) ->
      f (task_at (upd_task j (set_state TASK_RUNNING)
        (if bool_decide (state (task_at s c) = TASK_RUNNING)
         then upd_task c (set_state TASK_READY) s else s)) j) = f (task_at s j)).
  { intros A f Hf. case_bool_decide; rewrite !task_at_upd; repeat case_decide; rewrite ?Hf; try done; lia. }
  split_and!; try done.
  - by apply pick_ready.
  - rewrite Hat by (done || lia). by rewrite decide_True.
  - rewrite Hat by (done || lia). rewrite decide_False by done.
    destruct (decide (state (task_at s c) = TASK_RUNNING)).
    + by rewrite decide_True.
    + by rewrite decide_False by tauto.
  - intros i Hij Hic. rewrite Hat by (done || lia). rewrite !decide_False by tauto. done.
  - apply (Hjf _ rsp). done.
  - apply (Hjf _ cr3). done.
  - apply (Hjf _ (fun t => u64 (stack_base t + STACK_SIZE))). done.
Qed.

Lemma tick_round_robin_witness :
  pick demo 0 = 1%nat /\ exists s', scheduler_tick demo = Some s' /\ current_task s' = Some 1%nat.
Proof.
  split; [reflexivity|].
  destruct (tick_round_robin demo 0 demo_ring eq_refl) as (s' & Ht & H).
  rewrite decide_False in H by (intros Hx; discriminate Hx).
  exists s'. split; [exact Ht|]. exact (proj1 H).
Defined.

(** ** All runs *)

Lemma kstep_inv s s' :
  kstep s s' -> sched_inv s -> sched_inv s' /\ (task_count s <= task_count s')%nat.
Proof.
  intros Hk [R Ho]. destruct Hk as [s s' Hk|s s' Ht].
  - destruct (kcall_creates _ _ R Hk) as [r Hc].
    destruct (creates_inv _ _ _ Hc R) as (R' & Hn & _ & Ho'). split; [by split; auto|done].
  - destruct (tick_inv _ _ Ht R) as (R' & Hn & Ho'). split; [by split; auto|lia].
Qed.

Lemma run_inv s s' : rtc kstep s s' -> sched_inv s -> sched_inv s' /\ (task_count s <= task_count s')%nat.
Proof.
  induction 1 as [s|s1 s2 s3 Hs _ IH]; intros Hi; [done|].
  destruct (kstep_inv _ _ Hs Hi) as [Hi2 Hn]. destruct (IH Hi2). split; [done|lia].
Qed.

(** C5: the scheduler's invariant.  After [scheduler_init], whatever sequence
    of task creations, forks, exits, waits, signals, blocking, wake-ups and
    timer ticks follows, the tasks in use form one ring in slot order that
    contains the current task, at most one task is in state running and then
    it is the current one, and the next tick ends. *)
Theorem scheduler_invariant s0 s :
  length (task_pool s0) = MAX_TASKS -> rtc kstep (scheduler_init s0) s ->
  ring s /\ one_running s /\ exists s', scheduler_tick s = Some s'.
Proof.
  intros Hl Hr. destruct (run_inv _ _ Hr (init_inv s0 Hl)) as [[R Ho] _].
  destruct (ring_cur _ R) as (c & Hc & _). split_and!; [done|done|].
  eexists. by eapply tick_run.
Qed.

Lemma scheduler_invariant_witness : exists s,
  scheduler_init demo = s /\ ring (task_wakeup 0 s).
Proof.
  eexists. split; [reflexivity|].
  apply (scheduler_invariant demo (task_wakeup 0 (scheduler_init demo))); [reflexivity|].
  eapply rtc_l; [|apply rtc_refl]. apply k_call, k_wakeup.
Defined.

(** ** Fairness *)

(** How far the current task is from [j], counted on all slots. *)
Definition dist (c j : nat) : nat := ((j + MAX_TASKS - c) mod MAX_TASKS)%nat.

Lemma dist_eq c j :
  (c < MAX_TASKS)%nat -> (j < MAX_TASKS)%nat -> dist c j = if decide (c <= j)%nat then (j - c)%nat else (j + MAX_TASKS - c)%nat.
Proof.
  intros Hc Hj. unfold dist, MAX_TASKS in *. case_decide.
  - replace (j + 16 - c)%nat with (j - c + 1 * 16)%nat by lia. rewrite Nat.Div0.mod_add. by apply Nat.mod_small; lia.
  - by apply Nat.mod_small; lia.
Qed.

Lemma find_first {A} (f : A -> bool) l1 x l2 y :
  find f (l1 ++ x :: l2) = Some y -> f x = true -> y = x \/ y ∈ l1.
Proof.
  induction l1 as [|z l1 IH]; cbn; intros Hf Hx.
  - rewrite Hx in Hf. injection Hf as <-. by left.
  - destruct (f z); [injection Hf as <-; right; by left|].
    destruct (IH Hf Hx) as [|]; [by left|right; by right].
Qed.

(** A ready task other than the current one is picked or comes nearer. *)
Lemma pick_nearer s c j :
  ring s -> (c < task_count s)%nat -> (j < task_count s)%nat -> j <> c ->
  state (task_at s j) = TASK_READY -> pick s c <> j -> (dist (pick s c) j < dist c j)%nat.
Proof.
  intros R Hc Hj Hne Hready Hp. pose proof (ring_count _ R) as Hn.
  pose proof (pick_range s c Hc) as Hpr.
  assert (Hr : is_ready s j = true) by by apply bool_decide_eq_true.
  assert (Hsplit : exists l1 l2, order c (task_count s) = l1 ++ j :: l2
    /\ forall x, x ∈ l1 -> x <> c /\ (dist x j < dist c j)%nat).
  { assert (Hd : forall x, (x < MAX_TASKS)%nat ->
      (c < x /\ (x < j \/ j < c) \/ x < j /\ j < c)%nat -> x <> c /\ (dist x j < dist c j)%nat).
    { intros x Hx Hcase. rewrite !dist_eq by lia. unfold MAX_TASKS in *. repeat case_decide; lia. }
    unfold order. destruct (decide (c < j)%nat).
    - exists (seq (S c) (j - S c)), (seq (S j) (task_count s - S j) ++ seq 0 c). split.
      + rewrite app_comm_cons, app_assoc. f_equal. change (j :: seq (S j) (task_count s - S j)) with (seq j (S (task_count s - S j))).
        replace (task_count s - S c)%nat with ((j - S c) + S (task_count s - S j))%nat by lia.
        rewrite seq_app. do 2 f_equal. lia.
      + intros x Hx%elem_of_seq. apply Hd; lia.
    - exists (seq (S c) (task_count s - S c) ++ seq 0 j), (seq (S j) (c - S j)). split.
      + rewrite <- app_assoc. f_equal. change (j :: seq (S j) (c - S j)) with (seq j (S (c - S j))).
        replace c with (j + S (c - S j))%nat at 1 by lia. by rewrite seq_app.
      + intros x [Hx%elem_of_seq|Hx%elem_of_seq]%elem_of_app; apply Hd; lia. }
  destruct Hsplit as (l1 & l2 & Ho & Hl1). unfold pick in *. rewrite Ho in *.
  destruct (find (is_ready s) (l1 ++ j :: l2)) as [y|] eqn:E.
  - cbn in *. destruct (find_first _ _ _ _ _ E Hr) as [->|Hy]; [done|]. by apply Hl1.
  - rewrite (find_none _ _ E j) in Hr; [done|]. apply in_app_iff. right. by left.
Qed.

(** A call between two ticks. *)
Lemma kcalls_keep s s' :
  rtc kcall s s' -> ring s ->
  ring s' /\ (task_count s <= task_count s')%nat /\ current_task s' = current_task s.
Proof.
  induction 1 as [s|s1 s2 s3 Hs _ IH]; intros R; [done|].
  destruct (kcall_creates _ _ R Hs) as [r Hc].
  destruct (creates_inv _ _ _ Hc R) as (R2 & Hn & Hcu & _). destruct (IH R2) as (? & ? & Hcu3).
  split_and!; [done|lia|congruence].
Qed.

Lemma fair_step s s1 s2 j :
  ring s -> (j < task_count s)%nat -> scheduler_tick s = Some s1 -> rtc kcall s1 s2 ->
  current_task s <> Some j -> state (task_at s j) = TASK_READY ->
  ring s2 /\ (j < task_count s2)%nat
  /\ forall c, current_task s = Some c -> exists c2, current_task s2 = Some c2
       /\ (c2 = j \/ (dist c2 j < dist c j)%nat).
Proof.
  intros R Hj Ht Hk Hne Hr. destruct (tick_inv _ _ Ht R) as (R1 & Hn1 & _).
  destruct (kcalls_keep _ _ Hk R1) as (R2 & Hn2 & Hcu2).
  split_and!; [done|lia|]. intros c Hcur. destruct (ring_cur _ R) as (c' & Hc' & Hc).
  rewrite Hcur in Hc'. injection Hc' as <-. rewrite (tick_run _ _ R Hcur) in Ht. injection Ht as <-.
  exists (pick s c). split.
  - rewrite Hcu2. case_decide as Hp; [by rewrite Hp|]. by unfold switch_to; case_bool_decide.
  - destruct (decide (pick s c = j)); [by left|right]. apply pick_nearer; congruence || done.
Qed.

(** C9: every ready task gets the processor.  Take a run of the kernel in
    which [σ k] is the state before the [k]-th tick and any calls (forks,
    exits, wake-ups, ...) happen between the ticks.  A task that stays ready
    until it is chosen becomes the current task within [MAX_TASKS - 1] ticks,
    even though the ring may grow meanwhile. *)
Theorem ready_task_runs (σ : nat -> sched) j :
  ring (σ 0%nat) -> (j < task_count (σ 0%nat))%nat ->
  (forall k, exists s1, scheduler_tick (σ k) = Some s1 /\ rtc kcall s1 (σ (S k))) ->
  (forall k, (k < MAX_TASKS)%nat ->
     current_task (σ k) = Some j \/ state (task_at (σ k) j) = TASK_READY) ->
  exists k, (k < MAX_TASKS)%nat /\ current_task (σ k) = Some j.
Proof.
  intros R Hj Hstep Hready.
  assert (Hmain : forall k, (exists k', (k' <= k)%nat /\ current_task (σ k') = Some j)
    \/ (MAX_TASKS <= k)%nat
    \/ (ring (σ k) /\ (j < task_count (σ k))%nat
        /\ exists c, current_task (σ k) = Some c /\ (dist c j + k < MAX_TASKS)%nat)).
  { induction k as [|k IH].
    - right. right. split_and!; [done|done|]. destruct (ring_cur _ R) as (c & Hc & _). exists c.
      split; [done|]. unfold dist, MAX_TASKS. pose proof (Nat.mod_upper_bound (j + 16 - c) 16). lia.
    - destruct IH as [(k' & Hk' & Hc)|[Hk|(Rk & Hjk & c & Hc & Hd)]]; [left; exists k'; split; [lia|done]|right; left; lia|].
      destruct (decide (c = j)) as [->|Hne]; [left; exists k; split; [lia|done]|].
      destruct (Hstep k) as (s1 & Ht & Hk).
      destruct (Hready k) as [?|Hr]; [unfold MAX_TASKS in *; lia|congruence|].
      destruct (fair_step _ _ _ j Rk Hjk Ht Hk) as (R2 & Hj2 & Hc2); [congruence|done|].
      destruct (Hc2 c Hc) as (c2 & Hc2' & Hcase). right.
      destruct (decide (MAX_TASKS <= S k)%nat); [by left|]. right. split_and!; [done|done|].
      exists c2. split; [done|]. destruct Hcase as [->|Hlt]; [|lia].
      unfold dist. replace (j + MAX_TASKS - j)%nat with MAX_TASKS by lia.
      rewrite Nat.Div0.mod_same. unfold MAX_TASKS in *. lia. }
  destruct (Hmain (MAX_TASKS - 1)%nat) as [(k & Hk & Hc)|[?|(Rk & Hjk & c & Hc & Hd)]];
    [exists k; split; [unfold MAX_TASKS in *; lia|done]|unfold MAX_TASKS in *; lia|].
  exists (MAX_TASKS - 1)%nat. split; [unfold MAX_TASKS; lia|]. rewrite Hc. f_equal.
  destruct (ring_cur _ Rk) as (c' & Hc' & Hcn). rewrite Hc in Hc'. injection Hc' as <-.
  pose proof (ring_count _ Rk). rewrite dist_eq in Hd by lia.
  unfold MAX_TASKS in *. case_decide; lia.
Qed.

(** The main task and the idle task, ticking. *)
Fixpoint ticking (k : nat) : sched :=
  match k with
  | O => demo_sched [demo_task 2 0 0 0 TASK_RUNNING 0; demo_task 2 1 1 0 TASK_READY 0]
  | S k => default (ticking k) (scheduler_tick (ticking k))
  end.

Lemma ticking_ring k : ring (ticking k).
Proof.
  induction k as [|k IH].
  - split; [reflexivity|cbn; unfold MAX_TASKS; lia|reflexivity|by exists 0%nat; split; [|cbn; lia]|].
    intros i Hi. cbn in Hi. destruct i as [|[|i]]; [reflexivity..|lia].
  - destruct (ring_cur _ IH) as (c & Hc & _). cbn [ticking].
    pose proof (tick_run _ _ IH Hc) as Ht. rewrite Ht. by destruct (tick_inv _ _ Ht IH).
Qed.

Lemma ready_task_runs_witness :
  exists k, (k < MAX_TASKS)%nat /\ current_task (ticking k) = Some 1%nat.
Proof.
  apply (ready_task_runs ticking 1%nat); [apply ticking_ring|cbn; lia| |].
  - intros k. pose proof (ticking_ring k) as R. destruct (ring_cur _ R) as (c & Hc & _).
    pose proof (tick_run _ _ R Hc) as Ht. eexists. split; [exact Ht|].
    cbn [ticking]. rewrite Ht. apply rtc_refl.
  - intros k Hk. do 16 (destruct k as [|k]; [vm_compute; auto|]). unfold MAX_TASKS in Hk. lia.
Defined.

(** ** [sys_fork] *)

Lemma vm_region_copy_same dst src : vm_region_copy dst src = src.
Proof. induction src as [|[a b f] src IH]; [done|]. unfold vm_region_copy in *. cbn. by rewrite IH. Qed.

(** C27: what [sys_fork] gives and what it leaves.  On the ring with a free
    slot it counts the parent's pipe ends once more, and then either fails,
    returning -1 with no task added or changed in the ring and with those
    counts kept; or it returns the new pid and adds one ready task right
    after the last one, with the parent's name, regions, descriptors, signal
    handlers, mask and trampoline, no pending signal, and the parent's pid as
    [parent_pid]; every other task keeps everything but its link in the ring. *)
Theorem fork_outcomes s p prsp pcr3 r0 r s' :
  ring s -> current_task s = Some p -> (task_count s < MAX_TASKS)%nat ->
  sys_fork prsp pcr3 r0 s = Some (r, s') ->
  let parent := task_at s p in
  pipes s' = (task_copy_fds (fds parent) (pipes s)).2 /\
  (forall j, j <> task_count s -> exists nx, task_at s' j = set_next nx (task_at s j)) /\
  ((r = -1 /\ task_count s' = task_count s /\ quiet s s')
   \/ (r = i32 (next_pid s) /\ task_count s' = S (task_count s) /\ ring s'
       /\ current_task s' = Some p
       /\ let child := task_at s' (task_count s) in
          pid child = next_pid s /\ parent_pid child = pid parent /\ state child = TASK_READY
          /\ name child = take (TASK_NAME_MAX - 1) (name parent)
          /\ vm_regions child = vm_regions parent /\ fds child = fds parent
          /\ signal_handlers (sig child) = signal_handlers (sig parent)
          /\ signal_mask (sig child) = signal_mask (sig parent)
          /\ trampoline_addr (sig child) = trampoline_addr (sig parent)
          /\ signal_pending (sig child) = 0 /\ waited child = false)).
Proof.
  intros R Hcur Hlt Hf parent. pose proof (sys_fork_sets_up _ _ _ _ _ _ _ R Hcur Hlt Hf) as [Hr [Hq Hps Ho]|s1 Hm Hl].
  - split_and!; [done|intros j Hj; exists (next_task (task_at s j)); rewrite Ho by done; by destruct (task_at s j)|].
    left. split_and!; [done|by rewrite (q_count _ _ Hq)|done].
  - destruct Hm as [Hq Hc Hps Hs Ho]. pose proof (quiet_ring _ _ Hq R) as R1.
    destruct (link_run s1 R1) as (s2 & Hl2 & R2 & Hn2 & Hcu2 & Hat & _ & Hps2); [by rewrite (q_count _ _ Hq)|].
    rewrite (q_count _ _ Hq) in *. rewrite Hl in Hl2. injection Hl2 as -> ->.
    split_and!; [by rewrite Hps2|intros j Hj; rewrite <- (Ho j Hj); apply Hat|]. right. unfold fork_fields, core, fork_slot in Hc.
    injection Hc as E1 E2 E3 E4 E5 E6 E7 E8 E9.
    split_and!; [by rewrite E1|done|done|by rewrite Hcu2, (q_cur _ _ Hq)|].
    destruct (Hat (task_count s)) as [nx ->]. cbn -[take] in *. rewrite E9.
    split_and!; try done.
    + rewrite E7. apply vm_region_copy_same.
    + rewrite E8. apply copy_fds_table.
Qed.

Lemma fork_outcomes_witness :
  exists s', sys_fork 0x1000 KERNEL_CR3 0x1f00 (set_km (Kmem ∅ 0 0 0 []) demo) = Some (-1, s')
    /\ task_count s' = 3%nat /\ quiet (set_km (Kmem ∅ 0 0 0 []) demo) s'.
Proof.
  destruct (sys_fork 0x1000 KERNEL_CR3 0x1f00 (set_km (Kmem ∅ 0 0 0 []) demo)) as [[r s']|] eqn:E;
    [|vm_compute in E; discriminate E].
  assert (R : ring (set_km (Kmem ∅ 0 0 0 []) demo)) by (eapply quiet_ring; [|exact demo_ring]; apply quiet_km, quiet_refl).
  assert (r = -1) as -> by (vm_compute in E; by injection E).
  exists s'. split; [reflexivity|].
  assert (Hlt : (task_count (set_km (Kmem ∅ 0 0 0 []) demo) < MAX_TASKS)%nat) by (vm_compute; lia).
  destruct (fork_outcomes _ 0 _ _ _ _ _ R eq_refl Hlt E) as (_ & _ & [(_ & Hn & Hq)|(Hx & _)]).
  - split; [exact Hn|exact Hq].
  - vm_compute in Hx. discriminate Hx.
Defined.

(** ** Slots are used up *)

(** Task slots are never given back.  No call lowers [task_count]
    ([scheduler_remove_zombie] frees a reaped task's stack but neither unlinks
    it nor lowers the count), so once [MAX_TASKS] tasks have been created,
    then however many of them have exited and been waited for, in every later
    state [sys_fork] and [task_create] return -1 and change nothing. *)
Theorem task_slots_never_freed s0 s s' :
  length (task_pool s0) = MAX_TASKS -> rtc kstep (scheduler_init s0) s -> rtc kstep s s' ->
  (task_count s <= task_count s')%nat
  /\ (task_count s = MAX_TASKS ->
      (forall prsp pcr3 r, sys_fork prsp pcr3 r s' = Some (-1, s'))
      /\ (forall nm entry, task_create nm entry s' = Some (-1, s'))).
Proof.
  intros Hl H1 H2. destruct (run_inv _ _ H1 (init_inv s0 Hl)) as [Hi _].
  destruct (run_inv _ _ H2 Hi) as [Hi' Hle]. split; [done|]. intros Hfull.
  pose proof (ring_count _ (inv_ring _ Hi')).
  split; intros; unfold sys_fork, task_create; rewrite (proj2 (Nat.leb_le _ _)) by lia; done.
Qed.

(** ** [sys_waitpid] *)

Definition is_child (s : sched) (pid_ my_pid : Z) (i : nat) : bool :=
  (pid (task_at s i) =? pid_) && (parent_pid (task_at s i) =? my_pid).

Lemma wait_find_ring s p q k : ring s -> (k <= task_count s - 1)%nat ->
  forall fuel, (k < fuel)%nat ->
  wait_find fuel s p q (Some (succ_in (task_count s) (task_count s - 1 - k)))
  = Some (find (is_child s p q) (seq (task_count s - k) k)).
Proof.
  intros R. pose proof (ring_count _ R) as Hn. induction k as [|k IH]; intros Hk [|fuel] Hf; try lia;
    cbn [wait_find]; rewrite (ring_list _ R); unfold succ_in.
  - rewrite decide_True by lia. by rewrite bool_decide_true.
  - rewrite decide_False by lia. rewrite bool_decide_false by congruence.
    replace (S (task_count s - 1 - S k))%nat with (task_count s - S k)%nat by lia. cbn [seq find].
    unfold is_child at 1. destruct (_ && _); [done|].
    rewrite (ring_next _ R) by lia. replace (task_count s - S k)%nat with (task_count s - 1 - k)%nat by lia.
    rewrite IH by lia. do 2 f_equal. f_equal. lia.
Qed.

(** The search starts after the first task and meets every other slot. *)
Lemma waitpid_find s p c :
  ring s -> current_task s = Some c ->
  sys_waitpid p s =
    Some (match find (is_child s p (pid (task_at s c))) (seq 1 (task_count s - 1)) with
          | None => WaitDone (-1) s
          | Some t => wait_on p t s
          end).
Proof.
  intros R Hc. unfold sys_waitpid. pose proof (ring_count _ R). rewrite (ring_list _ R), Hc.
  rewrite (ring_next _ R) by lia.
  pose proof (wait_find_ring s p (pid (task_at s c)) (task_count s - 1) R ltac:(lia) wait_fuel) as Hw.
  rewrite Nat.sub_diag in Hw. rewrite Hw by (unfold wait_fuel; lia).
  replace (task_count s - (task_count s - 1))%nat with 1%nat by lia. clear Hw. by destruct (find _ _).
Qed.

(** What waking tasks and closing descriptors leave alone. *)
Definition ids (t : task) := (pid t, parent_pid t, stack_base t, exit_code t, waited t, cr3 t).

Lemma upd_ids i f s j : (forall t, ids (f t) = ids t) -> ids (task_at (upd_task i f s) j) = ids (task_at s j).
Proof. intros Hf. rewrite task_at_upd. case_decide; [apply Hf|done]. Qed.

Lemma wake_all_ids ts s j :
  ids (task_at (wake_all ts s) j) = ids (task_at s j) /\ km (wake_all ts s) = km s.
Proof.
  revert s. induction ts as [|t ts IH]; intros s; [done|].
  change (wake_all (t :: ts) s) with (wake_all ts (task_wakeup t s)).
  destruct (IH (task_wakeup t s)) as [-> ->]. unfold task_wakeup. case_bool_decide; [|done].
  split; [by apply upd_ids|done].
Qed.

Lemma close_ids i s j :
  ids (task_at (close_fds i s) j) = ids (task_at s j) /\ km (close_fds i s) = km s.
Proof.
  unfold close_fds. destruct (task_close_fds _ _) as [[fds' pool] w].
  destruct (wake_all_ids w (upd_task i (set_fds fds') (set_pipes pool s)) j) as [-> ->].
  split; [by rewrite upd_ids|done].
Qed.

Lemma upd_km i f s : km (upd_task i f s) = km s.
Proof. done. Qed.

Lemma pool_on_km {A} (m : ST kmem A) s : task_pool (on_km m s).2 = task_pool s.
Proof. unfold on_km. by destruct (m (km s)). Qed.

Lemma task_at_on_km {A} (m : ST kmem A) s j : task_at (on_km m s).2 j = task_at s j.
Proof. unfold task_at. by rewrite pool_on_km. Qed.

Lemma length_upd i f s : length (task_pool (upd_task i f s)) = length (task_pool s).
Proof. apply length_alter. Qed.

(** Reaping slot [i]. *)
Lemma reap_spec i s :
  (i < length (task_pool s))%nat ->
  pid (task_at (reap i s) i) = 0 /\ stack_base (task_at (reap i s) i) = 0
  /\ (forall j, j <> i -> ids (task_at (reap i s) j) = ids (task_at s j))
  /\ km (reap i s) =
       (if stack_base (task_at s i) =? 0 then km s else kfree (stack_base (task_at s i)) (km s)).
Proof.
  intros Hi. unfold reap. set (t := task_at s i).
  match goal with |- context [close_fds i (upd_task i _ ?x)] => set (s2 := x) end.
  assert (H2 : stack_base (task_at s2 i) = 0 /\ length (task_pool s2) = length (task_pool s)
    /\ (forall j, j <> i -> task_at s2 j = task_at s j)
    /\ km s2 = if stack_base t =? 0 then km s else kfree (stack_base t) (km s)).
  { unfold s2. destruct (Z.eqb_spec (stack_base t) 0) as [H0|H0], (_ || _); split_and!; try done;
      rewrite ?length_upd, ?pool_on_km, ?length_upd, ?pool_on_km; try done; try intros j Hj;
      repeat (rewrite task_at_upd || rewrite task_at_on_km);
      rewrite ?length_upd, ?pool_on_km, ?length_upd, ?pool_on_km;
      repeat case_decide; (done || intuition congruence || tauto). }
  clearbody s2. destruct H2 as (Hst & Hlen & Hne & Hkm).
  assert (Hids : forall j, ids (task_at (close_fds i
      (upd_task i (fun t => set_state TASK_ZOMBIE (set_pid 0 t)) s2)) j)
    = ids (task_at (upd_task i (fun t => set_state TASK_ZOMBIE (set_pid 0 t)) s2) j))
    by (intros j; apply close_ids).
  pose proof (Hids i) as Hii. rewrite task_at_upd, decide_True in Hii by (split; [done|lia]).
  unfold ids in Hii at 1 2. injection Hii as E1 _ E3 _ _ _.
  split_and!; [exact E1|by rewrite E3| |].
  - intros j Hj. rewrite Hids, task_at_upd, decide_False by intuition congruence. by rewrite Hne.
  - rewrite <- Hkm. destruct (close_ids i (upd_task i (fun t => set_state TASK_ZOMBIE (set_pid 0 t)) s2) i) as [_ ->].
    done.
Qed.

Lemma remove_loop_hit s p i : forall n a, (a <= i < a + n)%nat ->
  (forall j, (a <= j < a + n)%nat -> pid (task_at s j) = p -> j = i) ->
  pid (task_at s i) = p -> is_zombie (task_at s i) = true -> waited (task_at s i) = true ->
  remove_loop n a p s = reap i s.
Proof.
  induction n as [|n IH]; intros a Ha Hu Hp Hz Hw; [lia|]. cbn [remove_loop].
  destruct (decide (a = i)) as [->|Hne].
  - by rewrite Hp, Z.eqb_refl, Hz, Hw.
  - destruct (Z.eqb_spec (pid (task_at s a)) p) as [Hx|Hx]; [by destruct Hne; apply Hu; [lia|]|].
    cbn. apply IH; try done; [lia|]. intros j Hj. apply Hu. lia.
Qed.

Lemma find_only (f : nat -> bool) i a n :
  (a <= i < a + n)%nat -> f i = true -> (forall j, (a <= j < a + n)%nat -> f j = true -> j = i) ->
  find f (seq a n) = Some i.
Proof.
  revert a. induction n as [|n IH]; intros a Hi Hf Hu; [lia|]. cbn. destruct (f a) eqn:E.
  - by rewrite (Hu a) by (done || lia).
  - apply IH; [|done|intros j Hj; apply Hu; lia]. destruct (decide (a = i)); [congruence|lia].
Qed.

(** C28: [sys_waitpid] on a child that only the caller's slot [i] has as its
    pid.  While the child lives, the call yields and goes on waiting for that
    very slot.  Once it has exited, the call returns its exit code, and frees
    the child's kernel stack exactly once: the slot's pid and stack are
    cleared, no other slot's identity changes, and a second wait for the same
    pid fails with -1 and changes nothing. *)
Theorem waitpid_reaps_once s c i :
  ring s -> current_task s = Some c -> (0 < i < task_count s)%nat ->
  parent_pid (task_at s i) = pid (task_at s c) -> pid (task_at s i) <> 0 ->
  (forall j, (j < task_count s)%nat -> pid (task_at s j) = pid (task_at s i) -> j = i) ->
  (state (task_at s i) <> TASK_ZOMBIE ->
     sys_waitpid (pid (task_at s i)) s = Some (WaitYield i s))
  /\ (state (task_at s i) = TASK_ZOMBIE -> waited (task_at s i) = false ->
      exists s', sys_waitpid (pid (task_at s i)) s = Some (WaitDone (exit_code (task_at s i)) s')
        /\ pid (task_at s' i) = 0 /\ stack_base (task_at s' i) = 0
        /\ (forall j, j <> i -> ids (task_at s' j) = ids (task_at s j))
        /\ km s' = (if stack_base (task_at s i) =? 0 then km s
                    else kfree (stack_base (task_at s i)) (km s))
        /\ sys_waitpid (pid (task_at s i)) s' = Some (WaitDone (-1) s')).
Proof.
  intros R Hc Hi Hpar Hnz Hu. pose proof (ring_pool _ R) as Hpool. pose proof (ring_count _ R) as Hn.
  set (p := pid (task_at s i)) in *.
  rewrite (waitpid_find _ _ _ R Hc), (find_only _ i); [|lia| |].
  2: { unfold is_child. by rewrite Hpar, !Z.eqb_refl. }
  2: { intros j Hj Hf. apply Hu; [lia|]. apply andb_prop in Hf as [Hf _]. by apply Z.eqb_eq. }
  unfold wait_on, is_zombie. split; intros Hz; [by rewrite bool_decide_false|].
  rewrite bool_decide_true by done. intros Hw. rewrite Hw.
  set (s1 := upd_task i (set_waited true) s).
  assert (Hat : forall j, task_at s1 j = if decide (i = j) then set_waited true (task_at s j) else task_at s j).
  { intros j. unfold s1. rewrite task_at_upd, Hpool. repeat case_decide; intuition lia. }
  assert (Hs1i : task_at s1 i = set_waited true (task_at s i)) by by rewrite Hat, decide_True.
  assert (Hpid1 : forall j, pid (task_at s1 j) = pid (task_at s j)) by (intros j; rewrite Hat; by case_decide).
  assert (Hl1 : length (task_pool s1) = length (task_pool s)) by apply length_alter.
  assert (Hrm : scheduler_remove_zombie p s1 = reap i s1).
  { unfold scheduler_remove_zombie. apply remove_loop_hit; try (rewrite Hs1i; cbn); try done.
    - change (task_count s1) with (task_count s). lia.
    - intros j Hj. rewrite Hpid1. apply Hu. change (task_count s1) with (task_count s) in Hj. lia.
    - by apply bool_decide_true. }
  destruct (reap_spec i s1) as (E1 & E2 & E3 & E4); [lia|].
  assert (Q : quiet s (scheduler_remove_zombie p s1)).
  { apply quiet_remove, quiet_upd. by intros ?. }
  exists (scheduler_remove_zombie p s1). rewrite Hs1i in *. cbn [stack_base exit_code set_waited] in *.
  split; [done|]. rewrite Hrm in *. split_and!; [done|done| |exact E4|].
  - intros j Hj. rewrite E3 by done. rewrite Hat, decide_False by congruence. done.
  - pose proof (quiet_ring _ _ Q R) as R2.
    assert (Hc2 : current_task (reap i s1) = Some c) by by rewrite (q_cur _ _ Q).
    rewrite (waitpid_find _ _ _ R2 Hc2), (q_count _ _ Q).
    destruct (find _ _) as [j|] eqn:E; [|done]. exfalso.
    apply find_some in E as [Hj Hf]. apply in_seq in Hj. apply andb_prop in Hf as [Hf _].
    apply Z.eqb_eq in Hf. destruct (decide (j = i)) as [->|Hne]; [by rewrite E1 in Hf|].
    specialize (E3 j Hne). unfold ids in E3. injection E3 as E3 _ _ _ _ _.
    rewrite E3, Hpid1 in Hf. apply Hne, Hu; [lia|done].
Qed.

Lemma waitpid_reaps_once_witness :
  exists s', sys_waitpid 2 demo = Some (WaitDone 7 s') /\ sys_waitpid 2 s' = Some (WaitDone (-1) s').
Proof.
  destruct (waitpid_reaps_once demo 0 2 demo_ring eq_refl) as [_ H].
  - cbn. lia.
  - reflexivity.
  - intros Hx. discriminate Hx.
  - intros j Hj Hp. cbn in Hj. destruct j as [|[|[|j]]]; [discriminate Hp..|reflexivity|lia].
  - destruct (H eq_refl eq_refl) as (s' & H1 & _ & _ & _ & _ & H2). exists s'. split; [exact H1|exact H2].
Defined.
