(* ===== verification/KernelInv.v ===== *)
(** * The invariant of the kernel's tasks and pipes

    [kinv n s]: the tasks form the scheduler's ring, at most one runs, the
    descriptor tables are well typed, and the reference counts of the pipes
    are those of [FdInv] for the descriptors of all tasks ([all_fds]), [n] being
    the number of leaked references.  [calm] is the relation of the many steps
    that change none of this; the other operations have a lemma each. *)

From S2P Require Import Prelude.
From S2P Require Import Kmem.
From S2P Require Import Heap.
From S2P Require Import Alloc.
From S2P Require Import VmRegion.
From S2P Require Import Cow.
From S2P Require Import Pipe.
From S2P Require Import FdInv.
From S2P Require Import Task.
From S2P Require Import Fd.
From S2P Require Import Sched.

Definition tab (s : sched) (i : nat) : list fd := fds (task_at s i).

(** The descriptors of all tasks. *)
Definition all_fds (s : sched) : list fd := concat (map (tab s) (seq 0 (task_count s))).

Definition tab_ok (l : list fd) : Prop := length l = MAX_FDS /\ Forall fd_ok l.

(** Leaks stay far from the width of the counters. *)
Definition LEAK_MAX : Z := 2 ^ 29.

Record kinv (n : Z) (s : sched) : Prop := {
  ki_ring : ring s;
  ki_run : one_running s;
  ki_tab i : (i < task_count s)%nat -> tab_ok (tab s i);
  ki_max : n <= LEAK_MAX;
  ki_pool : pool_inv n (all_fds s) (pipes s)
}.

(** ** Steps that keep tables and counts *)

Record calm (s s' : sched) : Prop := {
  ca_quiet : quiet s s';
  ca_tab i : tab s' i = tab s i;
  ca_pipes : Forall2 same_ends (pipes s) (pipes s')
}.

Lemma same_pool_refl pool : Forall2 same_ends pool pool.
Proof. reflexivity. Qed.

Lemma calm_refl s : calm s s.
Proof. split; [apply quiet_refl|done|apply same_pool_refl]. Qed.

Lemma calm_trans s1 s2 s3 : calm s1 s2 -> calm s2 s3 -> calm s1 s3.
Proof.
  intros [Q T P] [Q' T' P']. split; [by eapply quiet_trans|intros i; by rewrite T'|].
  by transitivity (pipes s2).
Qed.

(** A change of a slot that keeps its table. *)
Definition keeps_fds (f : task -> task) : Prop := forall t, fds (f t) = fds t.

Lemma tab_upd i f s j : keeps_fds f -> tab (upd_task i f s) j = tab s j.
Proof. intros Hf. unfold tab. rewrite task_at_upd. case_decide; [apply Hf|done]. Qed.

Lemma calm_upd i f s s' : tame f -> keeps_fds f -> calm s s' -> calm s (upd_task i f s').
Proof.
  intros Ht Hf [Q T P]. split; [by apply quiet_upd'|intros j; by rewrite tab_upd|exact P].
Qed.

Lemma calm_km s s' k : calm s s' -> calm s (set_km k s').
Proof. intros [Q T P]. split; [by apply quiet_km|exact T|exact P]. Qed.

Lemma calm_on_km {A} (m : ST kmem A) s s' : calm s s' -> calm s (on_km m s').2.
Proof. intros H. unfold on_km. destruct (m (km s')). by apply calm_km. Qed.

Lemma calm_on_km_run {A} (m : ST kmem A) s s' a s2 : on_km m s' = (a, s2) -> calm s s' -> calm s s2.
Proof. intros E H. change s2 with (a, s2).2. rewrite <- E. by apply calm_on_km. Qed.

Lemma calm_wakeup i s s' : calm s s' -> calm s (task_wakeup i s').
Proof. intros H. unfold task_wakeup. case_bool_decide; [apply calm_upd; [by intros ?..|done]|done]. Qed.

Lemma calm_wake_all ts s s' : calm s s' -> calm s (wake_all ts s').
Proof.
  revert s'. induction ts as [|t ts IH]; intros s' H; [done|]. cbn. apply IH. by apply calm_wakeup.
Qed.

Lemma calm_block t s s' : calm s s' -> calm s (task_block t s').
Proof. intros H. destruct t; [apply calm_upd; [by intros ?..|done]|done]. Qed.

Lemma calm_pipe i p q s s' :
  pipes s' !! i = Some p -> same_ends p q -> calm s s' -> calm s (set_pipes (<[i := q]> (pipes s')) s').
Proof.
  intros Hp Hq [Q T P]. split; [by apply quiet_pipes|exact T|]. cbn [pipes set_pipes].
  transitivity (pipes s'); [exact P|].
  rewrite <- (list_insert_id (pipes s') i p) at 1 by done. by f_equiv.
Qed.

Create HintDb calm.
#[export] Hint Resolve calm_refl calm_km calm_on_km calm_on_km_run calm_wakeup calm_wake_all calm_block calm_upd : calm.
#[export] Hint Extern 1 (keeps_fds _) => (by intros ?) : calm.
#[export] Hint Extern 1 (tame _) => (by intros ?) : calm.

Lemma all_fds_ext s s' :
  task_count s' = task_count s -> (forall i, (i < task_count s)%nat -> tab s' i = tab s i) -> all_fds s' = all_fds s.
Proof.
  intros Hc Ht. unfold all_fds. rewrite Hc. f_equal. apply map_ext_in. intros i Hi. apply in_seq in Hi. apply Ht. lia.
Qed.

Lemma calm_kinv n s s' : calm s s' -> kinv n s -> kinv n s'.
Proof.
  intros [Q T P] [R O Tb M Po]. pose proof (q_count _ _ Q) as Hc. split.
  - by eapply quiet_ring.
  - by eapply quiet_running.
  - intros i Hi. rewrite T. apply Tb. by rewrite <- Hc.
  - done.
  - rewrite (all_fds_ext s s') by auto. by eapply pool_inv_ends.
Qed.

(** ** One table changes *)

(** The descriptors of the other tasks. *)
Definition rest (s : sched) (c : nat) : list fd :=
  concat (map (tab s) (seq 0 c)) ++ concat (map (tab s) (seq (S c) (task_count s - S c))).

Lemma all_fds_split s c : (c < task_count s)%nat -> all_fds s ≡ₚ tab s c ++ rest s c.
Proof.
  intros Hc. unfold all_fds, rest. replace (task_count s) with (c + S (task_count s - S c))%nat at 1 by lia.
  rewrite seq_app, map_app, concat_app. cbn [seq map concat Nat.add].
  rewrite !app_assoc. apply Permutation_app_tail, Permutation_app_comm.
Qed.

Lemma rest_ext s s' c :
  task_count s' = task_count s -> (forall i, i <> c -> tab s' i = tab s i) -> rest s' c = rest s c.
Proof.
  intros Hc Ht. unfold rest. rewrite Hc.
  f_equal; f_equal; apply map_ext_in; intros i Hi; apply in_seq in Hi; apply Ht; lia.
Qed.

Lemma length_all_fds s : (forall i, (i < task_count s)%nat -> tab_ok (tab s i)) ->
  length (all_fds s) = (MAX_FDS * task_count s)%nat.
Proof.
  unfold all_fds. generalize (task_count s) as n. intros n H.
  assert (G : forall a, (forall i, (i < a + n)%nat -> tab_ok (tab s i)) ->
    length (concat (map (tab s) (seq a n))) = (MAX_FDS * n)%nat).
  { clear H. induction n as [|n IH]; intros a Ha; cbn [seq map concat]; [done|].
    rewrite length_app, IH by (intros i Hi; apply Ha; lia). destruct (Ha a ltac:(lia)) as [-> _].
    unfold MAX_FDS. lia. }
  apply (G 0%nat). intros i Hi. apply H. lia.
Qed.

Lemma all_fds_room n s k :
  ring s -> (forall i, (i < task_count s)%nat -> tab_ok (tab s i)) -> n <= LEAK_MAX -> k <= 1000 ->
  Z.of_nat (length (all_fds s)) + n + k < 2 ^ 30.
Proof.
  intros R T M K. rewrite length_all_fds by done. pose proof (ring_count _ R).
  unfold LEAK_MAX, MAX_FDS, MAX_TASKS in *. lia.
Qed.

Lemma kinv_table n s s' c :
  kinv n s -> quiet s s' -> (c < task_count s)%nat -> (forall i, i <> c -> tab s' i = tab s i) ->
  tab_ok (tab s' c) -> pool_inv n (tab s' c ++ rest s c) (pipes s') -> kinv n s'.
Proof.
  intros [R O T M P] Q Hc Ht Ho Hp. pose proof (q_count _ _ Q) as Hn. split.
  - by eapply quiet_ring.
  - by eapply quiet_running.
  - intros i Hi. destruct (decide (i = c)) as [->|]; [done|]. rewrite Ht by done. apply T. by rewrite <- Hn.
  - done.
  - eapply pool_inv_perm; [|exact Hp]. rewrite <- (rest_ext s s') by done. symmetry. apply all_fds_split. by rewrite Hn.
Qed.

Lemma kinv_pool n s c : kinv n s -> (c < task_count s)%nat -> pool_inv n (tab s c ++ rest s c) (pipes s).
Proof. intros [_ _ _ _ P] Hc. eapply pool_inv_perm; [by apply all_fds_split|exact P]. Qed.

Lemma tab_ok_slot l i : tab_ok l -> (i < MAX_FDS)%nat -> exists f, l !! i = Some f /\ fd_ok f.
Proof.
  intros [Hl Hf] Hi. destruct (lookup_lt_is_Some_2 l i ltac:(lia)) as [f Hx]. exists f. split; [done|].
  by eapply (proj1 (Forall_lookup _ _) Hf).
Qed.

Lemma tab_ok_insert l i f : tab_ok l -> fd_ok f -> tab_ok (<[i := f]> l).
Proof. intros [Hl Hf] H. split; [by rewrite length_insert|by apply Forall_insert]. Qed.

Lemma set_fd_tab c i f s : (c < length (task_pool s))%nat ->
  tab (set_fd c i f s) c = <[i := f]> (tab s c) /\ (forall j, j <> c -> tab (set_fd c i f s) j = tab s j)
  /\ quiet s (set_fd c i f s) /\ pipes (set_fd c i f s) = pipes s.
Proof.
  intros Hc. unfold set_fd, tab. split_and!; [|intros j Hj| |done].
  - by rewrite task_at_upd, decide_True.
  - rewrite task_at_upd, decide_False; [done|]. intros [-> _]. done.
  - apply quiet_upd'; [by intros ?|apply quiet_refl].
Qed.

(** ** The calls on descriptors *)

Lemma in_table_slot fd : in_table fd = true -> (Z.to_nat fd < MAX_FDS)%nat /\ 0 <= fd.
Proof.
  unfold in_table. intros [H1 H2]%andb_true_iff. apply Z.leb_le in H1. apply Z.ltb_lt in H2.
  split; [|done]. apply Nat2Z.inj_lt. by rewrite Z2Nat.id.
Qed.

Lemma drop_fd_calm ty d s :
  quiet s (drop_fd ty d s) /\ (forall j, tab (drop_fd ty d s) j = tab s j)
  /\ pipes (drop_fd ty d s) = (pool_close (pipes s) d (ty =? FD_PIPE_READ)).1.
Proof.
  unfold drop_fd. destruct (pool_close _ _ _) as [pool woken]. cbn [fst].
  pose proof (calm_wake_all woken _ _ (calm_refl (set_pipes pool s))) as [Q T _]. split_and!.
  - eapply quiet_trans; [|exact Q]. apply quiet_pipes, quiet_refl.
  - exact T.
  - clear. revert s. induction woken as [|w woken IH]; intros s; [done|].
    unfold wake_all in *. cbn [foldl]. change (pipes (foldl (fun s i => task_wakeup i s) (task_wakeup w (set_pipes pool s)) woken) = pool).
    unfold task_wakeup at 2. case_bool_decide; [|apply IH].
    exact (IH (upd_task w (set_state TASK_READY) s)).
Qed.

Lemma find_free_slot_spec rounds i s c free1 a b :
  find_free_fds rounds i s c free1 = (Some a, Some b) ->
  (forall x, free1 = Some x -> (x < i)%nat /\ (fd_at s c x).1 = 0) ->
  (a < b < i + rounds)%nat /\ (fd_at s c a).1 = 0 /\ (fd_at s c b).1 = 0.
Proof.
  revert i free1. induction rounds as [|n IH]; intros i free1; cbn [find_free_fds]; [done|].
  destruct (Z.eqb_spec (fd_at s c i).1 0) as [Hz|Hz].
  - destruct free1 as [x|].
    + intros [= -> ->] Hx. destruct (Hx a eq_refl). split_and!; (done || lia).
    + intros H _. apply IH in H as (H1 & H2 & H3).
      * split_and!; (done || lia).
      * intros x [= <-]. split; (done || lia).
  - intros H Hx. apply IH in H as (H1 & H2 & H3).
    + split_and!; (done || lia).
    + intros x Hf. destruct (Hx x Hf). split; (done || lia).
Qed.

Lemma ring_cur_slot s c : ring s -> current_task s = Some c ->
  (c < task_count s)%nat /\ (c < length (task_pool s))%nat.
Proof.
  intros R Hc. destruct (ring_cur _ R) as (c' & E & Hlt). rewrite Hc in E. injection E as <-.
  rewrite (ring_pool _ R). pose proof (ring_count _ R). split; [done|lia].
Qed.

Lemma fd_at_slot s c i f : tab s c !! i = Some f -> fd_at s c i = f.
Proof. intros H. unfold fd_at. unfold tab in H. by rewrite H. Qed.

Lemma kinv_pipe n s c o s' :
  kinv n s -> current_task s = Some c -> sys_pipe c s = (o, s') -> kinv n s'.
Proof.
  intros K Hc. destruct (ring_cur_slot _ _ (ki_ring _ _ K) Hc) as [Hn Hl]. unfold sys_pipe.
  destruct (find_free_fds _ _ _ _ _) as [[a|] [b|]] eqn:Ef; try (intros [= _ <-]; done).
  destruct (pipe_create (pipes s)) as [[i|] pool] eqn:Ep; [|intros [= _ <-]; done].
  intros [= _ <-].
  destruct (find_free_slot_spec _ _ _ _ _ _ _ Ef ltac:(done)) as (Hab & Za & Zb).
  pose proof (kinv_pool _ _ _ K Hn) as P. pose proof (ki_tab _ _ K c Hn) as Ht.
  change (3 + (MAX_FDS - 3))%nat with MAX_FDS in Hab.
  set (s0 := set_pipes pool s).
  destruct (set_fd_tab c a (FD_PIPE_READ, Some i) s0 Hl) as (Ta & Oa & Qa & Pa).
  set (s1 := set_fd c a _ s0) in *.
  assert (Hl1 : (c < length (task_pool s1))%nat) by (rewrite (q_len _ _ Qa); exact Hl).
  destruct (set_fd_tab c b (FD_PIPE_WRITE, Some i) s1 Hl1) as (Tb & Ob & Qb & Pb).
  set (s2 := set_fd c b _ s1) in *.
  destruct (tab_ok_slot _ a Ht ltac:(lia)) as (fa & Ea & _).
  destruct (tab_ok_slot _ b Ht ltac:(lia)) as (fb & Eb & _).
  rewrite (fd_at_slot _ _ _ _ Ea) in Za. rewrite (fd_at_slot _ _ _ _ Eb) in Zb.
  assert (Eb' : <[a := (FD_PIPE_READ, Some i)]> (tab s c) !! b = Some fb) by (rewrite list_lookup_insert_ne by lia; done).
  pose proof (all_fds_room n s 2 (ki_ring _ _ K) (ki_tab _ _ K) (ki_max _ _ K) ltac:(lia)) as R0.
  rewrite (all_fds_split s c Hn) in R0.
  destruct (pool_inv_create _ _ _ _ _ P ltac:(lia) Ep) as [Pc Hi].
  assert (T2 : tab s2 c = <[b := (FD_PIPE_WRITE, Some i)]> (<[a := (FD_PIPE_READ, Some i)]> (tab s c)))
    by (rewrite Tb, Ta; done).
  match goal with |- kinv n ?s3 => apply (kinv_table n s s3 c K) end.
  - apply quiet_pipes. eapply quiet_trans; [|exact Qb]. eapply quiet_trans; [|exact Qa].
    apply quiet_pipes, quiet_refl.
  - done.
  - intros j Hj. change (tab s2 j = tab s j). rewrite Ob, Oa by done. done.
  - change (tab_ok (tab s2 c)). rewrite T2.
    apply tab_ok_insert; [apply tab_ok_insert; [done|]|]; right; [exists true, i|exists false, i]; done.
  - change (pool_inv n (tab s2 c ++ rest s c) (pool_inc (pool_inc (pipes s2) (Some i) true) (Some i) false)).
    rewrite Pb, Pa, T2. eapply pool_inv_ext; [| |exact Pc].
    + intros j e. cbn [app]. rewrite !n_refs_cons, !n_refs_app.
      pose proof (n_refs_insert _ _ _ (FD_PIPE_READ, Some i) j e Ea) as H1.
      pose proof (n_refs_insert _ _ _ (FD_PIPE_WRITE, Some i) j e Eb') as H2.
      rewrite (ref1_plain fa) in H1 by done. rewrite (ref1_plain fb) in H2 by done. lia.
    + rewrite length_app, !length_insert. rewrite length_app in R0. lia.
Qed.

Lemma quiet_set_fd c i f s s' : quiet s s' -> quiet s (set_fd c i f s').
Proof. intros Q. unfold set_fd. apply quiet_upd'; [by intros ?|exact Q]. Qed.

Lemma quiet_sys_pipe c s : quiet s (sys_pipe c s).2.
Proof.
  unfold sys_pipe. destruct (find_free_fds _ _ _ _ _) as [[a|] [b|]]; try apply quiet_refl.
  destruct (pipe_create _) as [[i|] pool]; [|apply quiet_refl]. cbn [snd].
  apply quiet_pipes, quiet_set_fd, quiet_set_fd, quiet_pipes, quiet_refl.
Qed.

Lemma quiet_sys_close c fd s : quiet s (sys_close c fd s).2.
Proof.
  unfold sys_close. destruct (_ || _); [apply quiet_refl|]. destruct (fd_at s c _) as [ty d]. cbn [snd].
  apply quiet_set_fd. destruct (_ || _); [apply (drop_fd_calm ty d s)|apply quiet_refl].
Qed.

Lemma quiet_sys_dup2 c o w s : quiet s (sys_dup2 c o w s).2.
Proof.
  unfold sys_dup2. destruct (negb _); [apply quiet_refl|]. cbv zeta. set (d := fd_at s c (Z.to_nat w)).
  destruct (_ =? 0); [apply quiet_refl|]. destruct (o =? w); [apply quiet_refl|]. cbn [snd].
  apply quiet_pipes, quiet_set_fd. destruct (d.1 =? 0); [apply quiet_refl|apply (drop_fd_calm d.1 d.2 s)].
Qed.

(** Dropping the descriptor in slot [i] of [c]: the slot still holds it, but
    the pool no longer counts it. *)
Lemma drop_slot n s c i ty d :
  kinv n s -> (c < task_count s)%nat -> tab s c !! i = Some (ty, d) ->
  pool_inv n (<[i := no_fd]> (tab s c) ++ rest s c)
    (if (ty =? FD_PIPE_READ) || (ty =? FD_PIPE_WRITE) then (pool_close (pipes s) d (ty =? FD_PIPE_READ)).1 else pipes s).
Proof.
  intros K Hn Hi. pose proof (kinv_pool _ _ _ K Hn) as P. destruct (ki_tab _ _ K c Hn) as [Hl Hok].
  pose proof (proj1 (Forall_lookup _ _) Hok i _ Hi) as Hf.
  pose proof (all_fds_room n s 2 (ki_ring _ _ K) (ki_tab _ _ K) (ki_max _ _ K) ltac:(lia)) as R0.
  rewrite (all_fds_split s c Hn), length_app in R0.
  assert (Hr : forall j e, n_refs (<[i := no_fd]> (tab s c)) j e + ref1 (ty, d) j e = n_refs (tab s c) j e).
  { intros j e. rewrite (n_refs_insert _ _ _ no_fd j e Hi). rewrite (ref1_plain no_fd) by done. lia. }
  destruct Hf as [Hz|(e & k & E & Hk)].
  - cbn in Hz. subst ty. cbn. eapply pool_inv_ext; [| |exact P].
    + intros j e. specialize (Hr j e). rewrite (ref1_plain (0, d)) in Hr by done. rewrite !n_refs_app. lia.
    + rewrite length_app, length_insert. lia.
  - injection E as -> ->.
    assert (H : pool_inv n (<[i := no_fd]> (tab s c) ++ rest s c) (pool_close (pipes s) (Some k) e).1).
    { apply pool_inv_close; [|done]. eapply pool_inv_ext; [| |exact P].
      - intros j e'. specialize (Hr j e'). rewrite n_refs_cons, !n_refs_app. lia.
      - cbn [length]. rewrite length_app, length_insert. lia. }
    by destruct e.
Qed.

Lemma kinv_close n s c fd v s' :
  kinv n s -> current_task s = Some c -> sys_close c fd s = (v, s') -> kinv n s'.
Proof.
  intros K Hc. destruct (ring_cur_slot _ _ (ki_ring _ _ K) Hc) as [Hn Hl]. unfold sys_close.
  destruct (negb (in_table fd) || (fd <? 3)) eqn:Eg; [intros [= _ <-]; done|].
  apply orb_false_iff in Eg as [Eg _]. apply negb_false_iff, in_table_slot in Eg as [G _].
  pose proof (ki_tab _ _ K c Hn) as Ht.
  destruct (tab_ok_slot _ (Z.to_nat fd) Ht G) as ([ty d] & Ei & _).
  rewrite (fd_at_slot _ _ _ _ Ei). pose proof (drop_slot n s c _ _ _ K Hn Ei) as P.
  destruct (drop_fd_calm ty d s) as (Qd & Td & Pd).
  set (s1 := if _ || _ then _ else s).
  assert (H1 : quiet s s1 /\ (forall j, tab s1 j = tab s j)
    /\ pool_inv n (<[Z.to_nat fd := no_fd]> (tab s c) ++ rest s c) (pipes s1)).
  { unfold s1. destruct (_ || _); [rewrite Pd; done|split_and!; [apply quiet_refl|done..]]. }
  destruct H1 as (Q1 & T1 & P1).
  assert (Hl1 : (c < length (task_pool s1))%nat) by (rewrite (q_len _ _ Q1); exact Hl).
  destruct (set_fd_tab c (Z.to_nat fd) no_fd s1 Hl1) as (Ta & Oa & Qa & Pa).
  intros [= _ <-]. apply (kinv_table n s _ c K); [by eapply quiet_trans|done| | |].
  - intros j Hj. by rewrite Oa, T1.
  - rewrite Ta, T1. apply tab_ok_insert; [done|by left].
  - by rewrite Ta, T1, Pa.
Qed.

Lemma kinv_dup2 n s c oldfd newfd v s' :
  kinv n s -> current_task s = Some c -> sys_dup2 c oldfd newfd s = (v, s') -> kinv n s'.
Proof.
  intros K Hc. destruct (ring_cur_slot _ _ (ki_ring _ _ K) Hc) as [Hn Hl]. unfold sys_dup2.
  destruct (negb _) eqn:Eg; [intros [= _ <-]; done|].
  apply negb_false_iff, andb_true_iff in Eg as [Go Gn].
  apply in_table_slot in Go as [Go Go0]. apply in_table_slot in Gn as [Gn Gn0].
  pose proof (ki_tab _ _ K c Hn) as Ht.
  set (o := Z.to_nat oldfd) in *. set (w := Z.to_nat newfd) in *.
  destruct (tab_ok_slot _ o Ht Go) as (fo & Eo & Ho).
  destruct (tab_ok_slot _ w Ht Gn) as ([ty d] & Ew & Hw).
  rewrite (fd_at_slot _ _ _ _ Eo), (fd_at_slot _ _ _ _ Ew). cbn [fst snd].
  destruct (Z.eqb_spec fo.1 0) as [|Hz]; [intros [= _ <-]; done|].
  destruct (Z.eqb_spec oldfd newfd) as [|Hne]; [intros [= _ <-]; done|].
  assert (Hwo : w <> o) by (unfold w, o; lia).
  destruct Ho as [|(e & k & -> & Hk)]; [done|].
  pose proof (drop_slot n s c _ _ _ K Hn Ew) as P.
  destruct (drop_fd_calm ty d s) as (Qd & Td & Pd).
  set (s1 := if ty =? 0 then s else _).
  assert (H1 : quiet s s1 /\ (forall j, tab s1 j = tab s j)
    /\ pool_inv n (<[w := no_fd]> (tab s c) ++ rest s c) (pipes s1)).
  { unfold s1. destruct Hw as [E|([] & i & E & _)]; cbn in E; injection E as -> || subst ty; cbn in *;
      rewrite ?Pd; (split_and!; [apply quiet_refl || done|done..]). }
  destruct H1 as (Q1 & T1 & P1).
  assert (Hl1 : (c < length (task_pool s1))%nat) by (rewrite (q_len _ _ Q1); exact Hl).
  assert (Eo1 : tab s1 c !! o = Some (fd_ty e, Some k)) by (by rewrite T1).
  rewrite (fd_at_slot _ _ _ _ Eo1).
  destruct (set_fd_tab c w (fd_ty e, Some k) s1 Hl1) as (Ta & Oa & Qa & Pa).
  set (s2 := set_fd c w _ s1) in *.
  assert (E2 : fd_at s2 c w = (fd_ty e, Some k)).
  { apply fd_at_slot. rewrite Ta. apply list_lookup_insert_eq. rewrite T1. by eapply lookup_lt_Some. }
  rewrite E2. cbn [fst snd]. replace (fd_ty e =? FD_PIPE_READ) with e by (by destruct e).
  intros [= _ <-].
  pose proof (all_fds_room n s 2 (ki_ring _ _ K) (ki_tab _ _ K) (ki_max _ _ K) ltac:(lia)) as R0.
  rewrite (all_fds_split s c Hn), length_app in R0.
  assert (Hin : (fd_ty e, Some k) ∈ <[w := no_fd]> (tab s c) ++ rest s c).
  { apply elem_of_app. left. apply (list_elem_of_lookup_2 _ o). by rewrite list_lookup_insert_ne by lia. }
  destruct (pool_inv_fd _ _ _ _ _ P1 Hin Hk) as (p & Hp & Hop & _).
  apply (kinv_table n s _ c K); [apply quiet_pipes; by eapply quiet_trans|done| | |].
  - intros j Hj. change (tab s2 j = tab s j). by rewrite Oa, T1.
  - change (tab_ok (tab s2 c)). rewrite Ta, T1. apply tab_ok_insert; [done|]. right. by exists e, k.
  - change (pool_inv n (tab s2 c ++ rest s c) (pool_inc (pipes s2) (Some k) e)).
    rewrite Pa, Ta, T1. eapply pool_inv_ext; [| |apply (pool_inv_inc _ _ _ e k p P1); [|done|done]].
    + intros j e'. rewrite n_refs_cons, !n_refs_app.
      pose proof (n_refs_insert _ _ _ (fd_ty e, Some k) j e' Ew).
      pose proof (n_refs_insert _ _ _ no_fd j e' Ew). rewrite (ref1_plain no_fd) in * by done. lia.
    + rewrite length_app, length_insert. lia.
    + rewrite length_app, length_insert. lia.
Qed.

(** ** Closing all descriptors of a task *)

Lemma kinv_close_fds n s c : kinv n s -> (c < task_count s)%nat -> kinv n (close_fds c s).
Proof.
  intros K Hn. assert (Hl : (c < length (task_pool s))%nat).
  { rewrite (ring_pool _ (ki_ring _ _ K)). pose proof (ring_count _ (ki_ring _ _ K)). lia. }
  pose proof (kinv_pool _ _ _ K Hn) as P. destruct (ki_tab _ _ K c Hn) as [Hlen Hok].
  pose proof (pool_inv_close_all n _ _ _ Hok P) as P'.
  pose proof (quiet_close c s s (quiet_refl s)) as Q. unfold close_fds in *. rewrite close_fds_all in *.
  cbn [fst snd] in *. set (pool := foldl _ _ _) in *.
  set (s1 := upd_task c _ _) in *.
  assert (T1 : tab s1 c = map closed (tab s c)) by (unfold s1, tab; by rewrite task_at_upd, decide_True).
  assert (O1 : forall j, j <> c -> tab s1 j = tab s j).
  { intros j Hj. unfold s1, tab. rewrite task_at_upd, decide_False; [done|]. intros [-> _]. done. }
  pose proof (calm_wake_all (task_close_fds (fds (task_at s c)) (pipes s)).2 _ _ (calm_refl s1)) as C.
  apply (calm_kinv n s1); [exact C|].
  apply (kinv_table n s s1 c K); [|done|done| |].
  - unfold s1. apply quiet_upd'; [by intros ?|]. apply quiet_pipes, quiet_refl.
  - rewrite T1. split; [by rewrite length_map|]. apply Forall_map. eapply Forall_impl; [exact Hok|]. apply closed_ok.
  - rewrite T1. exact P'.
Qed.

(** ** Exit, wait and kill *)

Lemma kinv_exit n code s : kinv n s -> kinv n (sys_exit code s).
Proof.
  intros K. unfold sys_exit. destruct (current_task s) as [c|] eqn:Hc; [|done].
  destruct (ring_cur_slot _ _ (ki_ring _ _ K) Hc) as [Hn _].
  eapply calm_kinv; [|by eapply kinv_close_fds]. auto with calm.
Qed.

Lemma calm_release (b : bool) i f (m : ST kmem unit) s s' :
  tame f -> keeps_fds f -> calm s s' -> calm s (if b then s' else upd_task i f (on_km m s').2).
Proof. intros. destruct b; [done|]. apply calm_upd; auto with calm. Qed.

Lemma kinv_reap n i s : kinv n s -> (i < task_count s)%nat -> kinv n (reap i s).
Proof.
  intros K Hi. unfold reap. set (t := task_at s i). set (s1 := if stack_base t =? 0 then s else _).
  set (s2 := if _ || _ then s1 else _). set (s3 := upd_task i _ s2).
  assert (C : calm s s3).
  { apply calm_upd; [by intros ?..|]. do 2 (apply calm_release; [by intros ?..|]). apply calm_refl. }
  apply kinv_close_fds; [by eapply calm_kinv|]. by rewrite (q_count _ _ (ca_quiet _ _ C)).
Qed.

Lemma kinv_remove n p s : kinv n s -> kinv n (scheduler_remove_zombie p s).
Proof.
  intros K. unfold scheduler_remove_zombie.
  assert (H : forall k i, (i + k <= task_count s)%nat -> kinv n (remove_loop k i p s)).
  { induction k as [|k IH]; intros i Hi; cbn [remove_loop]; [done|].
    destruct (_ && _); [apply kinv_reap; [done|lia]|apply IH; lia]. }
  apply H. lia.
Qed.

Definition wait_sched (r : wait_result) : sched := match r with WaitDone _ s | WaitYield _ s => s end.

Lemma kinv_wait_on n p t s : kinv n s -> kinv n (wait_sched (wait_on p t s)).
Proof.
  intros K. unfold wait_on. destruct (is_zombie _); [|done]. destruct (waited _); [done|]. cbn [wait_sched].
  apply kinv_remove. eapply calm_kinv; [|exact K]. auto with calm.
Qed.

Lemma kinv_waitpid n p s r : kinv n s -> sys_waitpid p s = Some r -> kinv n (wait_sched r).
Proof.
  intros K. unfold sys_waitpid. destruct (task_list s), (current_task s); try done.
  destruct (wait_find _ _ _ _ _) as [[t|]|]; [|by intros [= <-]|done].
  intros [= <-]. by apply kinv_wait_on.
Qed.

Lemma calm_kill p g s r s' : sys_kill p g s = Some (r, s') -> calm s s'.
Proof.
  unfold sys_kill. destruct (_ || _); [intros [= _ <-]; apply calm_refl|].
  generalize MAX_TASKS (task_list s). intros n. induction n as [|n IH]; intros t; cbn [kill_loop]; [done|].
  destruct t as [i|]; [|intros [= _ <-]; apply calm_refl].
  destruct (_ && _).
  - intros [= _ <-]. case_bool_decide; auto 6 with calm.
  - case_bool_decide; [intros [= _ <-]; apply calm_refl|]. apply IH.
Qed.

(** ** New tasks *)

Lemma making_slot i c ps s s' : making i c ps s s' -> fds (task_at s' i) = c.2.1.
Proof. by intros [_ <- _ _ _]. Qed.

(** The call fills slot [i], which is no task's yet, and may link it. *)
Lemma kinv_linked n s s1 s' r k c ps l :
  kinv n s -> k = task_count s -> (k < MAX_TASKS)%nat ->
  making k c ps s s1 -> (forall j, j <> k -> tab s1 j = tab s j) ->
  link_task k s1 = Some (r, s') ->
  tab_ok l -> c.2.1 = l -> pool_inv n (l ++ all_fds s) ps -> kinv n s'.
Proof.
  intros K -> Hlt M Hot Hl Hok Hc P. pose proof K as [R O T Mx _]. pose proof (mk_quiet _ _ _ _ _ M) as Q.
  pose proof (quiet_ring _ _ Q R) as R1. pose proof (q_count _ _ Q) as Hn.
  destruct (link_run s1 R1 ltac:(by rewrite Hn)) as (s2 & Hl2 & R2 & Hc2 & Hcu2 & Hat & _ & Hp2).
  rewrite Hn in Hl2, Hc2. rewrite Hl in Hl2. injection Hl2 as _ <-.
  assert (Htab : forall i, tab s' i = tab s1 i) by (intros i; unfold tab; by destruct (Hat i) as [nx ->]).
  assert (Hnew : tab s' (task_count s) = l) by (rewrite Htab; unfold tab; rewrite (making_slot _ _ _ _ _ M); done).
  assert (Hold : forall i, (i < task_count s)%nat -> tab s' i = tab s i).
  { intros i Hi. rewrite Htab. apply Hot. lia. }
  split; [done| | |done|].
  - assert (Hcr : creates s r s') by (eapply creates_links; done).
    destruct (creates_inv _ _ _ Hcr R) as (_ & _ & _ & H). by apply H.
  - intros i Hi. rewrite Hc2 in Hi. destruct (decide (i = task_count s)) as [->|]; [by rewrite Hnew|].
    rewrite Hold by lia. apply T. lia.
  - rewrite Hp2, (mk_pipes _ _ _ _ _ M). eapply pool_inv_perm; [|exact P].
    unfold all_fds at 2. rewrite Hc2, seq_S, map_app, concat_app. cbn [map concat]. rewrite app_nil_r.
    change (0 + task_count s)%nat with (task_count s). rewrite Hnew.
    replace (concat (map (tab s') (seq 0 (task_count s)))) with (all_fds s); [apply Permutation_app_comm|].
    unfold all_fds. f_equal. apply map_ext_in. intros i Hi. apply in_seq in Hi. symmetry. apply Hold. lia.
Qed.

Lemma kinv_gives_up n m s s' ps :
  kinv n s -> gives_up (task_count s) ps s s' -> n <= m <= LEAK_MAX -> pool_inv m (all_fds s) ps -> kinv m s'.
Proof.
  intros [R O T Mx P] [Q <- Ho] Hm P'. pose proof (q_count _ _ Q) as Hn.
  assert (Ht : forall i, (i < task_count s)%nat -> tab s' i = tab s i).
  { intros i Hi. unfold tab. by rewrite Ho by lia. }
  split; [by eapply quiet_ring|by eapply quiet_running| |lia|by rewrite (all_fds_ext s s')].
  intros i Hi. rewrite Hn in Hi. rewrite Ht by done. by apply T.
Qed.

Lemma kinv_create n nm entry s r s' : kinv n s -> task_create nm entry s = Some (r, s') -> kinv n s'.
Proof.
  intros K Hf. destruct (Nat.leb_spec MAX_TASKS (task_count s)) as [Hge|Hlt].
  - revert Hf. unfold task_create. rewrite (proj2 (Nat.leb_le _ _) Hge). by intros [= <- <-].
  - destruct (task_create_sets_up _ _ _ _ _ (ki_ring _ _ K) Hlt Hf) as [Hr G|s1 M Hl].
    + eapply kinv_gives_up; [exact K|exact G|split; [done|apply K]|apply K].
    + eapply (kinv_linked n s s1 s'); [exact K|done|exact Hlt|exact M| |exact Hl| |reflexivity|].
      * intros j Hj. unfold tab. by rewrite (mk_others _ _ _ _ _ M).
      * split; [done|]. apply Forall_replicate. by left.
      * pose proof (all_fds_room n s 20 (ki_ring _ _ K) (ki_tab _ _ K) (ki_max _ _ K) ltac:(lia)) as Hroom.
        assert (H : forall k, (k <= 8)%nat -> pool_inv n (replicate k no_fd ++ all_fds s) (pipes s)).
        { induction k as [|k IH]; intros Hk; cbn [replicate app]; [apply K|].
          apply pool_inv_plain; [done| |apply IH; lia]. rewrite length_app, length_replicate. lia. }
        by apply (H 8%nat).
Qed.

Lemma kinv_more n m s : kinv n s -> n <= m <= LEAK_MAX -> kinv m s.
Proof.
  intros K Hm. pose proof (all_fds_room m s 20 (ki_ring _ _ K) (ki_tab _ _ K) ltac:(lia) ltac:(lia)) as Hr.
  destruct K as [R O T Mx P]. split; [done..|lia|]. replace m with (n + (m - n)) by lia.
  apply (pool_inv_leak n (m - n) []); [cbn; lia|lia|done].
Qed.

(** A fork that fails with a slot free leaks the references it has counted. *)
Definition fork_leak (s s' : sched) : Z :=
  if decide (task_count s' = task_count s /\ (task_count s < MAX_TASKS)%nat) then Z.of_nat MAX_FDS else 0.

Lemma kinv_fork n prsp pcr3 r0 s r s' :
  kinv n s -> sys_fork prsp pcr3 r0 s = Some (r, s') -> n + fork_leak s s' <= LEAK_MAX ->
  kinv (n + fork_leak s s') s'.
Proof.
  intros K Hf. pose proof (ki_ring _ _ K) as R. unfold fork_leak.
  pose proof (all_fds_room n s 20 R (ki_tab _ _ K) (ki_max _ _ K) ltac:(lia)) as Hroom.
  destruct (ring_cur _ R) as (p & Hcur & Hp). destruct (ki_tab _ _ K p Hp) as [Hlen Hok].
  destruct (Nat.leb_spec MAX_TASKS (task_count s)) as [Hge|Hlt].
  - revert Hf. unfold sys_fork. rewrite (proj2 (Nat.leb_le _ _) Hge). intros [= _ <-].
    rewrite decide_False by lia. by rewrite Z.add_0_r.
  - assert (P : pool_inv n (tab s p ++ all_fds s) (fork_pipes s p)).
    { apply pool_inv_copy; [done| | |apply K].
      - intros f Hin. rewrite (all_fds_split s p Hp). apply elem_of_app. by left.
      - change (fds (task_at s p)) with (tab s p). rewrite Hlen. unfold MAX_FDS. lia. }
    destruct (sys_fork_sets_up _ _ _ _ _ _ _ R Hcur Hlt Hf) as [_ G|s1 M Hl].
    + rewrite (q_count _ _ (gu_quiet _ _ _ _ G)), decide_True by done. intros Hleak.
      eapply kinv_gives_up; [exact K|exact G|unfold MAX_FDS in *; lia|].
      eapply pool_inv_leak; [by rewrite Hlen| |exact P]. unfold MAX_FDS; lia.
    + assert (Hc : task_count s' = S (task_count s)).
      { pose proof (mk_quiet _ _ _ _ _ M) as Q. pose proof (q_count _ _ Q) as Hn.
        destruct (link_run s1 (quiet_ring _ _ Q R) ltac:(by rewrite Hn)) as (s2 & Hl2 & _ & Hc2 & _).
        rewrite Hn in Hl2, Hc2. rewrite Hl in Hl2. by injection Hl2 as _ <-. }
      rewrite decide_False by lia. rewrite Z.add_0_r. intros _.
      eapply (kinv_linked n s s1 s'); [exact K|done|exact Hlt|exact M| |exact Hl| | |exact P].
      * intros j Hj. unfold tab. by rewrite (mk_others _ _ _ _ _ M).
      * by split.
      * unfold fork_fields, core, fork_slot. cbn [fds snd fst]. apply copy_fds_table.
Qed.

(** ** The scheduler *)

Lemma kinv_tick n s s' : kinv n s -> scheduler_tick s = Some s' -> kinv n s'.
Proof.
  intros [R O T M P] Ht. destruct (tick_inv _ _ Ht R) as (R' & Hn & Ho).
  destruct (ring_cur _ R) as (c & Hcur & Hc). rewrite (tick_run _ _ R Hcur) in Ht. injection Ht as <-.
  case_decide as Hp; [done|].
  pose proof (pick_range s c Hc) as Hpk. pose proof (ring_pool _ R). pose proof (ring_count _ R).
  assert (Htab : forall i, tab (switch_to c (pick s c) s) i = tab s i).
  { intros i. unfold tab. rewrite switch_at by (done || lia). by repeat case_decide. }
  split; [done|by apply Ho| |done|].
  - intros i Hi. rewrite Htab. apply T. by rewrite <- Hn.
  - rewrite (all_fds_ext s) by auto. replace (pipes (switch_to _ _ s)) with (pipes s); [done|].
    unfold switch_to. by case_bool_decide.
Qed.

Lemma kinv_init s0 : length (task_pool s0) = MAX_TASKS -> pipes s0 = pipe_init -> kinv 0 (scheduler_init s0).
Proof.
  intros Hl Hp. destruct (init_inv s0 Hl) as [R O]. 
  assert (Ht : tab (scheduler_init s0) 0 = replicate MAX_FDS no_fd).
  { unfold tab, task_at, scheduler_init. cbn [task_pool]. rewrite list_lookup_insert_eq by (unfold MAX_TASKS in *; lia). done. }
  split; [done|done| |by unfold LEAK_MAX|].
  - intros i Hi. change (task_count (scheduler_init s0)) with 1%nat in Hi. assert (i = 0%nat) as -> by lia.
    rewrite Ht. split; [done|]. apply Forall_replicate. by left.
  - replace (all_fds (scheduler_init s0)) with (replicate MAX_FDS no_fd).
    + replace (pipes (scheduler_init s0)) with pipe_init. split; [done|done|done|].
      intros i p Hi. unfold pipe_init in Hi. apply lookup_replicate in Hi as [-> _]. split.
      * intros e. assert (Hr : n_refs (replicate MAX_FDS no_fd) i e = 0) by (by destruct e). rewrite Hr. by destruct e.
      * by intros [].
      * split; [done|]. by intros [[] ?].
    + unfold all_fds. change (task_count (scheduler_init s0)) with 1%nat. cbn [seq map concat]. by rewrite app_nil_r, Ht.
Qed.
