(* ===== verification/Keyboard.v ===== *)
(** * The keyboard ([src/kernel/keyboard.c])

    [kbd] is the static data of keyboard.c: the ring of 256 characters, the
    modifiers and the state of the escape-sequence recogniser.  The handler
    reads a scan code from port 0x60, and on Ctrl-C marks SIGINT on the tasks
    of the scheduler, so its state is the ports, the keyboard and the tasks.
    [keyboard_read] is cut at the [hlt] it waits with. *)

From S2P Require Import Prelude.
From S2P Require Import Io.
From S2P Require Import Kmem.
From S2P Require Import Heap.
From S2P Require Import Pipe.
From S2P Require Import Task.
From S2P Require Import Sched.

Definition BUF_SIZE : Z := 256.
Definition KEY_UP : Z := 0x80.
Definition KEY_DOWN : Z := 0x81.
Definition KEY_LEFT : Z := 0x82.
Definition KEY_RIGHT : Z := 0x83.
Definition KEY_HOME : Z := 0x84.
Definition KEY_END : Z := 0x85.
Definition KEY_DELETE : Z := 0x86.

(** Characters by their ASCII code: [str] gives the codes of a string. *)
Definition keymap : list Z :=
  [0; 0] ++ str "1234567890-=" ++ [8] ++
  [9] ++ str "qwertyuiop[]" ++ [10] ++
  [0] ++ str "asdfghjkl;'`" ++
  [0; 92] ++ str "zxcvbnm,./" ++ [0] ++
  [42; 0; 32].

Definition keymap_shift : list Z :=
  [0; 0] ++ str "!@#$%^&*()_+" ++ [8] ++
  [9] ++ str "QWERTYUIOP{}" ++ [10] ++
  [0] ++ str "ASDFGHJKL:" ++ [34; 126] ++
  [0] ++ str "|ZXCVBNM<>?" ++ [0] ++
  [42; 0; 32].

Inductive esc := ESC_NORMAL | ESC_SEEN | ESC_CSI | ESC_CSI_DIGIT.

Record kbd := Kbd {
  k_buf : list Z;
  k_head : Z;
  k_tail : Z;
  shift_pressed : bool;
  ctrl_pressed : bool;
  e0_prefix : bool;
  esc_state : esc;
  esc_param : Z
}.

Definition set_queue buf h t (k : kbd) := Kbd buf h t (shift_pressed k) (ctrl_pressed k) (e0_prefix k)
  (esc_state k) (esc_param k).
Definition set_shift v (k : kbd) := Kbd (k_buf k) (k_head k) (k_tail k) v (ctrl_pressed k) (e0_prefix k)
  (esc_state k) (esc_param k).
Definition set_ctrl v (k : kbd) := Kbd (k_buf k) (k_head k) (k_tail k) (shift_pressed k) v (e0_prefix k)
  (esc_state k) (esc_param k).
Definition set_e0 v (k : kbd) := Kbd (k_buf k) (k_head k) (k_tail k) (shift_pressed k) (ctrl_pressed k) v
  (esc_state k) (esc_param k).
Definition set_esc v (k : kbd) := Kbd (k_buf k) (k_head k) (k_tail k) (shift_pressed k) (ctrl_pressed k)
  (e0_prefix k) v (esc_param k).
Definition set_param v (k : kbd) := Kbd (k_buf k) (k_head k) (k_tail k) (shift_pressed k) (ctrl_pressed k)
  (e0_prefix k) (esc_state k) v.

Definition buffer_char (c : Z) (k : kbd) : kbd :=
  let next := Z.rem (k_head k + 1) BUF_SIZE in
  if next =? k_tail k then k
  else set_queue (<[Z.to_nat (k_head k) := i8 c]> (k_buf k)) next (k_tail k) k.

Definition CHAR_ESC : Z := 27.
Definition CHAR_LBRACKET : Z := 91.
Definition CHAR_TILDE : Z := 126.

Definition buffer_nonzero (c : Z) (k : kbd) : kbd := if c =? 0 then k else buffer_char c k.

(** The two prefix characters of a sequence that was not recognised. *)
Definition buffer_csi (k : kbd) : kbd := buffer_char CHAR_LBRACKET (buffer_char CHAR_ESC k).

(** [switch (esc_state)]. *)
Definition esc_step (scancode c : Z) (k : kbd) : kbd :=
  match esc_state k with
  | ESC_NORMAL =>
      if scancode =? 0x01 then set_esc ESC_SEEN k else buffer_nonzero c k
  | ESC_SEEN =>
      if scancode =? 0x1A then set_esc ESC_CSI k
      else set_esc ESC_NORMAL (buffer_nonzero c (buffer_char CHAR_ESC k))
  | ESC_CSI =>
      if (65 <=? c) && (c <=? 68) then set_esc ESC_NORMAL (buffer_char (KEY_UP + (c - 65)) k)
      else if c =? 72 then set_esc ESC_NORMAL (buffer_char KEY_HOME k)
      else if c =? 70 then set_esc ESC_NORMAL (buffer_char KEY_END k)
      else if (49 <=? c) && (c <=? 57) then set_esc ESC_CSI_DIGIT (set_param c k)
      else set_esc ESC_NORMAL (buffer_nonzero c (buffer_csi k))
  | ESC_CSI_DIGIT =>
      set_esc ESC_NORMAL
        (if c =? CHAR_TILDE then
           if esc_param k =? 51 then buffer_char KEY_DELETE k
           else if esc_param k =? 49 then buffer_char KEY_HOME k
           else if esc_param k =? 52 then buffer_char KEY_END k
           else buffer_char CHAR_TILDE (buffer_char (esc_param k) (buffer_csi k))
         else buffer_nonzero c (buffer_char (esc_param k) (buffer_csi k)))
  end.

(** [switch (scancode)] after the 0xE0 prefix. *)
Definition e0_step (scancode : Z) (k : kbd) : kbd :=
  if flag scancode 0x80 then k
  else if scancode =? 0x48 then buffer_char KEY_UP k
  else if scancode =? 0x50 then buffer_char KEY_DOWN k
  else if scancode =? 0x4B then buffer_char KEY_LEFT k
  else if scancode =? 0x4D then buffer_char KEY_RIGHT k
  else if scancode =? 0x47 then buffer_char KEY_HOME k
  else if scancode =? 0x4F then buffer_char KEY_END k
  else if scancode =? 0x53 then buffer_char KEY_DELETE k
  else k.

Definition key_char (k : kbd) (scancode : Z) : Z :=
  if scancode <? Z.of_nat (length keymap) then
    default 0 ((if shift_pressed k then keymap_shift else keymap) !! Z.to_nat scancode)
  else 0.

(** What a scan code does to the keyboard; [true]: Ctrl-C. *)
Definition key_step (scancode : Z) (k : kbd) : kbd * bool :=
  if scancode =? 0xE0 then (set_e0 true k, false)
  else if e0_prefix k then (e0_step scancode (set_e0 false k), false)
  else if (scancode =? 0x2A) || (scancode =? 0x36) then (set_shift true k, false)
  else if (scancode =? 0xAA) || (scancode =? 0xB6) then (set_shift false k, false)
  else if scancode =? 0x1D then (set_ctrl true k, false)
  else if scancode =? 0x9D then (set_ctrl false k, false)
  else if flag scancode 0x80 then (k, false)
  else
    let c := key_char k scancode in
    if ctrl_pressed k && ((c =? 99) || (c =? 67)) then (set_esc ESC_NORMAL k, true)
    else (esc_step scancode c k, false).

(** The loop of Ctrl-C over the ring; [None]: it does not come back. *)
Fixpoint interrupt_loop (fuel : nat) (start t : nat) (s : sched) : option sched :=
  match fuel with
  | O => None
  | S f =>
      let s1 := if negb (pid (task_at s t) =? 0) && negb (is_zombie (task_at s t))
                then upd_task t (add_pending SIGINT) s else s in
      match next_task (task_at s1 t) with
      | None => None
      | Some n => if decide (n = start) then Some s1 else interrupt_loop f start n s1
      end
  end.

Record kstate (P : Type) := KState { kb_port : P; kb : kbd; kb_tasks : sched }.
Arguments KState {P}. Arguments kb_port {P}. Arguments kb {P}. Arguments kb_tasks {P}.

Definition keyboard_handler {P} {io : PortIO P} (st : kstate P) : option (kstate P) :=
  let '(v, p) := inb 0x60 (kb_port st) in
  let '(k, intr) := key_step (u8 v) (kb st) in
  match intr, current_task (kb_tasks st) with
  | true, Some t =>
      match interrupt_loop MAX_TASKS t t (kb_tasks st) with
      | None => None
      | Some s => Some (KState p k s)
      end
  | _, _ => Some (KState p k (kb_tasks st))
  end.

Definition keyboard_init (k : kbd) : kbd :=
  Kbd (k_buf k) 0 0 false false false ESC_NORMAL (esc_param k).

Inductive kread {P} := KChar (c : Z) (st : kstate P) | KHalt (st : kstate P).

(** [KHalt]: at [hlt]; the call goes on with the same step after an
    interrupt.  The [fuel] bounds the polling inside [serial_read]. *)
Definition keyboard_read {P} {io : PortIO P} (fuel : nat) (st : kstate P) : option (@kread P) :=
  let k := kb st in
  if k_head k =? k_tail k then
    let '(a, p) := serial_data_available (kb_port st) in
    if z_true a then
      let '(r, p') := serial_read fuel p in
      match r with
      | None => None
      | Some c =>
          let c := if c =? CHAR_CR then CHAR_NL else c in
          let c := if c =? 0x7F then 8 else c in
          Some (KChar c (KState p' k (kb_tasks st)))
      end
    else Some (KHalt (KState p k (kb_tasks st)))
  else
    let c := u8 (default 0 (k_buf k !! Z.to_nat (k_tail k))) in
    Some (KChar c (KState (kb_port st)
      (set_queue (k_buf k) (k_head k) (Z.rem (k_tail k + 1) BUF_SIZE) k) (kb_tasks st))).

Definition keyboard_data (k : kbd) : bool := negb (k_head k =? k_tail k).

(** The loop over the characters before the NUL. *)
Fixpoint keyboard_inject (s : list Z) (k : kbd) : kbd :=
  match s with
  | [] => k
  | c :: s' =>
      let next := Z.rem (k_head k + 1) BUF_SIZE in
      if next =? k_tail k then k
      else keyboard_inject s' (set_queue (<[Z.to_nat (k_head k) := i8 c]> (k_buf k)) next (k_tail k) k)
  end.

(** ** The ring as a queue *)

Record kwf (k : kbd) : Prop := {
  kwf_buf : length (k_buf k) = 256%nat;
  kwf_head : 0 <= k_head k < 256;
  kwf_tail : 0 <= k_tail k < 256
}.

Definition kcount (k : kbd) : nat := Z.to_nat ((k_head k - k_tail k) mod 256).
Definition kchar (k : kbd) (i : nat) : Z :=
  u8 (default 0 (k_buf k !! Z.to_nat ((k_tail k + Z.of_nat i) mod 256))).

(** The characters in the buffer, oldest first. *)
Definition kcontent (k : kbd) : list Z := map (kchar k) (seq 0 (kcount k)).

Lemma length_kcontent k : length (kcontent k) = kcount k.
Proof. unfold kcontent. by rewrite length_map, length_seq. Qed.

Lemma kcount_lt k : (kcount k <= 255)%nat.
Proof. unfold kcount. pose proof (Z.mod_pos_bound (k_head k - k_tail k) 256). lia. Qed.

Lemma kcontent_ext k k' :
  k_buf k' = k_buf k -> k_head k' = k_head k -> k_tail k' = k_tail k ->
  kcontent k' = kcontent k /\ (kwf k -> kwf k').
Proof.
  intros Hb Hh Ht. split.
  - unfold kcontent, kcount, kchar. by rewrite Hb, Hh, Ht.
  - intros []. split; congruence.
Qed.

(** The modes, apart from the queue. *)
Definition modes (k : kbd) :=
  (shift_pressed k, ctrl_pressed k, e0_prefix k, esc_state k, esc_param k).

(** Queueing keeps the oldest 255 characters. *)
Lemma buffer_char_queue c k :
  kwf k ->
  kwf (buffer_char c k) /\ kcontent (buffer_char c k) = take 255 (kcontent k ++ [u8 c])
  /\ modes (buffer_char c k) = modes k.
Proof.
  intros [Hb Hh Ht]. unfold buffer_char, BUF_SIZE. rewrite Z.rem_mod_nonneg by lia.
  destruct (Z.eqb_spec ((k_head k + 1) mod 256) (k_tail k)) as [Hfull|Hroom].
  - assert (Hc : kcount k = 255%nat) by (unfold kcount; zlia).
    split_and!; [done| |done]. rewrite take_app_le by (rewrite length_kcontent; lia).
    by rewrite take_ge by (rewrite length_kcontent; lia).
  - assert (Hc : (kcount k < 255)%nat) by (unfold kcount; zlia).
    split_and!; [|rewrite take_ge by (rewrite length_app, length_kcontent; cbn; lia)|done].
    + split; cbn; [by rewrite length_insert|zlia|done].
    + unfold kcontent, kcount. cbn [k_head k_tail set_queue].
      replace (Z.to_nat (((k_head k + 1) mod 256 - k_tail k) mod 256))
        with (Z.to_nat ((k_head k - k_tail k) mod 256) + 1)%nat by (unfold kcount in Hc; zlia).
      rewrite seq_app, map_app. f_equal.
      * apply map_ext_in. intros i Hi%in_seq. unfold kchar. cbn [k_buf k_tail set_queue].
        rewrite list_lookup_insert_ne; [done|]. unfold kcount in Hc. zlia.
      * cbn [seq map]. unfold kchar. cbn [k_buf k_tail set_queue]. f_equal.
        replace (Z.to_nat ((k_tail k + Z.of_nat (0 + _)) mod 256)) with (Z.to_nat (k_head k))
          by (unfold kcount in Hc; zlia).
        rewrite list_lookup_insert_eq by lia. cbn. apply u8_i8.
Qed.

(** ** Typing *)

(** A key that is not a modifier and has a character. *)
Definition plain_key (sc : Z) : bool :=
  (0 <=? sc) && (sc <? 58) && negb (default 0 (keymap !! Z.to_nat sc) =? 0).

Inductive key_event := Press (sc : Z) | Release (sc : Z).

Definition scancode (e : key_event) : Z := match e with Press sc => sc | Release sc => sc + 0x80 end.
Definition event_key (e : key_event) : Z := match e with Press sc => sc | Release sc => sc end.

Definition feed (scs : list Z) (k : kbd) : kbd := foldl (fun k sc => (key_step sc k).1) k scs.

Definition normal (shift : bool) (k : kbd) : Prop :=
  modes k = (shift, false, false, ESC_NORMAL, esc_param k).

Definition typed (shift : bool) (es : list key_event) : list Z :=
  flat_map (fun e => match e with
    | Press sc => [default 0 ((if shift then keymap_shift else keymap) !! Z.to_nat sc)]
    | Release _ => []
    end) es.

(** The 58 keys, checked one by one. *)
Lemma plain_key_facts sc :
  plain_key sc = true ->
  sc <> 0xE0 /\ sc <> 0x2A /\ sc <> 0x36 /\ sc <> 0xAA /\ sc <> 0xB6 /\ sc <> 0x1D /\ sc <> 0x9D
  /\ sc <> 1 /\ flag sc 0x80 = false /\ sc < 58
  /\ sc + 0x80 <> 0xE0 /\ sc + 0x80 <> 0x2A /\ sc + 0x80 <> 0x36 /\ sc + 0x80 <> 0xAA
  /\ sc + 0x80 <> 0xB6 /\ sc + 0x80 <> 0x1D /\ sc + 0x80 <> 0x9D /\ flag (sc + 0x80) 0x80 = true
  /\ forall sh, let c := default 0 ((if sh : bool then keymap_shift else keymap) !! Z.to_nat sc) in
       c <> 0 /\ u8 c = c.
Proof.
  intros H.
  assert (Hr : 0 <= sc < 58) by (unfold plain_key in H; lia).
  assert (Hall : forallb (fun sc => negb (plain_key sc) ||
    (negb (existsb (Z.eqb sc) [0xE0; 0x2A; 0x36; 0xAA; 0xB6; 0x1D; 0x9D; 1]) && negb (flag sc 0x80)
     && negb (existsb (Z.eqb (sc + 0x80)) [0xE0; 0x2A; 0x36; 0xAA; 0xB6; 0x1D; 0x9D])
     && flag (sc + 0x80) 0x80
     && forallb (fun m => let c := default 0 (m !! Z.to_nat sc) in negb (c =? 0) && (u8 c =? c))
          [keymap; keymap_shift])) (map Z.of_nat (seq 0 58)) = true) by (vm_compute; reflexivity).
  rewrite forallb_forall in Hall. specialize (Hall sc).
  rewrite H in Hall. cbn [negb orb existsb forallb] in Hall.
  assert (Hin : In sc (map Z.of_nat (seq 0 58))).
  { apply in_map_iff. exists (Z.to_nat sc). split; [lia|]. apply in_seq. lia. }
  specialize (Hall Hin). clear Hin H.
  repeat match goal with
  | H : _ && _ = true |- _ => apply andb_prop in H as [? ?]
  | H : negb _ = true |- _ => apply negb_true_iff in H
  | H : _ || _ = false |- _ => apply orb_false_elim in H as [? ?]
  | H : (_ =? _) = false |- _ => apply Z.eqb_neq in H
  | H : (_ =? _) = true |- _ => apply Z.eqb_eq in H
  end.
  split_and!; try done; try lia. by intros [].
Qed.

Lemma key_step_event sh e k :
  kwf k -> normal sh k -> plain_key (event_key e) = true ->
  kwf (key_step (scancode e) k).1 /\ normal sh (key_step (scancode e) k).1
  /\ kcontent (key_step (scancode e) k).1 = take 255 (kcontent k ++ typed sh [e]).
Proof.
  intros Hw Hn Hp. destruct (plain_key_facts _ Hp)
    as (N1 & N2 & N3 & N4 & N5 & N6 & N7 & N8 & F1 & L & M1 & M2 & M3 & M4 & M5 & M6 & M7 & F2 & Hc).
  unfold normal, modes in Hn. injection Hn as Esh Ectrl Ee0 Eesc.
  unfold key_step. destruct e as [sc|sc]; cbn [scancode event_key typed flat_map app] in *;
    rewrite Ee0, !(proj2 (Z.eqb_neq _ _)) by done; cbn [orb].
  - rewrite F1, Ectrl. cbn [andb fst]. unfold esc_step. rewrite Eesc, (proj2 (Z.eqb_neq _ _) N8).
    unfold key_char. change (Z.of_nat (length keymap)) with 58. rewrite (proj2 (Z.ltb_lt _ _) L), Esh.
    destruct (Hc sh) as [H0 Hu8]. unfold buffer_nonzero. rewrite (proj2 (Z.eqb_neq _ _) H0).
    destruct (buffer_char_queue (default 0 ((if sh then keymap_shift else keymap) !! Z.to_nat sc)) k Hw)
      as (W & C & M). rewrite Hu8 in C. split_and!; [done| |done].
    unfold normal. rewrite M. unfold modes in *. injection M as M0 M1' M2' M3' M4'. congruence.
  - rewrite F2. cbn [fst]. split_and!; [done|by unfold normal, modes; rewrite Esh, Ectrl, Ee0, Eesc|].
    rewrite app_nil_r, take_ge; [done|]. rewrite length_kcontent. pose proof (kcount_lt k). lia.
Qed.

Lemma take_take_app {A} n (l1 l2 : list A) : take n (take n l1 ++ l2) = take n (l1 ++ l2).
Proof.
  destruct (decide (length l1 <= n)%nat).
  - by rewrite (take_ge l1).
  - rewrite !take_app_le by (rewrite ?length_take; lia). by rewrite take_take, Nat.min_id.
Qed.

Lemma feed_events sh es : forall k,
  kwf k -> normal sh k -> Forall (fun e => plain_key (event_key e) = true) es ->
  kwf (feed (map scancode es) k) /\ normal sh (feed (map scancode es) k)
  /\ kcontent (feed (map scancode es) k) = take 255 (kcontent k ++ typed sh es).
Proof.
  induction es as [|e es IH]; intros k Hw Hn Hes; cbn [map feed foldl].
  - rewrite app_nil_r, take_ge; [done|]. rewrite length_kcontent. pose proof (kcount_lt k). lia.
  - apply Forall_cons in Hes as [He Hes]. destruct (key_step_event sh e k Hw Hn He) as (W1 & N1 & C1).
    destruct (IH _ W1 N1 Hes) as (W2 & N2 & C2). split_and!; [done|done|].
    unfold feed in C2. rewrite C2, C1, take_take_app, <- app_assoc. do 2 f_equal.
    unfold typed. cbn [flat_map]. by rewrite app_nil_r.
Qed.

(** Taking a character. *)
Lemma keyboard_read_head {P} {io : PortIO P} fuel (st : kstate P) c cs :
  kwf (kb st) -> kcontent (kb st) = c :: cs ->
  exists st', keyboard_read fuel st = Some (KChar c st') /\ kwf (kb st') /\ kcontent (kb st') = cs
    /\ modes (kb st') = modes (kb st) /\ kb_port st' = kb_port st /\ kb_tasks st' = kb_tasks st.
Proof.
  destruct st as [p k s]. cbn [kb kb_port kb_tasks]. intros [Hb Hh Ht] Hcont.
  assert (Hpos : (0 < kcount k)%nat) by (rewrite <- length_kcontent, Hcont; cbn; lia).
  assert (Hne : k_head k <> k_tail k) by (intros E; unfold kcount in Hpos; zlia).
  unfold keyboard_read. cbn [kb kb_port kb_tasks]. rewrite (proj2 (Z.eqb_neq _ _) Hne).
  unfold BUF_SIZE. rewrite Z.rem_mod_nonneg by lia.
  set (k' := set_queue (k_buf k) (k_head k) ((k_tail k + 1) mod 256) k).
  assert (Hsplit : kcontent k = u8 (default 0 (k_buf k !! Z.to_nat (k_tail k))) :: kcontent k').
  { unfold kcontent. replace (kcount k) with (S (kcount k')) by (unfold kcount in *; cbn; zlia).
    cbn [seq map]. f_equal.
    - unfold kchar. do 3 f_equal. zlia.
    - rewrite <- seq_shift, map_map. apply map_ext. intros i. unfold kchar, k'. cbn [k_buf k_tail set_queue].
      do 3 f_equal. rewrite Z.add_mod_idemp_l by lia. do 2 f_equal. lia. }
  rewrite Hcont in Hsplit. injection Hsplit as -> ->.
  exists (KState p k' s). split_and!; try done. split; cbn; [done|done|zlia].
Qed.

(** Successive reads that find characters. *)
Inductive reads {P} {io : PortIO P} : list Z -> kstate P -> kstate P -> Prop :=
| reads_nil st : reads [] st st
| reads_cons c cs fuel st st1 st2 :
    keyboard_read fuel st = Some (KChar c st1) -> reads cs st1 st2 -> reads (c :: cs) st st2.

Lemma reads_content {P} {io : PortIO P} cs : forall (st : kstate P),
  kwf (kb st) -> kcontent (kb st) = cs -> exists st', reads cs st st' /\ kcontent (kb st') = [].
Proof.
  induction cs as [|c cs IH]; intros st Hw Hc.
  - exists st. split; [constructor|done].
  - destruct (keyboard_read_head 0 st c cs Hw Hc) as (st1 & Hr & W1 & C1 & _).
    destruct (IH st1 W1 C1) as (st2 & Hrs & C2). exists st2. split; [by econstructor|done].
Qed.

(** ** Properties *)

(** C38: typed text arrives in order.  From any state without a modifier other
    than Shift held and outside an escape sequence, whatever plain keys are
    pressed and released, in any interleaving, the buffer holds the oldest 255
    of its old characters followed by the characters of the pressed keys (from
    the shifted map if Shift is held), the modes are unchanged, and
    [keyboard_read] returns exactly these characters in this order. *)
Theorem typed_text_is_read {P} {io : PortIO P} sh es (st : kstate P) :
  kwf (kb st) -> normal sh (kb st) ->
  Forall (fun e => plain_key (event_key e) = true) es ->
  let k' := feed (map scancode es) (kb st) in
  kwf k' /\ normal sh k' /\ kcontent k' = take 255 (kcontent (kb st) ++ typed sh es)
  /\ exists st', reads (take 255 (kcontent (kb st) ++ typed sh es))
       (KState (kb_port st) k' (kb_tasks st)) st' /\ kcontent (kb st') = [].
Proof.
  intros Hw Hn Hes k'. destruct (feed_events sh es _ Hw Hn Hes) as (W & N & C).
  split_and!; [done|done|done|]. by apply reads_content.
Qed.

Definition kbd_zero : kbd := keyboard_init (Kbd (replicate 256 0) 0 0 false false false ESC_NORMAL 0).

(** No device answers. *)
Definition no_ports : PortIO unit :=
  Build_PortIO unit (fun _ => ret 0xFF) (fun _ _ => ret tt) (fun _ => ret 0xFFFF) (fun _ _ => ret tt).

Lemma kbd_zero_wf : kwf kbd_zero.
Proof. split; [reflexivity|cbn; lia|cbn; lia]. Qed.

Definition no_tasks : sched :=
  Sched (replicate MAX_TASKS task_zero) 0 None None 0 None 0 0 0 boot_kmem pipe_init.

Lemma typed_text_is_read_witness :
  kcontent (feed [0x23; 0xA3; 0x17] kbd_zero) = str "hi".
Proof.
  apply (typed_text_is_read (io := no_ports) false [Press 0x23; Release 0x23; Press 0x17] (KState tt kbd_zero no_tasks)).
  - exact kbd_zero_wf.
  - reflexivity.
  - repeat constructor.
Defined.

(** The scan codes of ESC, left bracket, and a letter typed with Shift. *)
Definition csi (letter : Z) : list Z := [0x01; 0x1A; 0x2A; letter; 0xAA].

(** The recognised escape sequences, and which keys they stand for.  Typed
    from a normal state with room in the buffer, ESC [ and then A, B, H or F
    queue the codes of the up, down, home and end keys.  ESC [ C queues
    KEY_LEFT and ESC [ D queues KEY_RIGHT, while the right and left arrow keys
    themselves (0xE0 0x4D and 0xE0 0x4B) queue KEY_RIGHT and KEY_LEFT: the two
    encodings of one key disagree, since terminals send ESC [ C for the right
    arrow. *)
Theorem escape_sequence_keys k :
  kwf k -> normal false k -> (length (kcontent k) < 255)%nat ->
  kcontent (feed (csi 0x1E) k) = kcontent k ++ [KEY_UP]
  /\ kcontent (feed (csi 0x30) k) = kcontent k ++ [KEY_DOWN]
  /\ kcontent (feed (csi 0x2E) k) = kcontent k ++ [KEY_LEFT]
  /\ kcontent (feed (csi 0x20) k) = kcontent k ++ [KEY_RIGHT]
  /\ kcontent (feed (csi 0x23) k) = kcontent k ++ [KEY_HOME]
  /\ kcontent (feed (csi 0x21) k) = kcontent k ++ [KEY_END]
  /\ kcontent (feed [0xE0; 0x4D] k) = kcontent k ++ [KEY_RIGHT]
  /\ kcontent (feed [0xE0; 0x4B] k) = kcontent k ++ [KEY_LEFT].
Proof.
  intros Hw Hn Hroom. destruct k as [buf h t sh ct e0 es prm]. injection Hn as -> -> -> ->.
  set (k := Kbd buf h t false false false ESC_NORMAL prm) in *.
  assert (Hq : forall c k0, k_buf k0 = buf -> k_head k0 = h -> k_tail k0 = t ->
      kcontent (buffer_char c k0) = kcontent k ++ [u8 c]).
  { intros c k0 Hb Hh Ht. destruct (kcontent_ext k k0 Hb Hh Ht) as [Hc Hw0].
    destruct (buffer_char_queue c k0 (Hw0 Hw)) as (_ & -> & _). rewrite Hc, take_ge; [done|].
    rewrite length_app. cbn [length]. lia. }
  assert (Hcsi : forall letter c,
      let k3 := Kbd buf h t true false false ESC_CSI prm in
      key_step letter k3 = (set_esc ESC_NORMAL (buffer_char c k3), false) ->
      kcontent (feed (csi letter) k) = kcontent k ++ [u8 c]).
  { intros letter c k3 Hl. rewrite <- (Hq c k3) by done.
    change (feed (csi letter) k) with (key_step 0xAA (key_step letter k3).1).1. rewrite Hl. cbn [fst].
    assert (He0 : e0_prefix (set_esc ESC_NORMAL (buffer_char c k3)) = false)
      by (unfold buffer_char; by destruct (_ =? _)).
    unfold key_step. rewrite He0. cbn [Z.eqb Pos.eqb orb fst]. by apply kcontent_ext. }
  split_and!.
  - by apply (Hcsi 0x1E KEY_UP).
  - by apply (Hcsi 0x30 KEY_DOWN).
  - by apply (Hcsi 0x2E KEY_LEFT).
  - by apply (Hcsi 0x20 KEY_RIGHT).
  - by apply (Hcsi 0x23 KEY_HOME).
  - by apply (Hcsi 0x21 KEY_END).
  - by apply (Hq KEY_RIGHT (set_e0 false (set_e0 true k))).
  - by apply (Hq KEY_LEFT (set_e0 false (set_e0 true k))).
Qed.
