(* ===== verification/Signal.v ===== *)
(** * Signals ([signal_deliver] of [src/kernel/scheduler.c], the signal system calls)

    [registers] is [registers_t], the frame an interrupt leaves on the kernel
    stack.  [signal_deliver] runs at the end of every interrupt that came from
    user mode; it returns with the frame changed so that the user program
    continues in its handler, or it is cut where [sys_exit] gives up the
    processor.  The store to the user's stack goes through the processor's
    address translation, which is the parameter [Mmu]. *)

From S2P Require Import Prelude.
From S2P Require Import ByteMem.
From S2P Require Import Kmem.
From S2P Require Import Heap.
From S2P Require Import Paging.
From S2P Require Import VmRegion.
From S2P Require Import Pipe.
From S2P Require Import Task.
From S2P Require Import Sched.
From S2P Require Import SchedProps.

Record registers := Regs {
  r_rax : Z; r_rcx : Z; r_rdx : Z; r_rbx : Z; r_rbp : Z; r_rdi : Z; r_rsi : Z;
  r_r8 : Z; r_r9 : Z; r_r10 : Z; r_r11 : Z; r_r12 : Z; r_r13 : Z; r_r14 : Z; r_r15 : Z;
  r_int_no : Z; r_err_code : Z;
  r_rip : Z; r_cs : Z; r_rflags : Z; r_rsp : Z; r_ss : Z
}.

Definition set_rax v r := Regs v (r_rcx r) (r_rdx r) (r_rbx r) (r_rbp r) (r_rdi r) (r_rsi r) (r_r8 r)
  (r_r9 r) (r_r10 r) (r_r11 r) (r_r12 r) (r_r13 r) (r_r14 r) (r_r15 r) (r_int_no r) (r_err_code r)
  (r_rip r) (r_cs r) (r_rflags r) (r_rsp r) (r_ss r).
Definition set_rdi v r := Regs (r_rax r) (r_rcx r) (r_rdx r) (r_rbx r) (r_rbp r) v (r_rsi r) (r_r8 r)
  (r_r9 r) (r_r10 r) (r_r11 r) (r_r12 r) (r_r13 r) (r_r14 r) (r_r15 r) (r_int_no r) (r_err_code r)
  (r_rip r) (r_cs r) (r_rflags r) (r_rsp r) (r_ss r).
(** The part of the frame [iretq] takes. *)
Definition set_iret rip cs rflags rsp ss r := Regs (r_rax r) (r_rcx r) (r_rdx r) (r_rbx r) (r_rbp r)
  (r_rdi r) (r_rsi r) (r_r8 r) (r_r9 r) (r_r10 r) (r_r11 r) (r_r12 r) (r_r13 r) (r_r14 r) (r_r15 r)
  (r_int_no r) (r_err_code r) rip cs rflags rsp ss.

(** The processor's access to virtual memory under a page-table root. *)
Class Mmu := {
  vstore64 : Z -> Z -> Z -> kmem -> kmem     (* root, address, value *)
}.

Definition SIGSTOP : Z := 19.
Definition SIGCHLD : Z := 17.
Definition SIGALRM : Z := 14.
Definition SIGCONT : Z := 18.

Definition default_action (signo : Z) : Z :=
  if (signo =? SIGCHLD) || (signo =? SIGALRM) || (signo =? SIGCONT) then 0 else 1.

Definition clear_pending (signo : Z) (t : task) : task :=
  set_sig (set_pending (Z.land (signal_pending (sig t)) (u64 (Z.lnot (sig_bit signo)))) (sig t)) t.

Inductive delivery :=
| Resumes (r : registers) (s : sched)
| Exits (s : sched).            (* sys_exit has reached its int $32 *)

Section Deliver.
Context {mmu : Mmu}.

(** The branch for a handler of the program. *)
Definition enter_handler (c : nat) (signo handler : Z) (r : registers) (s : sched) : registers * sched :=
  let s1 := upd_task c (fun t =>
    set_sig (set_in_signal true (set_saved (r_rip r) (r_rsp r) (r_rflags r) (sig t))) t) s in
  let sp := u64 (r_rsp r - 8) in
  let page := Z.land sp (u64 (Z.lnot 0xFFF)) in
  let root := cr3 (task_at s1 c) in
  let '(flags, s2) := on_km (paging_get_flags root page) s1 in
  let s3 :=
    if has flags PAGE_PRESENT then s2
    else
      let '(p, s3) := on_km memory_alloc_page s2 in
      if p =? 0 then s3
      else
        let s4 := (on_km (modify (fun k => set_phys (memory_set p 0 4096 (phys k)) k)) s3).2 in
        (on_km (paging_map_4kb root page p (Z.lor (Z.lor PAGE_PRESENT PAGE_RW) PAGE_USER)) s4).2 in
  let s4 := set_km (vstore64 root sp (trampoline_addr (sig (task_at s3 c))) (km s3)) s3 in
  (set_rdi signo
     (set_iret handler (r_cs r) (Z.land (r_rflags r) (u64 (Z.lnot 0x100))) sp (r_ss r) r), s4).

(** [for (sig = 1; sig < NSIGS; sig++)] from [signo], [rounds] left. *)
Fixpoint deliver_loop (rounds : nat) (signo pending : Z) (c : nat) (r : registers) (s : sched) : delivery :=
  match rounds with
  | O => Resumes r s
  | S n =>
      if negb (has pending (sig_bit signo)) then deliver_loop n (signo + 1) pending c r s
      else
        let s1 := upd_task c (clear_pending signo) s in
        let handler := default 0 (signal_handlers (sig (task_at s1 c)) !! Z.to_nat signo) in
        if handler =? SIG_DFL then
          if z_true (default_action signo) then Exits (sys_exit signo s1)
          else deliver_loop n (signo + 1) pending c r s1
        else if handler =? SIG_IGN then deliver_loop n (signo + 1) pending c r s1
        else let '(r', s2) := enter_handler c signo handler r s1 in Resumes r' s2
  end.

Definition signal_deliver (r : registers) (s : sched) : delivery :=
  match current_task s with
  | None => Resumes r s
  | Some c =>
      let t := task_at s c in
      if pid t =? 0 then Resumes r s
      else if has (signal_pending (sig t)) (sig_bit SIGKILL) then
        Exits (sys_exit SIGKILL (upd_task c (fun t => set_sig (set_pending 0 (sig t)) t) s))
      else if in_signal (sig t) then Resumes r s
      else
        let pending := Z.land (signal_pending (sig t)) (u64 (Z.lnot (signal_mask (sig t)))) in
        if pending =? 0 then Resumes r s
        else deliver_loop (NSIGS - 1) 1 pending c r s
  end.

End Deliver.

(** ** System calls 26 (sigaction) and 28 (sigreturn) *)

Definition sys_sigaction (c : nat) (r : registers) (s : sched) : registers * sched :=
  let signo := i32 (r_rdi r) in
  let handler := r_rsi r in
  let trampoline := r_rdx r in
  if (signo <? 1) || (Z.of_nat NSIGS <=? signo) then (set_rax (u64 (-1)) r, s)
  else
    (set_rax 0 r,
     upd_task c (fun t =>
       let g := set_handlers (<[Z.to_nat signo := handler]> (signal_handlers (sig t))) (sig t) in
       set_sig (if z_true trampoline then set_trampoline trampoline g else g) t) s).

Definition sys_sigreturn (c : nat) (r : registers) (s : sched) : registers * sched :=
  let g := sig (task_at s c) in
  (set_rax 0 (set_iret (saved_rip g) 0x1B (saved_rflags g) (saved_rsp g) 0x23 r),
   upd_task c (fun t => set_sig (set_in_signal false (sig t)) t) s).

(** ** Which signal is taken *)

Definition sig_bits (l : list Z) : Z := foldr (fun g acc => Z.lor (sig_bit g) acc) 0 l.

(** The handler a task has for a signal, and what the kernel does with it. *)
Definition handler_of (t : task) (signo : Z) : Z := default 0 (signal_handlers (sig t) !! Z.to_nat signo).

Definition ignored (t : task) (signo : Z) : bool :=
  if handler_of t signo =? SIG_DFL then negb (z_true (default_action signo))
  else handler_of t signo =? SIG_IGN.

Definition numbers : list Z := map Z.of_nat (seq 1 (NSIGS - 1)).

(** The lowest pending signal that is not masked and not ignored. *)
Definition chosen (t : task) : option Z :=
  let pending := Z.land (signal_pending (sig t)) (u64 (Z.lnot (signal_mask (sig t)))) in
  find (fun g => has pending (sig_bit g) && negb (ignored t g)) numbers.

(** Is the number pending and not masked? *)
Definition due (t : task) (g : Z) : bool :=
  has (Z.land (signal_pending (sig t)) (u64 (Z.lnot (signal_mask (sig t))))) (sig_bit g).

(** The numbers that are consumed when [last] is the one delivered. *)
Definition taken (t : task) (last : option Z) : list Z :=
  List.filter (fun g => due t g && match last with Some l => g <=? l | None => true end) numbers.

(** Their pending bits cleared, one after the other. *)
Definition consume (c : nat) (gs : list Z) (s : sched) : sched :=
  foldl (fun s g => upd_task c (clear_pending g) s) s gs.

Lemma task_at_upd_eq c f s : (c < length (task_pool s))%nat -> task_at (upd_task c f s) c = f (task_at s c).
Proof. intros H. rewrite task_at_upd. by rewrite decide_True. Qed.

Lemma length_consume c gs s : length (task_pool (consume c gs s)) = length (task_pool s).
Proof. revert s. induction gs as [|g gs IH]; intros s; [done|]. cbn. unfold consume in IH. by rewrite IH, length_upd. Qed.

Lemma consume_others c gs s i : i <> c -> task_at (consume c gs s) i = task_at s i.
Proof.
  intros Hi. revert s. induction gs as [|g gs IH]; intros s; [done|]. cbn. unfold consume in IH.
  rewrite IH, task_at_upd, decide_False by intuition congruence. done.
Qed.

Lemma u64_testbit x i : 0 <= i < 64 -> Z.testbit (u64 x) i = Z.testbit x i.
Proof. intros Hi. apply (Z.mod_pow2_bits_low x 64). lia. Qed.

Lemma has_clear p g i : 0 <= g < 64 -> 0 <= i < 64 ->
  Z.testbit (Z.land p (u64 (Z.lnot (sig_bit g)))) i = Z.testbit p i && negb (bool_decide (i = g)).
Proof.
  intros Hg Hi. rewrite Z.land_spec, u64_testbit, Z.lnot_spec by lia.
  assert (Hb : Z.testbit (sig_bit g) i = bool_decide (i = g)).
  { unfold sig_bit. rewrite Z.shiftl_1_l, Z.pow2_bits_eqb by lia. case_bool_decide; lia. }
  by rewrite Hb.
Qed.

Lemma consume_cons c g gs s : consume c (g :: gs) s = consume c gs (upd_task c (clear_pending g) s).
Proof. done. Qed.

Lemma clear_pending_then p g t :
  set_sig (set_pending p (sig (clear_pending g t))) (clear_pending g t) = set_sig (set_pending p (sig t)) t.
Proof. done. Qed.

Lemma clear_pending_bits g t :
  signal_pending (sig (clear_pending g t)) = Z.land (signal_pending (sig t)) (u64 (Z.lnot (sig_bit g))).
Proof. done. Qed.

(** Only those bits go, and nothing else of the task changes. *)
Lemma consume_task c gs s : (c < length (task_pool s))%nat -> Forall (fun g => 0 <= g < 64) gs ->
  exists p, task_at (consume c gs s) c = set_sig (set_pending p (sig (task_at s c))) (task_at s c)
    /\ forall i, 0 <= i < 64 ->
       Z.testbit p i = Z.testbit (signal_pending (sig (task_at s c))) i && negb (bool_decide (i ∈ gs)).
Proof.
  intros Hc Hgs. revert s Hc. induction Hgs as [|g gs Hg Hgs IH]; intros s Hc.
  - exists (signal_pending (sig (task_at s c))). split.
    + unfold consume. cbn [foldl]. by destruct (task_at s c) as [? ? ? ? ? ? ? ? ? ? ? ? []].
    + intros i _. rewrite bool_decide_eq_false_2 by (intros H; inversion H). by rewrite andb_true_r.
  - rewrite consume_cons.
    destruct (IH (upd_task c (clear_pending g) s)) as (p & E & Hp); [by rewrite length_upd|].
    rewrite task_at_upd_eq in E, Hp by done. rewrite clear_pending_then in E.
    exists p. split; [exact E|]. intros i Hi. rewrite Hp by done.
    rewrite clear_pending_bits, has_clear by done. rewrite <- andb_assoc, <- negb_orb, <- bool_decide_or.
    do 2 f_equal. apply bool_decide_ext. by rewrite elem_of_cons.
Qed.

Lemma taken_some t g : taken t (Some g) = List.filter (fun x => due t x && (x <=? g)) numbers.
Proof. unfold taken. reflexivity. Qed.

Lemma taken_none t : taken t None = List.filter (fun x => due t x && true) numbers.
Proof. unfold taken. reflexivity. Qed.

Lemma filter_range (f : Z -> bool) n a :
  (a + n <= 64)%nat -> Forall (fun g => 0 <= g < 64) (List.filter f (map Z.of_nat (seq a n))).
Proof.
  intros Hn. apply List.Forall_forall. intros g [Hg _]%filter_In.
  apply in_map_iff in Hg as (i & <- & Hi%in_seq). lia.
Qed.

Lemma taken_range t l : Forall (fun g => 0 <= g < 64) (taken t l).
Proof. unfold taken, numbers. apply filter_range. unfold NSIGS. lia. Qed.

Lemma lnot_self b : Z.land (u64 (Z.lnot b)) b = 0.
Proof.
  unfold u64. rewrite <- Z.land_ones by lia.
  rewrite <- Z.land_assoc, (Z.land_comm (Z.ones 64)), Z.land_assoc.
  rewrite (Z.land_comm (Z.lnot b)), Z.land_lnot_diag. apply Z.land_0_l.
Qed.

(** What entering a handler does to the frame and to the task. *)
Lemma enter_handler_spec {mmu : Mmu} c signo handler r s :
  (c < length (task_pool s))%nat ->
  let '(r', s') := enter_handler c signo handler r s in
  r' = set_rdi signo (set_iret handler (r_cs r) (Z.land (r_rflags r) (u64 (Z.lnot 0x100)))
         (u64 (r_rsp r - 8)) (r_ss r) r)
  /\ task_at s' c = set_sig (set_in_signal true
       (set_saved (r_rip r) (r_rsp r) (r_rflags r) (sig (task_at s c)))) (task_at s c)
  /\ (forall i, i <> c -> task_at s' i = task_at s i) /\ length (task_pool s') = length (task_pool s)
  /\ exists k, km s' = vstore64 (cr3 (task_at s c)) (u64 (r_rsp r - 8)) (trampoline_addr (sig (task_at s c))) k.
Proof.
  intros Hc. unfold enter_handler.
  set (s1 := upd_task c _ s).
  assert (Hpool : forall A (m : ST kmem A) s0 a s', on_km m s0 = (a, s') -> task_pool s' = task_pool s0).
  { intros A m s0 a s' E. rewrite <- (pool_on_km m s0). by rewrite E. }
  assert (H1 : task_at s1 c = set_sig (set_in_signal true
       (set_saved (r_rip r) (r_rsp r) (r_rflags r) (sig (task_at s c)))) (task_at s c))
    by (unfold s1; by rewrite task_at_upd_eq).
  assert (H2 : forall i, i <> c -> task_at s1 i = task_at s i).
  { intros i Hi. unfold s1. rewrite task_at_upd, decide_False by intuition congruence. done. }
  assert (H3 : length (task_pool s1) = length (task_pool s)) by apply length_upd.
  clearbody s1. destruct (on_km (paging_get_flags _ _) s1) as [flags s2] eqn:E2.
  assert (P2 : task_pool s2 = task_pool s1) by by eapply Hpool.
  match goal with |- context [if has ?f ?m then ?x else ?y] => set (s3 := if has f m then x else y) end.
  assert (P3 : task_pool s3 = task_pool s1).
  { unfold s3. destruct (has _ _); [done|]. destruct (on_km memory_alloc_page s2) as [p s4] eqn:E4.
    assert (P4 : task_pool s4 = task_pool s1) by (rewrite <- P2; by eapply Hpool).
    destruct (p =? 0); [done|]. by rewrite !pool_on_km. }
  clearbody s3.
  assert (Hat : forall i, task_at (set_km (vstore64 (cr3 (task_at s1 c)) (u64 (r_rsp r - 8))
      (trampoline_addr (sig (task_at s3 c))) (km s3)) s3) i = task_at s1 i).
  { intros i. unfold task_at at 1. cbn [task_pool set_km]. by rewrite P3. }
  split_and!; [done|by rewrite Hat, H1| |cbn [task_pool set_km]; by rewrite P3|].
  - intros i Hi. rewrite Hat. by apply H2.
  - exists (km s3). cbn [km set_km]. unfold task_at at 2. rewrite P3. fold (task_at s1 c). by rewrite H1.
Qed.

Lemma has_find_cons (f : Z -> bool) a n :
  find f (map Z.of_nat (seq a (S n))) =
    if f (Z.of_nat a) then Some (Z.of_nat a) else find f (map Z.of_nat (seq (S a) n)).
Proof. done. Qed.

Lemma find_above f a n g : find f (map Z.of_nat (seq a n)) = Some g -> Z.of_nat a <= g.
Proof. intros [Hg _]%find_some. apply in_map_iff in Hg as (i & <- & Hi%in_seq). lia. Qed.

Lemma filter_below (f : Z -> bool) a n g : g < Z.of_nat a ->
  List.filter (fun x => f x && (x <=? g)) (map Z.of_nat (seq a n)) = [].
Proof.
  intros Hg. revert a Hg. induction n as [|n IH]; intros a Hg; [done|]. cbn [seq map List.filter].
  rewrite (proj2 (Z.leb_gt _ _) Hg), andb_false_r. apply IH. lia.
Qed.

(** The loop takes the first number that is due and not ignored, and consumes
    what is due before it. *)
Lemma deliver_loop_spec {mmu : Mmu} c r t :
  let pending := Z.land (signal_pending (sig t)) (u64 (Z.lnot (signal_mask (sig t)))) in
  forall n a s1, (c < length (task_pool s1))%nat ->
  (forall g, handler_of (task_at s1 c) g = handler_of t g) ->
  deliver_loop n (Z.of_nat a) pending c r s1 =
    match find (fun g => due t g && negb (ignored t g)) (map Z.of_nat (seq a n)) with
    | None => Resumes r (consume c (List.filter (fun g => due t g && true) (map Z.of_nat (seq a n))) s1)
    | Some g =>
        let s2 := consume c (List.filter (fun x => due t x && (x <=? g)) (map Z.of_nat (seq a n))) s1 in
        if handler_of t g =? SIG_DFL then Exits (sys_exit g s2)
        else let '(r', s4) := enter_handler c g (handler_of t g) r s2 in Resumes r' s4
    end.
Proof.
  intros pending n. induction n as [|n IH]; intros a s1 Hc Hh; [done|]. rewrite has_find_cons.
  cbn [deliver_loop seq map List.filter]. change (has pending (sig_bit (Z.of_nat a))) with (due t (Z.of_nat a)).
  replace (Z.of_nat a + 1) with (Z.of_nat (S a)) by lia.
  destruct (due t (Z.of_nat a)) eqn:Ed; cbn [negb andb].
  2: { rewrite IH by done. by destruct (find _ _). }
  set (s2 := upd_task c (clear_pending (Z.of_nat a)) s1).
  assert (Hc2 : (c < length (task_pool s2))%nat) by (unfold s2; by rewrite length_upd).
  assert (Hh2 : forall g, handler_of (task_at s2 c) g = handler_of t g)
    by (intros g; unfold s2; rewrite task_at_upd_eq by done; apply Hh).
  change (default 0 (signal_handlers (sig (task_at s2 c)) !! Z.to_nat (Z.of_nat a)))
    with (handler_of (task_at s2 c) (Z.of_nat a)).
  rewrite Hh2. destruct (ignored t (Z.of_nat a)) eqn:Eig; cbn [negb]; unfold ignored in Eig.
  - transitivity (deliver_loop n (Z.of_nat (S a)) pending c r s2).
    + destruct (handler_of t (Z.of_nat a) =? SIG_DFL); [|by rewrite Eig].
      by destruct (z_true (default_action (Z.of_nat a))).
    + rewrite IH by done. destruct (find _ _) as [g|] eqn:Ef; [|done].
      rewrite (proj2 (Z.leb_le (Z.of_nat a) g)) by (apply find_above in Ef; lia). done.
  - rewrite Z.leb_refl, filter_below by lia. cbn [consume foldl]. fold s2.
    destruct (handler_of t (Z.of_nat a) =? SIG_DFL); [|by rewrite Eig].
    by destruct (z_true (default_action (Z.of_nat a))).
Qed.

Lemma signal_deliver_cases {mmu : Mmu} s c r :
  ring s -> current_task s = Some c -> pid (task_at s c) <> 0 ->
  let t := task_at s c in
  (c < length (task_pool s))%nat /\
  if has (signal_pending (sig t)) (sig_bit SIGKILL) then
    signal_deliver r s = Exits (sys_exit SIGKILL (upd_task c (fun t => set_sig (set_pending 0 (sig t)) t) s))
  else if in_signal (sig t) then signal_deliver r s = Resumes r s
  else
    match chosen t with
    | None => signal_deliver r s = Resumes r (consume c (taken t None) s)
    | Some g =>
        let s1 := consume c (taken t (Some g)) s in
        if handler_of t g =? SIG_DFL then signal_deliver r s = Exits (sys_exit g s1)
        else
          exists r' s', signal_deliver r s = Resumes r' s'
          /\ r' = set_rdi g (set_iret (handler_of t g) (r_cs r) (Z.land (r_rflags r) (u64 (Z.lnot 0x100)))
                    (u64 (r_rsp r - 8)) (r_ss r) r)
          /\ task_at s' c = set_sig (set_in_signal true
               (set_saved (r_rip r) (r_rsp r) (r_rflags r) (sig (task_at s1 c)))) (task_at s1 c)
          /\ (forall i, i <> c -> task_at s' i = task_at s i)
          /\ exists k, km s' = vstore64 (cr3 t) (u64 (r_rsp r - 8)) (trampoline_addr (sig t)) k
    end.
Proof.
  intros R Hcur Hpid t. pose proof (ring_pool _ R) as Hpool. pose proof (ring_count _ R) as Hn.
  assert (Hc : (c < length (task_pool s))%nat).
  { destruct (ring_cur _ R) as (c' & Hc' & Hlt). rewrite Hcur in Hc'. injection Hc' as <-. lia. }
  split; [done|]. unfold signal_deliver. rewrite Hcur, (proj2 (Z.eqb_neq _ _) Hpid). fold t.
  destruct (has _ (sig_bit SIGKILL)); [done|]. destruct (in_signal (sig t)); [done|]. cbv zeta.
  destruct (Z.eqb_spec (Z.land (signal_pending (sig t)) (u64 (Z.lnot (signal_mask (sig t))))) 0) as [H0|_].
  { assert (Hd : forall g, due t g = false) by (intros g; unfold due; by rewrite H0).
    assert (Hnone : chosen t = None)
      by (change (chosen t) with (find (fun g => due t g && negb (ignored t g)) numbers); generalize numbers; intros l; induction l as [|g l IH]; cbn; [done|by rewrite Hd]).
    assert (Ht : taken t None = [])
      by (unfold taken; generalize numbers; intros l; induction l as [|g l IH]; cbn; [done|by rewrite Hd]).
    rewrite Hnone, Ht. done. }
  pose proof (deliver_loop_spec c r t (NSIGS - 1) 1 s Hc (fun g => eq_refl)) as H.
  cbv zeta in H. change (Z.of_nat 1) with 1 in H. change (map Z.of_nat (seq 1 (NSIGS - 1))) with numbers in H.
  change (find (fun g => due t g && negb (ignored t g)) numbers) with (chosen t) in H.
  rewrite H. clear H. destruct (chosen t) as [g|]; [|by rewrite <- taken_none]. cbv zeta.
  rewrite <- (taken_some t g).
  destruct (_ =? SIG_DFL); [done|]. set (s1 := consume c (taken t (Some g)) s).
  pose proof (enter_handler_spec c g (handler_of t g) r s1) as He.
  destruct (enter_handler c g (handler_of t g) r s1) as [r' s4].
  destruct He as (Hr & Ht & Ho & _ & k & Hk); [unfold s1; by rewrite length_consume|].
  destruct (consume_task c (taken t (Some g)) s Hc (taken_range _ _)) as (p & Ep & _). fold s1 t in Ep.
  exists r', s4. split_and!; [done|done|done| |].
  - intros i Hi. rewrite Ho by done. by apply consume_others.
  - exists k. rewrite Hk, Ep. done.
Qed.

(** ** Properties *)

(** C23: which signal is delivered, and how.  For a task other than the main
    one: a pending SIGKILL ends the task whatever it masks or handles; while a
    handler runs nothing else is delivered; otherwise the lowest pending
    number that is neither masked nor ignored is taken.  If there is none, the
    program resumes with its frame unchanged.  If it has no handler the task
    exits with the number as its code.  If it has one, the frame is changed
    to call the handler with the number as argument on a stack one word lower,
    where the trampoline's address is stored, the interrupted position is
    saved, and the task is marked as handling a signal.  The numbers consumed
    are exactly the pending and unmasked ones up to the one taken (all of
    them, if none is); every other bit stays pending, and before an exit and
    in the other cases no other task changes. *)
Theorem signal_is_delivered {mmu : Mmu} s c r :
  ring s -> current_task s = Some c -> pid (task_at s c) <> 0 ->
  let t := task_at s c in
  (if has (signal_pending (sig t)) (sig_bit SIGKILL) then
     signal_deliver r s = Exits (sys_exit SIGKILL (upd_task c (fun t => set_sig (set_pending 0 (sig t)) t) s))
   else if in_signal (sig t) then signal_deliver r s = Resumes r s
   else
     match chosen t with
     | None => signal_deliver r s = Resumes r (consume c (taken t None) s)
     | Some g =>
         let s1 := consume c (taken t (Some g)) s in
         if handler_of t g =? SIG_DFL then signal_deliver r s = Exits (sys_exit g s1)
         else
           exists r' s', signal_deliver r s = Resumes r' s'
           /\ r' = set_rdi g (set_iret (handler_of t g) (r_cs r) (Z.land (r_rflags r) (u64 (Z.lnot 0x100)))
                     (u64 (r_rsp r - 8)) (r_ss r) r)
           /\ task_at s' c = set_sig (set_in_signal true
                (set_saved (r_rip r) (r_rsp r) (r_rflags r) (sig (task_at s1 c)))) (task_at s1 c)
           /\ (forall i, i <> c -> task_at s' i = task_at s i)
           /\ exists k, km s' = vstore64 (cr3 t) (u64 (r_rsp r - 8)) (trampoline_addr (sig t)) k
     end)
  /\ forall last,
       (exists p, task_at (consume c (taken t last) s) c = set_sig (set_pending p (sig t)) t
          /\ forall i, 0 <= i < 64 ->
               Z.testbit p i = Z.testbit (signal_pending (sig t)) i && negb (bool_decide (i ∈ taken t last)))
       /\ forall i, i <> c -> task_at (consume c (taken t last) s) i = task_at s i.
Proof.
  intros R Hcur Hpid t. destruct (signal_deliver_cases s c r R Hcur Hpid) as [Hc H].
  split; [exact H|]. intros last. split; [|intros i; apply consume_others].
  apply consume_task; [exact Hc|apply taken_range].
Qed.

(** Task 1 with a handler for SIGINT at 0x400100. *)
Definition handling : task :=
  set_sig (set_trampoline 0x400200 (set_handlers (<[2%nat := 0x400100]> (replicate NSIGS SIG_DFL))
    (set_pending (sig_bit SIGINT) sig_zero))) (demo_task 2 1 1 0 TASK_RUNNING 0).
Definition handling_sched : sched :=
  let s := demo_sched [demo_task 2 0 0 0 TASK_READY 0; handling] in
  Sched (task_pool s) (task_count s) (Some 1%nat) (task_list s) (next_pid s) None 0 0 0 (km s) (pipes s).

Lemma handling_ring : ring handling_sched.
Proof.
  split; [reflexivity|cbn; unfold MAX_TASKS; lia|reflexivity|by exists 1%nat; split; [|cbn; lia]|].
  intros i Hi. cbn in Hi. destruct i as [|[|i]]; [reflexivity..|lia].
Qed.

Definition user_frame0 : registers :=
  Regs 11 0 0 0 0 12 0 0 0 0 0 0 0 0 0 32 0 0x400000 0x1B 0x202 0x500000 0x23.

(** Stores go to the address itself. *)
Definition identity_mmu : Mmu :=
  Build_Mmu (fun _ a v k => set_phys (store64 (phys k) a v) k).

Lemma signal_is_delivered_witness :
  exists r' s', signal_deliver (mmu := identity_mmu) user_frame0 handling_sched = Resumes r' s'
    /\ r_rip r' = 0x400100 /\ r_rdi r' = 2.
Proof.
  pose proof (signal_is_delivered (mmu := identity_mmu) handling_sched 1 user_frame0 handling_ring eq_refl) as H.
  destruct H as ((r' & s' & Hd & Hr & _) & _); [intros Hx; discriminate Hx|].
  exists r', s'. split; [exact Hd|]. rewrite Hr. split; reflexivity.
Defined.

(** C39: what comes back after a handler.  When a signal has been delivered to
    a handler and the handler returns through SYS_SIGRETURN, the program is
    at its interrupted instruction, stack and flags again, and may receive
    signals again.  But rax holds 0 and the other general registers are those
    of the handler (here one that did nothing, so only rdi, the signal number,
    differs): the saved state has no general registers, so a program that is
    interrupted by the timer between two instructions loses rax. *)
Theorem sigreturn_resumes {mmu : Mmu} s c r g :
  ring s -> current_task s = Some c -> pid (task_at s c) <> 0 ->
  has (signal_pending (sig (task_at s c))) (sig_bit SIGKILL) = false ->
  in_signal (sig (task_at s c)) = false ->
  chosen (task_at s c) = Some g -> handler_of (task_at s c) g <> SIG_DFL ->
  exists r1 s1, signal_deliver r s = Resumes r1 s1
    /\ let '(r2, s2) := sys_sigreturn c r1 s1 in
       r2 = set_rax 0 (set_rdi g (set_iret (r_rip r) 0x1B (r_rflags r) (r_rsp r) 0x23 r))
       /\ in_signal (sig (task_at s2 c)) = false.
Proof.
  intros R Hcur Hpid Hk Hin Hch Hh. destruct (signal_deliver_cases s c r R Hcur Hpid) as [_ H]. cbv zeta in H.
  rewrite Hk, Hin, Hch, (proj2 (Z.eqb_neq _ _) Hh) in H.
  destruct H as (r1 & s1 & Hd & Hr & Ht & _). exists r1, s1. split; [done|].
  assert (Hset : in_signal (sig (task_at s1 c)) = true) by (rewrite Ht; reflexivity).
  unfold sys_sigreturn. rewrite Ht, Hr. clear Ht. split; [reflexivity|].
  rewrite task_at_upd. case_decide as Hc; [done|].
  exfalso. apply Hc. split; [done|]. unfold task_at in Hset. destruct (task_pool s1 !! c) as [t|] eqn:E.
  - by eapply lookup_lt_Some.
  - discriminate Hset.
Qed.

Lemma sigreturn_resumes_witness :
  exists r1 s1, signal_deliver (mmu := identity_mmu) user_frame0 handling_sched = Resumes r1 s1
    /\ r_rax (sys_sigreturn 1 r1 s1).1 = 0 /\ r_rip (sys_sigreturn 1 r1 s1).1 = 0x400000.
Proof.
  destruct (sigreturn_resumes (mmu := identity_mmu) handling_sched 1 user_frame0 2 handling_ring eq_refl)
    as (r1 & s1 & Hd & H).
  - intros Hx. discriminate Hx.
  - reflexivity.
  - reflexivity.
  - reflexivity.
  - intros Hx. discriminate Hx.
  - exists r1, s1. split; [exact Hd|]. destruct (sys_sigreturn 1 r1 s1) as [r2 s2].
    destruct H as [-> _]. split; reflexivity.
Defined.
