(* ===== verification/Elf.v ===== *)
(** * The program loader ([src/kernel/elf.c])

    [os] joins the parts of the kernel a program load touches: the tasks with
    the memory manager ([o_sched]) and the file system, which borrows the same
    heap.  The file is read into a heap buffer; from there on the loader works
    on physical memory, so that an offset outside the file reads whatever lies
    there, as in the code. *)

From S2P Require Import Prelude.
From S2P Require Import ByteMem.
From S2P Require Import Kmem.
From S2P Require Import Heap.
From S2P Require Import Paging.
From S2P Require Import VmRegion.
From S2P Require Import Alloc.
From S2P Require Import Cow.
From S2P Require Import Disk.
From S2P Require Import TinyFS.
From S2P Require Import Vfs.
From S2P Require Import Task.

Record os (D : Type) := Os {
  o_sched : sched;
  o_disk : D;
  o_sb : superblock;
  o_cwd : Z;
  o_serial : list Z;
  o_wild : bool               (* fs_wild *)
}.
Arguments Os {D}. Arguments o_sched {D}. Arguments o_disk {D}. Arguments o_sb {D}.
Arguments o_cwd {D}. Arguments o_serial {D}. Arguments o_wild {D}.

(** The file structures, at an address. *)
Record elf64_ehdr := Ehdr {
  e_ident : list Z; e_type : Z; e_machine : Z; e_entry : Z; e_phoff : Z; e_phnum : Z
}.
Record elf64_phdr := Phdr { p_type : Z; p_offset : Z; p_vaddr : Z; p_filesz : Z; p_memsz : Z }.

Definition load16 (m : mem) (a : Z) : Z := le_val (load_bytes m a 2).

Definition ehdr_at (m : mem) (a : Z) : elf64_ehdr :=
  Ehdr (load_bytes m a 16) (load16 m (a + 16)) (load16 m (a + 18)) (load64 m (a + 24))
    (load64 m (a + 32)) (load16 m (a + 56)).

Definition SIZEOF_PHDR : Z := 56.

Definition phdr_at (m : mem) (a : Z) : elf64_phdr :=
  Phdr (load32 m a) (load64 m (a + 8)) (load64 m (a + 16)) (load64 m (a + 32)) (load64 m (a + 40)).

Definition ELFCLASS64 : Z := 2.
Definition ELFDATA2LSB : Z := 1.
Definition ET_EXEC : Z := 2.
Definition EM_X86_64 : Z := 0x3E.
Definition PT_LOAD : Z := 1.
Definition ELF_BUF_SIZE : Z := 65536.

(** The three checks of the header. *)
Definition elf_header_ok (h : elf64_ehdr) : bool :=
  let ident i := char_at (e_ident h) i in
  (ident 0%nat =? 0x7F) && (ident 1%nat =? 69) && (ident 2%nat =? 76) && (ident 3%nat =? 70)
  && (ident 4%nat =? ELFCLASS64) && (ident 5%nat =? ELFDATA2LSB)
  && (e_type h =? ET_EXEC) && (e_machine h =? EM_X86_64).

Definition USER_RWX : Z := Z.lor (Z.lor PAGE_PRESENT PAGE_RW) PAGE_USER.

(** ** One page of a segment *)

(** How many bytes of the file go to the page, and from where. *)
Definition copy_offset (page vaddr : Z) : Z := if page <? vaddr then 0 else u64 (page - vaddr).
Definition copy_size (page vaddr filesz : Z) : Z :=
  let off := copy_offset page vaddr in
  if filesz <? u64 (off + 4096) then u64 (filesz - off) else 4096.

(** The branch for a page the file reaches: [false] is [return -1]. *)
Definition elf_file_page (pml4_phys buf page vaddr filesz offset : Z) : ST kmem bool :=
  let* page_phys := memory_alloc_page in
  if page_phys =? 0 then ret false
  else
    do* modify (fun k => set_phys
      (memory_copy page_phys (u64 (buf + u64 (offset + copy_offset page vaddr)))
         (copy_size page vaddr filesz) (phys k)) k) in
    let* r := paging_map_4kb pml4_phys page page_phys USER_RWX in
    ret (negb (r <? 0)).

(** The state of the loader: the memory manager and the regions of the task
    ([None] when there is no current task). *)
Definition ldr : Type := kmem * option (list vm_region).

Definition on_mem {A} (m : ST kmem A) : ST ldr A := fun '(k, v) =>
  let '(a, k') := m k in (a, (k', v)).

Definition add_region (start end_ flags : Z) : ST ldr unit := modify (fun '(k, v) =>
  (k, option_map (fun r => (vm_region_add r start end_ flags).1) v)).

Definition elf_page (pml4_phys buf vaddr filesz offset end_ page : Z) : ST ldr bool :=
  if page <? u64 (vaddr + filesz) then on_mem (elf_file_page pml4_phys buf page vaddr filesz offset)
  else
    let bss_end := u64 (page + 0x1000) in
    let bss_end := if end_ <? bss_end then end_ else bss_end in
    do* add_region page bss_end (Z.lor PAGE_USER PAGE_RW) in
    ret true.

(** [for (page = base; page < end; page += 0x1000)]: [base] and [end] are
    multiples of 4096, so the loop makes [(end - base) / 4096] rounds. *)
Fixpoint elf_pages (rounds : nat) (pml4_phys buf vaddr filesz offset end_ page : Z) : ST ldr bool :=
  match rounds with
  | O => ret true
  | S n =>
      let* ok := elf_page pml4_phys buf vaddr filesz offset end_ page in
      if ok then elf_pages n pml4_phys buf vaddr filesz offset end_ (u64 (page + 0x1000))
      else ret false
  end.

Definition elf_segment (pml4_phys buf : Z) (p : elf64_phdr) : ST ldr bool :=
  if negb (p_type p =? PT_LOAD) then ret true
  else if p_memsz p =? 0 then ret true
  else
    let base := frame (p_vaddr p) in
    let end_ := frame (u64 (p_vaddr p + p_memsz p + 0xFFF)) in
    elf_pages (Z.to_nat ((end_ - base) / 4096)) pml4_phys buf (p_vaddr p) (p_filesz p) (p_offset p) end_ base.

(** [for (i = 0; i < e_phnum; i++)] with [rounds] left; the headers are read
    from the buffer as the loop meets them. *)
Fixpoint elf_segments (rounds : nat) (pml4_phys buf phdr : Z) : ST ldr bool :=
  match rounds with
  | O => ret true
  | S n =>
      let* p := on_mem (gets (fun k => phdr_at (phys k) phdr)) in
      let* ok := elf_segment pml4_phys buf p in
      if ok then elf_segments n pml4_phys buf (u64 (phdr + SIZEOF_PHDR)) else ret false
  end.

(** The stack's pages are left to demand paging. *)
Definition elf_unmap_stack (pml4_phys : Z) : ST kmem unit :=
  for_loop 16 0 (fun i => paging_unmap_4kb pml4_phys (0x500000 + i * 0x1000)).

Section Load.
Context {D : Type} {disk : Disk D}.

(** The file system's calls on the kernel's heap. *)
Definition on_fs {A} (m : ST (fs kmem D) A) : ST (os D) A := fun s =>
  let '(a, f) := m (Fs (km (o_sched s)) (o_disk s) (o_sb s) (o_cwd s) (o_serial s) (o_wild s)) in
  (a, Os (set_km (fs_heap f) (o_sched s)) (fs_disk f) (fs_sb f) (fs_cwd f) (fs_serial f) (fs_wild f)).

Definition on_sched {A} (m : ST sched A) : ST (os D) A := fun s =>
  let '(a, sc) := m (o_sched s) in (a, Os sc (o_disk s) (o_sb s) (o_cwd s) (o_serial s) (o_wild s)).

Definition on_kmem {A} (m : ST kmem A) : ST (os D) A := on_sched (on_km m).

(** The loader's steps on the current task's regions. *)
Definition on_ldr {A} (m : ST ldr A) : ST (os D) A := on_sched (fun s =>
  let v := option_map (fun c => vm_regions (task_at s c)) (current_task s) in
  let '(a, (k, v')) := m (km s, v) in
  let s1 := set_km k s in
  (a, match current_task s, v' with
      | Some c, Some r => upd_task c (set_regions r) s1
      | _, _ => s1
      end)).

Definition free_buf (buf : Z) : ST (os D) unit := on_kmem (fun k => (tt, kfree buf k)).

(** The body once the header has been accepted. *)
Definition elf_body (pml4_phys buf : Z) (h : elf64_ehdr) : ST ldr bool :=
  do* modify (fun '(k, v) => (k, option_map (fun _ => vm_region_init) v)) in
  let* ok := elf_segments (Z.to_nat (e_phnum h)) pml4_phys buf (u64 (buf + e_phoff h)) in
  if negb ok then ret false
  else
    do* add_region 0x500000 0x510000 (Z.lor PAGE_USER PAGE_RW) in
    do* on_mem (elf_unmap_stack pml4_phys) in
    ret true.

(** [Some e]: returns 0 with [*entry_out = e]; [None]: -1.  A failure after
    the header has been accepted also stores the entry, which no caller
    looks at then. *)
Definition elf_load_into_address_space (pml4_phys : Z) (filename : list Z) : ST (os D) (option Z) :=
  let* buf := on_kmem (kalloc ELF_BUF_SIZE) in
  if buf =? 0 then ret None
  else
    let* '(n, out) := on_fs (fs_cat filename ELF_BUF_SIZE) in
    do* on_kmem (modify (fun k => set_phys (store_bytes (phys k) buf out) k)) in
    if n <=? 0 then do* free_buf buf in ret None
    else
      let* h := on_kmem (gets (fun k => ehdr_at (phys k) buf)) in
      if negb (elf_header_ok h) then do* free_buf buf in ret None
      else
        let* ok := on_ldr (elf_body pml4_phys buf h) in
        do* free_buf buf in
        ret (if ok then Some (e_entry h) else None).

(** ** The system call that replaces the program (17; 5 with "shell") *)

Definition paging_switch (pml4_phys : Z) : ST kmem unit := ret tt.

(** [Some e]: the frame will continue at [e] in user mode. *)
Definition sys_exec (filename : list Z) : ST (os D) (option Z) :=
  let* new_cr3 := on_kmem paging_create in
  if new_cr3 =? 0 then ret None
  else
    let* entry := elf_load_into_address_space new_cr3 filename in
    match entry with
    | None => do* on_kmem (paging_destroy new_cr3) in ret None
    | Some e =>
        let* old_cr3 := on_sched (fun s =>
          match current_task s with
          | None => (0, s)
          | Some c => (cr3 (task_at s c), upd_task c (set_cr3 new_cr3) s)
          end) in
        do* on_kmem (paging_switch new_cr3) in
        do* (if old_cr3 =? KERNEL_CR3 then ret tt else on_kmem (paging_destroy old_cr3)) in
        ret (Some e)
    end.

End Load.
