(* ===== verification/Syscall.v ===== *)
(** * The system calls ([src/kernel/syscall.c])

    [machine] is the kernel's state with its devices.  [syscall_handler] is
    the whole [switch] over [rax].  A call that sleeps or polls is cut there:
    [Waits w] holds what is needed to go on, and [syscall_resume] is the rest
    of the call from that point.  The processor's access to user memory is
    the parameter [UserMem]; [ksp] and [frame] are the value of rsp inside
    the handler and the address of the saved registers, which SYS_FORK uses. *)

From S2P Require Import Prelude.
From S2P Require Import ByteMem.
From S2P Require Import Kmem.
From S2P Require Import Heap.
From S2P Require Import Paging.
From S2P Require Import VmRegion.
From S2P Require Import Alloc.
From S2P Require Import Cow.
From S2P Require Import Pipe.
From S2P Require Import Io.
From S2P Require Import Vga.
From S2P Require Import Cmos.
From S2P Require Import Disk.
From S2P Require Import TinyFS.
From S2P Require Import Vfs.
From S2P Require Import Task.
From S2P Require Import Fd.
From S2P Require Import Keyboard.
From S2P Require Import Signal.
From S2P Require Import Elf.

(** A byte of virtual memory under a page-table root. *)
Class UserMem := {
  uload8 : Z -> Z -> kmem -> Z;             (* root, address *)
  ustore8 : Z -> Z -> Z -> kmem -> kmem     (* root, address, byte *)
}.

Record machine (P D : Type) := Machine {
  m_os : os D;
  m_port : P;
  m_vga : vga;
  m_kbd : kbd;
  m_ticks : Z;        (* tick_count *)
  m_break : Z         (* heap_break *)
}.
Arguments Machine {P D}. Arguments m_os {P D}. Arguments m_port {P D}. Arguments m_vga {P D}.
Arguments m_kbd {P D}. Arguments m_ticks {P D}. Arguments m_break {P D}.

(** Where a call waits. *)
Inductive wait :=
| WPipeWrite (p : nat) (data : list Z) (total : nat)
| WPipeRead (p : nat) (buf len : Z)
| WKey (buf : Z)
| WSleep (target : Z)
| WChild (pid : Z) (child : nat).

Inductive outcome :=
| Returns (r : registers)
| Waits (w : wait)
| Exited                   (* at the int $32 of sys_exit *)
| Halted                   (* cli; hlt *)
| Stuck.                   (* a loop used up its fuel, or NULL was followed *)

(** An [int] result in [rax]. *)
Definition ret_int (v : Z) (r : registers) : registers := set_rax (u64 v) r.

Section Handler.
Context {P D : Type} {io : PortIO P} {disk : Disk D} {mmu : Mmu} {umem : UserMem}.

Abbreviation MACH := (ST (machine P D)).

Definition on_os {A} (m : ST (os D) A) : MACH A := fun s =>
  let '(a, o) := m (m_os s) in
  (a, Machine o (m_port s) (m_vga s) (m_kbd s) (m_ticks s) (m_break s)).
Definition on_tasks {A} (m : ST sched A) : MACH A := on_os (on_sched m).
Definition on_ports {A} (m : ST P A) : MACH A := fun s =>
  let '(a, p) := m (m_port s) in
  (a, Machine (m_os s) p (m_vga s) (m_kbd s) (m_ticks s) (m_break s)).
Definition on_console {A} (m : ST (vga * P) A) : MACH A := fun s =>
  let '(a, (v, p)) := m (m_vga s, m_port s) in
  (a, Machine (m_os s) p v (m_kbd s) (m_ticks s) (m_break s)).

(** ** User memory, under the tables of task [c] *)

Definition uload (c : nat) (a : Z) : MACH Z := on_tasks (fun s =>
  (u8 (uload8 (cr3 (task_at s c)) (u64 a) (km s)), s)).
Definition ustore (c : nat) (a v : Z) : MACH unit := on_tasks (fun s =>
  (tt, set_km (ustore8 (cr3 (task_at s c)) (u64 a) (u8 v) (km s)) s)).

Fixpoint uload_bytes (c : nat) (n : nat) (a : Z) : MACH (list Z) :=
  match n with
  | O => ret []
  | S n' =>
      let* b := uload c a in
      let* bs := uload_bytes c n' (a + 1) in
      ret (b :: bs)
  end.

Fixpoint ustore_bytes (c : nat) (a : Z) (bs : list Z) : MACH unit :=
  match bs with
  | [] => ret tt
  | b :: bs' => do* ustore c a b in ustore_bytes c (a + 1) bs'
  end.

(** A C string; [None]: no terminator within the fuel. *)
Fixpoint uload_str (fuel : nat) (c : nat) (a : Z) : MACH (option (list Z)) :=
  match fuel with
  | O => ret None
  | S f =>
      let* b := uload c a in
      if b =? 0 then ret (Some [])
      else
        try* bs := uload_str f c (a + 1) else None in
        ret (Some (b :: bs))
  end.

(** A path argument that the file system checks for NULL. *)
Definition with_path (fuel c : nat) (a : Z) (k : option (list Z) -> MACH outcome) : MACH outcome :=
  if a =? 0 then k None
  else try* s := uload_str fuel c a else Stuck in k (Some s).

(** ** Calls that wait *)

Definition wake_tasks (ts : list nat) : MACH unit := on_tasks (modify (wake_all ts)).

Definition get_pipe (i : nat) : MACH (option pipe) := on_tasks (gets (fun s => pipes s !! i)).
Definition put_pipe (i : nat) (p : pipe) : MACH unit :=
  on_tasks (modify (fun s => set_pipes (<[i := p]> (pipes s)) s)).
Definition block (c : nat) : MACH unit := on_tasks (modify (task_block (Some c))).

(** [r->rax = pipe_write(...)] from one of its two entries. *)
Definition after_write (c i : nat) (data : list Z) (res : option write_result) (r : registers)
    : MACH outcome :=
  match res with
  | None => ret Stuck
  | Some (WriteDone v p woken) =>
      do* put_pipe i p in
      do* wake_tasks woken in
      ret (Returns (ret_int v r))
  | Some (WriteBlock total p woken) =>
      do* put_pipe i p in
      do* wake_tasks woken in
      do* block c in
      ret (Waits (WPipeWrite i data total))
  end.

Definition after_read (c i : nat) (buf len : Z) (res : read_result) (r : registers) : MACH outcome :=
  match res with
  | ReadDone v data p woken =>
      do* ustore_bytes c buf data in
      do* put_pipe i p in
      do* wake_tasks woken in
      ret (Returns (ret_int v r))
  | ReadBlock p =>
      do* put_pipe i p in
      do* block c in
      ret (Waits (WPipeRead i buf len))
  end.

Definition read_key (fuel c : nat) (buf : Z) (r : registers) : MACH outcome := fun s =>
  match keyboard_read fuel (KState (m_port s) (m_kbd s) (o_sched (m_os s))) with
  | None => (Stuck, s)
  | Some (KHalt st) =>
      (Waits (WKey buf), Machine (m_os s) (kb_port st) (m_vga s) (kb st) (m_ticks s) (m_break s))
  | Some (KChar ch st) =>
      (do* ustore c buf ch in ret (Returns (set_rax 1 r)))
        (Machine (m_os s) (kb_port st) (m_vga s) (kb st) (m_ticks s) (m_break s))
  end.

Definition sleep_until (target : Z) (r : registers) : MACH outcome := fun s =>
  (if m_ticks s <? target then Waits (WSleep target) else Returns (set_rax 0 r), s).

Definition wait_child (res : option wait_result) (pid : Z) (r : registers) : MACH outcome := fun s =>
  match res with
  | None => (Stuck, s)
  | Some (WaitDone v sc) => on_tasks (fun _ => (Returns (ret_int v r), sc)) s
  | Some (WaitYield i sc) => on_tasks (fun _ => (Waits (WChild pid i), sc)) s
  end.

(** What the call does when its task runs again after the interrupt that let
    it go on. *)
Definition syscall_resume (fuel c : nat) (w : wait) (r : registers) : MACH outcome :=
  match w with
  | WPipeWrite i data total =>
      try* p := get_pipe i else Stuck in
      after_write c i data (pipe_write_resume c data total p) r
  | WPipeRead i buf len =>
      try* p := get_pipe i else Stuck in
      after_read c i buf len (pipe_read_resume c len p) r
  | WKey buf => read_key fuel c buf r
  | WSleep target => sleep_until target r
  | WChild pid i =>
      let* res := on_tasks (gets (wait_on pid i)) in
      wait_child (Some res) pid r
  end.

(** ** Groups of cases *)

(** Cases 5 and 17: a frame that starts the program. *)
Definition exec_frame (entry : Z) (r : registers) : registers :=
  set_rax 0 (set_iret entry 0x1B 0x202 0x500000 0x23 r).

Definition exec_call (filename : list Z) (r : registers) : MACH outcome :=
  let* e := on_os (sys_exec filename) in
  match e with
  | None => ret (Returns (ret_int (-1) r))
  | Some entry => ret (Returns (exec_frame entry r))
  end.

(** Case 0. *)
Definition write_call (fuel c : nat) (r : registers) : MACH outcome :=
  let fd := i32 (r_rdi r) in
  let* f := on_tasks (gets (fun s => fd_at s c (Z.to_nat fd))) in
  if in_table fd && (f.1 =? FD_PIPE_WRITE) then
    match f.2 with
    | None => ret (Returns (ret_int (-1) r))
    | Some i =>
        try* p := get_pipe i else Stuck in
        let* data := uload_bytes c (Z.to_nat (i32 (r_rdx r))) (r_rsi r) in
        after_write c i data (pipe_write c (r_rsi r) data p) r
    end
  else if (fd =? 1) || (fd =? 2) then
    let* data := uload_bytes c (Z.to_nat (r_rdx r)) (r_rsi r) in
    do* on_console (vga_write data) in
    try* u := on_ports (Io.serial_write fuel data) else Stuck in
    ret (Returns (set_rax (r_rdx r) r))
  else ret (Returns (ret_int (-1) r)).

(** Case 1. *)
Definition read_call (fuel c : nat) (r : registers) : MACH outcome :=
  let fd := i32 (r_rdi r) in
  let* f := on_tasks (gets (fun s => fd_at s c (Z.to_nat fd))) in
  if in_table fd && (f.1 =? FD_PIPE_READ) then
    match f.2 with
    | None => ret (Returns (ret_int (-1) r))
    | Some i =>
        try* p := get_pipe i else Stuck in
        after_read c i (r_rsi r) (i32 (r_rdx r)) (pipe_read c (r_rsi r) (i32 (r_rdx r)) p) r
    end
  else if fd =? 0 then read_key fuel c (r_rsi r) r
  else ret (Returns (ret_int (-1) r)).

(** The file system's calls: an [int], and the bytes stored to a buffer. *)
Definition fs_call_int (m : ST (fs kmem D) Z) (r : registers) : MACH outcome :=
  let* v := on_os (on_fs m) in
  ret (Returns (ret_int v r)).

Definition fs_call_out (c : nat) (buf : Z) (m : ST (fs kmem D) (Z * list Z)) (r : registers)
    : MACH outcome :=
  let* '(v, out) := on_os (on_fs m) in
  do* ustore_bytes c buf out in
  ret (Returns (ret_int v r)).

(** [while (good & 0x02) good = inb(0x64)] before the reset command. *)
Fixpoint wait_controller (fuel : nat) : ST P bool :=
  match fuel with
  | O => ret false
  | S f => let* v := inb 0x64 in if flag v 0x02 then wait_controller f else ret true
  end.

Definition reboot_call (fuel : nat) (r : registers) : MACH outcome :=
  let* ok := on_ports (wait_controller fuel) in
  if negb ok then ret Stuck
  else do* on_ports (outb 0x64 0xFE) in ret (Returns (set_rax 0 r)).

Definition datetime_call (fuel c : nat) (r : registers) : MACH outcome :=
  try* dt := on_ports (cmos_read_datetime fuel) else Stuck in
  if 20 <=? r_rsi r then
    do* ustore_bytes c (r_rdi r) (format_datetime dt) in
    ret (Returns (set_rax 20 r))
  else ret (Returns (set_rax 0 r)).

Definition pipe_call (c : nat) (r : registers) : MACH outcome :=
  let* o := on_tasks (sys_pipe c) in
  match o with
  | None => ret (Returns (ret_int (-1) r))
  | Some (a, b) =>
      do* ustore_bytes c (r_rdi r) (le_bytes 4 (Z.of_nat a)) in
      do* ustore_bytes c (r_rdi r + 4) (le_bytes 4 (Z.of_nat b)) in
      ret (Returns (set_rax 0 r))
  end.

Definition fork_call (c : nat) (ksp frame : Z) (r : registers) : MACH outcome := fun s =>
  match sys_fork ksp (cr3 (task_at (o_sched (m_os s)) c)) frame (o_sched (m_os s)) with
  | None => (Stuck, s)
  | Some (v, sc) => on_tasks (fun _ => (Returns (ret_int v r), sc)) s
  end.

Definition kill_call (r : registers) : MACH outcome := fun s =>
  match sys_kill (u32 (r_rdi r)) (i32 (r_rsi r)) (o_sched (m_os s)) with
  | None => (Stuck, s)
  | Some (v, sc) => on_tasks (fun _ => (Returns (ret_int v r), sc)) s
  end.

Definition sbrk_call (c : nat) (r : registers) : MACH outcome := fun s =>
  let '((v, brk), s1) := on_os (on_kmem (sys_sbrk (cr3 (task_at (o_sched (m_os s)) c)) (i64 (r_rdi r)) (m_break s))) s in
  (Returns (set_rax v r), Machine (m_os s1) (m_port s1) (m_vga s1) (m_kbd s1) (m_ticks s1) brk).

(** ** [syscall_handler] *)

Definition syscall_switch (fuel c : nat) (ksp frame : Z) (r : registers) : MACH outcome :=
  let done v := ret (Returns (set_rax v r)) in
  match r_rax r with
  | 0 => write_call fuel c r
  | 1 => read_call fuel c r
  | 2 => let* t := gets m_ticks in sleep_until (sleep_target t (r_rdi r)) r
  | 3 => let* t := gets m_ticks in done t
  | 4 => do* on_console (vga_clear VGA_BLACK) in done 0
  | 5 => exec_call (str "shell") r
  | 6 => with_path fuel c (r_rdi r) (fun p => fs_call_out c (r_rsi r) (fs_ls p (i32 (r_rdx r))) r)
  | 7 => with_path fuel c (r_rsi r) (fun p => fs_call_int (fs_cd p) r)
  | 8 => try* p := uload_str fuel c (r_rdi r) else Stuck in
         fs_call_out c (r_rsi r) (fs_cat p (i32 (r_rdx r))) r
  | 9 => reboot_call fuel r
  | 10 => do* on_ports (outw 0x604 0x2000) in do* on_ports (outw 0xB004 0x2000) in ret Halted
  | 11 => let* data := uload_bytes c (Z.to_nat (r_rsi r)) (r_rdi r) in
          try* u := on_ports (Io.serial_write fuel data) else Stuck in done (r_rsi r)
  | 12 => with_path fuel c (r_rdi r) (fun p => fs_call_int (fs_mkdir p) r)
  | 13 => with_path fuel c (r_rdi r) (fun p => fs_call_int (fs_rmdir p) r)
  | 14 => with_path fuel c (r_rdi r) (fun p => fs_call_int (fs_delete p) r)
  | 15 => with_path fuel c (r_rdi r) (fun p =>
          with_path fuel c (r_rsi r) (fun q => fs_call_int (fs_rename p q) r))
  | 16 => with_path fuel c (r_rdi r) (fun p =>
          with_path fuel c (r_rsi r) (fun q => fs_call_int (fs_copy p q) r))
  | 17 => try* p := uload_str fuel c (r_rdi r) else Stuck in exec_call p r
  | 18 => datetime_call fuel c r
  | 19 => fork_call c ksp frame r
  | 20 => do* on_tasks (modify (sys_exit (i32 (r_rdi r)))) in ret Exited
  | 21 => let* s := on_tasks get in wait_child (sys_waitpid (u32 (r_rdi r)) s) (u32 (r_rdi r)) r
  | 22 => sbrk_call c r
  | 23 => pipe_call c r
  | 24 => let* v := on_tasks (sys_dup2 c (i32 (r_rdi r)) (i32 (r_rsi r))) in ret (Returns (ret_int v r))
  | 25 => let* v := on_tasks (sys_close c (i32 (r_rdi r))) in ret (Returns (ret_int v r))
  | 26 => let* r' := on_tasks (sys_sigaction c r) in ret (Returns r')
  | 27 => kill_call r
  | 28 => let* r' := on_tasks (sys_sigreturn c r) in ret (Returns r')
  | 29 => with_path fuel c (r_rdi r) (fun p => fs_call_int (fs_create p) r)
  | 30 => let* '(cr, cc) := on_console vga_getpos in done (Z.lor (u64 (Z.shiftl cr 16)) cc)
  | 31 => do* on_console (vga_setpos (r_rdi r) (r_rsi r)) in done 0
  | 32 => with_path fuel c (r_rdi r) (fun p =>
          let* data := uload_bytes c (Z.to_nat (Z.min (u32 (r_rdx r)) TINYFS_BLOCK_SIZE)) (r_rsi r) in
          fs_call_int (fs_write_file p data (u32 (r_rdx r))) r)
  | 33 => let* k := gets m_kbd in done (b2z (keyboard_data k))
  | _ => ret (Returns (ret_int (-1) r))
  end.

(** [current_task] is never NULL here once the scheduler has started. *)
Definition syscall_handler (fuel : nat) (ksp frame : Z) (r : registers) : MACH outcome :=
  let* c := on_tasks (gets current_task) in
  match c with
  | None => ret Stuck
  | Some c => syscall_switch fuel c ksp frame r
  end.

End Handler.
