(* ===== verification/Idt.v ===== *)
(** * Interrupts ([src/kernel/idt.c], [src/kernel/gdt.c], the handler of timer.c)

    The tables [idt] and [gdt] are lists of descriptors whose fields are the
    parts of addresses the hardware puts together again.  [handle_interrupt]
    is the common entry of all interrupts: the handler registered for the
    vector, the acknowledgement to the interrupt controllers, and the delivery
    of signals on the way back to user mode.  The address of a page fault is
    the argument [cr2].  The panic screens end in [hlt] with interrupts
    disabled, which is [Halted]. *)

From S2P Require Import Prelude.
From S2P Require Import Kmem.
From S2P Require Import Paging.
From S2P Require Import VmRegion.
From S2P Require Import Cow.
From S2P Require Import Pipe.
From S2P Require Import Io.
From S2P Require Import Vga.
From S2P Require Import Disk.
From S2P Require Import Task.
From S2P Require Import Keyboard.
From S2P Require Import Signal.
From S2P Require Import Elf.
From S2P Require Import Syscall.

(** ** Descriptors *)

Record idt_entry := IdtEntry {
  offset_low : Z; selector : Z; ist : Z; type_attr : Z; offset_mid : Z; offset_high : Z
}.

Definition IDT_ENTRIES : nat := 256.

Definition idt_entry_of (base sel flags : Z) : idt_entry :=
  IdtEntry (u16 (Z.land base 0xFFFF)) (u16 sel) 0 (u8 flags)
    (u16 (Z.land (Z.shiftr base 16) 0xFFFF)) (u32 (Z.land (Z.shiftr base 32) 0xFFFFFFFF)).

Definition idt_set_entry (i : nat) (base sel flags : Z) (t : list idt_entry) : list idt_entry :=
  <[i := idt_entry_of base sel flags]> t.

(** [idt_init]: 32 exceptions, 16 interrupt lines and the system call; the
    addresses of the stubs of isr.asm are the arguments. *)
Fixpoint set_entries (i : nat) (addrs : list Z) (t : list idt_entry) : list idt_entry :=
  match addrs with
  | [] => t
  | a :: addrs' => set_entries (S i) addrs' (idt_set_entry i a 0x08 0x8E t)
  end.

Definition idt_table (isrs irqs : list Z) (isr128 : Z) (t : list idt_entry) : list idt_entry :=
  idt_set_entry 0x80 isr128 0x08 0xEF (set_entries 32 irqs (set_entries 0 isrs t)).

(** Where the processor goes for vector [i]. *)
Definition gate_target (t : list idt_entry) (i : nat) : option Z :=
  (fun e => offset_low e + 2 ^ 16 * offset_mid e + 2 ^ 32 * offset_high e) <$> t !! i.

Record gdt_entry := GdtEntry {
  limit_low : Z; base_low : Z; base_mid : Z; access : Z; granularity : Z; base_high : Z
}.

Definition gdt_set_entry (i : nat) (base limit acc gran : Z) (t : list gdt_entry) : list gdt_entry :=
  <[i := GdtEntry (u16 (Z.land limit 0xFFFF)) (u16 (Z.land base 0xFFFF))
           (u8 (Z.land (Z.shiftr base 16) 0xFF)) (u8 acc)
           (u8 (Z.lor gran (Z.land (Z.shiftr limit 16) 0x0F)))
           (u8 (Z.land (Z.shiftr base 24) 0xFF))]> t.

Definition SIZEOF_TSS : Z := 104.

(** The five segments and the two halves of the task-state descriptor, the
    upper of which is stored as two 32-bit words over the seventh entry. *)
Definition gdt_table (tss_base : Z) (t : list gdt_entry) : list gdt_entry :=
  let t := gdt_set_entry 0 0 0 0 0 t in
  let t := gdt_set_entry 1 0 0xFFFFF 0x9A 0xA0 t in
  let t := gdt_set_entry 2 0 0xFFFFF 0x92 0xA0 t in
  let t := gdt_set_entry 3 0 0xFFFFF 0xFA 0xA0 t in
  let t := gdt_set_entry 4 0 0xFFFFF 0xF2 0xA0 t in
  let t := <[5%nat := GdtEntry (Z.land (SIZEOF_TSS - 1) 0xFFFF) (u16 (Z.land tss_base 0xFFFF))
                        (u8 (Z.land (Z.shiftr tss_base 16) 0xFF)) 0x89
                        (Z.land (Z.shiftr (SIZEOF_TSS - 1) 16) 0x0F)
                        (u8 (Z.land (Z.shiftr tss_base 24) 0xFF))]> t in
  let high := u32 (Z.shiftr tss_base 32) in
  <[6%nat := GdtEntry (u16 high) (u16 (Z.shiftr high 16)) 0 0 0 0]> t.

(** ** The interrupt handlers *)

(** [idt_register_handler]: which handler a vector has after [kmain] has
    called the init functions. *)
Inductive isr_handler := PageFault | Gpf | Timer | Kbd | Syscall.

Definition idt_register_handler (v : Z) (h : isr_handler) (t : gmap Z isr_handler) : gmap Z isr_handler :=
  <[v := h]> t.

Definition handlers : gmap Z isr_handler :=
  idt_register_handler 0x80 Syscall
    (idt_register_handler 33 Kbd
       (idt_register_handler 32 Timer (<[13 := Gpf]> (<[14 := PageFault]> ∅)))).

(** The 16 hexadecimal digits of the dumps. *)
Definition nibble (v i : Z) : Z := Z.land (Z.shiftr v i) 0xF.
Definition hex_digit (n : Z) : Z := if n <? 10 then u8 (48 + n) else u8 (97 + n - 10).
Definition hex64 (v : Z) : list Z := map (fun i => hex_digit (nibble v (60 - 4 * Z.of_nat i))) (seq 0 16).

Definition exception_names : list (list Z) :=
  [str "Division By Zero"; str "Debug"; str "NMI"; str "Breakpoint";
   str "Overflow"; str "Bound Range"; str "Invalid Opcode"; str "Device Not Available";
   str "Double Fault"; str "Coprocessor"; str "Invalid TSS"; str "Segment Not Present";
   str "Stack Fault"; str "GP Fault"; str "Page Fault"; str "Reserved";
   str "x87 Float"; str "Alignment Check"; str "Machine Check"; str "SIMD Float";
   str "Virtualization"; str "Control Protection"; str "Reserved"; str "Reserved";
   str "Reserved"; str "Reserved"; str "Reserved"; str "Reserved";
   str "Reserved"; str "Reserved"; str "Security"; str "Reserved"].

Section Interrupts.
Context {P D : Type} {io : PortIO P} {disk : Disk D} {mmu : Mmu} {umem : UserMem}.

Abbreviation MACH := (ST (machine P D)).

Definition pic_remap : ST P unit :=
  do* outb 0x20 0x11 in
  do* outb 0xA0 0x11 in
  do* outb 0x21 0x20 in
  do* outb 0xA1 0x28 in
  do* outb 0x21 0x04 in
  do* outb 0xA1 0x02 in
  do* outb 0x21 0x01 in
  do* outb 0xA1 0x01 in
  do* outb 0x21 0xFC in
  outb 0xA1 0xFF.

(** A message of the serial port, [serial_write(s, n)]; the characters of
    the dumps go out by [serial_putchar], none of which is a newline. *)
Definition say (fuel : nat) (s : list Z) (n : nat) : MACH unit :=
  do* on_ports (Io.serial_write fuel (take n s)) in ret tt.

Definition dump_hex64 (fuel : nat) (v : Z) : MACH unit := say fuel (hex64 v) 16.

Definition bit_char (v m : Z) : list Z := if flag v m then str "1" else str "0".

Definition page_fault_report (fuel : nat) (cr2 : Z) (r : registers) : MACH outcome :=
  let err := r_err_code r in
  do* say fuel (10 :: str "!!! PAGE FAULT !!!" ++ [10]) 20 in
  do* say fuel (str "Fault address (CR2): 0x") 22 in
  do* dump_hex64 fuel cr2 in
  do* say fuel (10 :: str "Error code: ") 12 in
  do* dump_hex64 fuel err in
  do* say fuel (10 :: str "  Present: ") 11 in
  do* say fuel (bit_char err 1) 1 in
  do* say fuel (10 :: str "  Write:   ") 11 in
  do* say fuel (bit_char err 2) 1 in
  do* say fuel (10 :: str "  User:    ") 11 in
  do* say fuel (bit_char err 4) 1 in
  do* say fuel (10 :: str "RIP: 0x") 7 in
  do* dump_hex64 fuel (r_rip r) in
  do* say fuel (10 :: str "RSP: 0x") 7 in
  do* dump_hex64 fuel (r_rsp r) in
  do* say fuel (10 :: str "Halting." ++ [10]) 9 in
  do* on_console (vga_writestring (str "!!! PAGE FAULT at 0x")) in
  do* on_console (vga_writestring (hex64 cr2)) in
  do* on_console (vga_writestring (str " !!!" ++ [10])) in
  ret Halted.

Definition page_fault_handler (fuel : nat) (cr2 : Z) (r : registers) : MACH outcome :=
  let* cur := on_tasks (gets current_task) in
  let* pml4 := on_tasks (gets (fun s => match cur with Some c => cr3 (task_at s c) | None => PML4_ADDR end)) in
  let* cow := on_os (on_kmem (paging_handle_cow_fault pml4 cr2)) in
  if cow =? 0 then ret (Returns r)
  else
    let* demand :=
      match cur with
      | None => ret (-1)
      | Some c =>
          let* rg := on_tasks (gets (fun s => vm_regions (task_at s c))) in
          on_os (on_kmem (paging_handle_demand_fault pml4 cr2 (Some rg)))
      end in
    if demand =? 0 then ret (Returns r) else page_fault_report fuel cr2 r.

Definition gpf_handler (fuel : nat) (r : registers) : MACH outcome :=
  do* say fuel (10 :: str "!!! GENERAL PROTECTION FAULT !!!" ++ [10]) 33 in
  do* say fuel (str "Error code: ") 12 in
  do* dump_hex64 fuel (r_err_code r) in
  do* say fuel (10 :: str "RIP: 0x") 7 in
  do* dump_hex64 fuel (r_rip r) in
  do* say fuel (10 :: str "CS: 0x") 6 in
  do* dump_hex64 fuel (r_cs r) in
  do* say fuel (10 :: str "RSP: 0x") 7 in
  do* dump_hex64 fuel (r_rsp r) in
  do* say fuel (10 :: str "Halting." ++ [10]) 9 in
  do* on_console (vga_writestring (str "!!! GPF at RIP=0x")) in
  do* on_console (vga_writestring (hex64 (r_rip r))) in
  do* on_console (vga_writestring (str " !!!" ++ [10])) in
  ret Halted.

(** An exception without a handler. *)
Definition exception_report (fuel : nat) (r : registers) : MACH outcome :=
  let n := r_int_no r in
  do* say fuel (str "E") 1 in
  do* say fuel [u8 (48 + n / 10)] 1 in
  do* say fuel [u8 (48 + n mod 10)] 1 in
  do* on_ports (serial_putchar fuel 10) in
  do* say fuel (str "EXCEPTION: ") 11 in
  let msg := default [] (exception_names !! Z.to_nat n) in
  do* say fuel msg (length msg) in
  do* say fuel (10 :: str "RIP: 0x") 7 in
  do* dump_hex64 fuel (r_rip r) in
  do* say fuel (10 :: str "Halting." ++ [10]) 9 in
  ret Halted.

(** [tick_count++; scheduler_tick();] *)
Definition timer_handler (r : registers) : MACH outcome := fun s =>
  match scheduler_tick (o_sched (m_os s)) with
  | None => (Stuck, s)
  | Some sc =>
      (do* on_tasks (fun _ => (tt, sc)) in ret (Returns r))
        (Machine (m_os s) (m_port s) (m_vga s) (m_kbd s) (u64 (m_ticks s + 1)) (m_break s))
  end.

Definition kbd_handler (r : registers) : MACH outcome := fun s =>
  match keyboard_handler (KState (m_port s) (m_kbd s) (o_sched (m_os s))) with
  | None => (Stuck, s)
  | Some st =>
      (do* on_tasks (fun _ => (tt, kb_tasks st)) in ret (Returns r))
        (Machine (m_os s) (kb_port st) (m_vga s) (kb st) (m_ticks s) (m_break s))
  end.

Definition run_handler (h : isr_handler) (fuel : nat) (cr2 ksp frame : Z) (r : registers) : MACH outcome :=
  match h with
  | PageFault => page_fault_handler fuel cr2 r
  | Gpf => gpf_handler fuel r
  | Timer => timer_handler r
  | Kbd => kbd_handler r
  | Syscall => syscall_handler fuel ksp frame r
  end.

(** The lines after the handler: acknowledge a hardware interrupt, and
    deliver signals if the frame goes back to user mode. *)
Definition interrupt_end (r : registers) : MACH outcome :=
  do* (if (32 <=? r_int_no r) && (r_int_no r <=? 47) then
         do* (if 40 <=? r_int_no r then on_ports (outb 0xA0 0x20) else ret tt) in
         on_ports (outb 0x20 0x20)
       else ret tt) in
  if r_cs r =? 0x1B then
    on_tasks (fun s =>
      match signal_deliver r s with
      | Resumes r' s' => (Returns r', s')
      | Exits s' => (Exited, s')
      end)
  else ret (Returns r).

Definition then_end (m : MACH outcome) : MACH outcome :=
  let* o := m in
  match o with
  | Returns r => interrupt_end r
  | _ => ret o
  end.

Definition handle_interrupt (fuel : nat) (cr2 ksp frame : Z) (r : registers) : MACH outcome :=
  then_end
    (match handlers !! r_int_no r with
     | Some h => run_handler h fuel cr2 ksp frame r
     | None => if r_int_no r <? 32 then exception_report fuel r else ret (Returns r)
     end).

(** A call that waited goes on. *)
Definition resume_interrupt (fuel c : nat) (w : wait) (r : registers) : MACH outcome :=
  then_end (syscall_resume fuel c w r).

End Interrupts.
