(* ===== verification/Kernel.v ===== *)
(** * The whole kernel: every interrupt keeps the invariant of tasks and pipes

    [mild]: a computation on the machine that changes the tasks only as
    [calm] allows; most of the kernel is.  [keeps] is the invariant [kinv]
    with a fixed current task as a property of computations, closed under
    [bind].  [kernel_step] is what can happen to the machine: an interrupt
    with any frame, a call that goes on after waiting, the creation of a
    kernel task, and anything a user program or a device does. *)

From S2P Require Import Prelude.
From S2P Require Import ByteMem.
From S2P Require Import Kmem.
From S2P Require Import Heap.
From S2P Require Import Paging.
From S2P Require Import VmRegion.
From S2P Require Import Alloc.
From S2P Require Import Cow.
From S2P Require Import Pipe.
From S2P Require Import FdInv.
From S2P Require Import Io.
From S2P Require Import Vga.
From S2P Require Import Cmos.
From S2P Require Import Disk.
From S2P Require Import TinyFS.
From S2P Require Import Vfs.
From S2P Require Import Task.
From S2P Require Import Fd.
From S2P Require Import FsHeap.
From S2P Require Import Sched.
From S2P Require Import KernelInv.
From S2P Require Import Keyboard.
From S2P Require Import Signal.
From S2P Require Import Elf.
From S2P Require Import Syscall.
From S2P Require Import Idt.

(** The invariant while [c] is the current task. *)
Definition kinv_at (n : Z) (c : nat) (s : sched) : Prop := kinv n s /\ current_task s = Some c.

Lemma calm_kinv_at n c s s' : calm s s' -> kinv_at n c s -> kinv_at n c s'.
Proof. intros C [K Hc]. split; [by eapply calm_kinv|by rewrite (q_cur _ _ (ca_quiet _ _ C))]. Qed.

Lemma quiet_cur s s' c : quiet s s' -> current_task s = Some c -> current_task s' = Some c.
Proof. intros Q <-. apply (q_cur _ _ Q). Qed.

Section Calm.
Context {P D : Type} {io : PortIO P} {disk : Disk D} {mmu : Mmu} {umem : UserMem}.

Abbreviation MACH := (ST (machine P D)).

Definition tasks (m : machine P D) : sched := o_sched (m_os m).

Implicit Types s : machine P D.

(** ** Computations that are calm *)

Definition mild {A} (m : MACH A) : Prop := forall s, calm (tasks s) (tasks (m s).2).
Definition mild_os {A} (m : ST (os D) A) : Prop := forall s : os D, calm (o_sched s) (o_sched (m s).2).

Lemma mild_ret {A} (a : A) : mild (ret a).
Proof. intros s. apply calm_refl. Qed.

Lemma mild_bind {A B} (m : MACH A) (k : A -> MACH B) : mild m -> (forall a, mild (k a)) -> mild (bind m k).
Proof.
  intros Hm Hk s. unfold bind. specialize (Hm s). destruct (m s) as [a s1]. eapply calm_trans; [exact Hm|apply Hk].
Qed.

Lemma mild_os_bind {A B} (m : ST (os D) A) (k : A -> ST (os D) B) :
  mild_os m -> (forall a, mild_os (k a)) -> mild_os (bind m k).
Proof.
  intros Hm Hk s. unfold bind. specialize (Hm s). destruct (m s) as [a s1]. eapply calm_trans; [exact Hm|apply Hk].
Qed.

Lemma mild_os_ret {A} (a : A) : mild_os (ret a).
Proof. intros s. apply calm_refl. Qed.

Lemma mild_on_os {A} (m : ST (os D) A) : mild_os m -> mild (on_os m).
Proof. intros Hm s. unfold on_os, tasks. specialize (Hm (m_os s)). by destruct (m (m_os s)). Qed.

Lemma mild_on_ports {A} (m : ST P A) : mild (on_ports m).
Proof. intros s. unfold on_ports, tasks. destruct (m (m_port s)). apply calm_refl. Qed.

Lemma mild_on_console {A} (m : ST (vga * P) A) : mild (on_console m).
Proof. intros s. unfold on_console, tasks. destruct (m _) as [a [v p]]. apply calm_refl. Qed.

Lemma mild_os_sched {A} (m : ST sched A) : (forall s : sched, calm s (m s).2) -> mild_os (on_sched m).
Proof. intros Hm s. unfold on_sched. specialize (Hm (o_sched s)). by destruct (m (o_sched s)). Qed.

Lemma mild_on_tasks {A} (m : ST sched A) : (forall s : sched, calm s (m s).2) -> mild (on_tasks m).
Proof. intros Hm. by apply mild_on_os, mild_os_sched. Qed.

Lemma mild_os_kmem {A} (m : ST kmem A) : mild_os (on_kmem m).
Proof. apply mild_os_sched. auto with calm. Qed.

Lemma mild_os_fs {A} (m : ST (fs kmem D) A) : mild_os (on_fs m).
Proof. intros s. unfold on_fs. destruct (m _) as [a f]. cbn. auto with calm. Qed.

Lemma mild_os_ldr {A} (m : ST ldr A) : mild_os (on_ldr m).
Proof.
  apply mild_os_sched. intros s. cbv zeta. destruct (m (km s, _)) as [a [k v']]. cbn.
  destruct (current_task s), v'; auto with calm.
Qed.

Lemma get_pipe_run i s : get_pipe i s = (pipes (tasks s) !! i, s).
Proof. by destruct s as [[]]. Qed.

Lemma mild_pipe_then {B} i (d : B) (k : pipe -> MACH B) :
  (forall p s, pipes (tasks s) !! i = Some p -> calm (tasks s) (tasks (k p s).2)) ->
  mild (let* o := get_pipe i in match o with None => ret d | Some p => k p end).
Proof.
  intros Hk s. unfold bind. rewrite get_pipe_run. destruct (pipes (tasks s) !! i) as [p|] eqn:E; [by apply Hk|].
  apply calm_refl.
Qed.

Lemma mild_gets {A} (f : sched -> A) : mild (on_tasks (gets f)).
Proof. apply mild_on_tasks. intros s. apply calm_refl. Qed.

End Calm.

(** Goes through a computation and leaves the parts it does not know. *)
Ltac mild := repeat first
  [ progress intros
  | match goal with
    | |- mild (ret _) => apply mild_ret
    | |- mild (bind (get_pipe _) _) => apply mild_pipe_then
    | |- mild (bind _ _) => apply mild_bind
    | |- mild (on_os _) => apply mild_on_os
    | |- mild (on_ports _) => apply mild_on_ports
    | |- mild (on_console _) => apply mild_on_console
    | |- mild_os (ret _) => apply mild_os_ret
    | |- mild_os (bind _ _) => apply mild_os_bind
    | |- mild_os (on_kmem _) => apply mild_os_kmem
    | |- mild_os (on_fs _) => apply mild_os_fs
    | |- mild_os (on_ldr _) => apply mild_os_ldr
    | |- mild (match ?x with _ => _ end) => destruct x
    | |- mild_os (match ?x with _ => _ end) => destruct x
    end ].

Lemma mild_say {P D} {io : PortIO P} fuel x k : mild (P := P) (D := D) (say fuel x k).
Proof. unfold say. mild. Qed.

Ltac mild_report := repeat (mild; try lazymatch goal with
  | |- mild (say _ _ _) => apply mild_say
  | |- mild (dump_hex64 _ _) => apply mild_say
  | |- mild (on_tasks (gets _)) => apply mild_gets
  end).

Section Kernel.
Context {P D : Type} {io : PortIO P} {disk : Disk D} {mmu : Mmu} {umem : UserMem}.

Abbreviation MACH := (ST (machine P D)).
Abbreviation tasks := (tasks (P := P) (D := D)).
Abbreviation mild := (mild (P := P) (D := D)).
Abbreviation mild_os := (mild_os (D := D)).

Implicit Types s : machine P D.

Lemma mild_exec filename : mild_os (sys_exec filename).
Proof.
  unfold sys_exec, elf_load_into_address_space, free_buf. mild.
  apply mild_os_sched. intros s. destruct (current_task s); cbn; auto with calm.
Qed.

Lemma mild_uload c a : mild (uload c a).
Proof. apply mild_on_tasks. intros s. apply calm_refl. Qed.

Lemma mild_ustore c a v : mild (ustore c a v).
Proof. apply mild_on_tasks. intros s. cbn. auto with calm. Qed.

Lemma mild_uload_bytes c n a : mild (uload_bytes c n a).
Proof. revert a. induction n as [|n IH]; intros a; cbn [uload_bytes]; mild; [apply mild_uload|apply IH]. Qed.

Lemma mild_ustore_bytes c a bs : mild (ustore_bytes c a bs).
Proof. revert a. induction bs as [|b bs IH]; intros a; cbn [ustore_bytes]; mild; [apply mild_ustore|apply IH]. Qed.

Lemma mild_uload_str fuel c a : mild (uload_str fuel c a).
Proof. revert a. induction fuel as [|f IH]; intros a; cbn [uload_str]; mild; [apply mild_uload|apply IH]. Qed.

Lemma mild_with_path fuel c a k : (forall p, mild (k p)) -> mild (with_path fuel c a k).
Proof. intros Hk. unfold with_path. mild; [apply Hk|apply mild_uload_str|apply Hk]. Qed.

(** ** Pipes *)

Lemma pipes_ustore_bytes c a bs s : pipes (tasks (ustore_bytes c a bs s).2) = pipes (tasks s).
Proof.
  revert a s. induction bs as [|b bs IH]; intros a s; [done|]. cbn [ustore_bytes]. unfold bind.
  destruct (ustore c a b s) as [u s1] eqn:E. rewrite IH. by injection E as <- <-.
Qed.

Lemma mild_wake ts : mild (wake_tasks ts).
Proof. apply mild_on_tasks. intros s. cbn. auto with calm. Qed.

Lemma mild_block c : mild (block c).
Proof. apply mild_on_tasks. intros s. cbn. apply calm_upd; [by intros ?..|apply calm_refl]. Qed.

(** Storing a pipe of which only the ring has changed. *)
Lemma calm_put i p q s : pipes (tasks s) !! i = Some p -> same_ends p q -> calm (tasks s) (tasks (put_pipe i q s).2).
Proof. intros Hp He. eapply calm_pipe; [exact Hp|exact He|apply calm_refl]. Qed.

Lemma calm_bind {A B} (m : MACH A) (k : A -> MACH B) s :
  calm (tasks s) (tasks (m s).2) -> (forall a, mild (k a)) -> calm (tasks s) (tasks (bind m k s).2).
Proof. intros Hm Hk. unfold bind. destruct (m s) as [a s1]. eapply calm_trans; [exact Hm|apply Hk]. Qed.

Lemma calm_after_write c i data p res r s :
  pipes (tasks s) !! i = Some p -> (forall w, res = Some w -> same_ends p (write_pipe w)) ->
  calm (tasks s) (tasks (after_write c i data res r s).2).
Proof.
  intros Hp He. destruct res as [[v q woken|total q woken]|]; [| |apply calm_refl]; specialize (He _ eq_refl);
    (apply calm_bind; [by eapply calm_put|]); mild; auto using mild_wake, mild_block.
Qed.

Lemma calm_after_read c i buf len p res r s :
  pipes (tasks s) !! i = Some p -> same_ends p (read_pipe res) ->
  calm (tasks s) (tasks (after_read c i buf len res r s).2).
Proof.
  intros Hp He. destruct res as [v data q woken|q]; cbn [after_read].
  - unfold bind at 1. pose proof (mild_ustore_bytes c buf data s) as C.
    pose proof (pipes_ustore_bytes c buf data s) as E.
    destruct (ustore_bytes c buf data s) as [u s1]. cbn [snd] in *. eapply calm_trans; [exact C|].
    apply calm_bind; [eapply calm_put; [by rewrite E|exact He]|]. mild. apply mild_wake.
  - apply calm_bind; [by eapply calm_put|]. mild. apply mild_block.
Qed.

Lemma uload_bytes_state c n a s : (uload_bytes c n a s).2 = s.
Proof.
  revert a s. induction n as [|n IH]; intros a s; [done|]. cbn [uload_bytes]. unfold bind.
  assert (E : (uload c a s).2 = s) by (destruct s as [[]]; done).
  destruct (uload c a s) as [b s1]. cbn in E. subst s1. specialize (IH (a + 1) s).
  by destruct (uload_bytes c n (a + 1) s).
Qed.

Lemma gets_run {A} (f : sched -> A) s : on_tasks (gets f) s = (f (tasks s), s).
Proof. by destruct s as [[]]. Qed.

(** ** Calls that keep the invariant without being calm *)

Definition keeps (c : nat) {A} (m : MACH A) : Prop :=
  forall n s, kinv_at n c (tasks s) -> kinv_at n c (tasks (m s).2).

Lemma mild_keeps c {A} (m : MACH A) : mild m -> keeps c m.
Proof. intros Hm n s. apply calm_kinv_at, Hm. Qed.

Lemma keeps_bind c {A B} (m : MACH A) (k : A -> MACH B) :
  keeps c m -> (forall a, keeps c (k a)) -> keeps c (bind m k).
Proof. intros Hm Hk n s H. unfold bind. specialize (Hm n s H). destruct (m s) as [a s1]. by apply Hk. Qed.

Lemma keeps_ret c {A} (a : A) : keeps c (ret a).
Proof. apply mild_keeps, mild_ret. Qed.

(** A call on the tasks alone. *)
Lemma keeps_tasks c {A} (m : ST sched A) :
  (forall n sc, kinv_at n c sc -> kinv n (m sc).2) -> (forall sc : sched, quiet sc (m sc).2) -> keeps c (on_tasks m).
Proof.
  intros Hm Hq n s H. specialize (Hm n (tasks s) H). specialize (Hq (tasks s)).
  unfold on_tasks, on_os, on_sched, tasks in *. destruct H as [_ Hc].
  destruct (m (o_sched (m_os s))) as [a sc]. split; [exact Hm|]. by eapply quiet_cur.
Qed.

Lemma keeps_sys_exit c code : keeps c (on_tasks (modify (sys_exit code))).
Proof. apply keeps_tasks; [intros n sc H; by apply kinv_exit, H|intros; apply quiet_exit]. Qed.

Lemma keeps_sys_pipe c : keeps c (on_tasks (sys_pipe c)).
Proof.
  apply keeps_tasks; [|apply quiet_sys_pipe]. intros n sc [K Hc].
  destruct (sys_pipe c sc) as [o s'] eqn:E. by eapply kinv_pipe.
Qed.

Lemma keeps_sys_dup2 c o w : keeps c (on_tasks (sys_dup2 c o w)).
Proof.
  apply keeps_tasks; [|apply quiet_sys_dup2]. intros n sc [K Hc].
  destruct (sys_dup2 c o w sc) as [v s'] eqn:E. by eapply kinv_dup2.
Qed.

Lemma keeps_sys_close c f : keeps c (on_tasks (sys_close c f)).
Proof.
  apply keeps_tasks; [|apply quiet_sys_close]. intros n sc [K Hc].
  destruct (sys_close c f sc) as [v s'] eqn:E. by eapply kinv_close.
Qed.

Lemma quiet_wait r p i sc : r = wait_on p i sc -> quiet sc (wait_sched r).
Proof.
  intros ->. destruct (wait_on p i sc) as [v s'|j s'] eqn:E; cbn [wait_sched].
  - by eapply quiet_wait_on.
  - unfold wait_on in E. destruct (is_zombie _); [by destruct (waited _)|]. injection E as _ <-. apply quiet_refl.
Qed.

Lemma quiet_waitpid p sc r : sys_waitpid p sc = Some r -> quiet sc (wait_sched r).
Proof.
  unfold sys_waitpid. destruct (task_list sc), (current_task sc); try done.
  destruct (wait_find _ _ _ _ _) as [[t|]|]; [|by intros [= <-]; apply quiet_refl|done].
  intros [= <-]. by eapply quiet_wait.
Qed.

Lemma wait_child_tasks res p r s :
  tasks (wait_child res p r s).2 = match res with None => tasks s | Some w => wait_sched w end.
Proof. by destruct res as [[]|]. Qed.

(** The waiting calls: what the kernel goes on from is read from the state. *)
Lemma keeps_wait_child c p i r : keeps c (let* res := on_tasks (gets (wait_on p i)) in wait_child (Some res) p r).
Proof.
  intros n s [K Hc]. unfold bind. rewrite gets_run, wait_child_tasks. split; [by apply kinv_wait_on|].
  eapply quiet_cur; [by eapply quiet_wait|exact Hc].
Qed.

Lemma keeps_waitpid c p r : keeps c (let* s := on_tasks get in wait_child (sys_waitpid p s) p r).
Proof.
  intros n s [K Hc]. unfold bind. change (on_tasks get s) with (on_tasks (gets (fun x : sched => x)) s).
  rewrite gets_run, wait_child_tasks. destruct (sys_waitpid p (tasks s)) as [w|] eqn:E; [|done].
  split; [by eapply kinv_waitpid|]. eapply quiet_cur; [by eapply quiet_waitpid|exact Hc].
Qed.

Lemma mild_read_key fuel c buf r : mild (read_key fuel c buf r).
Proof.
  intros s. unfold read_key. set (ks := KState _ _ _).
  assert (Hk : forall k, keyboard_read fuel ks = Some k ->
    kb_tasks (match k with KChar _ st | KHalt st => st end) = tasks s).
  { intros k. unfold keyboard_read. destruct (_ =? _); [|by intros [= <-]].
    destruct (serial_data_available _) as [a p]. destruct (z_true a); [|by intros [= <-]].
    destruct (serial_read fuel p) as [[ch|] p']; [|done]. by intros [= <-]. }
  destruct (keyboard_read fuel ks) as [[ch st|st]|]; [|apply calm_refl..].
  match goal with |- context [bind ?m ?k ?s1] => 
    assert (H : mild (bind m k)) by (mild; apply mild_ustore); apply (H s1) end.
Qed.

Lemma mild_sleep t r : mild (sleep_until t r).
Proof. intros s. apply calm_refl. Qed.

Lemma keeps_resume fuel c w r : keeps c (syscall_resume fuel c w r).
Proof.
  destruct w as [i data total|i buf len|buf|t|p i]; cbn [syscall_resume].
  - apply mild_keeps, mild_pipe_then. intros p s Hp. apply (calm_after_write _ _ _ p); [done|].
    intros w. apply pipe_write_resume_ends.
  - apply mild_keeps, mild_pipe_then. intros p s Hp. apply (calm_after_read _ _ _ _ p); [done|].
    apply pipe_read_resume_ends.
  - apply mild_keeps, mild_read_key.
  - apply mild_keeps, mild_sleep.
  - apply keeps_wait_child.
Qed.

Lemma mild_write_call fuel c r : mild (write_call fuel c r).
Proof.
  unfold write_call. mild; try apply mild_gets; try apply mild_uload_bytes.
  match goal with Hp : pipes (tasks ?s') !! _ = Some ?p' |- _ => rename s' into s, p' into p, Hp into Hp end.
  unfold bind.
  pose proof (uload_bytes_state c (Z.to_nat (i32 (r_rdx r))) (r_rsi r) s) as E.
  destruct (uload_bytes _ _ _ s) as [data s1]. cbn in E. subst s1.
  apply (calm_after_write _ _ _ p); [done|]. intros w. apply pipe_write_ends.
Qed.

Lemma mild_read_call fuel c r : mild (read_call fuel c r).
Proof.
  unfold read_call. mild; try apply mild_gets; try apply mild_read_key.
  match goal with Hp : pipes (tasks ?s') !! _ = Some ?p' |- _ => apply (calm_after_read _ _ _ _ p'); [done|] end.
  apply pipe_read_ends.
Qed.

Lemma mild_exec_call f r : mild (exec_call f r).
Proof. unfold exec_call. mild. apply mild_exec. Qed.

Lemma mild_fs_int m r : mild (fs_call_int m r).
Proof. unfold fs_call_int. mild. Qed.

Lemma mild_fs_out c buf m r : mild (fs_call_out c buf m r).
Proof. unfold fs_call_out. mild. apply mild_ustore_bytes. Qed.

Lemma mild_kill_call r : mild (kill_call r).
Proof.
  intros s. unfold kill_call. destruct (sys_kill _ _ _) as [[v sc]|] eqn:E; [|apply calm_refl].
  exact (calm_kill _ _ _ _ _ E).
Qed.

Lemma mild_sbrk_call c r : mild (sbrk_call c r).
Proof.
  intros s. unfold sbrk_call.
  match goal with |- context [on_os (on_kmem ?m) s] => assert (H : mild (on_os (on_kmem m))) by mild; specialize (H s) end.
  destruct (on_os _ s) as [[v brk] s1]. exact H.
Qed.

Lemma keeps_pipe_call c r : keeps c (pipe_call c r).
Proof.
  apply keeps_bind; [apply keeps_sys_pipe|]. intros o. apply mild_keeps. mild; apply mild_ustore_bytes.
Qed.

Lemma mild_sigaction c r : mild (on_tasks (sys_sigaction c r)).
Proof.
  apply mild_on_tasks. intros s. unfold sys_sigaction. destruct (_ || _); cbn [snd]; [apply calm_refl|].
  apply calm_upd; [by intros ?|by intros ?|apply calm_refl].
Qed.

Lemma mild_sigreturn c r : mild (on_tasks (sys_sigreturn c r)).
Proof. apply mild_on_tasks. intros s. cbn. auto with calm. Qed.

(** Case by case; 19 is [fork_call]. *)
Ltac mild_case := repeat (mild; try lazymatch goal with
  | |- mild (write_call _ _ _) => apply mild_write_call
  | |- mild (read_call _ _ _) => apply mild_read_call
  | |- mild (exec_call _ _) => apply mild_exec_call
  | |- mild (fs_call_int _ _) => apply mild_fs_int
  | |- mild (fs_call_out _ _ _ _) => apply mild_fs_out
  | |- mild (kill_call _) => apply mild_kill_call
  | |- mild (sbrk_call _ _) => apply mild_sbrk_call
  | |- mild (sleep_until _ _) => apply mild_sleep
  | |- mild (on_tasks (sys_sigaction _ _)) => apply mild_sigaction
  | |- mild (on_tasks (sys_sigreturn _ _)) => apply mild_sigreturn
  | |- mild (with_path _ _ _ _) => apply mild_with_path
  | |- mild (uload_str _ _ _) => apply mild_uload_str
  | |- mild (uload_bytes _ _ _) => apply mild_uload_bytes
  | |- mild (ustore_bytes _ _ _) => apply mild_ustore_bytes
  | |- mild (reboot_call _ _) => unfold reboot_call
  | |- mild (datetime_call _ _ _) => unfold datetime_call
  | |- mild (gets _) => intros ?; apply calm_refl
  end).

Ltac sys_case := lazymatch goal with
  | |- keeps _ (pipe_call _ _) => apply keeps_pipe_call
  | |- keeps _ (bind (on_tasks get) _) => apply keeps_waitpid
  | |- keeps _ (bind (on_tasks (modify (sys_exit _))) _) => apply keeps_bind; [apply keeps_sys_exit|intros; apply keeps_ret]
  | |- keeps _ (bind (on_tasks (sys_dup2 _ _ _)) _) => apply keeps_bind; [apply keeps_sys_dup2|intros; apply keeps_ret]
  | |- keeps _ (bind (on_tasks (sys_close _ _)) _) => apply keeps_bind; [apply keeps_sys_close|intros; apply keeps_ret]
  | |- keeps _ (fork_call _ _ _ _) => idtac
  | |- keeps _ (match _ with xI _ => _ | xO _ => _ | xH => _ end) => idtac
  | |- _ => apply mild_keeps; mild_case
  end.

Lemma keeps_switch fuel c ksp frame r : r_rax r <> 19 -> keeps c (syscall_switch fuel c ksp frame r).
Proof.
  intros Hn. unfold syscall_switch. cbv zeta.
  destruct (r_rax r) as [|p|p]; sys_case.
  do 6 (try (destruct p as [p|p|]; sys_case)). done.
Qed.

(** ** Signals *)

Lemma calm_enter_handler c g h r sc : calm sc (enter_handler c g h r sc).2.
Proof.
  unfold enter_handler. cbv zeta. set (s1 := upd_task c _ sc).
  assert (C1 : calm sc s1) by (unfold s1; auto with calm).
  destruct (on_km _ s1) as [flags s2] eqn:E2. cbn [snd]. apply calm_km.
  assert (C2 : calm sc s2) by eauto with calm. destruct (has flags _); [done|].
  destruct (on_km memory_alloc_page s2) as [p s3] eqn:E3. assert (C3 : calm sc s3) by eauto with calm.
  destruct (p =? 0); auto with calm.
Qed.

Definition delivered (d : delivery) : sched := match d with Resumes _ s | Exits s => s end.

(** A delivery is calm, or it is calm and then the task exits. *)
Definition calm_exits (sc sc' : sched) : Prop :=
  exists sc1, calm sc sc1 /\ (sc' = sc1 \/ exists code, sc' = sys_exit code sc1).

Lemma calm_exits_here sc sc' : calm sc sc' -> calm_exits sc sc'.
Proof. intros C. exists sc'. auto. Qed.

Lemma calm_exits_exit code sc sc' : calm sc sc' -> calm_exits sc (sys_exit code sc').
Proof. intros C. exists sc'. eauto. Qed.

Lemma deliver_calm_exits r sc : calm_exits sc (delivered (signal_deliver r sc)).
Proof.
  unfold signal_deliver. destruct (current_task sc) as [c|]; [|apply calm_exits_here, calm_refl]. cbv zeta.
  destruct (_ =? 0); [apply calm_exits_here, calm_refl|].
  destruct (has _ _); [apply calm_exits_exit; auto with calm|].
  destruct (in_signal _); [apply calm_exits_here, calm_refl|].
  destruct (_ =? 0); [apply calm_exits_here, calm_refl|].
  generalize (Z.land (signal_pending (sig (task_at sc c))) (u64 (Z.lnot (signal_mask (sig (task_at sc c)))))).
  intros pending. pose proof (calm_refl sc) as C. revert C. generalize sc at 2 4. 
  generalize (NSIGS - 1)%nat, 1. intros rounds.
  induction rounds as [|k IH]; intros g s2 C; cbn [deliver_loop]; [by apply calm_exits_here|].
  destruct (negb _); [by apply IH|]. cbv zeta. set (s1 := upd_task c _ s2).
  assert (C1 : calm sc s1) by (unfold s1; auto with calm).
  destruct (_ =? SIG_DFL); [destruct (z_true _); [by apply calm_exits_exit|by apply IH]|].
  destruct (_ =? SIG_IGN); [by apply IH|].
  match goal with |- context [enter_handler c g ?h r s1] =>
    pose proof (calm_enter_handler c g h r s1) as C2; destruct (enter_handler c g h r s1) end.
  apply calm_exits_here. by eapply calm_trans.
Qed.

Lemma kinv_deliver n r sc : kinv n sc -> kinv n (delivered (signal_deliver r sc)).
Proof.
  intros K. destruct (deliver_calm_exits r sc) as (sc1 & C & [->|[code ->]]); [|apply kinv_exit]; by eapply calm_kinv.
Qed.

Lemma quiet_deliver r sc : quiet sc (delivered (signal_deliver r sc)).
Proof.
  destruct (deliver_calm_exits r sc) as (sc1 & C & [->|[code ->]]); [apply C|].
  eapply quiet_trans; [apply C|apply quiet_exit].
Qed.

(** ** Interrupts *)

Definition safe {A} (m : MACH A) : Prop := forall n s, kinv n (tasks s) -> kinv n (tasks (m s).2).

Lemma keeps_safe {A} (m : MACH A) : (forall c, keeps c m) -> safe m.
Proof.
  intros Hm n s K. destruct (ring_cur _ (ki_ring _ _ K)) as (c & Hc & _). by apply (Hm c).
Qed.

Lemma mild_safe {A} (m : MACH A) : mild m -> safe m.
Proof. intros Hm. apply keeps_safe. intros c. by apply mild_keeps. Qed.

Lemma safe_bind {A B} (m : MACH A) (k : A -> MACH B) : safe m -> (forall a, safe (k a)) -> safe (bind m k).
Proof. intros Hm Hk n s K. unfold bind. specialize (Hm n s K). destruct (m s) as [a s1]. by apply Hk. Qed.

Lemma safe_end r : safe (interrupt_end r).
Proof.
  unfold interrupt_end. apply safe_bind; [apply mild_safe; mild|]. intros _.
  destruct (_ =? 0x1B); [|apply mild_safe, mild_ret]. intros n s K. pose proof (kinv_deliver n r _ K) as H.
  unfold on_tasks, on_os, on_sched, tasks in *. by destruct (signal_deliver r (o_sched (m_os s))).
Qed.

Lemma safe_then_end (m : MACH outcome) : safe m -> safe (then_end m).
Proof.
  intros Hm. unfold then_end. apply safe_bind; [done|].
  intros []; first [apply safe_end | apply mild_safe, mild_ret].
Qed.

Lemma safe_timer r : safe (timer_handler r).
Proof.
  intros n s K. unfold timer_handler. destruct (scheduler_tick _) as [sc|] eqn:E; [|done].
  exact (kinv_tick _ _ _ K E).
Qed.

Lemma calm_interrupt_loop fuel start t sc sc' : interrupt_loop fuel start t sc = Some sc' -> calm sc sc'.
Proof.
  revert t sc. induction fuel as [|f IH]; intros t sc; cbn [interrupt_loop]; [done|].
  set (s1 := if _ && _ then _ else sc). assert (C : calm sc s1) by (unfold s1; destruct (_ && _); auto with calm).
  destruct (next_task _) as [j|]; [|done]. case_decide; [by intros [= <-]|].
  intros Hi. eapply calm_trans; [exact C|by eapply IH].
Qed.

Lemma mild_kbd r : mild (kbd_handler r).
Proof.
  intros s. unfold kbd_handler. destruct (keyboard_handler _) as [st|] eqn:E; [|apply calm_refl].
  change (calm (tasks s) (kb_tasks st)). revert E. unfold keyboard_handler. cbn [kb_port kb kb_tasks].
  destruct (inb 0x60 (m_port s)) as [v p]. destruct (key_step _ _) as [k []].
  - destruct (current_task _) as [t|]; [|intros [= <-]; apply calm_refl].
    destruct (interrupt_loop _ _ _ _) as [sc|] eqn:Ei; [|done]. intros [= <-]. by eapply calm_interrupt_loop.
  - intros [= <-]. apply calm_refl.
Qed.

Lemma keeps_handler_other fuel c ksp frame r :
  r_rax r <> 19 -> keeps c (syscall_handler fuel ksp frame r).
Proof.
  intros Hn n s H. unfold syscall_handler, bind. rewrite gets_run. destruct H as [K Hc]. rewrite Hc.
  by apply keeps_switch.
Qed.

Lemma safe_run_handler h fuel cr2 ksp frame r :
  (h = Syscall -> r_rax r <> 19) -> safe (run_handler h fuel cr2 ksp frame r).
Proof.
  intros Hn. destruct h; cbn [run_handler].
  - apply mild_safe. unfold page_fault_handler, page_fault_report. mild_report.
  - apply mild_safe. unfold gpf_handler. mild_report.
  - apply safe_timer.
  - apply mild_safe, mild_kbd.
  - apply keeps_safe. intros c. by apply keeps_handler_other, Hn.
Qed.

(** A system call that forks, with no handler other than its own. *)
Definition is_fork (r : registers) : bool := (r_int_no r =? 0x80) && (r_rax r =? 19).

(** The references a step leaks: those of a fork that adds no task although
    a slot is free. *)
Definition step_leak (r : registers) (m m' : machine P D) : Z :=
  if is_fork r then fork_leak (tasks m) (tasks m') else 0.

Lemma tasks_on_ports {A} (m : ST P A) s : tasks (on_ports m s).2 = tasks s.
Proof. unfold on_ports. by destruct (m (m_port s)). Qed.

Lemma end_count r s : task_count (tasks (interrupt_end r s).2) = task_count (tasks s).
Proof.
  unfold interrupt_end, bind at 1.
  match goal with |- context [match ?m s with _ => _ end] =>
    assert (E : tasks (m s).2 = tasks s); [|destruct (m s) as [u s1]; cbn [snd] in E]
  end.
  { destruct (_ && _); [|done]. unfold bind. destruct (40 <=? r_int_no r); [|apply tasks_on_ports].
    pose proof (tasks_on_ports (outb 0xA0 0x20) s) as E1. destruct (on_ports (outb 0xA0 0x20) s) as [u s1].
    by rewrite tasks_on_ports. }
  rewrite <- E. destruct (_ =? 0x1B); [|done].
  unfold on_tasks, on_os, on_sched, tasks. pose proof (quiet_deliver r (o_sched (m_os s1))) as Q.
  destruct (signal_deliver r (o_sched (m_os s1))); apply (q_count _ _ Q).
Qed.

Lemma safe_fork n fuel cr2 ksp frame r s :
  is_fork r = true -> kinv n (tasks s) ->
  let s' := (handle_interrupt fuel cr2 ksp frame r s).2 in
  n + step_leak r s s' <= LEAK_MAX -> kinv (n + step_leak r s s') (tasks s').
Proof.
  intros Hf K. unfold step_leak. rewrite Hf. apply andb_true_iff in Hf as [Hi Ha].
  apply Z.eqb_eq in Hi, Ha. unfold handle_interrupt. rewrite Hi.
  change (handlers !! 0x80) with (Some Syscall). cbn [run_handler]. cbv zeta. unfold then_end, bind.
  destruct (ring_cur _ (ki_ring _ _ K)) as (c & Hc & _).
  assert (E : syscall_handler fuel ksp frame r s = fork_call c ksp frame r s).
  { unfold syscall_handler, bind. rewrite gets_run, Hc. unfold syscall_switch. by rewrite Ha. }
  rewrite E. unfold fork_call.
  destruct (sys_fork _ _ _ _) as [[v sc]|] eqn:Es; cbn [snd].
  - set (s1 := (on_tasks (fun _ => (Returns (ret_int v r), sc)) s).2).
    assert (L : fork_leak (tasks s) (tasks (interrupt_end (ret_int v r) s1).2) = fork_leak (tasks s) sc)
      by (unfold fork_leak; by rewrite end_count).
    change (n + fork_leak (tasks s) (tasks (interrupt_end (ret_int v r) s1).2) <= LEAK_MAX ->
      kinv (n + fork_leak (tasks s) (tasks (interrupt_end (ret_int v r) s1).2)) (tasks (interrupt_end (ret_int v r) s1).2)).
    rewrite L. intros Hn. apply safe_end. by eapply kinv_fork.
  - cbn [ret snd]. intros Hn. apply (kinv_more n); [done|]. split; [|done].
    unfold fork_leak. case_decide; lia.
Qed.

Lemma safe_interrupt n fuel cr2 ksp frame r s :
  kinv n (tasks s) ->
  let s' := (handle_interrupt fuel cr2 ksp frame r s).2 in
  n + step_leak r s s' <= LEAK_MAX -> kinv (n + step_leak r s s') (tasks s').
Proof.
  intros K. destruct (is_fork r) eqn:Hf; [by apply safe_fork|]. unfold step_leak. rewrite Hf. cbv zeta. intros _.
  rewrite Z.add_0_r. revert n s K. unfold handle_interrupt. apply safe_then_end.
  destruct (handlers !! r_int_no r) as [h|] eqn:Eh.
  - apply safe_run_handler. intros -> Ha. unfold is_fork in Hf. rewrite Ha in Hf.
    destruct (Z.eqb_spec (r_int_no r) 0x80) as [|Hne]; [done|]. revert Eh. unfold handlers, idt_register_handler.
    rewrite !lookup_insert. by repeat case_decide.
  - apply mild_safe. unfold exception_report. mild_report.
Qed.

Lemma safe_resume fuel c w r : (forall n s, kinv n (tasks s) -> current_task (tasks s) = Some c ->
  kinv n (tasks (resume_interrupt fuel c w r s).2)).
Proof.
  intros n s K Hc. unfold resume_interrupt, then_end, bind.
  destruct (keeps_resume fuel c w r n s (conj K Hc)) as [K1 _].
  destruct (syscall_resume fuel c w r s) as [o s1]. cbn [snd] in K1.
  destruct o; first [by apply safe_end | done].
Qed.

(** ** Runs *)

(** [ks_interrupt]: any interrupt or system call, with any registers.
    [ks_resume]: the current task's call goes on.  [ks_create]: kmain makes a
    kernel task.  [ks_other]: a user program or a device changes memory, the
    disk, the ports, the keyboard's or the screen's state.  The index is the
    number of references leaked by failed forks. *)
Inductive kernel_step : Z -> machine P D -> machine P D -> Prop :=
| ks_interrupt fuel cr2 ksp frame r m m' :
    (handle_interrupt fuel cr2 ksp frame r m).2 = m' -> kernel_step (step_leak r m m') m m'
| ks_resume fuel c w r m m' :
    current_task (tasks m) = Some c -> (resume_interrupt fuel c w r m).2 = m' -> kernel_step 0 m m'
| ks_create nm entry v m m' :
    task_create nm entry (tasks m) = Some (v, tasks m') -> kernel_step 0 m m'
| ks_other k m m' : tasks m' = set_km k (tasks m) -> kernel_step 0 m m'.

Inductive kernel_run : Z -> machine P D -> machine P D -> Prop :=
| run_none m : kernel_run 0 m m
| run_step n k m m1 m2 : kernel_run n m m1 -> kernel_step k m1 m2 -> kernel_run (n + k) m m2.

Lemma step_leak_pos r m m' : 0 <= step_leak r m m'.
Proof. unfold step_leak, fork_leak. destruct (is_fork r); [case_decide|]; lia. Qed.

Lemma kinv_run n m m' : kernel_run n m m' -> n <= LEAK_MAX -> kinv 0 (tasks m) -> kinv n (tasks m').
Proof.
  intros Hr. induction Hr as [m|n k m m1 m2 Hr IH Hs]; intros Hn K; [done|].
  assert (Hk : 0 <= k) by (destruct Hs; auto using step_leak_pos with lia).
  specialize (IH ltac:(lia) K). destruct Hs as [fuel cr2 ksp frame r m1 m2 <-|fuel c w r m1 m2 Hc <-|nm e v m1 m2 Hc|km m1 m2 E].
  - by apply safe_interrupt.
  - rewrite Z.add_0_r. by apply safe_resume.
  - rewrite Z.add_0_r. by eapply kinv_create.
  - rewrite Z.add_0_r, E. eapply calm_kinv; [|exact IH]. auto with calm.
Qed.

End Kernel.

(** ** A concrete run *)

(** User addresses are physical ones. *)
Definition identity_umem : UserMem :=
  Build_UserMem (fun _ a k => load8 (phys k) a) (fun _ a v k => set_phys (store8 (phys k) a v) k).

Definition zero_regs : registers := Regs 0 0 0 0 0 0 0 0 0 0 0 0 0 0 0 0 0 0 0 0 0 0.
Definition call_frame (rax rdi rsi rdx : Z) : registers :=
  Regs rax 0 rdx 0 0 rdi rsi 0 0 0 0 0 0 0 0 0x80 0 0x400000 0x1B 0x202 0x500000 0x23.
