(* ===== verification/Boot.v ===== *)
(** * Booting ([src/kernel/kernel.c])

    [kmain] calls the parts of the kernel in order, on a machine whose static
    data the C runtime has zeroed, loads the shell from the disk into a new
    address space and enters it with [iretq].  What it leaves behind are the
    machine and the tables of [booted]; [shell_run], which follows, is never
    reached.  Interrupts are on from [idt_init] on; here the boot runs
    through without one.

    The second half is the kernel's main property, from power-on: whatever
    happens after [kmain], the descriptors and the pipes agree. *)

From S2P Require Import Prelude.
From S2P Require Import ByteMem.
From S2P Require Import Kmem.
From S2P Require Import Heap.
From S2P Require Import Paging.
From S2P Require Import VmRegion.
From S2P Require Import Alloc.
From S2P Require Import Cow.
From S2P Require Import Pipe.
From S2P Require Import FdInv.
From S2P Require Import Io.
From S2P Require Import Vga.
From S2P Require Import Cmos.
From S2P Require Import Disk.
From S2P Require Import TinyFS.
From S2P Require Import Vfs.
From S2P Require Import Task.
From S2P Require Import FsHeap.
From S2P Require Import Fd.
From S2P Require Import Sched.
From S2P Require Import KernelInv.
From S2P Require Import Keyboard.
From S2P Require Import Signal.
From S2P Require Import Elf.
From S2P Require Import Syscall.
From S2P Require Import Idt.
From S2P Require Import Kernel.

(** Addresses of code, which the linker fixes. *)
Record code := Code { c_isrs : list Z; c_irqs : list Z; c_isr128 : Z; c_tss : Z; c_idle : Z }.

(** The tables of the processor and of [handle_interrupt], and where user mode
    starts. *)
Record booted := Booted {
  b_gdt : list gdt_entry; b_idt : list idt_entry; b_handlers : gmap Z isr_handler; b_entry : Z
}.

Definition tss_set_rsp0 (v : Z) (s : sched) : sched :=
  Sched (task_pool s) (task_count s) (current_task s) (task_list s) (next_pid s) (pending_switch s) (pending_rsp s)
    (pending_cr3 s) v (km s) (pipes s).

Section Boot.
Context {P D : Type} {io : PortIO P} {disk : Disk D} {mmu : Mmu} {umem : UserMem}.

Abbreviation MACH := (ST (machine P D)).

Definition on_kbd (f : kbd -> kbd) : MACH unit := fun s =>
  (tt, Machine (m_os s) (m_port s) (m_vga s) (f (m_kbd s)) (m_ticks s) (m_break s)).
Definition put_ticks (v : Z) : MACH unit := fun s =>
  (tt, Machine (m_os s) (m_port s) (m_vga s) (m_kbd s) v (m_break s)).

(** A line on the screen. *)
Definition show (s : list Z) : MACH unit := on_console (vga_writestring (s ++ [10])).
(** [serial_write(s "\n", n)]. *)
Definition note (fuel : nat) (s : list Z) (n : nat) : MACH unit := Idt.say fuel (s ++ [10]) n.
(** The two together, for a part that is up. *)
Definition report (fuel : nat) (s : list Z) (n : nat) : MACH unit := do* note fuel s n in show s.

(** [current_task->cr3 = new_cr3]. *)
Definition set_current_cr3 (v : Z) : ST sched unit := modify (fun s =>
  match current_task s with None => s | Some c => upd_task c (set_cr3 v) s end).

(** The entry of the shell, 0 (its initial value) when it cannot be loaded. *)
Definition load_userspace (fuel : nat) : MACH Z :=
  let* new_cr3 := on_os (on_kmem paging_create) in
  if new_cr3 =? 0 then do* note fuel (str "FAILED to create shell address space") 37 in ret 0
  else
    let* entry := on_os (elf_load_into_address_space new_cr3 (str "/bin/shell")) in
    match entry with
    | None =>
        do* note fuel (str "FAILED to load shell.elf from filesystem") 40 in
        do* on_os (on_kmem (paging_destroy new_cr3)) in
        ret 0
    | Some e =>
        do* on_tasks (set_current_cr3 new_cr3) in
        do* note fuel (str "Shell loaded from filesystem") 28 in
        ret e
    end.

(** [cr3] of the current task; with none the code would follow NULL. *)
Definition current_cr3 (s : sched) : Z := match current_task s with None => 0 | Some c => cr3 (task_at s c) end.

(** Up to the [iretq]. *)
Definition go_userspace (fuel : nat) : MACH unit :=
  do* note fuel (str "go_userspace: entering") 22 in
  do* on_tasks (modify (tss_set_rsp0 0x9000)) in
  do* Idt.say fuel (str "go_userspace: tss_set_rsp0 done, cr3=") 37 in
  let* root := on_tasks (gets current_cr3) in
  do* dump_hex64 fuel root in
  do* (do* on_ports (serial_putchar fuel 10) in ret tt) in
  do* on_os (on_kmem (paging_switch root)) in
  note fuel (str "go_userspace: paging_switch done") 33.

(** [memory_init((void* )0x200000, 0x200000)] and the other parts. *)
Definition kmain (fuel : nat) (k : code) : MACH booted :=
  do* on_ports serial_init in
  do* note fuel (str "some-tiny-os v0.2 booting...") 29 in
  do* on_console vga_init in
  do* on_console (vga_setcolor VGA_LIGHT_GREY) in
  do* show (str "some-tiny-os booting...") in
  let gdt := gdt_table (c_tss k) (replicate 7 (GdtEntry 0 0 0 0 0 0)) in
  do* report fuel (str "GDT OK") 7 in
  let idt := idt_table (c_isrs k) (c_irqs k) (c_isr128 k) (replicate IDT_ENTRIES (IdtEntry 0 0 0 0 0 0)) in
  do* on_ports pic_remap in
  let hs := <[13 := Gpf]> (<[14 := PageFault]> ∅) in
  do* report fuel (str "IDT OK") 7 in
  let* ticks := on_ports timer_init in
  do* put_ticks ticks in
  let hs := idt_register_handler 32 Timer hs in
  do* report fuel (str "Timer OK") 9 in
  do* on_kbd keyboard_init in
  let hs := idt_register_handler 33 Kbd hs in
  do* report fuel (str "Keyboard OK") 12 in
  do* on_os (on_kmem (memory_init 0x200000 0x200000)) in
  do* report fuel (str "Memory OK") 10 in
  do* on_tasks (modify scheduler_init) in
  do* report fuel (str "Scheduler OK") 13 in
  do* on_tasks (modify (set_pipes pipe_init)) in
  do* report fuel (str "Pipes OK") 9 in
  do* on_tasks (fun s => match task_create (str "idle") (c_idle k) s with None => (tt, s) | Some (_, s') => (tt, s') end) in
  do* report fuel (str "Idle task created") 18 in
  let hs := idt_register_handler 0x80 Idt.Syscall hs in
  do* report fuel (str "Syscall OK") 11 in
  do* on_os (on_fs fs_init) in
  do* report fuel (str "FS OK") 6 in
  do* on_console (vga_clear VGA_BLACK) in
  do* on_console (vga_setcolor VGA_LIGHT_GREY) in
  do* show (str "Welcome to some-tiny-os!") in
  do* show (str "Starting userspace..." ++ [10]) in
  do* note fuel (str "Starting userspace...") 21 in
  do* note fuel (str "Calling load_userspace...") 25 in
  let* entry := load_userspace fuel in
  do* note fuel (str "load_userspace returned") 23 in
  do* go_userspace fuel in
  ret (Booted gdt idt hs entry).

(** ** What the boot leaves *)

Abbreviation mild := (mild (P := P) (D := D)).

Lemma mild_show s : mild (show s).
Proof. unfold show. mild. Qed.

Lemma mild_note fuel s n : mild (note fuel s n).
Proof. apply mild_say. Qed.

Lemma mild_current_cr3 v : mild (on_tasks (set_current_cr3 v)).
Proof.
  apply mild_on_tasks. intros s. unfold set_current_cr3. cbn. destruct (current_task s); auto with calm.
Qed.

Lemma mild_load_into k f : mild_os (elf_load_into_address_space k f).
Proof. unfold elf_load_into_address_space, free_buf. mild. Qed.

Ltac mild_boot := repeat (mild_report; try lazymatch goal with
  | |- mild (show _) => apply mild_show
  | |- mild (note _ _ _) => apply mild_note
  | |- mild (report _ _ _) => unfold report
  | |- mild (on_kbd _) => intros ?; apply calm_refl
  | |- mild (put_ticks _) => intros ?; apply calm_refl
  | |- mild (on_tasks (set_current_cr3 _)) => apply mild_current_cr3
  | |- mild_os (elf_load_into_address_space _ _) => apply mild_load_into
  end).

Lemma mild_load_userspace fuel : mild (load_userspace fuel).
Proof. unfold load_userspace. mild_boot. Qed.

Lemma mild_go_userspace fuel : mild (go_userspace fuel).
Proof.
  unfold go_userspace. mild_boot. apply mild_on_tasks. intros s. cbn.
  split; [by split|done|apply same_pool_refl].
Qed.

(** From tasks of the one kind to tasks of the other. *)
Definition leads (Q Q' : sched -> Prop) {A} (m : MACH A) : Prop := forall s : machine P D, Q (tasks s) -> Q' (tasks (m s).2).

Definition pool_full (sc : sched) : Prop := length (task_pool sc) = MAX_TASKS.
(** The scheduler is up, the pipes are not. *)
Definition no_pipes_yet (sc : sched) : Prop := exists s0, pool_full s0 /\ calm (scheduler_init s0) sc.

Lemma leads_bind Q1 Q2 Q3 {A B} (m : MACH A) (k : A -> MACH B) :
  leads Q1 Q2 m -> (forall a, leads Q2 Q3 (k a)) -> leads Q1 Q3 (bind m k).
Proof. intros Hm Hk s H. unfold bind. specialize (Hm s H). destruct (m s) as [a s1]. by apply Hk. Qed.

(** What calm steps keep. *)
Definition steady (Q : sched -> Prop) : Prop := forall s s', calm s s' -> Q s -> Q s'.

Lemma leads_mild Q {A} (m : MACH A) : steady Q -> mild m -> leads Q Q m.
Proof. intros HQ Hm s. by apply HQ. Qed.

Lemma leads_tasks Q Q' {A} (m : ST sched A) : (forall sc, Q sc -> Q' (m sc).2) -> leads Q Q' (on_tasks m).
Proof.
  intros Hm s H. specialize (Hm (tasks s) H). unfold on_tasks, on_os, on_sched, tasks in *.
  by destruct (m (o_sched (m_os s))).
Qed.

Lemma steady_kinv : steady (kinv 0).
Proof. intros s s'. apply calm_kinv. Qed.

Lemma steady_pool : steady pool_full.
Proof. intros s s' C H. unfold pool_full. by rewrite (q_len _ _ (ca_quiet _ _ C)). Qed.

Lemma steady_no_pipes : steady no_pipes_yet.
Proof. intros s s' C (s0 & H & C0). exists s0. split; [done|by eapply calm_trans]. Qed.

Lemma no_pipes_yet_kinv sc : no_pipes_yet sc -> kinv 0 (set_pipes pipe_init sc).
Proof.
  intros (s0 & H & C). eapply calm_kinv; [|apply (kinv_init (set_pipes pipe_init s0)); [exact H|done]].
  destruct C as [Q T _]. split; [|exact T|apply same_pool_refl]. destruct Q. by split.
Qed.

Lemma create_leads nm entry :
  leads (kinv 0) (kinv 0)
    (on_tasks (fun s => match task_create nm entry s with None => (tt, s) | Some (_, s') => (tt, s') end)).
Proof.
  apply leads_tasks. intros sc K. destruct (task_create nm entry sc) as [[v s']|] eqn:E; [|done]. by eapply kinv_create.
Qed.

(** The calm steps at the head of a computation. *)
Ltac calmly H := repeat (eapply leads_bind; [solve [apply leads_mild; [exact H|mild_boot]]|intros ?]).

Lemma kmain_leads fuel k : leads pool_full (kinv 0) (kmain fuel k).
Proof.
  unfold kmain. cbv zeta.
  calmly steady_pool.
  eapply (leads_bind _ no_pipes_yet); [apply leads_tasks; intros sc H; exists sc; auto with calm|intros _].
  calmly steady_no_pipes.
  eapply (leads_bind _ (kinv 0)); [apply leads_tasks, no_pipes_yet_kinv|intros _].
  calmly steady_kinv.
  eapply leads_bind; [apply create_leads|intros _].
  calmly steady_kinv.
  do 2 (eapply leads_bind; [apply leads_mild; [apply steady_kinv|]; first [apply mild_load_userspace|apply mild_go_userspace]|
    intros ?; calmly steady_kinv]).
  apply leads_mild; [apply steady_kinv|mild].
Qed.

(** C1: the type and reference discipline of descriptors, for the whole
    kernel.  Start from power-on, run [kmain], and let
    anything happen: interrupts with any registers (every system call, timer
    and keyboard interrupts, page faults, with the signals they deliver),
    calls that go on after waiting, new kernel tasks, and user programs and
    devices changing memory.  Then every slot of every task's table is either
    free or names an end of a pipe that is in use and open at that end: no
    descriptor dangles.  Each end of each pipe counts at least the descriptors
    that name it, and at most those and the [n] references leaked by failed
    forks ([n] below the bound where the counters would wrap), so exactly those when no fork has failed; an end is open exactly
    when its count is positive, and a pipe is in use exactly when one of its
    ends is open.  The tasks form the scheduler's ring, and at most the
    current one runs. *)
Theorem descriptors_never_dangle fuel k (reset m : machine P D) n :
  length (task_pool (tasks reset)) = MAX_TASKS ->
  kernel_run n (kmain fuel k reset).2 m -> n <= LEAK_MAX ->
  let s := tasks m in
  (forall i slot f, (i < task_count s)%nat -> fds (task_at s i) !! slot = Some f ->
     f.1 = 0 \/ exists reader j p, f = (fd_ty reader, Some j) /\ pipes s !! j = Some p
                /\ p_used p = true /\ end_open p reader = true)
  /\ (forall j p reader, pipes s !! j = Some p ->
       let refs := n_refs (all_fds s) j reader in
       refs <= end_refs p reader <= refs + n
       /\ (end_open p reader = true <-> 0 < end_refs p reader)
       /\ (p_used p = true <-> exists e, end_open p e = true))
  /\ ring s /\ one_running s.
Proof.
  intros Hl Hr Hn s.
  assert (K : kinv n s) by (eapply kinv_run; [exact Hr|done|by apply kmain_leads]).
  split_and!; [| |apply K|apply K].
  - intros i slot f Hi Hf. destruct (ki_tab _ _ K i Hi) as [_ Hok].
    destruct (proj1 (Forall_lookup _ _) Hok slot f Hf) as [Hz|(e & j & -> & Hj)]; [by left|right].
    assert (Hin : (fd_ty e, Some j) ∈ all_fds s).
    { rewrite (all_fds_split s i Hi). apply elem_of_app. left. by eapply list_elem_of_lookup_2. }
    destruct (pool_inv_fd _ _ _ _ _ (ki_pool _ _ K) Hin Hj) as (p & ? & ? & ?). by exists e, j, p.
  - intros j p e Hj. destruct (po_pipe _ _ _ (ki_pool _ _ K) j p Hj) as [Pr Po Pu]. split_and!; [apply Pr..|done|done].
Qed.

End Boot.

(** ** A concrete boot *)

(** Power-on: no task, an empty disk, nothing in memory. *)
Definition reset_machine : machine unit ramdisk :=
  Machine (Os no_tasks ∅ blank_sb 0 [] false) tt (Vga 0 0 7 ∅) kbd_zero 0 0x510000.
Definition no_code : code := Code (replicate 32 0) (replicate 16 0) 0 0 0.
Definition boot_machine : machine unit ramdisk :=
  (kmain (io := no_ports) 1 no_code reset_machine).2.

(** SYS_PIPE of the main task, with the two descriptors stored at 0x9000. *)
Definition after_pipe : machine unit ramdisk :=
  (handle_interrupt (io := no_ports) (mmu := identity_mmu) (umem := identity_umem)
     10 0 0 0 (call_frame 23 0x9000 0 0) boot_machine).2.

Lemma descriptors_never_dangle_witness :
  exists p, fds (task_at (tasks after_pipe) 0) !! 4%nat = Some (fd_ty false, Some 0%nat)
    /\ pipes (tasks after_pipe) !! 0%nat = Some p /\ p_used p = true /\ end_open p false = true
    /\ end_refs p false = 1.
Proof.
  assert (R : kernel_run (io := no_ports) (mmu := identity_mmu) (umem := identity_umem) 0
                (kmain (io := no_ports) 1 no_code reset_machine).2 after_pipe).
  { unfold after_pipe, boot_machine. generalize ((kmain (io := no_ports) 1 no_code reset_machine).2). intros m.
    apply (run_step 0 0 _ m); [apply run_none|]. exact (ks_interrupt 10 0 0 0 (call_frame 23 0x9000 0 0) m _ eq_refl). }
  destruct (descriptors_never_dangle (io := no_ports) (mmu := identity_mmu) (umem := identity_umem) 1 no_code reset_machine after_pipe 0 eq_refl R ltac:(done))
    as (H1 & H2 & _).
  assert (E : fds (task_at (tasks after_pipe) 0) !! 4%nat = Some (fd_ty false, Some 0%nat)) by (vm_compute; reflexivity).
  destruct (H1 0%nat 4%nat _ ltac:(vm_compute; lia) E) as [Hz|(e & j & p & Hf & Hp & Hu & Ho)]; [discriminate Hz|].
  assert (e = false) as -> by (destruct e; [discriminate Hf|reflexivity]). injection Hf as <-.
  exists p. split_and!; [exact E|exact Hp|exact Hu|exact Ho|].
  destruct (H2 0%nat p false Hp) as (Hr & _).
  replace (n_refs (all_fds (tasks after_pipe)) 0 false) with 1 in Hr by (vm_compute; reflexivity). lia.
Defined.
