(* ===== verification/ElfLoad.v ===== *)
(** * Loading a program in place ([elf_load] of [src/kernel/elf.c])

    The kernel's own shell loads a program to its addresses in the kernel's
    address space, where user memory is mapped to itself in pages of 2
    megabytes: a virtual address is a physical one.  A page is cleared when
    the first segment that needs it is met; [pages_zeroed] keeps the pages
    that were.  The theorem says what that list is for: a segment that shares
    a page with an earlier one does not wipe it out. *)

From S2P Require Import Prelude.
From S2P Require Import ByteMem.
From S2P Require Import Kmem.
From S2P Require Import Heap.
From S2P Require Import Paging.
From S2P Require Import VmRegion.
From S2P Require Import Alloc.
From S2P Require Import Cow.
From S2P Require Import Elf.

Definition LARGE_PAGE : Z := 0x200000.
Definition PAGES_ZEROED : nat := 16.

(** How the loader ends.  [Overrun]: a seventeenth page is stored past the
    end of [pages_zeroed]. *)
Inductive load_end := Loaded | MapFailed | Supervisor | Overrun.

(** [page & ~0x1FFFFF]. *)
Definition large_frame (a : Z) : Z := Z.land a 0xFFFFFFFFFFE00000.

(** One page of a segment; [inl] is [pages_zeroed] after it. *)
Definition elf_load_page (page : Z) (zeroed : list Z) : ST kmem (list Z + load_end) :=
  let* f := memory_get_flags page in
  let* r :=
    (if f =? 0 then
       let* m := memory_map_2mb page page (Z.lor (Z.lor PAGE_PRESENT PAGE_RW) PAGE_USER) in
       ret (if m <? 0 then Some MapFailed else None)
     else ret (if has f PAGE_USER then None else Some Supervisor)) in
  match r with
  | Some e => ret (inr e)
  | None =>
      if bool_decide (page ∈ zeroed) then ret (inl zeroed)
      else
        do* modify (fun k => set_phys (memory_set page 0 LARGE_PAGE (phys k)) k) in
        ret (if (length zeroed <? PAGES_ZEROED)%nat then inl (zeroed ++ [page]) else inr Overrun)
  end.

(** [for (page = base; page < end; page += 0x200000)]. *)
Fixpoint elf_load_pages (rounds : nat) (page : Z) (zeroed : list Z) : ST kmem (list Z + load_end) :=
  match rounds with
  | O => ret (inl zeroed)
  | S n =>
      let* r := elf_load_page page zeroed in
      match r with
      | inr e => ret (inr e)
      | inl zeroed => elf_load_pages n (u64 (page + LARGE_PAGE)) zeroed
      end
  end.

Definition segment_base (p : elf64_phdr) : Z := large_frame (p_vaddr p).
Definition segment_end (p : elf64_phdr) : Z := large_frame (u64 (p_vaddr p + p_memsz p + 0x1FFFFF)).
Definition segment_pages (p : elf64_phdr) : nat := Z.to_nat ((segment_end p - segment_base p) / LARGE_PAGE).

Definition elf_load_segment (data : Z) (p : elf64_phdr) (zeroed : list Z) : ST kmem (list Z + load_end) :=
  if negb (p_type p =? PT_LOAD) then ret (inl zeroed)
  else if p_memsz p =? 0 then ret (inl zeroed)
  else
    let* r := elf_load_pages (segment_pages p) (segment_base p) zeroed in
    match r with
    | inr e => ret (inr e)
    | inl zeroed =>
        do* modify (fun k => set_phys (memory_copy (p_vaddr p) (u64 (data + p_offset p)) (p_filesz p) (phys k)) k) in
        ret (inl zeroed)
    end.

(** [for (i = 0; i < ehdr->e_phnum; i++)]: the count and the headers are read
    from memory as the loop goes. *)
Fixpoint elf_load_loop (rounds : nat) (data phdr : Z) (i : Z) (zeroed : list Z) : ST kmem load_end :=
  match rounds with
  | O => ret Loaded
  | S n =>
      let* h := gets (fun k => ehdr_at (phys k) data) in
      if e_phnum h <=? i then ret Loaded
      else
        let* p := gets (fun k => phdr_at (phys k) (u64 (phdr + i * SIZEOF_PHDR))) in
        let* r := elf_load_segment data p zeroed in
        match r with
        | inr e => ret e
        | inl zeroed => elf_load_loop n data phdr (i + 1) zeroed
        end
  end.

(** [None]: the header is not that of a program.  [e_phnum] has 16 bits. *)
Definition elf_load (data : Z) : ST kmem (option (Z * load_end)) :=
  let* h := gets (fun k => ehdr_at (phys k) data) in
  if negb (elf_header_ok h) then ret None
  else
    let* e := elf_load_loop (Z.to_nat 65535) data (u64 (data + e_phoff h)) 0 [] in
    ret (Some (e_entry h, e)).

(** ** What a load leaves in memory *)

Lemma large_frame_div a : 0 <= a < 2 ^ 64 -> large_frame a = a / LARGE_PAGE * LARGE_PAGE.
Proof. exact (huge_frame_div a). Qed.

Section Load.
(** The memory before, with the frames of the tables; where the file lies; and
    the large pages the program may use. *)
Context (k0 : kmem) (own0 : gmap Z (nat * Z)) (data size : Z) (area : list Z).

Definition in_page (p a : Z) : Prop := p <= a < p + LARGE_PAGE.
Definition in_area (a : Z) : Prop := exists p, p ∈ area /\ in_page p a.
Definition in_tables (a : Z) : Prop := exists p lx, own0 !! p = Some lx /\ p <= a < p + 4096.
Definition in_pool (a : Z) : Prop := PAGE_ALLOC_START <= a < PAGE_ALLOC_END.

(** The program's pages, the file and the page tables lie apart. *)
Record layout : Prop := {
  la_kmem : kmem_wf k0;
  la_pt : pt_wf k0 PML4_ADDR own0;
  la_count : (length area <= PAGES_ZEROED)%nat;
  la_large p : p ∈ area -> p mod LARGE_PAGE = 0 /\ 0 <= p < 2 ^ 52;
  la_apart a : in_area a -> ~ in_tables a /\ ~ in_pool a;
  la_data a : data <= a < data + size -> ~ in_area a /\ ~ in_tables a /\ ~ in_pool a;
  la_size : 0 <= data /\ 64 <= size /\ data + size < 2 ^ 63
}.

Definition header : elf64_ehdr := ehdr_at (phys k0) data.
Definition segment (i : nat) : elf64_phdr :=
  phdr_at (phys k0) (u64 (data + e_phoff header + Z.of_nat i * SIZEOF_PHDR)).
Definition segments : list elf64_phdr := map segment (seq 0 (Z.to_nat (e_phnum header))).

Definition loads (p : elf64_phdr) : bool := (p_type p =? PT_LOAD) && negb (p_memsz p =? 0).

(** A segment inside the file and inside the area. *)
Record segment_ok (p : elf64_phdr) : Prop := {
  so_start : 0 <= p_vaddr p;
  so_file : 0 <= p_filesz p <= p_memsz p;
  so_source : 0 <= p_offset p /\ p_offset p + p_filesz p <= size;
  so_end : p_vaddr p + p_memsz p < 2 ^ 52;
  so_pages i : (i < segment_pages p)%nat -> segment_base p + Z.of_nat i * LARGE_PAGE ∈ area
}.

Record program_ok : Prop := {
  pr_header : elf_header_ok header = true;
  pr_phdrs : 0 <= e_phoff header /\ 0 <= e_phnum header < 65536
    /\ e_phoff header + e_phnum header * SIZEOF_PHDR <= size;
  pr_segments p : p ∈ segments -> loads p = true -> segment_ok p
}.

(** The byte of the program at an address: that of the last segment whose
    file part covers it, and zero where there is none. *)
Definition covers (p : elf64_phdr) (a : Z) : bool :=
  loads p && (p_vaddr p <=? a) && (a <? p_vaddr p + p_filesz p).
Definition image (ps : list elf64_phdr) (a : Z) : Z :=
  foldl (fun b p => if covers p a then load8 (phys k0) (data + p_offset p + (a - p_vaddr p)) else b) 0 ps.

(** Every page of the area is user memory already. *)
Definition all_user : Prop := forall p, p ∈ area -> has (paging_get_flags PML4_ADDR p k0).1 PAGE_USER = true.

(** What holds between the steps: the tables are sound, nothing outside the
    area and the tables has changed, and the tables have not either if all
    pages were there. *)
Record sane (k : kmem) : Prop := {
  sa_kmem : kmem_wf k;
  sa_pt : exists own, pt_wf k PML4_ADDR own
    /\ forall p lx, own !! p = Some lx -> own0 !! p = Some lx \/ PAGE_ALLOC_START <= p /\ p + 4096 <= PAGE_ALLOC_END;
  sa_frame a : ~ in_area a -> ~ in_tables a -> ~ in_pool a -> load8 (phys k) a = load8 (phys k0) a;
  sa_user : all_user -> tables_same (phys k0) (phys k) own0
}.

(** ... the cleared pages hold the segments [ps] done so far. *)
Record loading (zeroed : list Z) (ps : list elf64_phdr) (k : kmem) : Prop := {
  lo_sane : sane k;
  lo_nodup : NoDup zeroed;
  lo_sub p : p ∈ zeroed -> p ∈ area;
  lo_image p a : p ∈ zeroed -> in_page p a -> load8 (phys k) a = image ps a;
  lo_rest a : (forall p, p ∈ zeroed -> ~ in_page p a) -> image ps a = 0
}.

Context (LA : layout).

Lemma sane_start : sane k0.
Proof. split; [apply LA| |done|done]. exists own0. split; [apply LA|by left]. Qed.

Lemma page_apart (own : gmap Z (nat * Z)) p lx a :
  (forall p lx, own !! p = Some lx -> own0 !! p = Some lx \/ PAGE_ALLOC_START <= p /\ p + 4096 <= PAGE_ALLOC_END) ->
  own !! p = Some lx -> p <= a < p + 4096 -> ~ in_area a.
Proof.
  intros Ho Hp Ha Hin. destruct (la_apart LA a Hin) as [H1 H2]. destruct (Ho p lx Hp) as [H|[]].
  - apply H1. by exists p, lx.
  - apply H2. unfold in_pool. lia.
Qed.

(** A store inside the area. *)
Lemma sane_area k m : sane k -> (forall a, ~ in_area a -> load8 m a = load8 (phys k) a) -> sane (set_phys m k).
Proof.
  intros S H. destruct (sa_pt _ S) as (own & Hpt & Ho). split.
  - destruct (sa_kmem _ S). by split.
  - exists own. split; [|exact Ho]. eapply pt_wf_same; [exact Hpt| |done].
    apply tables_same_bytes. intros p lx a Hp Ha. apply H. by eapply page_apart.
  - intros a H1 H2 H3. cbn. rewrite H by done. by apply S.
  - intros Hu p lx i Hp Hi. rewrite <- (sa_user _ S Hu p lx i Hp Hi). apply load64_ext. intros a Ha. apply H.
    pose proof (ent_in_page p i Hi). eapply (page_apart own0); [by left|exact Hp|lia].
Qed.

(** [memory_map_2mb] on a page of the area. *)
Lemma sane_map k p flags r k' : sane k -> p ∈ area -> ~ all_user -> memory_map_2mb p p flags k = (r, k') ->
  sane k' /\ (r = 0 \/ r = -1) /\ forall a, in_area a -> load8 (phys k') a = load8 (phys k) a.
Proof.
  intros S Hp Hu Hr. destruct (sa_pt _ S) as (own & Hpt & Ho). destruct (la_large LA p Hp) as [Hal Hpr].
  destruct (map_2mb_run PML4_ADDR k own p p flags r k' (sa_kmem _ S) Hpt Hal Hpr Hr)
    as (own' & K1 & K2 & K3 & [N _ F] & Hres).
  assert (Hout : forall a, ~ in_pool a -> (forall q lx, own !! q = Some lx -> ~ q <= a < q + 4096) ->
    load8 (phys k') a = load8 (phys k) a).
  { intros a Ha Hq. apply F; [|done]. pose proof (wf_cur _ (sa_kmem _ S)). unfold in_pool in Ha. lia. }
  split_and!.
  - split; [exact K1| |intros a H1 H2 H3|done].
    + exists own'. split; [exact K2|]. intros q lx Hq. destruct (own !! q) as [lx'|] eqn:Eo.
      * rewrite (lookup_weaken _ _ _ _ Eo K3) in Hq. injection Hq as <-. by apply Ho.
      * right. pose proof (N q lx Hq Eo). pose proof (wf_cur _ (sa_kmem _ S)). lia.
    + rewrite Hout; [by apply S|done|]. intros q lx Hq Ha. destruct (Ho q lx Hq) as [H|H].
      * apply H2. by exists q, lx.
      * apply H3. unfold in_pool. lia.
  - destruct Hres as [[-> _]|[-> _]]; auto.
  - intros a Ha. apply Hout; [by apply la_apart|]. intros q lx Hq Hin. by eapply page_apart.
Qed.

Lemma sane_flags k p : sane k -> all_user -> p ∈ area -> has (paging_get_flags PML4_ADDR p k).1 PAGE_USER = true.
Proof.
  intros S Hu Hp. rewrite (get_flags_same k0 k PML4_ADDR own0 p); [by apply Hu|apply LA|by apply S].
Qed.

(** ** One page *)

Lemma large_apart p q a : p ∈ area -> q ∈ area -> in_page p a -> in_page q a -> p = q.
Proof.
  intros Hp Hq. destruct (la_large LA p Hp) as [Hp1 _], (la_large LA q Hq) as [Hq1 _].
  unfold in_page, LARGE_PAGE in *. zlia.
Qed.

(** The test of the flags, with the mapping of a page that is not there. *)
Definition page_ready (page : Z) : ST kmem (option load_end) :=
  let* f := memory_get_flags page in
  if f =? 0 then
    let* m := memory_map_2mb page page (Z.lor (Z.lor PAGE_PRESENT PAGE_RW) PAGE_USER) in
    ret (if m <? 0 then Some MapFailed else None)
  else ret (if has f PAGE_USER then None else Some Supervisor).

Lemma page_ready_ok k p : sane k -> p ∈ area ->
  exists r k', page_ready p k = (r, k') /\ sane k' /\ (forall a, in_area a -> load8 (phys k') a = load8 (phys k) a)
    /\ match r with None => True | Some e => (e = MapFailed \/ e = Supervisor) /\ ~ all_user end.
Proof.
  intros S Hp. unfold page_ready, memory_get_flags. rewrite (bind_run _ _ _ _ _ (get_flags_run PML4_ADDR k p)).
  pose proof (sane_flags k p S) as Hu. set (f := (paging_get_flags PML4_ADDR p k).1) in *.
  destruct (Z.eqb_spec f 0) as [Hz|Hz].
  - assert (Hn : ~ all_user) by (intros H; specialize (Hu H Hp); by rewrite Hz in Hu).
    destruct (memory_map_2mb p p (Z.lor (Z.lor PAGE_PRESENT PAGE_RW) PAGE_USER) k) as [r k'] eqn:E.
    destruct (sane_map _ _ _ _ _ S Hp Hn E) as (S' & Hr & Hb).
    rewrite (bind_run _ _ _ _ _ E). eexists _, k'. split; [reflexivity|]. split_and!; [done|done|].
    destruct (r <? 0); auto.
  - eexists _, k. split; [reflexivity|]. split_and!; [done|done|]. destruct (has f PAGE_USER); [done|].
    split; [auto|]. intros H. by specialize (Hu H Hp).
Qed.

Lemma elf_load_page_ready page zeroed k : elf_load_page page zeroed k =
  (let* r := page_ready page in
   match r with
   | Some e => ret (inr e)
   | None =>
       if bool_decide (page ∈ zeroed) then ret (inl zeroed)
       else
         do* modify (fun k => set_phys (memory_set page 0 LARGE_PAGE (phys k)) k) in
         ret (if (length zeroed <? PAGES_ZEROED)%nat then inl (zeroed ++ [page]) else inr Overrun)
   end) k.
Proof. unfold elf_load_page, page_ready, bind. by destruct (memory_get_flags page k). Qed.

(** A step ends well, or with a refusal that has to do with the tables. *)
Definition steps_to (r : list Z + load_end) (k : kmem) (Q : list Z -> Prop) : Prop :=
  match r with
  | inl zeroed => Q zeroed
  | inr e => (e = MapFailed \/ e = Supervisor) /\ ~ all_user /\ sane k
  end.

Lemma loading_more zeroed ps k k' :
  loading zeroed ps k -> sane k' -> (forall a, in_area a -> load8 (phys k') a = load8 (phys k) a) -> loading zeroed ps k'.
Proof.
  intros [S N Sub Im Re] S' H. split; [done|done|done| |done]. intros p a Hp Ha. rewrite H; [by eapply Im|].
  exists p. split; [by apply Sub|done].
Qed.

Lemma load_page_ok zeroed ps k p : loading zeroed ps k -> p ∈ area ->
  exists r k', elf_load_page p zeroed k = (r, k')
    /\ steps_to r k' (fun z => loading z ps k' /\ zeroed ⊆ z /\ p ∈ z).
Proof.
  intros Lo Hp. rewrite elf_load_page_ready.
  destruct (page_ready_ok k p (lo_sane _ _ _ Lo) Hp) as (r & k1 & E & S1 & Hb & Hr). rewrite (bind_run _ _ _ _ _ E).
  destruct r as [e|]; [exists (inr e), k1; split; [done|]; by destruct Hr|]. pose proof (loading_more _ _ _ _ Lo S1 Hb) as L1.
  destruct (bool_decide_reflect (p ∈ zeroed)) as [Hz|Hz]; [eexists _, k1; split; [reflexivity|]; by cbn|].
  assert (Hc : (length (p :: zeroed) <= length area)%nat).
  { apply submseteq_length, NoDup_submseteq; [constructor; [done|apply Lo]|].
    intros q [-> | Hq]%elem_of_cons; [done|by apply Lo]. }
  pose proof (la_count LA) as Hcount. cbn [length] in Hc.
  unfold modify, bind, ret. rewrite (proj2 (Nat.ltb_lt _ _)) by lia.
  eexists _, _. split; [reflexivity|]. cbn [steps_to].
  split_and!; [|intros q Hq; apply elem_of_app; by left|apply elem_of_app; right; by left].
  split.
  - apply sane_area; [done|]. intros a Ha. rewrite load8_memory_set, decide_False; [done|].
    intros Hin. apply Ha. by exists p.
  - apply NoDup_app. split_and!; [apply Lo|intros q Hq Hq1; by apply list_elem_of_singleton in Hq1 as ->|apply NoDup_singleton].
  - intros q [Hq | ->%list_elem_of_singleton]%elem_of_app; [by apply Lo|done].
  - intros q a Hq Ha. cbn [phys set_phys]. rewrite load8_memory_set.
    apply elem_of_app in Hq as [Hq| ->%list_elem_of_singleton].
    + rewrite decide_False; [by eapply (lo_image _ _ _ L1)|].
      intros Hin. assert (q = p) as -> by (eapply large_apart; [by apply Lo|done|exact Ha|exact Hin]). done.
    + rewrite decide_True by done. symmetry. apply (lo_rest _ _ _ Lo). intros q Hq Hin.
      assert (q = p) as -> by (eapply large_apart; [by apply Lo|done|exact Hin|exact Ha]). done.
  - intros a Ha. apply (lo_rest _ _ _ Lo). intros q Hq. apply Ha, elem_of_app. by left.
Qed.

(** ** A segment *)

Lemma load_pages_ok n : forall page zeroed ps k,
  loading zeroed ps k -> (forall i, (i < n)%nat -> page + Z.of_nat i * LARGE_PAGE ∈ area) ->
  exists r k', elf_load_pages n page zeroed k = (r, k')
    /\ steps_to r k' (fun z => loading z ps k' /\ zeroed ⊆ z /\ forall i, (i < n)%nat -> page + Z.of_nat i * LARGE_PAGE ∈ z).
Proof.
  induction n as [|n IH]; intros page zeroed ps k Lo Ha; cbn [elf_load_pages].
  - exists (inl zeroed), k. split; [done|]. split_and!; [done|done|lia].
  - assert (Hp : page ∈ area) by (replace page with (page + Z.of_nat 0 * LARGE_PAGE) by lia; apply Ha; lia).
    destruct (load_page_ok zeroed ps k page Lo Hp) as (r & k1 & E & H). rewrite (bind_run _ _ _ _ _ E).
    destruct r as [z|e]; cbn [steps_to] in H; [|exists (inr e), k1; split; [done|exact H]].
    destruct H as (L1 & Hsub & Hin). destruct (la_large LA page Hp) as [_ Hr].
    rewrite u64_small by (unfold LARGE_PAGE; lia).
    destruct (IH (page + LARGE_PAGE) z ps k1 L1) as (r & k' & E' & H').
    { intros i Hi. replace (page + LARGE_PAGE + Z.of_nat i * LARGE_PAGE) with (page + Z.of_nat (S i) * LARGE_PAGE) by lia.
      apply Ha. lia. }
    exists r, k'. split; [exact E'|]. destruct r as [z'|e]; [|exact H']. cbn [steps_to] in *.
    destruct H' as (L2 & Hsub' & Hin'). split_and!; [done|set_solver|].
    intros [|i] Hi; [rewrite Z.add_0_r; set_solver|].
    replace (page + Z.of_nat (S i) * LARGE_PAGE) with (page + LARGE_PAGE + Z.of_nat i * LARGE_PAGE) by lia.
    apply Hin'. lia.
Qed.

Definition pages_in (z : list Z) (p : elf64_phdr) : Prop :=
  forall i, (i < segment_pages p)%nat -> segment_base p + Z.of_nat i * LARGE_PAGE ∈ z.

(** The pages of a segment are all there is between its ends. *)
Lemma segment_span p a : segment_ok p -> segment_base p <= a < segment_end p ->
  exists i, (i < segment_pages p)%nat /\ in_page (segment_base p + Z.of_nat i * LARGE_PAGE) a.
Proof.
  intros H Ha. pose proof (so_start p H). pose proof (so_end p H). pose proof (so_file p H).
  unfold segment_pages, segment_end, segment_base in *. rewrite u64_small, !large_frame_div in * by lia.
  set (b := p_vaddr p / LARGE_PAGE) in *. set (e := (p_vaddr p + p_memsz p + 0x1FFFFF) / LARGE_PAGE) in *.
  exists (Z.to_nat (a / LARGE_PAGE - b)). unfold in_page, LARGE_PAGE in *.
  rewrite <- Z.mul_sub_distr_r, Z.div_mul by lia. zlia.
Qed.

Lemma segment_page p a : segment_ok p -> p_vaddr p <= a < p_vaddr p + p_memsz p ->
  exists i, (i < segment_pages p)%nat /\ in_page (segment_base p + Z.of_nat i * LARGE_PAGE) a.
Proof.
  intros H Ha. pose proof (so_start p H). pose proof (so_end p H). apply (segment_span p a H).
  unfold segment_base, segment_end. rewrite u64_small, !large_frame_div by lia. unfold LARGE_PAGE. zlia.
Qed.

Lemma image_snoc ps p a : image (ps ++ [p]) a =
  if covers p a then load8 (phys k0) (data + p_offset p + (a - p_vaddr p)) else image ps a.
Proof. unfold image. by rewrite foldl_app. Qed.

Lemma covers_spec p a : covers p a = true <-> loads p = true /\ p_vaddr p <= a < p_vaddr p + p_filesz p.
Proof. unfold covers. destruct (loads p); cbn [andb]; lia. Qed.

Lemma covers_in z p a : pages_in z p -> segment_ok p -> covers p a = true -> exists q, q ∈ z /\ in_page q a.
Proof.
  intros Hz H [_ Hc]%covers_spec. pose proof (so_file p H). destruct (segment_page p a H ltac:(lia)) as (i & Hi & Hin).
  eexists. split; [by apply Hz|exact Hin].
Qed.

(** A segment that is not loaded. *)
Lemma loading_skip zeroed ps k p : loads p = false -> loading zeroed ps k -> loading zeroed (ps ++ [p]) k.
Proof.
  intros Hl [S N Sub Im Re]. assert (Hc : forall a, image (ps ++ [p]) a = image ps a).
  { intros a. rewrite image_snoc. unfold covers. by rewrite Hl. }
  split; [done|done|done| |]; intros; rewrite Hc; eauto.
Qed.

(** The copy, once the pages are there. *)
Lemma loading_copy z ps k p : loads p = true -> segment_ok p -> loading z ps k -> pages_in z p ->
  loading z (ps ++ [p]) (set_phys (memory_copy (p_vaddr p) (u64 (data + p_offset p)) (p_filesz p) (phys k)) k).
Proof.
  intros Hl H Lo Hz. destruct (so_file p H) as [Hf1 Hf2]. destruct (so_source p H) as [Ho1 Ho2].
  destruct (la_size LA) as (Hd1 & Hd2 & Hd3). rewrite u64_small by lia. set (src := data + p_offset p).
  assert (Hcov : forall a, p_vaddr p <= a < p_vaddr p + p_filesz p -> exists q, q ∈ z /\ in_page q a).
  { intros a Ha. apply (covers_in z p a Hz H). by apply covers_spec. }
  assert (Hdata : forall a, src <= a < src + p_filesz p -> data <= a < data + size) by (unfold src; lia).
  assert (Hbyte : forall a, load8 (memory_copy (p_vaddr p) src (p_filesz p) (phys k)) a
    = if covers p a then load8 (phys k0) (src + (a - p_vaddr p)) else load8 (phys k) a).
  { intros a. rewrite load8_memory_copy; [|lia|].
    - case_decide as Hin; [rewrite (proj2 (covers_spec p a)) by done|].
      + destruct (la_data LA (src + (a - p_vaddr p)) ltac:(apply Hdata; lia)) as (? & ? & ?). by apply Lo.
      + destruct (covers p a) eqn:Ec; [|done]. apply covers_spec in Ec. tauto.
    - destruct (Z.leb_spec (p_vaddr p + p_filesz p) src); [by left|].
      destruct (Z.leb_spec (src + p_filesz p) (p_vaddr p)); [by right|]. exfalso.
      destruct (Hcov (Z.max (p_vaddr p) src) ltac:(lia)) as (q & Hq & Hin).
      destruct (la_data LA (Z.max (p_vaddr p) src) ltac:(apply Hdata; lia)) as (Hn & _).
      apply Hn. exists q. split; [by apply Lo|done]. }
  split; [|apply Lo|apply Lo| |].
  - apply sane_area; [apply Lo|]. intros a Ha. rewrite Hbyte. destruct (covers p a) eqn:Ec; [|done].
    exfalso. apply Ha. destruct (covers_in z p a Hz H Ec) as (q & Hq & Hin). exists q. split; [by apply Lo|done].
  - intros q a Hq Ha. cbn [phys set_phys]. rewrite Hbyte, image_snoc. destruct (covers p a); [done|]. by eapply Lo.
  - intros a Ha. rewrite image_snoc. destruct (covers p a) eqn:Ec; [|by apply Lo].
    exfalso. destruct (covers_in z p a Hz H Ec) as (q & Hq & Hin). by eapply Ha.
Qed.

Lemma elf_load_segment_loads p zeroed : elf_load_segment data p zeroed =
  if loads p then
    let* r := elf_load_pages (segment_pages p) (segment_base p) zeroed in
    match r with
    | inr e => ret (inr e)
    | inl zeroed =>
        do* modify (fun k => set_phys (memory_copy (p_vaddr p) (u64 (data + p_offset p)) (p_filesz p) (phys k)) k) in
        ret (inl zeroed)
    end
  else ret (inl zeroed).
Proof. unfold elf_load_segment, loads. by destruct (p_type p =? PT_LOAD), (p_memsz p =? 0). Qed.

Lemma load_segment_ok zeroed ps k p : loading zeroed ps k -> (loads p = true -> segment_ok p) ->
  exists r k', elf_load_segment data p zeroed k = (r, k')
    /\ steps_to r k' (fun z => loading z (ps ++ [p]) k' /\ zeroed ⊆ z /\ (loads p = true -> pages_in z p)).
Proof.
  intros Lo Hok. rewrite elf_load_segment_loads. destruct (loads p) eqn:Hl.
  - specialize (Hok eq_refl). destruct (load_pages_ok (segment_pages p) (segment_base p) zeroed ps k Lo (so_pages p Hok))
      as (r & k1 & E & H). rewrite (bind_run _ _ _ _ _ E).
    destruct r as [z|e]; [|exists (inr e), k1; split; [done|exact H]]. destruct H as (L1 & Hsub & Hin).
    eexists _, _. split; [reflexivity|]. cbn [steps_to]. split_and!; [by apply loading_copy|done|done].
  - exists (inl zeroed), k. split; [done|]. split_and!; [by apply loading_skip|done|done].
Qed.

(** ** The program *)

Context (PR : program_ok).

Lemma file_same k a n : sane k -> data <= a -> a + Z.of_nat n <= data + size ->
  load_bytes (phys k) a n = load_bytes (phys k0) a n.
Proof. intros S H1 H2. apply load_bytes_ext. intros x Hx. destruct (la_data LA x) as (? & ? & ?); [lia|]. by apply S. Qed.

Lemma header_same k : sane k -> ehdr_at (phys k) data = header.
Proof.
  intros S. destruct (la_size LA) as (? & ? & ?). unfold header, ehdr_at, load16, load64.
  by rewrite !(file_same k) by (done || lia).
Qed.

Lemma segment_same k i : sane k -> (i < Z.to_nat (e_phnum header))%nat ->
  phdr_at (phys k) (u64 (u64 (data + e_phoff header) + Z.of_nat i * SIZEOF_PHDR)) = segment i.
Proof.
  intros S Hi. destruct (la_size LA) as (? & ? & ?). destruct (pr_phdrs PR) as (? & ? & ?). unfold SIZEOF_PHDR in *.
  unfold segment. unfold SIZEOF_PHDR. rewrite (u64_small (data + _)), u64_small by lia. unfold phdr_at, load32, load64.
  by rewrite !(file_same k) by (done || lia).
Qed.

(** [i] segments are done. *)
Definition done_to (i : nat) (z : list Z) (k : kmem) : Prop :=
  loading z (map segment (seq 0 i)) k
  /\ forall p, p ∈ map segment (seq 0 i) -> loads p = true -> pages_in z p.

Lemma load_loop_ok n : forall rounds i z k,
  (i + n)%nat = Z.to_nat (e_phnum header) -> (n <= rounds)%nat -> done_to i z k ->
  exists e k', elf_load_loop rounds data (u64 (data + e_phoff header)) (Z.of_nat i) z k = (e, k')
    /\ (e = Loaded /\ (exists z', done_to (i + n) z' k')
        \/ (e = MapFailed \/ e = Supervisor) /\ ~ all_user /\ sane k').
Proof.
  destruct (pr_phdrs PR) as (_ & Hn16 & _).
  induction n as [|n IH]; intros rounds i z k Hin Hr [Lo Hcov].
  - exists Loaded, k. split; [|left; split; [done|]; exists z; by rewrite Nat.add_0_r].
    destruct rounds as [|rounds]; [done|]. cbn [elf_load_loop]. unfold bind, gets. rewrite header_same by apply Lo.
    by rewrite (proj2 (Z.leb_le _ _)) by lia.
  - destruct rounds as [|rounds]; [lia|]. cbn [elf_load_loop]. unfold bind at 1, gets at 1.
    rewrite header_same by apply Lo. rewrite (proj2 (Z.leb_gt _ _)) by lia.
    unfold bind at 1, gets at 1. rewrite segment_same by (apply Lo || lia).
    assert (Hp : segment i ∈ segments) by (apply list_elem_of_In, in_map, in_seq; lia).
    destruct (load_segment_ok z _ k (segment i) Lo (pr_segments PR _ Hp)) as (r & k1 & E & H).
    rewrite (bind_run _ _ _ _ _ E).
    destruct r as [z1|e]; cbn [steps_to] in H; [|exists e, k1; split; [done|by right]].
    destruct H as (L1 & Hsub & Hpg).
    replace (Z.of_nat i + 1) with (Z.of_nat (S i)) by lia. replace (i + S n)%nat with (S i + n)%nat in * by lia.
    apply IH; [lia|lia|]. unfold done_to. rewrite seq_S, map_app. split; [exact L1|].
    intros p [Hq| ->%list_elem_of_singleton]%elem_of_app Hl; [|by apply Hpg].
    intros j Hj. apply Hsub. by apply Hcov.
Qed.

End Load.

(** ** The property *)

(** C18: [elf_load] puts a program in its place.  Take well-formed page tables,
    a file whose header is accepted and whose segments lie inside the file,
    and at most sixteen large pages for them, apart from the file, the page
    tables and the page pool.  Then the load ends: the array of cleared pages
    does not overflow, and nothing outside the program's pages, the tables
    and the pool changes.  If it reports success, every address of every
    segment's pages holds the byte of the last segment whose file part covers
    it, and zero where there is none: a segment that shares a page with an
    earlier one does not wipe it out.  It does report success when all those
    pages are user memory already. *)
Theorem elf_load_places_segments k own data size area :
  layout k own data size area -> program_ok k data size area ->
  exists e k', elf_load data k = (Some (e_entry (header k data), e), k')
    /\ e <> Overrun
    /\ (forall a, ~ in_area area a -> ~ in_tables own a -> ~ in_pool a -> load8 (phys k') a = load8 (phys k) a)
    /\ (e = Loaded -> forall p a, p ∈ segments k data -> loads p = true ->
          segment_base p <= a < segment_end p -> load8 (phys k') a = image k data (segments k data) a)
    /\ (all_user k area -> e = Loaded).
Proof.
  intros LA PR. unfold elf_load. unfold bind at 1, gets at 1. fold (header k data). rewrite (pr_header _ _ _ _ PR).
  cbn [negb]. destruct (pr_phdrs _ _ _ _ PR) as (_ & Hn & _).
  assert (D0 : done_to k own data area 0 [] k).
  { split; [|by intros p Hp%elem_of_nil]. split; [by eapply sane_start|apply NoDup_nil_2|by intros ? ?%elem_of_nil|by intros ? ? ?%elem_of_nil|done]. }
  destruct (load_loop_ok k own data size area LA PR _ (Z.to_nat 65535) 0 [] k eq_refl ltac:(lia) D0) as (e & k' & E & H).
  rewrite (bind_run _ _ _ _ _ E). exists e, k'. split; [done|].
  destruct H as [(-> & z & Lo & Hcov)|([-> | ->] & Hu & S)]; (split; [done|]).
  - split_and!; [apply Lo| |done]. intros _ p a Hp Hl Ha.
    destruct (segment_span size area p a) as (i & Hi & Hin); [by eapply pr_segments|done|].
    eapply (lo_image _ _ _ _ _ _ _ Lo); [by eapply Hcov|exact Hin].
  - split_and!; [apply S|done|done].
  - split_and!; [apply S|done|done].
Qed.

(** ** A program of two segments in one page *)

Definition demo_elf : list Z :=
  [0x7F; 69; 76; 70; 2; 1] ++ replicate 10 0 ++ le_bytes 2 2 ++ le_bytes 2 0x3E ++ replicate 4 0
  ++ le_bytes 8 0x400000 ++ le_bytes 8 64 ++ replicate 16 0 ++ le_bytes 2 2 ++ replicate 6 0
  ++ (le_bytes 4 1 ++ replicate 4 0 ++ le_bytes 8 176 ++ le_bytes 8 0x400000 ++ replicate 8 0 ++ le_bytes 8 4
      ++ le_bytes 8 4 ++ replicate 8 0)
  ++ (le_bytes 4 1 ++ replicate 4 0 ++ le_bytes 8 180 ++ le_bytes 8 0x400100 ++ replicate 8 0 ++ le_bytes 8 2
      ++ le_bytes 8 0x1000 ++ replicate 8 0)
  ++ str "codeOK".

Definition demo_kernel : kmem := set_phys (store_bytes (phys boot_tables) 0x300000 demo_elf) boot_tables.

Lemma demo_layout : layout demo_kernel boot_own 0x300000 182 [0x400000].
Proof.
  assert (Ho : map_Forall (fun p _ => p < 0x4000) boot_own) by (apply (bool_decide_unpack _); vm_compute; reflexivity).
  assert (Ht : forall a, in_tables boot_own a -> a < 0x5000) by (intros a (p & lx & Hp & Ha); specialize (Ho p lx Hp); cbn in Ho; lia).
  assert (Hr : forall a, in_area [0x400000] a -> 0x400000 <= a < 0x600000).
  { intros a (p & ->%list_elem_of_singleton & Ha). exact Ha. }
  destruct boot_tables_wf as [[] _]. split.
  - by split.
  - apply pt_check_sound. vm_compute. reflexivity.
  - cbn. unfold PAGES_ZEROED. lia.
  - intros p ->%list_elem_of_singleton. split; [reflexivity|lia].
  - intros a Ha. specialize (Hr a Ha). unfold in_pool, PAGE_ALLOC_START, PAGE_ALLOC_END.
    split; [intros Hi; specialize (Ht a Hi)|]; lia.
  - intros a Ha. unfold in_pool, PAGE_ALLOC_START, PAGE_ALLOC_END.
    split_and!; [intros Hi; specialize (Hr a Hi)|intros Hi; specialize (Ht a Hi)|]; lia.
  - lia.
Qed.

Lemma demo_program : program_ok demo_kernel 0x300000 182 [0x400000].
Proof.
  assert (Hs : segments demo_kernel 0x300000 = [Phdr 1 176 0x400000 4 4; Phdr 1 180 0x400100 2 0x1000]) by (vm_compute; reflexivity).
  assert (Hp : forall v, v = 0x400000 \/ v = 0x400100 -> forall i, (i < 1)%nat -> large_frame v + Z.of_nat i * LARGE_PAGE ∈ [0x400000]).
  { intros v Hv i Hi. assert (i = 0%nat) as -> by lia. by destruct Hv as [-> | ->]; apply list_elem_of_singleton. }
  split.
  - vm_compute. reflexivity.
  - vm_compute. repeat split; discriminate.
  - rewrite Hs. intros p [-> | ->%list_elem_of_singleton]%elem_of_cons _; split; cbn; try lia;
      (apply Hp; auto).
Qed.

Lemma elf_load_places_segments_witness :
  exists e k', elf_load 0x300000 demo_kernel = (Some (0x400000, e), k') /\ e = Loaded
    /\ load8 (phys k') 0x400000 = 99 /\ load8 (phys k') 0x400101 = 75 /\ load8 (phys k') 0x400102 = 0
    /\ load8 (phys k') 0x300000 = 0x7F.
Proof.
  destruct (elf_load_places_segments demo_kernel boot_own 0x300000 182 [0x400000] demo_layout demo_program)
    as (e & k' & E & _ & Hf & Hl & Hu).
  assert (Hloaded : e = Loaded).
  { apply Hu. intros p ->%list_elem_of_singleton. vm_compute. reflexivity. }
  specialize (Hl Hloaded (Phdr 1 176 0x400000 4 4)).
  exists e, k'. split; [exact E|]. split; [exact Hloaded|].
  split_and!; [rewrite Hl; [vm_compute; reflexivity|by apply elem_of_cons; left|reflexivity|vm_compute; split; [discriminate|reflexivity]]..|].
  rewrite Hf; [vm_compute; reflexivity|..].
  - apply (la_data _ _ _ _ _ demo_layout). lia.
  - apply (la_data _ _ _ _ _ demo_layout). lia.
  - apply (la_data _ _ _ _ _ demo_layout). lia.
Defined.
