(* ===== verification/KShell.v ===== *)
(** * The kernel's own shell ([src/kernel/shell.c])

    It runs in the kernel: it reads keys with [keyboard_read], writes to the
    screen and calls the file system directly.  Where the code waits in [hlt],
    the parameter [Hlt] says what the interrupts that end it do to the
    machine: the keyboard's fill the queue, the timer's count.

    The theorem: the line read is the text typed with its last character
    taken out at each backspace, at most 255 characters of it, however the
    keys are spread over the interrupts. *)

From S2P Require Import Prelude.
From S2P Require Import ByteMem.
From S2P Require Import Kmem.
From S2P Require Import Heap.
From S2P Require Import Paging.
From S2P Require Import Alloc.
From S2P Require Import Cow.
From S2P Require Import Io.
From S2P Require Import Vga.
From S2P Require Import Cmos.
From S2P Require Import Disk.
From S2P Require Import TinyFS.
From S2P Require Import Vfs.
From S2P Require Import FsHeap.
From S2P Require Import Task.
From S2P Require Import Keyboard.
From S2P Require Import Signal.
From S2P Require Import Elf.
From S2P Require Import ElfLoad.
From S2P Require Import Syscall.
From S2P Require Import Idt.
From S2P Require Import Kernel.
From S2P Require Import Boot.

Definition KLINE_MAX : Z := 256.

(** How a command ends: with the next prompt, in user mode at an entry, or in
    a loop that used up its fuel or a store out of bounds. *)
Inductive kexit := KNext | KEnters (entry : Z) | KStuck.

(** The processor's [hlt], until it goes on. *)
Class Hlt (P D : Type) := hlt : ST (machine P D) unit.

(** ** Commands as strings *)

(** [cmd[0] == 'l' && cmd[1] == 's' && ...]: the name is there. *)
Definition named (name cmd : list Z) : bool := prefixb name cmd.
(** ... and a blank follows. *)
Definition with_blank (name cmd : list Z) : bool := named name cmd && (char_at cmd (length name) =? CHAR_SPACE).
(** ... or the end. *)
Definition is_command (name cmd : list Z) : bool :=
  named name cmd && ((char_at cmd (length name) =? CHAR_SPACE) || (char_at cmd (length name) =? 0)).
(** [cmd[n] == ' ' ? cmd + n + 1 : NULL]. *)
Definition command_arg (name cmd : list Z) : option (list Z) :=
  if char_at cmd (length name) =? CHAR_SPACE then Some (drop (S (length name)) cmd) else None.

Definition skip_blanks (s : list Z) : list Z := skip CHAR_SPACE s.

Definition shell_compare (a b : list Z) : Z := str_diff a b.

(** The digits of [n], last one first; 20 are enough for 64 bits. *)
Fixpoint uint_rev (fuel : nat) (n : Z) : list Z :=
  match fuel with
  | O => []
  | S f => if 0 <? n then digit (n mod 10) :: uint_rev f (n / 10) else []
  end.
Definition uint_text (n : Z) : list Z := if n =? 0 then str "0" else rev (uint_rev 20 n).

(** [while ( *arg >= '0' && *arg <= '9') delay_ms = delay_ms * 10 + ...]. *)
Fixpoint delay_value (arg : list Z) (delay : Z) : Z :=
  match arg with
  | c :: rest => if (48 <=? c) && (c <=? 57) then delay_value rest (u64 (delay * 10 + (c - 48))) else delay
  | [] => delay
  end.

Definition delay_of (arg : option (list Z)) : Z :=
  match arg with
  | None => 0
  | Some a =>
      match skip_blanks a with
      | [] => 60000
      | rest => u64 (delay_value rest 0 * 1000)
      end
  end.

Definition KHELP : list (list Z) :=
  [str "Available commands:"; str "  cd"; str "  help"; str "  echo"; str "  clear"; str "  reboot";
   str "  shutdown"; str "  poweroff"; str "  cat"; str "  uptime"; str "  date"; str "  mkdir"; str "  rmdir";
   str "  rm"; str "  cp"; str "  mv"; str "  exec"].

Section KShell.
Context {P D : Type} {io : PortIO P} {disk : Disk D} {hlt_ : Hlt P D}.

Abbreviation MACH := (ST (machine P D)).

Definition shell_putchar (c : Z) : MACH unit := on_console (vga_putchar c).
Definition shell_write (s : list Z) : MACH unit := on_console (vga_writestring s).
(** [shell_write(s "\n")]. *)
Definition shell_line (s : list Z) : MACH unit := shell_write (s ++ [CHAR_NL]).
Fixpoint shell_putchars (s : list Z) : MACH unit :=
  match s with
  | [] => ret tt
  | c :: rest => do* shell_putchar c in shell_putchars rest
  end.

(** [fuel] bounds the polling of the ports and the rounds of [hlt]. *)
Definition keyboard_poll (fuel : nat) : MACH (option (option Z)) := fun s =>
  let leave st := Machine (m_os s) (kb_port st) (m_vga s) (kb st) (m_ticks s) (m_break s) in
  match keyboard_read fuel (KState (m_port s) (m_kbd s) (tasks s)) with
  | None => (None, s)
  | Some (KHalt st) => (Some None, leave st)
  | Some (KChar c st) => (Some (Some c), leave st)
  end.

Fixpoint keyboard_wait (fuel n : nat) : MACH (option Z) :=
  match n with
  | O => ret None
  | S n' =>
      try* r := keyboard_poll fuel else None in
      match r with
      | Some c => ret (Some c)
      | None => do* hlt in keyboard_wait fuel n'
      end
  end.

(** ** The line *)

(** [line] and [line_pos]; [None] at the end of the line. *)
Definition line_key (c : Z) (buf : list Z) (pos : Z) : MACH (list Z * option Z) :=
  if c =? CHAR_NL then
    do* shell_putchar CHAR_NL in
    ret (<[Z.to_nat pos := 0]> buf, None)
  else if c =? CHAR_BS then
    if 0 <? pos then
      do* shell_putchars [CHAR_BS; CHAR_SPACE; CHAR_BS] in
      ret (buf, Some (pos - 1))
    else ret (buf, Some pos)
  else if (CHAR_SPACE <=? c) && (c <? 128) && (pos <? KLINE_MAX - 1) then
    do* shell_putchar c in
    ret (<[Z.to_nat pos := c]> buf, Some (pos + 1))
  else ret (buf, Some pos).

Fixpoint shell_readline_loop (fuel n : nat) (buf : list Z) (pos : Z) : MACH (option (list Z)) :=
  match n with
  | O => ret None
  | S n' =>
      try* c := keyboard_wait fuel fuel else None in
      let* '(buf, next) := line_key c buf pos in
      match next with
      | None => ret (Some buf)
      | Some pos => shell_readline_loop fuel n' buf pos
      end
  end.

Definition shell_readline (fuel n : nat) (buf : list Z) : MACH (option (list Z)) := shell_readline_loop fuel n buf 0.

(** ** Commands *)

Definition shell_cmd_help : MACH unit := foldr (fun l m => do* shell_line l in m) (ret tt) KHELP.

(** [buf[n] = 0; shell_write(buf)]. *)
Definition write_out (n : Z) (out : list Z) : MACH unit := shell_write (take (Z.to_nat n) out).

Definition shell_cmd_cat (filename : list Z) : MACH unit :=
  let filename := skip_blanks filename in
  match filename with
  | [] => shell_line (str "cat: missing filename")
  | _ =>
      let* '(n, out) := on_os (on_fs (fs_cat filename 256)) in
      if n <? 0 then
        do* shell_write (str "cat: file not found: ") in
        do* shell_write filename in
        shell_line []
      else write_out n out
  end.

Definition shell_cmd_echo (args : list Z) : MACH unit :=
  do* shell_putchars (skip_blanks args) in shell_putchar CHAR_NL.

Definition shell_cmd_reboot (fuel : nat) : MACH kexit :=
  do* shell_line (str "Rebooting...") in
  let* ok := on_ports (wait_controller fuel) in
  if negb ok then ret KStuck
  else do* on_ports (outb 0x64 0xFE) in do* hlt in ret KNext.

Definition shell_print_uint (n : Z) : MACH unit := shell_putchars (uint_text n).

Fixpoint timer_wait (n : nat) (target : Z) : MACH bool :=
  match n with
  | O => ret false
  | S n' =>
      let* t := gets m_ticks in
      if t <? target then do* hlt in timer_wait n' target else ret true
  end.
Definition timer_sleep (fuel : nat) (ms : Z) : MACH bool :=
  let* t := gets m_ticks in timer_wait fuel (sleep_target t ms).

Definition shell_cmd_shutdown (fuel : nat) (arg : option (list Z)) : MACH kexit :=
  let delay_ms := delay_of arg in
  let* ok :=
    (if 0 <? delay_ms then
       do* shell_write (str "Shutting down in ") in
       do* shell_print_uint (delay_ms / 1000) in
       do* shell_line (str " seconds...") in
       timer_sleep fuel delay_ms
     else ret true) in
  if negb ok then ret KStuck
  else
    do* shell_line (str "Shutting down...") in
    do* on_ports (outw 0x604 0x2000) in
    do* on_ports (outw 0xB004 0x2000) in
    do* hlt in
    ret KNext.

(** A field of two digits. *)
Definition two_places (n : Z) : MACH unit :=
  do* (if n <? 10 then shell_putchar 48 else ret tt) in shell_print_uint n.

Definition shell_cmd_date (fuel : nat) : MACH kexit :=
  try* dt := on_ports (cmos_read_datetime fuel) else KStuck in
  do* shell_print_uint (dt_year dt) in
  do* shell_putchar 45 in
  do* two_places (dt_month dt) in
  do* shell_putchar 45 in
  do* two_places (dt_day dt) in
  do* shell_putchar CHAR_SPACE in
  do* two_places (dt_hour dt) in
  do* shell_putchar 58 in
  do* two_places (dt_minute dt) in
  do* shell_putchar 58 in
  do* two_places (dt_second dt) in
  do* shell_putchar CHAR_NL in
  ret KNext.

Definition shell_cmd_uptime : MACH unit :=
  let* ticks := gets m_ticks in
  let sec := ticks / 100 in
  let min := sec / 60 in
  let hr := min / 60 in
  let days := hr / 24 in
  do* shell_write (str "Up: ") in
  do* shell_print_uint days in
  do* shell_write (str "d ") in
  do* shell_print_uint (hr mod 24) in
  do* shell_write (str "h ") in
  do* shell_print_uint (min mod 60) in
  do* shell_write (str "m ") in
  do* shell_print_uint (sec mod 60) in
  shell_line (str "s").

Definition shell_cmd_ls (cmd : list Z) : MACH unit :=
  let* '(n, out) := on_os (on_fs (fs_ls (option_map skip_blanks (command_arg (str "ls") cmd)) 400)) in
  if n <? 0 then shell_line (str "ls: no such directory") else write_out n out.

(** [mkdir], [rmdir] and [rm]. *)
Definition one_path (name : list Z) (f : option (list Z) -> ST (fs kmem D) Z) (cmd : list Z) : MACH unit :=
  match command_arg name cmd with
  | None | Some [] => shell_line (name ++ str ": missing operand")
  | Some arg =>
      let* r := on_os (on_fs (f (Some (skip_blanks arg)))) in
      if r <? 0 then shell_line (name ++ str ": failed") else ret tt
  end.

(** [cp] and [mv]: the source ends at the first blank. *)
Definition two_paths (name : list Z) (f : option (list Z) -> option (list Z) -> ST (fs kmem D) Z) (cmd : list Z)
    : MACH unit :=
  match skip_blanks (drop (S (length name)) cmd) with
  | [] => shell_line (name ++ str ": missing file arguments")
  | args =>
      match index_of CHAR_SPACE args with
      | None => shell_line (name ++ str ": missing destination")
      | Some i =>
          let* r := on_os (on_fs (f (Some (take i args)) (Some (skip_blanks (drop (S i) args))))) in
          if r <? 0 then shell_line (name ++ str ": failed") else ret tt
      end
  end.

Definition shell_cmd_cd (cmd : list Z) : MACH unit :=
  match option_map skip_blanks (command_arg (str "cd") cmd) with
  | None | Some [] => do* on_os (on_fs (fs_cd (Some (str "/")))) in ret tt
  | arg =>
      let* r := on_os (on_fs (fs_cd arg)) in
      if r <? 0 then shell_line (str "cd: no such directory") else ret tt
  end.

(** [elf_load] with its messages; [None]: the array on its stack overflows. *)
Definition load_program (fuel : nat) (data : Z) : MACH (option (option Z)) :=
  let* r := on_os (on_kmem (elf_load data)) in
  match r with
  | None => ret (Some None)
  | Some (e, Loaded) => ret (Some (Some e))
  | Some (_, MapFailed) => do* note fuel (str "elf_load: map failed") 21 in ret (Some None)
  | Some (_, Supervisor) => do* note fuel (str "elf_load: segment in supervisor area") 37 in ret (Some None)
  | Some (_, Overrun) => ret None
  end.

Definition shell_cmd_exec (fuel : nat) (cmd : list Z) : MACH kexit :=
  match skip_blanks (drop 5 cmd) with
  | [] => do* shell_line (str "exec: missing filename") in ret KNext
  | arg =>
      let* buf := on_os (on_kmem (kalloc 65536)) in
      if buf =? 0 then do* shell_line (str "exec: out of memory") in ret KNext
      else
        let* '(n, out) := on_os (on_fs (fs_cat arg 65536)) in
        do* on_os (on_kmem (modify (fun k => set_phys (store_bytes (phys k) buf out) k))) in
        if n <=? 0 then
          do* shell_line (str "exec: file not found or too large") in
          do* on_os (free_buf buf) in
          ret KNext
        else
          try* e := load_program fuel buf else KStuck in
          match e with
          | None =>
              do* shell_line (str "exec: invalid ELF") in
              do* on_os (free_buf buf) in
              ret KNext
          | Some entry =>
              do* on_os (free_buf buf) in
              do* on_tasks (modify (tss_set_rsp0 0x9000)) in
              ret (KEnters entry)
          end
  end.

(** Back to the prompt. *)
Definition next (m : MACH unit) : MACH kexit := do* m in ret KNext.

Definition shell_execute (fuel : nat) (line : list Z) : MACH kexit :=
  let cmd := skip_blanks (cstr line) in
  let same name := shell_compare cmd name =? 0 in
  match cmd with
  | [] => ret KNext
  | _ =>
      if same (str "help") then next shell_cmd_help
      else if same (str "uptime") then next shell_cmd_uptime
      else if same (str "date") then shell_cmd_date fuel
      else if same (str "clear") then next (on_console (vga_clear VGA_BLACK))
      else if is_command (str "echo") cmd then next (shell_cmd_echo (drop 4 cmd))
      else if is_command (str "ls") cmd then next (shell_cmd_ls cmd)
      else if same (str "reboot") then shell_cmd_reboot fuel
      else if is_command (str "cat") cmd then next (shell_cmd_cat (drop 3 cmd))
      else if is_command (str "shutdown") cmd then
        shell_cmd_shutdown fuel (Some (default [] (command_arg (str "shutdown") cmd)))
      else if same (str "poweroff") then shell_cmd_shutdown fuel None
      else if same (str "exit") then shell_cmd_shutdown fuel (Some [])
      else if is_command (str "mkdir") cmd then next (one_path (str "mkdir") fs_mkdir cmd)
      else if is_command (str "rmdir") cmd then next (one_path (str "rmdir") fs_rmdir cmd)
      else if is_command (str "rm") cmd then next (one_path (str "rm") fs_delete cmd)
      else if with_blank (str "cp") cmd then next (two_paths (str "cp") fs_copy cmd)
      else if with_blank (str "mv") cmd then next (two_paths (str "mv") fs_rename cmd)
      else if is_command (str "cd") cmd then next (shell_cmd_cd cmd)
      else if with_blank (str "exec") cmd then shell_cmd_exec fuel cmd
      else
        do* shell_write (str "unknown command: ") in
        do* shell_write cmd in
        do* shell_line [] in
        ret KNext
  end.

(** [rounds] commands; [KNext] after the last of them. *)
Fixpoint shell_loop (fuel rounds : nat) (line : list Z) : MACH kexit :=
  match rounds with
  | O => ret KNext
  | S n =>
      do* shell_write (str "some-tiny-os$ ") in
      try* line := shell_readline fuel fuel line else KStuck in
      let* e := shell_execute fuel line in
      match e with
      | KNext => shell_loop fuel n line
      | _ => ret e
      end
  end.

Definition shell_run (fuel rounds : nat) : MACH kexit :=
  do* shell_line (str "some-tiny-os v0.2") in
  do* shell_line (str "Type 'help' for commands" ++ [CHAR_NL]) in
  shell_loop fuel rounds (replicate 256 0).

(** ** The line that is read *)

(** The text after a key ... *)
Definition rub (t : list Z) (c : Z) : list Z :=
  if c =? CHAR_BS then take (length t - 1) t
  else if (CHAR_SPACE <=? c) && (c <? 128) && (length t <? 255)%nat then t ++ [c]
  else t.
(** ... and what the key writes to the screen. *)
Definition echo (t : list Z) (c : Z) : list Z :=
  if c =? CHAR_BS then (if (0 <? length t)%nat then [CHAR_BS; CHAR_SPACE; CHAR_BS] else [])
  else if (CHAR_SPACE <=? c) && (c <? 128) && (length t <? 255)%nat then [c]
  else [].

(** The machine from a prompt to the end of the line: the keys come one after
    the other, perhaps after some interrupts, and each is echoed. *)
Inductive session (fuel : nat) : list Z -> list Z -> machine P D -> machine P D -> Prop :=
| session_end t s s1 :
    keyboard_wait fuel fuel s = (Some CHAR_NL, s1) -> session fuel t [] s (shell_putchar CHAR_NL s1).2
| session_key t c cs s s1 s' :
    c <> CHAR_NL -> keyboard_wait fuel fuel s = (Some c, s1) ->
    session fuel (rub t c) cs (shell_putchars (echo t c) s1).2 s' -> session fuel t (c :: cs) s s'.

(** The buffer starts with the text. *)
Record holds (t buf : list Z) : Prop := {
  ho_size : length buf = 256%nat;
  ho_len : (length t <= 255)%nat;
  ho_text : take (length t) buf = t;
  ho_char : Forall (fun c => 32 <= c < 128) t
}.

Lemma holds_back t buf : holds t buf -> holds (take (length t - 1) t) buf.
Proof.
  intros [Hs Hl Ht Hc]. split; [done|rewrite length_take; lia| |by apply Forall_take].
  rewrite length_take, Nat.min_l by lia. rewrite <- Ht at 3. rewrite take_take. f_equal. lia.
Qed.

Lemma holds_type t c buf : holds t buf -> (length t < 255)%nat -> 32 <= c < 128 -> holds (t ++ [c]) (<[length t := c]> buf).
Proof.
  intros [Hs Hl Ht Hc] Hlt Hr. split; [by rewrite length_insert|rewrite length_app; cbn; lia| |].
  - rewrite length_app. cbn. rewrite Nat.add_1_r. rewrite (take_S_r _ _ c) by (apply list_lookup_insert_eq; lia).
    by rewrite take_insert_ge, Ht by lia.
  - apply Forall_app. split; [done|by apply Forall_singleton].
Qed.

Lemma putchars_run cs s : shell_putchars cs s = (tt, (shell_putchars cs s).2).
Proof. by destruct (shell_putchars cs s) as [[] ?]. Qed.

Lemma line_key_rub c t buf s : holds t buf -> c <> CHAR_NL ->
  exists buf', line_key c buf (Z.of_nat (length t)) s
      = ((buf', Some (Z.of_nat (length (rub t c)))), (shell_putchars (echo t c) s).2)
    /\ holds (rub t c) buf'.
Proof.
  intros H Hc. unfold line_key, rub, echo. rewrite (proj2 (Z.eqb_neq _ _) Hc).
  pose proof (ho_len _ _ H) as Hl. unfold KLINE_MAX.
  destruct (c =? CHAR_BS).
  - replace (0 <? Z.of_nat (length t)) with (0 <? length t)%nat
      by (destruct (Nat.ltb_spec 0 (length t)), (Z.ltb_spec 0 (Z.of_nat (length t))); (done || lia)).
    exists buf. split; [|by apply holds_back]. destruct (Nat.ltb_spec 0 (length t)).
    + unfold bind. rewrite putchars_run. rewrite length_take. unfold ret. do 3 f_equal. lia.
    + rewrite length_take. unfold ret. cbn. do 3 f_equal. lia.
  - replace (Z.of_nat (length t) <? 256 - 1) with (length t <? 255)%nat
      by (destruct (Nat.ltb_spec (length t) 255), (Z.ltb_spec (Z.of_nat (length t)) (256 - 1)); (done || lia)).
    unfold CHAR_SPACE. destruct (Z.leb_spec 32 c), (Z.ltb_spec c 128), (Nat.ltb_spec (length t) 255); cbn [andb];
      try (by exists buf).
    exists (<[length t := c]> buf). split; [|by apply holds_type].
    rewrite Nat2Z.id, length_app. unfold bind. cbn [shell_putchars]. unfold bind. 
    destruct (shell_putchar c s) as [[] s1]. unfold ret. cbn. do 3 f_equal. lia.
Qed.

Lemma readline_session fuel t keys s s' : session fuel t keys s s' -> forall n buf,
  holds t buf -> (length keys < n)%nat ->
  exists buf', shell_readline_loop fuel n buf (Z.of_nat (length t)) s = (Some buf', s')
    /\ cstr buf' = foldl rub t keys /\ length buf' = 256%nat.
Proof.
  induction 1 as [t s s1 Hw|t c cs s s1 s' Hc Hw _ IH]; intros n buf H Hn;
    (destruct n as [|n]; [cbn in Hn; lia|]); cbn [shell_readline_loop]; rewrite (bind_run _ _ _ _ _ Hw).
  - exists (<[length t := 0]> buf). destruct H as [Hs Hl Ht Hch]. split_and!.
    + unfold line_key, bind. rewrite Z.eqb_refl, Nat2Z.id. by destruct (shell_putchar CHAR_NL s1) as [[] s2].
    + cbn [foldl]. rewrite insert_take_drop, Ht by lia. apply cstr_app_0. eapply Forall_impl; [exact Hch|]. cbn. lia.
    + by rewrite length_insert.
  - destruct (line_key_rub c t buf s1 H Hc) as (buf1 & E & H1). rewrite (bind_run _ _ _ _ _ E).
    apply IH; [exact H1|cbn in Hn; lia].
Qed.

(** Keys that are in the queue already. *)
Lemma wait_head fuel c cs s : kwf (m_kbd s) -> kcontent (m_kbd s) = c :: cs -> (0 < fuel)%nat ->
  exists s1, keyboard_wait fuel fuel s = (Some c, s1) /\ kwf (m_kbd s1) /\ kcontent (m_kbd s1) = cs /\ m_os s1 = m_os s.
Proof.
  intros Hw Hc Hf. destruct fuel as [|f]; [lia|]. cbn [keyboard_wait].
  destruct (keyboard_read_head (S f) (KState (m_port s) (m_kbd s) (tasks s)) c cs Hw Hc) as (st & E & W & C & _).
  erewrite bind_run by (unfold keyboard_poll; by rewrite E). eexists. split; [reflexivity|done].
Qed.

Lemma putchar_frame c (s : machine P D) :
  let s' := (shell_putchar c s).2 in m_kbd s' = m_kbd s /\ m_os s' = m_os s.
Proof. unfold shell_putchar, on_console. by destruct (vga_putchar c _) as [? []]. Qed.

Lemma putchars_frame cs : forall s : machine P D,
  let s' := (shell_putchars cs s).2 in m_kbd s' = m_kbd s /\ m_os s' = m_os s.
Proof.
  induction cs as [|c cs IH]; intros s s'; [done|]. unfold s'. cbn [shell_putchars]. unfold bind.
  pose proof (putchar_frame c s) as H.
  destruct (shell_putchar c s) as [u s1]. cbn [snd] in H. destruct (IH s1) as [-> ->]. exact H.
Qed.

Lemma queue_session fuel keys rest : (0 < fuel)%nat -> CHAR_NL ∉ keys -> forall t (s : machine P D),
  kwf (m_kbd s) -> kcontent (m_kbd s) = keys ++ CHAR_NL :: rest ->
  exists s', session fuel t keys s s' /\ kcontent (m_kbd s') = rest /\ m_os s' = m_os s.
Proof.
  intros Hf. induction keys as [|c cs IH]; intros Hn t s Hw Hc.
  - destruct (wait_head fuel _ _ s Hw Hc Hf) as (s1 & E & _ & C1 & O1).
    destruct (putchar_frame CHAR_NL s1) as [Hk Ho]. eexists. split; [by apply session_end|]. by rewrite Hk, Ho.
  - apply not_elem_of_cons in Hn as [Hne Hn]. destruct (wait_head fuel _ _ s Hw Hc Hf) as (s1 & E & W1 & C1 & O1).
    destruct (putchars_frame (echo t c) s1) as [Hk Ho].
    destruct (IH Hn (rub t c) (shell_putchars (echo t c) s1).2) as (s' & R & C' & O').
    + by rewrite Hk.
    + by rewrite Hk.
    + exists s'. split; [eapply session_key; [congruence|exact E|exact R]|]. by rewrite O', Ho.
Qed.

(** C19: the kernel's shell reads the line that was typed.  In whatever rounds
    of interrupts the keys come, [shell_readline] returns at the newline, the
    string in [line] is the text typed with its last character taken out at
    each backspace (other keys are ignored, and so is what does not fit into
    255 characters), and all it did to the machine in between is to echo the
    keys.  When the keys and the newline are in the keyboard's queue already,
    they are taken from it, in order, and nothing else in the kernel
    changes. *)
Theorem shell_reads_typed_line fuel n keys buf (s : machine P D) :
  length buf = 256%nat -> (length keys < n)%nat -> (0 < fuel)%nat ->
  let reads s' := exists buf', shell_readline fuel n buf s = (Some buf', s') /\ length buf' = 256%nat
                   /\ cstr buf' = foldl rub [] keys in
  (forall s', session fuel [] keys s s' -> reads s')
  /\ (forall rest, CHAR_NL ∉ keys -> kwf (m_kbd s) -> kcontent (m_kbd s) = keys ++ CHAR_NL :: rest ->
       exists s', reads s' /\ session fuel [] keys s s' /\ kcontent (m_kbd s') = rest /\ m_os s' = m_os s).
Proof.
  intros Hb Hn Hf reads.
  assert (H : forall s', session fuel [] keys s s' -> reads s').
  { intros s' Hs. assert (H0 : holds [] buf) by (by split; [|cbn; lia|rewrite take_0|constructor]).
    destruct (readline_session _ _ _ _ _ Hs n buf H0 Hn) as (buf' & E & Hc & Hl). by exists buf'. }
  split; [exact H|]. intros rest Hnl Hw Hc. destruct (queue_session fuel keys rest Hf Hnl [] s Hw Hc) as (s' & Hs & Hr).
  exists s'. split; [by apply H|done].
Qed.

End KShell.

(** Typing h, j, Backspace, i, Enter. *)
Definition typed_machine : machine unit ramdisk :=
  Machine (Os no_tasks ∅ blank_sb 0 [] false) tt (Vga 0 0 7 ∅)
    (feed [0x23; 0xA3; 0x24; 0xA4; 0x0E; 0x8E; 0x17; 0x97; 0x1C; 0x9C] kbd_zero) 0 0.
Definition no_interrupts : Hlt unit ramdisk := ret tt.

Lemma shell_reads_typed_line_witness :
  exists s' buf', shell_readline (io := no_ports) (hlt_ := no_interrupts) 1 5 (replicate 256 0) typed_machine = (Some buf', s')
    /\ cstr buf' = str "hi" /\ kcontent (m_kbd s') = [].
Proof.
  destruct (shell_reads_typed_line (io := no_ports) (hlt_ := no_interrupts) 1 5 [104; 106; 8; 105] (replicate 256 0)
              typed_machine eq_refl ltac:(cbn; lia) ltac:(lia)) as [_ H].
  destruct (H []) as (s' & (buf' & E & _ & Hc) & _ & Hr & _).
  - by apply (bool_decide_unpack _).
  - split; [reflexivity|vm_compute; split; [discriminate|reflexivity]..].
  - vm_compute. reflexivity.
  - exists s', buf'. split_and!; [exact E|exact Hc|exact Hr].
Defined.
