(* ===== verification/Debug.v ===== *)
(** * Locks and the page-table dump ([src/kernel/memory.c])

    What no other code calls: the spin lock, one word that
    [__sync_lock_test_and_set] exchanges with 1, and the dump of the top-level
    page table to the serial port.  The lock is also run by any number of
    threads that interleave at its atomic steps: at most one holds it. *)

From S2P Require Import Prelude.
From S2P Require Import ByteMem.
From S2P Require Import Kmem.
From S2P Require Import Paging.
From S2P Require Import Io.
From S2P Require Import Elf.
From S2P Require Import Syscall.
From S2P Require Import Idt.

(** ** The lock: the word [sl->lock] *)

Definition spinlock_init : ST Z unit := modify (fun _ => 0).
(** [__sync_lock_test_and_set(&sl->lock, 1)]. *)
Definition test_and_set : ST Z Z := fun l => (l, 1).
(** One round of the loop of [spinlock_acquire]: [true] ends it. *)
Definition spinlock_try_acquire : ST Z bool := let* old := test_and_set in ret (old =? 0).
Definition spinlock_release : ST Z unit := modify (fun _ => 0).

(** [None]: still spinning when the fuel is used up. *)
Fixpoint spinlock_acquire (fuel : nat) : ST Z (option unit) :=
  match fuel with
  | O => ret None
  | S f =>
      let* ok := spinlock_try_acquire in
      if ok then ret (Some tt) else spinlock_acquire f
  end.

(** ** Threads *)

Inductive thread := Outside | Acquiring | Inside.

(** A thread calls [spinlock_acquire], goes through a round of its loop, or
    leaves with [spinlock_release]. *)
Inductive lock_step : Z * list thread -> Z * list thread -> Prop :=
| lock_call l ts i : ts !! i = Some Outside -> lock_step (l, ts) (l, <[i := Acquiring]> ts)
| lock_round l ts i ok l' :
    ts !! i = Some Acquiring -> spinlock_try_acquire l = (ok, l') ->
    lock_step (l, ts) (l', if ok then <[i := Inside]> ts else ts)
| lock_leave l ts i : ts !! i = Some Inside -> lock_step (l, ts) ((spinlock_release l).2, <[i := Outside]> ts).

Inductive lock_run : Z * list thread -> Z * list thread -> Prop :=
| lock_none s : lock_run s s
| lock_more s s1 s2 : lock_run s s1 -> lock_step s1 s2 -> lock_run s s2.

(** The word is 0 and nobody is inside, or it is 1 and exactly one is. *)
Definition lock_inv (s : Z * list thread) : Prop :=
  s.1 = 0 /\ Inside ∉ s.2
  \/ s.1 = 1 /\ exists i, s.2 !! i = Some Inside /\ forall j, s.2 !! j = Some Inside -> j = i.

Lemma lock_inv_outside (ts : list thread) (i : nat) (t : thread) : t <> Inside -> Inside ∉ ts -> Inside ∉ <[i := t]> ts.
Proof.
  intros Ht Hn [j Hj]%list_elem_of_lookup. apply Hn. apply list_elem_of_lookup. exists j.
  destruct (decide (i = j)) as [<-|Hne]; [|by rewrite list_lookup_insert_ne in Hj].
  destruct (decide (i < length ts)%nat); [rewrite list_lookup_insert_eq in Hj by done; by simplify_eq|].
  by rewrite list_insert_ge in Hj by lia.
Qed.

Lemma lock_inv_step s s' : lock_step s s' -> lock_inv s -> lock_inv s'.
Proof.
  intros Hs. destruct Hs as [l ts i Hi|l ts i ok l' Hi Hr|l ts i Hi]; unfold lock_inv; cbn [fst snd].
  - intros [[Hl Hn]|[Hl (k & Hk & Hu)]]; [left; split; [done|by apply lock_inv_outside]|right; split; [done|]].
    assert (Hne : i <> k) by congruence. exists k. split; [by rewrite list_lookup_insert_ne|].
    intros j Hj. apply Hu. destruct (decide (i = j)) as [<-|Hij]; [|by rewrite list_lookup_insert_ne in Hj].
    rewrite list_lookup_insert_eq in Hj by by eapply lookup_lt_Some. done.
  - unfold spinlock_try_acquire, bind, test_and_set, ret in Hr. injection Hr as <- <-.
    intros [[-> Hn]|[-> H]]; [|by right]. right. split; [done|]. cbn. exists i.
    split; [apply list_lookup_insert_eq; by eapply lookup_lt_Some|]. intros j Hj.
    destruct (decide (i = j)) as [|Hij]; [done|]. rewrite list_lookup_insert_ne in Hj by done.
    exfalso. apply Hn. by eapply list_elem_of_lookup_2.
  - intros [[_ Hn]|[_ (k & Hk & Hu)]]; [by apply list_elem_of_lookup_2 in Hi|]. left. split; [done|].
    pose proof (Hu i Hi) as ->. intros [j Hj]%list_elem_of_lookup.
    destruct (decide (k = j)) as [<-|Hij].
    + rewrite list_lookup_insert_eq in Hj by by eapply lookup_lt_Some. done.
    + rewrite list_lookup_insert_ne in Hj by done. by apply Hij, eq_sym, Hu.
Qed.

(** However the threads interleave, at most one is between [spinlock_acquire]
    and [spinlock_release], and the word tells whether one is. *)
Theorem spinlock_excludes n l s : lock_run ((spinlock_init l).2, replicate n Outside) s -> lock_inv s.
Proof.
  remember (_, _) as s0 eqn:E0. induction 1 as [|s s1 s2 _ IH Hs]; [subst|eapply lock_inv_step; eauto].
  left. split; [done|]. cbn. intros [Hx _]%elem_of_replicate. done.
Qed.

(** ** The dump *)

Section Dump.
Context {P D : Type} {io : PortIO P}.

Abbreviation MACH := (ST (machine P D)).

Definition put_char (fuel : nat) (c : Z) : MACH unit := do* on_ports (serial_putchar fuel c) in ret tt.
Fixpoint put_chars (fuel : nat) (s : list Z) : MACH unit :=
  match s with
  | [] => ret tt
  | c :: rest => do* put_char fuel c in put_chars fuel rest
  end.

(** The index in three digits, and the address in ten hexadecimal ones. *)
Definition index_text (i : Z) : list Z := [48 + i / 100; 48 + (i / 10) mod 10; 48 + i mod 10].
Definition address_text (addr : Z) : list Z :=
  map (fun k => hex_digit (nibble addr (36 - 4 * Z.of_nat k))) (seq 0 10).

Definition print_entry (fuel : nat) (i : Z) (e : Z) : MACH unit :=
  if negb (has e PAGE_PRESENT) then ret tt
  else
    do* say fuel (str "  [") 3 in
    do* put_chars fuel (index_text i) in
    do* say fuel (str "] -> 0x") 7 in
    do* put_chars fuel (address_text (frame e)) in
    do* say fuel (str " flags:") 7 in
    do* (if has e PAGE_USER then say fuel (str " USER") 5 else ret tt) in
    do* (if has e PAGE_RW then say fuel (str " RW") 3 else ret tt) in
    put_char fuel 10.

Definition memory_print_pagetables (fuel : nat) : MACH unit :=
  do* say fuel (str "PML4:" ++ [10]) 6 in
  for_loop 512 0 (fun i =>
    let* e := on_tasks (gets (fun s => load64 (phys (Task.km s)) (ent PML4_ADDR i))) in
    print_entry fuel i e).

End Dump.
