(* ===== verification/ElfProps.v ===== *)
(** * Properties of the program loader

    A page-aligned segment ends up in the new address space byte for byte; a
    segment whose address is not page aligned is shifted to the start of its
    page; and the pages of a large bss take the slots the stack needs. *)

From S2P Require Import Prelude.
From S2P Require Import ByteMem.
From S2P Require Import Kmem.
From S2P Require Import Paging.
From S2P Require Import VmRegion.
From S2P Require Import Elf.

#[local] Opaque load64 store64 load8 memory_set memory_copy memory_alloc_page paging_map_4kb.

Lemma map_4kb_cur root k own virt pa flags :
  kmem_wf k -> pt_wf k root own ->
  page_alloc_cur k <= page_alloc_cur (paging_map_4kb root virt pa flags k).2.
Proof.
  intros Hk Hw. Local Transparent paging_map_4kb. unfold paging_map_4kb.
  destruct (paging_walk_4kb root virt true k) as [pte k1] eqn:Ew. rewrite (bind_run _ _ _ _ _ Ew).
  destruct (walk_spec _ _ _ _ _ _ Hk Hw Ew) as (own' & G & _). pose proof (gr_cur _ _ _ _ _ G).
  by destruct pte.
Qed.
#[local] Opaque paging_map_4kb.

(** What a step keeps: the tables grow from the pool, and memory outside the
    tables and the pool stays. *)
Record step_keeps (root : Z) (k : kmem) (own : gmap Z (nat * Z)) (k' : kmem) (own' : gmap Z (nat * Z))
  : Prop := {
  sk_kmem : kmem_wf k';
  sk_wf : pt_wf k' root own';
  sk_sub : own ⊆ own';
  sk_new p lx : own' !! p = Some lx -> own !! p = None ->
    page_alloc_cur k <= p /\ p + 4096 <= PAGE_ALLOC_END;
  sk_cur : page_alloc_cur k <= page_alloc_cur k';
  sk_bytes a : ~ page_alloc_cur k <= a < PAGE_ALLOC_END ->
    (forall p lx, own !! p = Some lx -> ~ p <= a < p + 4096) -> load8 (phys k') a = load8 (phys k) a
}.

Lemma step_keeps_refl root k own : kmem_wf k -> pt_wf k root own -> step_keeps root k own k own.
Proof. intros. split; intros; (done || lia || congruence). Qed.

Lemma step_keeps_trans root k own k1 own1 k2 own2 :
  step_keeps root k own k1 own1 -> step_keeps root k1 own1 k2 own2 -> step_keeps root k own k2 own2.
Proof.
  intros [A1 A2 A3 A4 A5 A6] [B1 B2 B3 B4 B5 B6]. split; [done|done|by etrans| |lia|].
  - intros p lx Hp Hn. destruct (own1 !! p) as [lx1|] eqn:E; [by eapply A4|].
    destruct (B4 _ _ Hp E). lia.
  - intros a Ha Ho. rewrite B6; [by apply A6|lia|]. intros p lx Hp.
    destruct (own !! p) as [lx0|] eqn:E0; [by eapply Ho|]. destruct (A4 _ _ Hp E0). lia.
Qed.

(** ** One page of the file *)

Lemma file_page_run root k own buf page vaddr filesz offset ok k' :
  kmem_wf k -> pt_wf k root own ->
  let src := u64 (buf + u64 (offset + copy_offset page vaddr)) in
  let n := copy_size page vaddr filesz in
  0 <= n <= 4096 -> src + n <= PAGE_ALLOC_START ->
  elf_file_page root buf page vaddr filesz offset k = (ok, k') ->
  exists own', step_keeps root k own k' own' /\
  (ok = true -> exists q,
     own' !! q = None /\ aligned q /\ PAGE_ALLOC_START <= q /\ q + 4096 <= page_alloc_cur k'
     /\ (forall w, phys_of k' root w = if decide (page_no w = page_no page) then Some q else phys_of k root w)
     /\ forall j, 0 <= j < 4096 ->
          load8 (phys k') (q + j) = if decide (j < n) then load8 (phys k) (src + j) else 0).
Proof.
  intros Hk Hw src n Hn Hsrc. unfold elf_file_page. unfold bind at 1.
  destruct (memory_alloc_page k) as [q k1] eqn:Ea.
  destruct (Z.eqb_spec q 0) as [->|Hq].
  { intros [= <- <-]. destruct (alloc_page_null _ _ Hk Ea) as [-> _]. exists own.
    split; [by apply step_keeps_refl|done]. }
  destruct (alloc_page_fresh _ _ _ Hk Ea Hq) as (Eq & Ecur & Eal & Est & Een & Ez & _ & _).
  destruct (fresh_page _ _ _ _ _ Hk Hw Ea Hq) as [Hown Hapart].
  destruct (alloc_same _ _ _ _ _ Hk Hw Ea Hq) as [Hs1 Hw1].
  pose proof (alloc_page_wf _ _ _ Hk Ea) as Hk1.
  fold src n. set (k2 := set_phys (memory_copy q src n (phys k1)) k1).
  assert (Hld2 : forall x, load8 (phys k2) x =
      if decide (q <= x < q + n) then load8 (phys k1) (src + (x - q)) else load8 (phys k1) x)
    by (intros x; apply load8_memory_copy; lia).
  assert (Hk2 : kmem_wf k2) by (destruct Hk1; constructor; assumption).
  assert (Hs2 : tables_same (phys k1) (phys k2) own).
  { apply tables_same_bytes. intros p lx a Hp Ha. rewrite Hld2, decide_False; [done|].
    specialize (Hapart _ _ Hp). lia. }
  assert (Hw2 : pt_wf k2 root own) by (eapply pt_wf_same; [exact Hw1|exact Hs2|cbn; lia]).
  unfold bind, modify. fold k2. destruct (paging_map_4kb root page q USER_RWX k2) as [r k3] eqn:Em.
  intros [= <- <-].
  assert (Hfl : 0 <= USER_RWX < 4096) by by cbv.
  assert (Hqr : 0 <= q < 2 ^ 52) by (unfold PAGE_ALLOC_START, PAGE_ALLOC_END in *; lia).
  destruct (map_4kb_run _ _ _ _ _ _ _ _ Hk2 Hw2 (Eal : aligned q) Hqr Hfl Em)
    as (own' & K3 & W3 & Hsub & Hnew & Hr & _ & Hb).
  pose proof (map_4kb_cur root k2 own page q USER_RWX Hk2 Hw2) as Hcur3. rewrite Em in Hcur3. cbn in Hcur3.
  cbn [page_alloc_cur set_phys k2] in Hcur3, Hnew, Hb.
  exists own'. split.
  - split; [done|done|done| |lia|].
    + intros p lx Hp Hn'. destruct (Hnew _ _ Hp Hn'). lia.
    + intros a Ha Ho. rewrite Hb by (done || lia).
      rewrite Hld2, decide_False by (unfold PAGE_ALLOC_END in *; lia). by rewrite Ez, decide_False by lia.
  - intros Hok. destruct Hr as [(-> & Hph & _)|(-> & _)]; [|done].
    exists q. split_and!; [|done|lia|lia| |].
    + destruct (own' !! q) as [lx|] eqn:E; [|done]. destruct (Hnew _ _ E Hown). lia.
    + intros w. rewrite Hph. case_decide; [done|].
      rewrite (phys_of_same k1 k2 root own w Hw1 Hs2). by apply (phys_of_same k k1 root own w Hw Hs1).
    + intros j Hj. rewrite Hb; [|lia|intros p lx Hp; specialize (Hapart _ _ Hp); lia].
      rewrite Hld2. destruct (decide (j < n)).
      * rewrite decide_True by lia. replace (src + (q + j - q)) with (src + j) by lia.
        by rewrite Ez, decide_False by lia.
      * rewrite decide_False by lia. by rewrite Ez, decide_True by lia.
Qed.

(** ** A page-aligned segment *)

(** The byte a program sees at [v]. *)
Definition vbyte (k : kmem) (root v : Z) : option Z :=
  option_map (fun p => load8 (phys k) (p + v mod 4096)) (phys_of k root v).

Definition page_up (a : Z) : Z := (a + 4095) / 4096 * 4096.

Section Segment.
Context (root buf vaddr filesz offset : Z) (k0 : kmem) (own0 : gmap Z (nat * Z)).
Context (Hvaddr : aligned vaddr) (Hlow : 0 <= vaddr) (Hfs : 0 <= filesz) (Hhigh : vaddr + filesz < 2 ^ 46).
Context (Hbuf : 0 <= buf) (Hoff : 0 <= offset) (Hsrc : buf + offset + filesz <= PAGE_ALLOC_START).
Context (Hsrc_own : forall p lx, own0 !! p = Some lx ->
  p + 4096 <= buf + offset \/ buf + offset + filesz <= p).

(** The pages from [vaddr] to [hi] hold the file's bytes and zeros. *)
Record filled (k : kmem) (own : gmap Z (nat * Z)) (hi : Z) : Prop := {
  fl_keeps : step_keeps root k0 own0 k own;
  fl_bytes v : vaddr <= v < hi -> exists q, phys_of k root v = Some q
    /\ aligned q /\ own !! q = None /\ PAGE_ALLOC_START <= q /\ q + 4096 <= page_alloc_cur k
    /\ load8 (phys k) (q + v mod 4096) =
         if decide (v - vaddr < filesz) then load8 (phys k0) (buf + offset + (v - vaddr)) else 0;
  fl_other w : w / 4096 mod 2 ^ 36 < vaddr / 4096 \/ hi / 4096 <= w / 4096 mod 2 ^ 36 ->
    phys_of k root w = phys_of k0 root w
}.

Lemma page_no_small v : 0 <= v < 2 ^ 47 -> page_no v = v / 4096.
Proof. intros. unfold page_no. apply Z.mod_small. zlia. Qed.

Lemma filled_step k own page k' :
  filled k own page -> aligned page -> vaddr <= page < vaddr + filesz ->
  kmem_wf k0 -> elf_file_page root buf page vaddr filesz offset k = (true, k') ->
  exists own', filled k' own' (page + 4096).
Proof.
  intros [Hkeep Hbytes Hother] Hal Hpg Hk0 Hrun.
  pose proof (wf_cur _ Hk0) as Hcur0. unfold aligned in Hvaddr, Hal.
  assert (Hoffc : copy_offset page vaddr = page - vaddr).
  { unfold copy_offset. destruct (Z.ltb_spec page vaddr); [lia|]. apply u64_small. lia. }
  assert (Hsrcc : u64 (buf + u64 (offset + copy_offset page vaddr)) = buf + offset + (page - vaddr)).
  { rewrite Hoffc. unfold PAGE_ALLOC_START in *. rewrite (u64_small (offset + _)) by lia.
    rewrite u64_small by lia. lia. }
  set (n := copy_size page vaddr filesz).
  assert (Hn : 0 <= n <= 4096 /\ n = Z.min 4096 (filesz - (page - vaddr))).
  { unfold n, copy_size. rewrite Hoffc, (u64_small (page - vaddr + 4096)) by lia.
    destruct (Z.ltb_spec filesz (page - vaddr + 4096)); rewrite ?u64_small by lia; lia. }
  destruct (file_page_run root k own buf page vaddr filesz offset true k'
    (sk_kmem _ _ _ _ _ Hkeep) (sk_wf _ _ _ _ _ Hkeep)) as (own' & Hst & Hq);
    [fold n; lia|fold n; rewrite Hsrcc; lia|exact Hrun|].
  destruct (Hq eq_refl) as (q & Hqo & Hqa & Hqs & Hqe & Hqp & Hqb). clear Hq. fold n in Hqb.
  rewrite Hsrcc in Hqb. exists own'. split; [by eapply step_keeps_trans| |].
  - intros v Hv. destruct (decide (page <= v)).
    + exists q. rewrite Hqp, decide_True by (rewrite !page_no_small by lia; zlia).
      split_and!; [done|done|done|done|done|]. replace (q + v mod 4096) with (q + (v - page)) by zlia.
      rewrite Hqb by lia. repeat case_decide; try lia.
      rewrite (sk_bytes _ _ _ _ _ Hkeep); [f_equal; lia|unfold PAGE_ALLOC_START in *; lia|].
      intros p lx Hp. specialize (Hsrc_own _ _ Hp). lia.
    + destruct (Hbytes v) as (q' & Hp' & Ha' & Ho' & Hs' & He' & Hb'); [lia|]. exists q'.
      rewrite Hqp, decide_False by (rewrite !page_no_small by lia; zlia).
      pose proof (sk_cur _ _ _ _ _ Hst) as Hc.
      split_and!; [done|done| |done|lia|].
      * destruct (own' !! q') as [lx|] eqn:E; [|done]. destruct (sk_new _ _ _ _ _ Hst _ _ E Ho'). lia.
      * rewrite <- Hb'. apply (sk_bytes _ _ _ _ _ Hst); [zlia|].
        intros p lx Hp Hin. assert (Hne : p <> q') by congruence.
        destruct (pw_page _ _ _ (sk_wf _ _ _ _ _ Hkeep) _ _ Hp) as (Hpa & _).
        pose proof (aligned_apart p q' Hpa Ha' Hne). zlia.
  - intros w Hw. rewrite Hqp, decide_False; [apply Hother; zlia|].
    rewrite (page_no_small page) by lia. unfold page_no. zlia.
Qed.

Lemma pages_run end_ n : forall page k own v k' v',
  kmem_wf k0 -> aligned page -> vaddr <= page -> page + 4096 * Z.of_nat n < 2 ^ 47 ->
  filled k own (Z.min page (page_up (vaddr + filesz))) ->
  elf_pages n root buf vaddr filesz offset end_ page (k, v) = (true, (k', v')) ->
  exists own', filled k' own' (Z.min (page + 4096 * Z.of_nat n) (page_up (vaddr + filesz))).
Proof.
  induction n as [|n IH]; intros page k own v k' v' Hk0 Hal Hge Hlt Hfl; cbn [elf_pages].
  - intros [= <- <-]. exists own. by rewrite Z.add_0_r.
  - unfold elf_page. rewrite (u64_small (vaddr + filesz)) by lia. unfold aligned in Hal, Hvaddr.
    assert (Hcap : page < vaddr + filesz <-> page < page_up (vaddr + filesz)) by (unfold page_up; zlia).
    rewrite (u64_small (page + 0x1000)) by lia.
    assert (Hal1 : aligned (page + 0x1000)) by (unfold aligned; zlia).
    assert (Hnext : page + 4096 * Z.of_nat (S n) = page + 0x1000 + 4096 * Z.of_nat n) by lia.
    destruct (Z.ltb_spec page (vaddr + filesz)) as [Hin|Hout].
    + unfold bind, on_mem. destruct (elf_file_page root buf page vaddr filesz offset k) as [ok k1] eqn:E.
      destruct ok; [|done]. intros Hrun.
      rewrite Z.min_l in Hfl by (rewrite Hcap in Hin; lia).
      destruct (filled_step _ _ _ _ Hfl Hal (conj Hge Hin) Hk0 E) as [own1 Hfl1].
      assert (Hmin : Z.min (page + 0x1000) (page_up (vaddr + filesz)) = page + 4096)
        by (unfold page_up in *; zlia).
      rewrite Hnext. eapply IH; [done|exact Hal1|lia|lia|by rewrite Hmin|exact Hrun].
    + unfold bind, add_region, modify, ret. intros Hrun. rewrite Z.min_r in Hfl by lia.
      rewrite Hnext. eapply IH; [done|exact Hal1|lia|lia|by rewrite Z.min_r by lia|exact Hrun].
Qed.

End Segment.

(** C22: a page-aligned segment is loaded byte for byte.  When [elf_segment]
    succeeds on a loadable segment whose address is a multiple of 4096 (its
    file part lying in the buffer, outside tables and page pool), the program
    reads at every address of the file part the file's byte, and zeros from
    there to the end of the last page that has file bytes; every other page
    translates as before, and the page tables stay well formed. *)
Theorem elf_segment_loads root k own v buf p k' v' :
  kmem_wf k -> pt_wf k root own -> p_type p = PT_LOAD ->
  aligned (p_vaddr p) -> 0 <= p_vaddr p -> 0 <= p_filesz p <= p_memsz p ->
  0 < p_memsz p -> p_vaddr p + p_memsz p < 2 ^ 46 ->
  0 <= buf -> 0 <= p_offset p -> buf + p_offset p + p_filesz p <= PAGE_ALLOC_START ->
  (forall t lx, own !! t = Some lx ->
     t + 4096 <= buf + p_offset p \/ buf + p_offset p + p_filesz p <= t) ->
  elf_segment root buf p (k, v) = (true, (k', v')) ->
  (forall i, 0 <= i < p_filesz p ->
     vbyte k' root (p_vaddr p + i) = Some (load8 (phys k) (buf + p_offset p + i)))
  /\ (forall i, p_filesz p <= i < page_up (p_vaddr p + p_filesz p) - p_vaddr p ->
     vbyte k' root (p_vaddr p + i) = Some 0)
  /\ (forall w, page_no w < page_no (p_vaddr p) \/ page_no (page_up (p_vaddr p + p_filesz p)) <= page_no w ->
     phys_of k' root w = phys_of k root w)
  /\ kmem_wf k' /\ exists own', pt_wf k' root own'.
Proof.
  intros Hk Hw Hty Hal Hv0 Hfs Hm0 Hvm Hb0 Ho0 Hsrc Hso Hrun.
  set (va := p_vaddr p) in *. set (F := p_filesz p) in *. pose proof Hal as Hal'. unfold aligned in Hal'.
  unfold elf_segment in Hrun. rewrite Hty, Z.eqb_refl in Hrun. cbn [negb] in Hrun.
  rewrite (proj2 (Z.eqb_neq _ _)) in Hrun by lia. cbv zeta in Hrun. fold va F in Hrun.
  assert (Hbase : frame va = va) by (rewrite frame_div by lia; zlia).
  assert (Hend : frame (u64 (va + p_memsz p + 0xFFF)) = page_up (va + p_memsz p)).
  { rewrite u64_small by lia. rewrite frame_div by lia. unfold page_up. done. }
  rewrite Hbase, Hend in Hrun.
  assert (Hinit : filled root buf va F (p_offset p) k own k own (Z.min va (page_up (va + F)))).
  { rewrite Z.min_l by (unfold page_up; zlia). split; [by apply step_keeps_refl|intros; lia|done]. }
  set (n := Z.to_nat ((page_up (va + p_memsz p) - va) / 4096)) in *.
  assert (Hn : va + 4096 * Z.of_nat n = page_up (va + p_memsz p)) by (unfold n, page_up; zlia).
  assert (Hup : page_up (va + p_memsz p) < 2 ^ 47) by (unfold page_up; zlia).
  assert (HF : va + F < 2 ^ 46) by lia.
  destruct (pages_run root buf va F (p_offset p) k own Hal Hv0 (proj1 Hfs) HF Hb0 Ho0 Hsrc Hso
    (page_up (va + p_memsz p)) n va k own v k' v' Hk Hal (Z.le_refl va)) as [own' [Hkeep Hbytes Hother]];
    [by rewrite Hn|exact Hinit|exact Hrun|].
  rewrite Hn in Hbytes, Hother.
  rewrite Z.min_r in Hbytes, Hother by (unfold page_up; zlia).
  assert (Hcap : page_up (va + F) < 2 ^ 47 /\ va <= page_up (va + F)) by (unfold page_up; zlia).
  split_and!.
  - intros i Hi. destruct (Hbytes (va + i)) as (q & Hq & _ & _ & _ & _ & Hb); [unfold page_up; zlia|].
    unfold vbyte. rewrite Hq. cbn [option_map]. rewrite Hb, decide_True by lia. do 2 f_equal. lia.
  - intros i Hi. destruct (Hbytes (va + i)) as (q & Hq & _ & _ & _ & _ & Hb); [lia|].
    unfold vbyte. rewrite Hq. cbn [option_map]. by rewrite Hb, decide_False by lia.
  - intros w Hpg. apply Hother.
    rewrite (page_no_small va), (page_no_small (page_up (va + F))) in Hpg by lia. exact Hpg.
  - apply Hkeep.
  - exists own'. apply Hkeep.
Qed.

(** The boot tables, and a buffer in the heap that holds a segment of one
    byte in the file and 4 in memory. *)
Definition demo_phdr : elf64_phdr := Phdr PT_LOAD 0 0x401000 1 4.
Definition demo_kmem : kmem := set_phys (store8 (phys boot_tables) 0x200018 0x90) boot_tables.

Lemma demo_kmem_wf : kmem_wf demo_kmem /\ pt_wf demo_kmem PML4_ADDR boot_own.
Proof.
  destruct boot_tables_wf as [Hk _]. split; [destruct Hk; constructor; assumption|].
  apply pt_check_sound. vm_compute. reflexivity.
Qed.

Lemma elf_segment_loads_witness :
  exists k' v', elf_segment PML4_ADDR 0x200018 demo_phdr (demo_kmem, None) = (true, (k', v'))
    /\ vbyte k' PML4_ADDR 0x401000 = Some 0x90.
Proof.
  destruct demo_kmem_wf as [Hk Hw].
  assert (Hok : (elf_segment PML4_ADDR 0x200018 demo_phdr (demo_kmem, None)).1 = true)
    by (vm_compute; reflexivity).
  destruct (elf_segment PML4_ADDR 0x200018 demo_phdr (demo_kmem, None)) as [ok [k' v']] eqn:E.
  cbn [fst] in Hok. rewrite Hok in *. exists k', v'. split; [reflexivity|].
  destruct (elf_segment_loads PML4_ADDR demo_kmem boot_own None 0x200018 demo_phdr k' v' Hk Hw eq_refl) as [H _];
    try (cbn; unfold PAGE_ALLOC_START; lia); try reflexivity.
  - intros t lx Ht. left. cbn. unfold boot_own in Ht.
    repeat (apply lookup_insert_Some in Ht as [[<- _]|[_ Ht]]; [lia|]). by rewrite lookup_empty in Ht.
  - exact E.
  - specialize (H 0 ltac:(cbn; lia)). exact H.
Defined.

(** ** Pages past the file part *)

Definition BSS_FLAGS : Z := Z.lor PAGE_USER PAGE_RW.

(** The regions the loader adds for [n] such pages. *)
Fixpoint bss_regions (n : nat) (page : Z) : list vm_region :=
  match n with
  | O => []
  | S n => VmRegion page (page + 4096) BSS_FLAGS :: bss_regions n (page + 4096)
  end.

Lemma elf_pages_bss root buf va F off end_ n : forall page k t,
  0 <= va -> 0 <= F -> va + F <= page -> page + 4096 * Z.of_nat n <= end_ -> end_ < 2 ^ 63 ->
  elf_pages n root buf va F off end_ page (k, Some t) = (true, (k, Some (add_all t (bss_regions n page)))).
Proof.
  induction n as [|n IH]; intros page k t Hva HF Hge Hle Hend; [done|]. cbn [elf_pages]. unfold elf_page.
  rewrite (u64_small (va + F)) by lia. destruct (Z.ltb_spec page (va + F)); [lia|].
  rewrite !(u64_small (page + 0x1000)) by lia. destruct (Z.ltb_spec end_ (page + 0x1000)); [lia|].
  unfold bind, add_region, modify, ret. cbn [option_map]. rewrite IH by lia. done.
Qed.

Lemma bss_regions_used n : forall page, 0 < page -> Forall used_region (bss_regions n page).
Proof.
  induction n as [|n IH]; intros page Hp; constructor; [|apply IH; lia].
  unfold used_region, slot_free. cbn. destruct (Z.eqb_spec page 0); [lia|done].
Qed.

Lemma find_bss n : forall page a, page + 4096 * Z.of_nat n <= a -> find_region (bss_regions n page) a = None.
Proof.
  induction n as [|n IH]; intros page a Ha; [done|]. cbn [bss_regions find_region vr_start vr_end].
  destruct (Z.ltb_spec a (page + 4096)); [lia|]. rewrite andb_false_r. apply IH. lia.
Qed.

Lemma take_bss n : forall m page, (m <= n)%nat -> take m (bss_regions n page) = bss_regions m page.
Proof.
  induction n as [|n IH]; intros [|m] page Hm; [done|lia|done|]. cbn. by rewrite IH by lia.
Qed.

Lemma add_all_snoc t rs s e f : add_all t (rs ++ [VmRegion s e f]) = (vm_region_add (add_all t rs) s e f).1.
Proof. revert t. induction rs as [|r rs IH]; intros t; [done|]. cbn [app add_all]. apply IH. Qed.

(** A program with a large bss has no stack.  The loader adds one region
    per page past the file part, and a task has eight regions: when there are
    eight or more such pages below the stack, the region of the stack
    (0x500000 to 0x510000), which is added last and whose failure is not
    looked at, is not in the table, so a fault on the stack finds no region
    and is not served. *)
Theorem bss_takes_the_stack_slot root buf va F off n page k :
  0 <= va -> 0 <= F -> va + F <= page -> 0 < page -> (MAX_VM_REGIONS <= n)%nat ->
  page + 4096 * Z.of_nat n <= 0x500000 ->
  exists t, (do* elf_pages n root buf va F off (page + 4096 * Z.of_nat n) page in
             add_region 0x500000 0x510000 BSS_FLAGS) (k, Some vm_region_init) = (tt, (k, Some t))
    /\ (forall a, 0x500000 <= a < 0x510000 -> vm_region_contains t a = None)
    /\ forall i, (MAX_VM_REGIONS <= i < n)%nat -> vm_region_contains t (page + 4096 * Z.of_nat i) = None.
Proof.
  intros Hva HF Hge Hp Hn Hlim.
  eexists. split.
  { unfold bind. rewrite elf_pages_bss by lia. unfold add_region, modify. cbn [option_map].
    rewrite <- add_all_snoc. reflexivity. }
  assert (Hu : Forall used_region (bss_regions n page ++ [VmRegion 0x500000 0x510000 BSS_FLAGS])).
  { apply Forall_app. split; [by apply bss_regions_used|]. by repeat constructor. }
  assert (Hlen : length (bss_regions n page) = n) by (clear; revert page; induction n; intros; cbn; auto).
  change vm_region_init with (table_of []).
  rewrite add_all_table by (done || (cbn; lia)). cbn [app].
  rewrite take_app_le by lia. rewrite take_bss by done.
  split; intros; unfold table_of; rewrite contains_skip by (by apply bss_regions_used);
    apply find_bss; unfold MAX_VM_REGIONS in *; lia.
Qed.
