(* ===== verification/LibcString.v ===== *)
(** * The C library: strings and blocks of memory ([src/some-libc/string.c])

    The functions work on the program's memory, a map from addresses to bytes
    (ByteMem), and advance their pointers as the code does.  The loops over C
    strings have no bound in the code; here they take fuel, [None] being a
    string that does not end within it, and the properties are about strings
    that do ([cstr_at]). *)

From S2P Require Import Prelude.
From S2P Require Import ByteMem.

(** [while (s[n]) n++]. *)
Fixpoint strlen_loop (fuel : nat) (m : mem) (s n : Z) : option Z :=
  match fuel with
  | O => None
  | S f => if load8 m (s + n) =? 0 then Some n else strlen_loop f m s (i32 (n + 1))
  end.
Definition strlen (fuel : nat) (m : mem) (s : Z) : option Z := strlen_loop fuel m s 0.

(** Copying up to and including the NUL. *)
Fixpoint copy_str (fuel : nat) (d src : Z) (m : mem) : option mem :=
  match fuel with
  | O => None
  | S f =>
      let c := load8 m src in
      let m1 := store8 m d c in
      if c =? 0 then Some m1 else copy_str f (d + 1) (src + 1) m1
  end.
Definition strcpy (fuel : nat) (dst src : Z) (m : mem) : option (Z * mem) :=
  match copy_str fuel dst src m with Some m' => Some (dst, m') | None => None end.

Fixpoint strcmp (fuel : nat) (m : mem) (a b : Z) : option Z :=
  match fuel with
  | O => None
  | S f =>
      let ca := load8 m a in let cb := load8 m b in
      if negb (ca =? 0) && (ca =? cb) then strcmp f m (a + 1) (b + 1) else Some (ca - cb)
  end.

(** The two loops of [strncpy] with [n] left: copying, and, after the NUL has
    been stored, padding. *)
Fixpoint pad_zero (n : nat) (d : Z) (m : mem) : mem :=
  match n with O => m | S n' => pad_zero n' (d + 1) (store8 m d 0) end.
Fixpoint strncpy_loop (n : nat) (d src : Z) (m : mem) : mem :=
  match n with
  | O => m
  | S n' =>
      let c := load8 m src in
      let m1 := store8 m d c in
      if c =? 0 then pad_zero n' (d + 1) m1 else strncpy_loop n' (d + 1) (src + 1) m1
  end.
Definition strncpy (dst src n : Z) (m : mem) : Z * mem := (dst, strncpy_loop (Z.to_nat n) dst src m).

Fixpoint find_end (fuel : nat) (m : mem) (d : Z) : option Z :=
  match fuel with
  | O => None
  | S f => if load8 m d =? 0 then Some d else find_end f m (d + 1)
  end.
Definition strcat (fuel : nat) (dst src : Z) (m : mem) : option (Z * mem) :=
  match find_end fuel m dst with
  | None => None
  | Some d => match copy_str fuel d src m with Some m' => Some (dst, m') | None => None end
  end.

(** 0 is the null pointer.  A [char] is signed, [c] is an [int]. *)
Fixpoint strchr (fuel : nat) (m : mem) (s c : Z) : option Z :=
  match fuel with
  | O => None
  | S f =>
      if load8 m s =? 0 then Some 0
      else if i8 (load8 m s) =? c then Some s
      else strchr f m (s + 1) c
  end.

Fixpoint memset_loop (n : nat) (d c : Z) (m : mem) : mem :=
  match n with O => m | S n' => memset_loop n' (d + 1) c (store8 m d (u8 c)) end.
Definition memset (dst c n : Z) (m : mem) : Z * mem := (dst, memset_loop (Z.to_nat n) dst c m).

Fixpoint copy_up (n : nat) (d s : Z) (m : mem) : mem :=
  match n with O => m | S n' => copy_up n' (d + 1) (s + 1) (store8 m d (load8 m s)) end.
Definition memcpy (dst src n : Z) (m : mem) : Z * mem := (dst, copy_up (Z.to_nat n) dst src m).

(** Copying from the ends, [d] and [s] being those of what is left. *)
Fixpoint copy_down (n : nat) (d s : Z) (m : mem) : mem :=
  match n with O => m | S n' => copy_down n' (d - 1) (s - 1) (store8 m (d - 1) (load8 m (s - 1))) end.
Definition memmove (dst src n : Z) (m : mem) : Z * mem :=
  (dst, if dst <? src then copy_up (Z.to_nat n) dst src m
        else copy_down (Z.to_nat n) (dst + n) (src + n) m).

(** [while (i < nlen && haystack[i] == needle[i]) i++], with [nlen - i] left. *)
Fixpoint match_len (rounds : nat) (m : mem) (h nd i : Z) : Z :=
  match rounds with
  | O => i
  | S r => if load8 m (h + i) =? load8 m (nd + i) then match_len r m h nd (i + 1) else i
  end.
Fixpoint strstr_loop (fuel : nat) (m : mem) (h nd nlen : Z) : option Z :=
  match fuel with
  | O => None
  | S f =>
      if load8 m h =? 0 then Some 0
      else if match_len (Z.to_nat nlen) m h nd 0 =? nlen then Some h
      else strstr_loop f m (h + 1) nd nlen
  end.
Definition strstr (fuel : nat) (m : mem) (haystack needle : Z) : option Z :=
  if load8 m needle =? 0 then Some haystack
  else match strlen fuel m needle with
       | None => None
       | Some nlen => strstr_loop fuel m haystack needle nlen
       end.

(** ** Blocks *)

Lemma copy_up_load n : forall d s m x,
  d <= s ->
  load8 (copy_up n d s m) x =
    if decide (d <= x < d + Z.of_nat n) then load8 m (s + (x - d)) else load8 m x.
Proof.
  induction n as [|n IH]; intros d s m x Hd; cbn [copy_up]; [by rewrite decide_False by lia|].
  rewrite IH by lia. rewrite !load8_store8.
  assert (Hu : forall a, u8 (load8 m a) = load8 m a) by (intros; apply u8_small, load8_range).
  repeat case_decide; subst; try lia; rewrite ?Hu; try (f_equal; lia).
Qed.

Lemma copy_down_load n : forall d s m x,
  s <= d ->
  load8 (copy_down n d s m) x =
    if decide (d - Z.of_nat n <= x < d) then load8 m (s - (d - x)) else load8 m x.
Proof.
  induction n as [|n IH]; intros d s m x Hd; cbn [copy_down]; [by rewrite decide_False by lia|].
  rewrite IH by lia. rewrite !load8_store8.
  assert (Hu : forall a, u8 (load8 m a) = load8 m a) by (intros; apply u8_small, load8_range).
  repeat case_decide; subst; try lia; rewrite ?Hu; try (f_equal; lia).
Qed.

(** [memmove] moves overlapping blocks.  Whatever the overlap, afterwards
    the destination holds what the source held before, no other byte has
    changed, and the result is the destination. *)
Theorem memmove_overlapping dst src n m x :
  0 <= n ->
  (memmove dst src n m).1 = dst
  /\ load8 (memmove dst src n m).2 x =
       if decide (dst <= x < dst + n) then load8 m (src + (x - dst)) else load8 m x.
Proof.
  intros Hn. split; [done|]. unfold memmove. cbn [snd]. destruct (Z.ltb_spec dst src).
  - rewrite copy_up_load by lia. by replace (Z.of_nat (Z.to_nat n)) with n by lia.
  - rewrite copy_down_load by lia. replace (Z.of_nat (Z.to_nat n)) with n by lia.
    repeat case_decide; try lia; f_equal; lia.
Qed.

(** ** Strings *)

(** The C string at [a] is [s]. *)
Fixpoint cstr_at (m : mem) (a : Z) (s : list Z) : Prop :=
  match s with
  | [] => load8 m a = 0
  | c :: s' => load8 m a = c /\ c <> 0 /\ cstr_at m (a + 1) s'
  end.

Lemma strlen_loop_cstr s : forall fuel m a n,
  cstr_at m (a + n) s -> (length s < fuel)%nat -> 0 <= n -> n + Z.of_nat (length s) < 2 ^ 31 ->
  strlen_loop fuel m a n = Some (n + Z.of_nat (length s)).
Proof.
  induction s as [|c s IH]; intros [|fuel] m a n Hs Hf Hn Hl; try (cbn in Hf; lia); cbn [strlen_loop].
  - cbn in Hs. rewrite Hs, Z.eqb_refl. f_equal. cbn. lia.
  - destruct Hs as (Hc & Hz & Hs). rewrite Hc, (proj2 (Z.eqb_neq _ _) Hz). cbn [length] in *.
    rewrite i32_small by lia. rewrite IH; [f_equal; lia| |lia|lia|lia].
    by replace (a + (n + 1)) with (a + n + 1) by lia.
Qed.

Lemma strcmp_cstr s : forall t fuel m a b,
  cstr_at m a s -> cstr_at m b t -> (length s < fuel)%nat ->
  strcmp fuel m a b = Some (str_diff s t).
Proof.
  induction s as [|c s IH]; intros t [|fuel] m a b Hs Ht Hf; try (cbn in Hf; lia); cbn [strcmp].
  - cbn in Hs. rewrite Hs. destruct t as [|d t]; cbn in *; [by rewrite Ht|by destruct Ht as (-> & _)].
  - destruct Hs as (-> & Hc & Hs). rewrite (proj2 (Z.eqb_neq _ _) Hc). cbn [negb andb].
    destruct t as [|d t].
    + cbn in Ht. rewrite Ht, (proj2 (Z.eqb_neq _ _) Hc). cbn. done.
    + destruct Ht as (-> & Hd & Ht). cbn [str_diff]. destruct (c =? d); [|done].
      apply IH; [done|done|cbn in Hf; lia].
Qed.

Lemma match_len_spec nd : forall (h : list Z) m a b i,
  cstr_at m (a + i) h -> cstr_at m (b + i) nd ->
  match_len (length nd) m a b i = i + Z.of_nat (length nd) <-> exists t, h = nd ++ t.
Proof.
  induction nd as [|c nd IH]; intros h m a b i Hh Hn; cbn [match_len length].
  - split; [by exists h|intros; lia].
  - destruct Hn as (Hc & Hz & Hn). destruct (Z.eqb_spec (load8 m (a + i)) (load8 m (b + i))) as [E|E].
    + destruct h as [|d h]; [cbn in Hh; congruence|]. destruct Hh as (Hd & Hdz & Hh).
      replace (i + Z.of_nat (S (length nd))) with (i + 1 + Z.of_nat (length nd)) by lia.
      rewrite (IH h m a b (i + 1)); [|by replace (a + (i + 1)) with (a + i + 1) by lia
        |by replace (b + (i + 1)) with (b + i + 1) by lia].
      split; intros [t Ht]; exists t; [rewrite Ht|injection Ht as _ Ht; rewrite Ht; done].
      cbn. congruence.
    + split; [lia|]. intros [t ->]. destruct Hh as (Hd & _). congruence.
Qed.

(** [strstr] finds the first occurrence.  For a haystack and a needle that
    are C strings (and shorter than 2^31), the result is the haystack itself
    for the empty needle, a pointer to the first position at which the needle
    occurs, or the null pointer exactly when it occurs nowhere. *)
Theorem strstr_first_occurrence m h nd hs ns fuel :
  cstr_at m h hs -> cstr_at m nd ns -> (length hs < fuel)%nat -> (length ns < fuel)%nat ->
  Z.of_nat (length ns) < 2 ^ 31 -> 0 < h ->
  exists r, strstr fuel m h nd = Some r /\
    ((exists pre post, hs = pre ++ ns ++ post /\ r = h + Z.of_nat (length pre)
        /\ forall pre' post', hs = pre' ++ ns ++ post' -> (length pre <= length pre')%nat)
     \/ (r = 0 /\ forall pre post, hs <> pre ++ ns ++ post)).
Proof.
  intros Hh Hn Hfh Hfn Hl Hpos. unfold strstr. destruct ns as [|c ns].
  { cbn in Hn. rewrite Hn. exists h. split; [done|]. left. exists [], hs. split_and!; [done|cbn; lia|].
    intros. cbn. lia. }
  pose proof Hn as (Hc & Hz & _). rewrite Hc, (proj2 (Z.eqb_neq _ _) Hz).
  set (w := c :: ns) in *.
  assert (Hlen : strlen fuel m nd = Some (Z.of_nat (length w))).
  { unfold strlen. rewrite (strlen_loop_cstr w) by (rewrite ?Z.add_0_r; done || lia). f_equal; lia. }
  rewrite Hlen. clear Hlen Hfn Hc.
  assert (Hwne : w <> []) by done. clearbody w. clear Hz.
  revert h fuel Hh Hfh Hpos. induction hs as [|d hs IH]; intros h [|fuel] Hh Hf Hpos; try (cbn in Hf; lia);
    cbn [strstr_loop].
  - cbn in Hh. rewrite Hh. exists 0. split; [done|]. right. split; [done|].
    intros pre post E. destruct pre, w; done.
  - pose proof Hh as (Hd & Hdz & Hh'). rewrite Hd, (proj2 (Z.eqb_neq _ _) Hdz), Nat2Z.id.
    pose proof (match_len_spec w (d :: hs) m h nd 0) as Hm. rewrite !Z.add_0_r, Z.add_0_l in Hm.
    specialize (Hm Hh Hn).
    destruct (Z.eqb_spec (match_len (length w) m h nd 0) (Z.of_nat (length w))) as [E|E].
    + apply Hm in E as [t E]. exists h. split; [done|]. left. exists [], t. split_and!; [done|cbn; lia|].
      intros. cbn. lia.
    + assert (Hno : forall t, d :: hs <> w ++ t) by (intros t Ht; apply E, Hm; by exists t).
      destruct (IH (h + 1) fuel Hh') as (r & Hr & Hcase); [cbn in Hf; lia|lia|]. exists r. split; [done|].
      destruct Hcase as [(pre & post & -> & -> & Hmin)|[-> Hnone]]; [left|right].
      * exists (d :: pre), post. split_and!; [done|cbn; lia|]. intros pre' post' E'.
        destruct pre' as [|d' pre']; [by apply Hno in E'|]. cbn in *. injection E' as _ E'.
        specialize (Hmin _ _ E'). lia.
      * split; [done|]. intros [|d' pre] post E'; [by apply Hno in E'|]. injection E' as _ E'. by apply Hnone in E'.
Qed.
