(* ===== verification/LibcStdio.v ===== *)
(** * The C library: formatted output ([src/some-libc/stdio.c])

    [printf] builds its output in a buffer of 512 bytes on the stack and hands
    it to SYS_WRITE; here the buffer is the list of bytes stored so far and
    the result what is written.  The variable arguments are a list; taking an
    argument that is not there, or of the other kind, is [None].  The checks
    of the buffer's end are those of the code, so the list shows where it is
    passed. *)

From S2P Require Import Prelude.

(** The decimal or hexadecimal digits of [uval], last digit first; a 32-bit
    value has at most 32 in any base. *)
Definition digit_char (uppercase : bool) (d : Z) : Z :=
  if d <? 10 then 48 + d else if uppercase then 65 + d - 10 else 97 + d - 10.

Fixpoint digits_loop (fuel : nat) (base : Z) (uppercase : bool) (uval : Z) : list Z :=
  match fuel with
  | O => []
  | S f =>
      if 0 <? uval then digit_char uppercase (uval mod base) :: digits_loop f base uppercase (uval / base)
      else []
  end.

(** The bytes [_printf_int] stores; [-val] wraps for the least integer. *)
Definition printf_int (val base : Z) (uppercase : bool) : list Z :=
  let neg := (base =? 10) && (val <? 0) in
  let uval := if neg then u32 (i32 (- val)) else u32 val in
  let buf := if uval =? 0 then [48] else digits_loop 32 base uppercase uval in
  rev (if neg then buf ++ [45] else buf).

Inductive arg := AInt (v : Z) | AStr (s : option (list Z)).   (* None: NULL *)

(** [buf + sizeof(buf) - 1] as an offset. *)
Definition PRINTF_END : nat := 511.

(** One conversion, at the character after the percent sign; [out] is what
    [buf] holds up to [p]. *)
Definition convert (c : Z) (args : list arg) (out : list Z) : option (list Z * list arg) :=
  if c =? 115 then                                                  (* s *)
    match args with
    | AStr s :: args' =>
        let s := match s with None => str "(null)" | Some s => s end in
        Some (out ++ take (PRINTF_END - length out) s, args')
    | _ => None
    end
  else if c =? 100 then                                             (* d *)
    match args with AInt v :: args' => Some (out ++ printf_int (i32 v) 10 false, args') | _ => None end
  else if c =? 117 then                                             (* u *)
    match args with AInt v :: args' => Some (out ++ printf_int (i32 (u32 v)) 10 false, args') | _ => None end
  else if c =? 120 then                                             (* x *)
    match args with AInt v :: args' => Some (out ++ printf_int (i32 v) 16 false, args') | _ => None end
  else if c =? 88 then                                              (* X *)
    match args with AInt v :: args' => Some (out ++ printf_int (i32 v) 16 true, args') | _ => None end
  else if c =? 99 then                                              (* c *)
    match args with AInt v :: args' => Some (out ++ [u8 v], args') | _ => None end
  else if c =? 37 then Some (out ++ [37], args)
  else Some (out, args).

(** The loop over the format; the result is the bytes before the final NUL. *)
Fixpoint printf_loop (fmt : list Z) (args : list arg) (out : list Z) : option (list Z) :=
  match fmt with
  | [] => Some out
  | c :: rest =>
      if (PRINTF_END <=? length out)%nat then Some out
      else if negb (c =? 37) then printf_loop rest args (out ++ [c])
      else
        match rest with
        | [] => Some out
        | d :: rest' =>
            match convert d args out with
            | None => None
            | Some (out', args') => printf_loop rest' args' out'
            end
        end
  end.

Definition printf (fmt : list Z) (args : list arg) : option (list Z) := printf_loop fmt args [].

(** ** Numbers *)

Definition digit_value (c : Z) : Z :=
  if c <? 65 then c - 48 else if c <? 97 then c - 65 + 10 else c - 97 + 10.

(** The number written by digits, first digit first. *)
Definition value (base : Z) (s : list Z) : Z := foldl (fun acc c => acc * base + digit_value c) 0 s.

Lemma digit_char_value up d : 0 <= d < 16 -> digit_value (digit_char up d) = d.
Proof.
  intros Hd. unfold digit_char, digit_value. destruct (Z.ltb_spec d 10).
  - destruct (Z.ltb_spec (48 + d) 65); lia.
  - destruct up; [destruct (Z.ltb_spec (65 + d - 10) 65); destruct (Z.ltb_spec (65 + d - 10) 97)
                 |destruct (Z.ltb_spec (97 + d - 10) 65); destruct (Z.ltb_spec (97 + d - 10) 97)]; lia.
Qed.

Lemma value_snoc base s c : value base (s ++ [c]) = value base s * base + digit_value c.
Proof. unfold value. by rewrite foldl_app. Qed.

Lemma digits_value base up fuel : 2 <= base <= 16 -> forall u,
  0 <= u < 2 ^ Z.of_nat fuel -> value base (rev (digits_loop fuel base up u)) = u.
Proof.
  intros Hb. induction fuel as [|fuel IH]; intros u Hu; cbn [digits_loop].
  - change (2 ^ Z.of_nat 0) with 1 in Hu. cbn. lia.
  - destruct (Z.ltb_spec 0 u); [|cbn; lia]. cbn [rev]. rewrite value_snoc.
    assert (Hm : 0 <= u mod base < base) by (apply Z.mod_pos_bound; lia).
    rewrite digit_char_value by lia. rewrite IH.
    + rewrite Z.mul_comm. symmetry. apply Z.div_mod. lia.
    + split; [apply Z.div_pos; lia|]. apply Z.div_lt_upper_bound; [lia|].
      replace (Z.of_nat (S fuel)) with (1 + Z.of_nat fuel) in Hu by lia.
      rewrite Z.pow_add_r in Hu by lia. change (2 ^ 1) with 2 in Hu. nia.
Qed.

(** No leading zero. *)
Lemma digits_lead base up fuel : 2 <= base <= 16 -> forall u,
  0 < u < 2 ^ Z.of_nat fuel ->
  exists d rest, rev (digits_loop fuel base up u) = d :: rest /\ digit_value d <> 0.
Proof.
  intros Hb. induction fuel as [|fuel IH]; intros u Hu.
  - change (2 ^ Z.of_nat 0) with 1 in Hu. lia.
  - cbn [digits_loop]. destruct (Z.ltb_spec 0 u); [|lia]. cbn [rev].
    destruct (Z.eqb_spec (u / base) 0) as [E|E].
    + rewrite E. assert (digits_loop fuel base up 0 = []) as -> by (by destruct fuel). cbn.
      assert (u < base) by (apply Z.div_small_iff in E; lia).
      eexists _, []. split; [done|]. rewrite digit_char_value by zlia. rewrite Z.mod_small; lia.
    + destruct (IH (u / base)) as (d & rest & -> & Hd).
      * assert (0 <= u / base) by (apply Z.div_pos; lia). split; [lia|].
        apply Z.div_lt_upper_bound; [lia|].
        replace (Z.of_nat (S fuel)) with (1 + Z.of_nat fuel) in Hu by lia.
        rewrite Z.pow_add_r in Hu by lia. change (2 ^ 1) with 2 in Hu. nia.
      * exists d, (rest ++ [digit_char up (u mod base)]). by split.
Qed.

(** The notation of a number: a minus sign for a negative one, digits that
    denote its absolute value, and no leading zero but that of 0. *)
Definition denotes (base : Z) (s : list Z) (v : Z) : Prop :=
  exists ds, s = (if v <? 0 then [45] else []) ++ ds /\ value base ds = Z.abs v
    /\ ds <> [] /\ (v <> 0 -> forall d rest, ds = d :: rest -> digit_value d <> 0).

Lemma printf_int_denotes val base up :
  base = 10 \/ base = 16 -> - 2 ^ 31 <= val < 2 ^ 31 ->
  denotes base (printf_int val base up) (if base =? 10 then val else u32 val).
Proof.
  intros Hb Hv. unfold printf_int, denotes.
  assert (Hbase : 2 <= base <= 16) by lia.
  set (w := if base =? 10 then val else u32 val).
  set (u := if (base =? 10) && (val <? 0) then u32 (i32 (- val)) else u32 val).
  assert (Hu : 0 <= u < 2 ^ 32 /\ u = Z.abs w /\ ((base =? 10) && (val <? 0)) = (w <? 0)).
  { unfold u, w. destruct Hb as [-> | ->]; cbn [Z.eqb Pos.eqb andb].
    - destruct (Z.ltb_spec val 0).
      + assert (u32 (i32 (- val)) = - val) as -> by cint. lia.
      + rewrite u32_small by lia. lia.
    - pose proof (u32_range val). destruct (Z.ltb_spec (u32 val) 0); lia. }
  destruct Hu as (Hr & Habs & Hneg). clearbody u w. rewrite Hneg.
  assert (Hrev : forall b : bool, rev (if b then (if u =? 0 then [48] else digits_loop 32 base up u) ++ [45]
      else (if u =? 0 then [48] else digits_loop 32 base up u))
    = (if b then [45] else []) ++ rev (if u =? 0 then [48] else digits_loop 32 base up u)).
  { intros []; [by rewrite rev_app_distr|done]. }
  rewrite Hrev. eexists. split; [done|]. destruct (Z.eqb_spec u 0) as [E|E].
  - split_and!; [cbn; lia|done|]. intros Hw. lia.
  - split; [by rewrite digits_value by (change (2 ^ Z.of_nat 32) with (2 ^ 32); lia)|].
    destruct (digits_lead base up 32 Hbase u) as (d & rest & Hd & Hnz);
      [change (2 ^ Z.of_nat 32) with (2 ^ 32); lia|].
    rewrite Hd. split; [done|]. intros _ d' rest' [= <- <-]. done.
Qed.

(** What the number conversions of [printf] print.  For every 32-bit
    argument "%d" prints its decimal notation (the least integer included)
    and "%x" the hexadecimal notation of its unsigned value.  "%u" prints the
    decimal notation below 2^31 only: from 2^31 on it prints the negative
    number with the same bits. *)
Theorem printf_numbers v :
  0 <= v < 2 ^ 32 ->
  (exists s, printf (str "%d") [AInt v] = Some s /\ denotes 10 s (i32 v))
  /\ (exists s, printf (str "%x") [AInt v] = Some s /\ denotes 16 s v)
  /\ (exists s, printf (str "%u") [AInt v] = Some s
        /\ denotes 10 s (if v <? 2 ^ 31 then v else v - 2 ^ 32)).
Proof.
  intros Hv. pose proof (i32_range v) as Hi.
  assert (Hu : u32 v = v) by (apply u32_small; lia).
  assert (Hd : denotes 10 (printf_int (i32 v) 10 false) (i32 v))
    by (apply (printf_int_denotes (i32 v) 10); [by left|done]).
  split_and!.
  - exists (printf_int (i32 v) 10 false). split; [done|exact Hd].
  - exists (printf_int (i32 v) 16 false). split; [done|].
    pose proof (printf_int_denotes (i32 v) 16 false (or_intror eq_refl) Hi) as Hx. cbn [Z.eqb Pos.eqb] in Hx.
    by replace (u32 (i32 v)) with v in Hx by (clear Hd Hx; cint).
  - exists (printf_int (i32 v) 10 false). split.
    + change (Some ([] ++ printf_int (i32 (u32 v)) 10 false) = Some (printf_int (i32 v) 10 false)).
      by rewrite Hu.
    + replace (if v <? 2 ^ 31 then v else v - 2 ^ 32) with (i32 v); [exact Hd|].
      destruct (Z.ltb_spec v (2 ^ 31)); cint.
Qed.

Lemma printf_numbers_witness :
  exists s, printf (str "%u") [AInt 4294967295] = Some s /\ denotes 10 s (-1).
Proof. destruct (printf_numbers 4294967295) as (_ & _ & H); [lia|]. exact H. Defined.
