(* ===== verification/Malloc.v ===== *)
(** * The C library's allocator ([src/some-libc/stdlib.c])

    [malloc] keeps the free blocks in a list threaded through the blocks
    themselves: a header of 16 bytes ([size], [magic], [next]) in front of
    each payload.  The definitions run on the bytes of the program's memory.
    The pages come from SYS_SBRK, which the allocator uses through the class
    [Sbrk]; [Spec] is the list of free blocks the code is proved to keep, and
    the property is about a program that allocates, writes and frees. *)

From S2P Require Import Prelude.
From S2P Require Import ByteMem.

(** ** The interface to the kernel

    [sbrk n] returns an address, [SBRK_FAILED] for [(void* )-1], with the
    memory after the call. *)
Class Sbrk (U : Type) := { sbrk : Z -> mem -> U -> Z * (mem * U) }.

Definition SBRK_FAILED : Z := 2 ^ 64 - 1.

(** What the allocator relies on: new memory starts at the break, which only
    grows, and what lies below keeps its contents. *)
Class SbrkLaws (U : Type) `{Sbrk U} := {
  brk : U -> Z;
  brk_range u : 0 < brk u < 2 ^ 62 /\ brk u mod 8 = 0;
  sbrk_law n m u p m' u' :
    0 < n < 2 ^ 31 -> sbrk n m u = (p, (m', u')) ->
    (forall x, x < brk u -> load8 m' x = load8 m x) /\ brk u <= brk u'
    /\ (p = SBRK_FAILED \/ p = brk u /\ p + n <= brk u')
}.

Definition HEAP_ALIGN : Z := 8.
Definition MAGIC_FREE : Z := 0xDEADBEEF.
Definition MAGIC_USED : Z := 0xCAFEBABE.
Definition HEADER_SIZE : Z := 16.
Definition MIN_BLOCK : Z := 32.

(** [typedef struct block { int size; unsigned int magic; struct block* next; } block_t;] *)
Definition hb_size (m : mem) (b : Z) : Z := i32 (load32 m b).
Definition hb_magic (m : mem) (b : Z) : Z := load32 m (b + 4).
Definition hb_next (m : mem) (b : Z) : Z := load64 m (b + 8).
Definition set_hb_size (b v : Z) (m : mem) : mem := store32 m b (u32 v).
Definition set_hb_magic (b v : Z) (m : mem) : mem := store32 m (b + 4) v.
Definition set_hb_next (b v : Z) (m : mem) : mem := store64 m (b + 8) v.

(** The program's memory and the two static variables; [u_sys] is the
    kernel's side. *)
Record uheap (U : Type) := UHeap { u_mem : mem; u_free_list : Z; u_initialized : Z; u_sys : U }.
Arguments UHeap {U}.
Arguments u_mem {U}.
Arguments u_free_list {U}.
Arguments u_initialized {U}.
Arguments u_sys {U}.

Section Malloc.
Context {U : Type} `{Sbrk U}.
Implicit Types h : uheap U.

Definition set_umem (m : mem) (h : uheap U) : uheap U :=
  UHeap m (u_free_list h) (u_initialized h) (u_sys h).
Definition on_umem (f : mem -> mem) (h : uheap U) : uheap U := set_umem (f (u_mem h)) h.
Definition set_free_list (p : Z) (h : uheap U) : uheap U := UHeap (u_mem h) p (u_initialized h) (u_sys h).

(** [if (prev) prev->next = p; else free_list = p;] *)
Definition relink (prev p : Z) (h : uheap U) : uheap U :=
  if prev =? 0 then set_free_list p h else on_umem (set_hb_next prev p) h.

(** [alloc_size] of a request. *)
Definition request_size (size : Z) : Z :=
  let alloc_size := i32 (size + HEADER_SIZE) in
  let alloc_size := if alloc_size <? MIN_BLOCK then MIN_BLOCK else alloc_size in
  i32 (Z.land (i32 (alloc_size + HEAP_ALIGN - 1)) (Z.lnot (HEAP_ALIGN - 1))).

(** A free block of [size >= alloc_size + MIN_BLOCK] is cut: the rest, with
    [next] as its successor. *)
Definition write_rest (b alloc_size size next : Z) (m : mem) : mem :=
  let rest := u64 (b + alloc_size) in
  let m := set_hb_size rest (i32 (size - alloc_size)) m in
  let m := set_hb_magic rest MAGIC_FREE m in
  set_hb_next rest next m.

Definition take_block (prev curr alloc_size : Z) (h : uheap U) : Z * uheap U :=
  let h1 :=
    if i32 (alloc_size + MIN_BLOCK) <=? hb_size (u_mem h) curr then
      let h := on_umem (fun m => write_rest curr alloc_size (hb_size m curr) (hb_next m curr) m) h in
      let h := on_umem (set_hb_size curr alloc_size) h in
      relink prev (u64 (curr + alloc_size)) h
    else relink prev (hb_next (u_mem h) curr) h in
  (u64 (curr + HEADER_SIZE), on_umem (set_hb_magic curr MAGIC_USED) h1).

(** The [while (curr)] loop; [Some None] when no block fits. *)
Fixpoint malloc_loop (fuel : nat) (prev curr alloc_size : Z) (h : uheap U) : option (option (Z * uheap U)) :=
  match fuel with
  | O => None
  | S f =>
      if curr =? 0 then Some None
      else if negb (hb_magic (u_mem h) curr =? MAGIC_FREE) then
        malloc_loop f curr (hb_next (u_mem h) curr) alloc_size h
      else if alloc_size <=? hb_size (u_mem h) curr then Some (Some (take_block prev curr alloc_size h))
      else malloc_loop f curr (hb_next (u_mem h) curr) alloc_size h
  end.

(** More pages from the kernel. *)
Definition malloc_grow (alloc_size : Z) (h : uheap U) : Z * uheap U :=
  let pages := i32 (Z.quot (i32 (alloc_size + 0xFFF)) 0x1000 + 1) in
  let chunk_size := i32 (pages * 0x1000) in
  let '(p, (m, u)) := sbrk chunk_size (u_mem h) (u_sys h) in
  let h := UHeap m (u_free_list h) (u_initialized h) u in
  if p =? SBRK_FAILED then (0, h)
  else
    let h := on_umem (fun m => set_hb_next p (u_free_list h) (set_hb_magic p MAGIC_FREE (set_hb_size p chunk_size m))) h in
    let h := set_free_list p h in
    if i32 (alloc_size + MIN_BLOCK) <=? hb_size (u_mem h) p then
      let h := on_umem (fun m => write_rest p alloc_size (hb_size m p) (hb_next m p) m) h in
      let h := on_umem (fun m => set_hb_magic p MAGIC_USED (set_hb_size p alloc_size m)) h in
      (u64 (p + HEADER_SIZE), set_free_list (u64 (p + alloc_size)) h)
    else
      let h := set_free_list (hb_next (u_mem h) p) h in
      (u64 (p + HEADER_SIZE), on_umem (set_hb_magic p MAGIC_USED) h).

(** [None]: the loop has not come to an end within [fuel] blocks. *)
Definition malloc (fuel : nat) (size : Z) (h : uheap U) : option (Z * uheap U) :=
  if size <=? 0 then Some (0, h)
  else
    let h := if u_initialized h =? 0 then UHeap (u_mem h) 0 1 (u_sys h) else h in
    let alloc_size := request_size size in
    match malloc_loop fuel 0 (u_free_list h) alloc_size h with
    | None => None
    | Some (Some r) => Some r
    | Some None => Some (malloc_grow alloc_size h)
    end.

Definition free (ptr : Z) (h : uheap U) : uheap U :=
  if ptr =? 0 then h
  else
    let blk := u64 (ptr - HEADER_SIZE) in
    if negb (hb_magic (u_mem h) blk =? MAGIC_USED) then h
    else
      set_free_list blk
        (on_umem (fun m => set_hb_next blk (u_free_list h) (set_hb_magic blk MAGIC_FREE m)) h).

End Malloc.

(** ** The free blocks as a list *)

Module Spec.

(** A block: its address and its size with the header. *)
Abbreviation block := (Z * Z)%type.

(** First fit, cutting the block when the rest can be one: the block handed
    out and the free ones left. *)
Fixpoint fit (n : Z) (l : list block) : option (block * list block) :=
  match l with
  | [] => None
  | (a, sz) :: t =>
      if n <=? sz then
        Some (if n + MIN_BLOCK <=? sz then ((a, n), (a + n, sz - n) :: t) else ((a, sz), t))
      else match fit n t with
           | Some (c, t') => Some (c, (a, sz) :: t')
           | None => None
           end
  end.

Definition apart (c d : block) : Prop := c.1 + c.2 <= d.1 \/ d.1 + d.2 <= c.1.
Definition clear (d : block) (l : list block) : Prop := Forall (apart d) l.

(** No two blocks overlap. *)
Fixpoint pairwise (l : list block) : Prop :=
  match l with
  | [] => True
  | c :: t => clear c t /\ pairwise t
  end.

Definition block_ok (e : Z) (c : block) : Prop :=
  0 < c.1 /\ c.1 mod 8 = 0 /\ MIN_BLOCK <= c.2 < 2 ^ 31 /\ c.2 mod 8 = 0 /\ c.1 + c.2 <= e.

Lemma apart_sym c d : apart c d -> apart d c.
Proof. unfold apart. lia. Qed.

Lemma pairwise_app l1 l2 :
  pairwise (l1 ++ l2) <-> pairwise l1 /\ pairwise l2 /\ Forall (fun c => clear c l2) l1.
Proof.
  induction l1 as [|c l1 IH]; cbn [app pairwise]; [by rewrite Forall_nil; tauto|].
  unfold clear at 1. rewrite Forall_app, IH, Forall_cons. unfold clear at 3. tauto.
Qed.

Lemma clear_swap l1 l2 : Forall (fun c => clear c l2) l1 <-> Forall (fun c => clear c l1) l2.
Proof.
  unfold clear. rewrite !Forall_forall. setoid_rewrite Forall_forall.
  split; intros Hc x Hx y Hy; apply apart_sym; eauto.
Qed.

#[global] Instance pairwise_perm : Proper ((≡ₚ) ==> iff) pairwise.
Proof.
  intros l l' Hp. induction Hp as [|c l l' Hp IH|c d l|l1 l2 l3 _ IH1 _ IH2]; cbn [pairwise].
  - done.
  - rewrite IH. enough (clear c l <-> clear c l') by tauto.
    unfold clear. rewrite !Forall_forall. by setoid_rewrite Hp.
  - unfold clear. rewrite !Forall_cons. pose proof (apart_sym c d). pose proof (apart_sym d c). tauto.
  - by rewrite IH1.
Qed.

Lemma pairwise_lookup l i j c d :
  pairwise l -> l !! i = Some c -> l !! j = Some d -> i <> j -> apart c d.
Proof.
  revert i j. induction l as [|x l IH]; intros i j Hp Hi Hj Hne; [done|]. destruct Hp as [Hc Hp].
  destruct i as [|i], j as [|j]; cbn in Hi, Hj; simplify_eq.
  - by apply (Forall_lookup_1 _ _ _ _ Hc Hj).
  - apply apart_sym. by apply (Forall_lookup_1 _ _ _ _ Hc Hi).
  - eapply IH; [done|exact Hi|exact Hj|lia].
Qed.

Lemma fit_some_le n l c l' : fit n l = Some (c, l') -> n <= c.2.
Proof.
  revert l'. induction l as [|[a sz] t IH]; intros l' Hf; cbn [fit] in Hf; [done|].
  destruct (Z.leb_spec n sz).
  - destruct (Z.leb_spec (n + MIN_BLOCK) sz); simplify_eq; cbn; lia.
  - destruct (fit n t) as [[c0 t']|]; [|done]. simplify_eq. by eapply IH.
Qed.

Lemma fit_clear n l c l' d :
  0 < n -> fit n l = Some (c, l') -> clear d l -> Forall (fun x => MIN_BLOCK <= x.2) l -> apart d c /\ clear d l'.
Proof.
  intros Hn. revert l'. induction l as [|[a sz] t IH]; intros l' Hf Hc Hs; cbn [fit] in Hf; [done|].
  apply Forall_cons in Hc as [Hd Hc]. apply Forall_cons in Hs as [Hs1 Hs]. unfold apart in Hd. cbn [fst snd] in Hd.
  destruct (Z.leb_spec n sz).
  - destruct (Z.leb_spec (n + MIN_BLOCK) sz); simplify_eq; unfold MIN_BLOCK in *.
    + split; [unfold apart; cbn; lia|]. apply Forall_cons. split; [unfold apart; cbn; lia|done].
    + by split.
  - destruct (fit n t) as [[c0 t']|]; [|done]. simplify_eq. destruct (IH t' eq_refl Hc Hs) as [H1 H2].
    split; [done|]. apply Forall_cons. by split.
Qed.

Lemma ok_sizes e l : Forall (block_ok e) l -> Forall (fun x => MIN_BLOCK <= x.2) l.
Proof. intros Hl. eapply Forall_impl; [exact Hl|]. intros x (_ & _ & Hx & _). lia. Qed.

Lemma fit_ok n l c l' e :
  n mod 8 = 0 -> MIN_BLOCK <= n -> fit n l = Some (c, l') -> Forall (block_ok e) l -> pairwise l ->
  Forall (block_ok e) (c :: l') /\ pairwise (c :: l').
Proof.
  intros H8 Hn. revert l'. induction l as [|[a sz] t IH]; intros l' Hf Ho Hp; cbn [fit] in Hf; [done|].
  apply Forall_cons in Ho as [Hb Ho]. destruct Hp as [Hc Hp]. pose proof (ok_sizes _ _ Ho) as Hs.
  unfold MIN_BLOCK in *. destruct Hb as (B1 & B2 & B3 & B4 & B5). cbn [fst snd] in *. unfold MIN_BLOCK in B3.
  destruct (Z.leb_spec n sz).
  - destruct (Z.leb_spec (n + 32) sz); simplify_eq.
    + split.
      * apply Forall_cons. split; [unfold block_ok, MIN_BLOCK; cbn; zlia|].
        apply Forall_cons. split; [unfold block_ok, MIN_BLOCK; cbn; zlia|done].
      * cbn [pairwise]. unfold clear in *. split_and!; try done.
        -- apply Forall_cons. split; [unfold apart; cbn; lia|].
           eapply Forall_impl; [exact Hc|]. unfold apart. cbn. lia.
        -- eapply Forall_impl; [exact Hc|]. unfold apart. cbn. lia.
    + split; [apply Forall_cons; by split|]. by split.
  - destruct (fit n t) as [[c0 t']|] eqn:Ef; [|done]. simplify_eq.
    destruct (IH t' eq_refl Ho Hp) as [I1 I2]. apply Forall_cons in I1 as [I1 I1']. destruct I2 as [I2 I2'].
    destruct (fit_clear n t c t' (a, sz) ltac:(lia) Ef Hc Hs) as [F1 F2]. split.
    + apply Forall_cons. split; [done|]. apply Forall_cons. by split.
    + cbn [pairwise]. split; [|by split]. apply Forall_cons. split; [by apply apart_sym|done].
Qed.

End Spec.

(** ** The list in memory *)

Definition same_on (P : Z -> Prop) (m m' : mem) : Prop := forall x, P x -> load8 m' x = load8 m x.

Definition inside (c : Spec.block) (x : Z) : Prop := c.1 <= x < c.1 + c.2.
Definition in_blocks (l : list Spec.block) (x : Z) : Prop := exists c, c ∈ l /\ inside c x.

Definition header (m : mem) (c : Spec.block) (magic : Z) : Prop :=
  hb_size m c.1 = c.2 /\ hb_magic m c.1 = magic.

Fixpoint linked (m : mem) (p : Z) (l : list Spec.block) : Prop :=
  match l with
  | [] => p = 0
  | c :: t => p = c.1 /\ header m c MAGIC_FREE /\ linked m (hb_next m c.1) t
  end.

Lemma header_ext m m' c magic :
  same_on (fun x => c.1 <= x < c.1 + 8) m m' -> header m c magic -> header m' c magic.
Proof.
  intros Hs [H1 H2]. split; [rewrite <- H1|rewrite <- H2]; unfold hb_size, hb_magic.
  - f_equal. apply load32_ext. intros x Hx. apply Hs. lia.
  - apply load32_ext. intros x Hx. apply Hs. lia.
Qed.

Lemma next_ext m m' b : same_on (fun x => b + 8 <= x < b + 16) m m' -> hb_next m' b = hb_next m b.
Proof. intros Hs. unfold hb_next. apply load64_ext. intros x Hx. apply Hs. lia. Qed.

Lemma linked_ext m m' p l :
  Forall (fun c => MIN_BLOCK <= c.2) l -> same_on (in_blocks l) m m' -> linked m p l -> linked m' p l.
Proof.
  unfold MIN_BLOCK. intros Hl. revert p. induction Hl as [|c l Hc Hl IH]; intros p Hs Hp; [done|].
  destruct Hp as (-> & Hh & Ht). cbn [linked].
  assert (Hin : forall x, c.1 <= x < c.1 + 32 -> load8 m' x = load8 m x).
  { intros x Hx. apply Hs. exists c. split; [left|unfold inside; lia]. }
  split_and!; [done| |].
  - eapply header_ext, Hh. intros x Hx. apply Hin. lia.
  - rewrite (next_ext m m') by (intros x Hx; apply Hin; lia). apply IH; [|done].
    intros x (d & Hd & Hx). apply Hs. exists d. by split; [right|].
Qed.

(** The writes change a header only. *)
Lemma load8_set_size b v m x : x < b \/ b + 4 <= x -> load8 (set_hb_size b v m) x = load8 m x.
Proof. intros. by apply load8_store32_ne. Qed.
Lemma load8_set_magic b v m x : x < b + 4 \/ b + 8 <= x -> load8 (set_hb_magic b v m) x = load8 m x.
Proof. intros. apply load8_store32_ne. lia. Qed.
Lemma load8_set_next b v m x : x < b + 8 \/ b + 16 <= x -> load8 (set_hb_next b v m) x = load8 m x.
Proof. intros. apply load8_store64_ne. lia. Qed.

Lemma size_set_size b v m : 0 <= v < 2 ^ 31 -> hb_size (set_hb_size b v m) b = v.
Proof. intros Hv. unfold hb_size, set_hb_size. rewrite load32_store32_eq. cint. Qed.
Lemma size_set_magic b v m : hb_size (set_hb_magic b v m) b = hb_size m b.
Proof. unfold hb_size, set_hb_magic. by mem_step. Qed.
Lemma size_set_next b v m : hb_size (set_hb_next b v m) b = hb_size m b.
Proof. unfold hb_size, set_hb_next. by mem_step. Qed.
Lemma magic_set_size b v m : hb_magic (set_hb_size b v m) b = hb_magic m b.
Proof. unfold hb_magic, set_hb_size. by mem_step. Qed.
Lemma magic_set_magic b v m : 0 <= v < 2 ^ 32 -> hb_magic (set_hb_magic b v m) b = v.
Proof. intros Hv. unfold hb_magic, set_hb_magic. rewrite load32_store32_eq. by apply u32_small. Qed.
Lemma magic_set_next b v m : hb_magic (set_hb_next b v m) b = hb_magic m b.
Proof. unfold hb_magic, set_hb_next. by mem_step. Qed.
Lemma next_set_size b v m : hb_next (set_hb_size b v m) b = hb_next m b.
Proof. unfold hb_next, set_hb_size. by mem_step. Qed.
Lemma next_set_magic b v m : hb_next (set_hb_magic b v m) b = hb_next m b.
Proof. unfold hb_next, set_hb_magic. by mem_step. Qed.
Lemma next_set_next b v m : 0 <= v < 2 ^ 64 -> hb_next (set_hb_next b v m) b = v.
Proof. intros Hv. unfold hb_next, set_hb_next. rewrite load64_store64_eq. by apply u64_small. Qed.

Create Rewrite HintDb hb.
#[export] Hint Rewrite size_set_magic size_set_next magic_set_size magic_set_next next_set_size next_set_magic : hb.
#[export] Hint Rewrite size_set_size magic_set_magic next_set_next using (done || lia) : hb.
#[export] Hint Rewrite load8_set_size load8_set_magic load8_set_next using lia : hb.
Ltac hb := autorewrite with hb.

Lemma write_rest_header b n sz next m :
  0 < b -> 0 < n -> b + n < 2 ^ 62 -> 0 <= sz - n < 2 ^ 31 -> 0 <= next < 2 ^ 64 ->
  let m' := write_rest b n sz next m in
  header m' (b + n, sz - n) MAGIC_FREE /\ hb_next m' (b + n) = next
  /\ same_on (fun x => x < b + n \/ b + n + 16 <= x) m m'.
Proof.
  intros Hb Hn Hbn Hsz Hnext m'. unfold m', write_rest. rewrite u64_small, i32_small by lia.
  unfold header. cbn [fst snd]. split_and!; hb; try done. intros x Hx. by hb.
Qed.

(** ** [malloc] keeps the list *)

Section Refinement.
Context {U : Type} `{SbrkLaws U}.
Implicit Types h : uheap U.

(** What points to the block the loop stands on. *)
Definition cell (prev : Z) h : Z := if prev =? 0 then u_free_list h else hb_next (u_mem h) prev.

Definition away (prev : Z) (x : Z) : Prop := prev = 0 \/ x < prev + 8 \/ prev + 16 <= x.

Definition same_sys h h' : Prop := u_sys h' = u_sys h /\ u_initialized h' = u_initialized h.

Lemma relink_run prev p h :
  0 <= prev -> 0 <= p < 2 ^ 64 ->
  cell prev (relink prev p h) = p /\ same_on (away prev) (u_mem h) (u_mem (relink prev p h))
  /\ (prev <> 0 -> u_free_list (relink prev p h) = u_free_list h) /\ same_sys h (relink prev p h).
Proof.
  intros Hprev Hp. unfold relink, cell, away, same_sys, same_on. destruct (Z.eqb_spec prev 0) as [->|Hne].
  - by split_and!.
  - cbn [on_umem set_umem u_mem u_free_list u_sys u_initialized]. split_and!; try done.
    + by hb.
    + intros x Hx. rewrite load8_set_next by lia. done.
Qed.

(** [prev] is a block header outside the blocks of [l]. *)
Definition off (prev : Z) (l : list Spec.block) : Prop :=
  prev = 0 \/ 0 < prev /\ Forall (fun d => prev + 16 <= d.1 \/ d.1 + d.2 <= prev) l.

Lemma off_away prev c l x : off prev (c :: l) -> inside c x -> away prev x.
Proof.
  unfold off, away, inside. intros [->|[Hp Ho]] Hx; [by left|right]. apply Forall_cons in Ho as [Ho _]. lia.
Qed.

Lemma off_away_all prev l x : off prev l -> in_blocks l x -> away prev x.
Proof.
  intros [->|[Hp Ho]] (c & Hc & Hx); [by left|right]. unfold inside in Hx.
  pose proof (proj1 (Forall_forall _ _) Ho c Hc) as Hoc. cbn in Hoc. lia.
Qed.

Lemma cell_on prev f h :
  (prev <> 0 -> same_on (fun x => prev + 8 <= x < prev + 16) (u_mem h) (f (u_mem h))) ->
  cell prev (on_umem f h) = cell prev h.
Proof. intros Hs. unfold cell. destruct (Z.eqb_spec prev 0); [done|]. by apply next_ext, Hs. Qed.

Lemma clear_outside c l x : Spec.clear c l -> in_blocks l x -> ~ inside c x.
Proof.
  intros Hc (d & Hd & Hx) Hi. pose proof (proj1 (Forall_forall _ _) Hc d Hd) as Ha.
  unfold Spec.apart, inside in *. lia.
Qed.

(** After the header of the block, or of its rest, has been prepared, the
    block is linked out and marked. *)
Lemma relink_mark prev p b h :
  0 <= p < 2 ^ 64 -> 0 < b -> off prev [(b, 16)] ->
  let h' := on_umem (set_hb_magic b MAGIC_USED) (relink prev p h) in
  cell prev h' = p /\ hb_size (u_mem h') b = hb_size (u_mem h) b /\ hb_magic (u_mem h') b = MAGIC_USED
  /\ same_on (fun x => (x < b \/ b + 16 <= x) /\ away prev x) (u_mem h) (u_mem h')
  /\ (prev <> 0 -> u_free_list h' = u_free_list h) /\ same_sys h h'.
Proof.
  intros Hp Hb Ho h'. assert (Hprev : 0 <= prev) by (destruct Ho as [->|[? _]]; lia).
  destruct (relink_run prev p h Hprev Hp) as (R1 & R2 & R3 & R4). subst h'. split_and!.
  - rewrite cell_on; [done|]. intros Hne x Hx. destruct Ho as [|[_ Ho]]; [done|].
    apply Forall_cons in Ho as [Ho _]. cbn [fst snd] in Ho. by rewrite load8_set_magic by lia.
  - cbn [on_umem set_umem u_mem]. rewrite size_set_magic. unfold hb_size. f_equal. apply load32_ext.
    intros x Hx. apply R2. apply (off_away prev (b, 16) []); [done|]. unfold inside. cbn. lia.
  - cbn [on_umem set_umem u_mem]. by apply magic_set_magic.
  - intros x [Hx Ha]. cbn [on_umem set_umem u_mem]. rewrite load8_set_magic by lia. by apply R2.
  - done.
  - done.
Qed.

Lemma off_head prev c l : off prev (c :: l) -> 16 <= c.2 -> off prev [(c.1, 16)].
Proof.
  intros [->|[Hp Ho]] Hc; [by left|right]. split; [done|]. apply Forall_cons in Ho as [Ho _].
  apply Forall_cons. split; [cbn; lia|done].
Qed.

Lemma take_block_run prev c t n h :
  Forall (Spec.block_ok (2 ^ 62)) (c :: t) -> Spec.clear c t -> MIN_BLOCK <= n <= c.2 -> n + MIN_BLOCK < 2 ^ 31 ->
  off prev (c :: t) -> linked (u_mem h) c.1 (c :: t) ->
  exists c' l' h', Spec.fit n (c :: t) = Some (c', l') /\ take_block prev c.1 n h = (c'.1 + HEADER_SIZE, h')
    /\ header (u_mem h') c' MAGIC_USED /\ linked (u_mem h') (cell prev h') l'
    /\ same_on (fun x => ~ inside c x /\ away prev x) (u_mem h) (u_mem h')
    /\ (prev <> 0 -> u_free_list h' = u_free_list h) /\ same_sys h h'.
Proof.
  intros Ho Hcl Hn Hn31 Hoff (_ & [Hsz Hmag] & Ht). apply Forall_cons in Ho as [Hc Ho].
  pose proof (Spec.ok_sizes _ _ Ho) as Hsizes. destruct Hc as (C1 & C2 & C3 & C4 & C5).
  destruct c as [b sz]. cbn [fst snd] in *. set (nx := hb_next (u_mem h) b) in *.
  pose proof (load64_range (u_mem h) (b + 8)) as Hnx. change (load64 (u_mem h) (b + 8)) with nx in Hnx.
  assert (Hoff1 : off prev [(b, 16)]) by (apply (off_head _ (b, sz) t); [done|unfold MIN_BLOCK in *; cbn; lia]).
  assert (Htaway : forall x, in_blocks t x -> ~ inside (b, sz) x /\ away prev x).
  { intros x Hx. split; [by apply (clear_outside _ t)|]. apply (off_away_all prev ((b, sz) :: t)); [done|].
    destruct Hx as (d & Hd & Hx). exists d. by split; [right|]. }
  unfold MIN_BLOCK in *. cbn [Spec.fit]. destruct (Z.leb_spec n sz); [|lia]. unfold MIN_BLOCK.
  unfold take_block, MIN_BLOCK, HEADER_SIZE. rewrite i32_small by lia. rewrite Hsz.
  destruct (Z.leb_spec (n + 32) sz).
  - exists (b, n), ((b + n, sz - n) :: t). eexists. split; [done|]. split; [rewrite u64_small by lia; reflexivity|].
    rewrite (u64_small (b + n)) by lia. set (h1 := on_umem (set_hb_size b n) _).
    assert (Hm1 : u_mem h1 = set_hb_size b n (write_rest b n sz nx (u_mem h))) by (cbn; by rewrite Hsz).
    destruct (write_rest_header b n sz nx (u_mem h)) as (W & W3 & W4); try lia.
    destruct (relink_mark prev (b + n) b h1 ltac:(lia) C1 Hoff1) as (R1 & R2 & R3 & R4 & R5 & R6).
    set (h' := on_umem (set_hb_magic b MAGIC_USED) (relink prev (b + n) h1)) in *.
    rewrite Hm1 in R2, R4.
    assert (Hrest : same_on (fun x => b + 16 <= x /\ away prev x) (write_rest b n sz nx (u_mem h)) (u_mem h')).
    { intros x [Hx Ha]. rewrite R4 by (split; [lia|done]). by rewrite load8_set_size by lia. }
    assert (Hra : forall x, b <= x < b + sz -> away prev x) by (intros x Hx; by apply (off_away prev (b, sz) t)).
    split; [split; cbn [fst snd]; [rewrite R2; apply size_set_size; lia|exact R3]|].
    split_and!; [| |exact R5|done].
    + rewrite R1. cbn [linked fst]. split; [done|]. split.
      * eapply header_ext, W. intros x Hx. cbn [fst] in Hx. apply Hrest. split; [lia|apply Hra; lia].
      * rewrite (next_ext (write_rest b n sz nx (u_mem h))), W3
          by (intros x Hx; apply Hrest; split; [lia|apply Hra; lia]).
        eapply linked_ext, Ht; [done|]. intros x Hx. destruct (Htaway x Hx) as [Hni Ha].
        unfold inside in Hni. cbn [fst snd] in Hni.
        rewrite R4 by (split; [lia|done]). rewrite load8_set_size by lia. apply W4. lia.
    + intros x [Hni Ha]. unfold inside in Hni. cbn [fst snd] in Hni. rewrite R4 by (split; [lia|done]).
      rewrite load8_set_size by lia. apply W4. lia.
  - exists (b, sz), t. eexists. split; [done|]. split; [rewrite u64_small by lia; reflexivity|].
    fold nx. destruct (relink_mark prev nx b h Hnx C1 Hoff1) as (R1 & R2 & R3 & R4 & R5 & R6).
    set (h' := on_umem (set_hb_magic b MAGIC_USED) (relink prev nx h)) in *.
    split; [split; cbn [fst snd]; [by rewrite R2|exact R3]|].
    split_and!; [| |exact R5|done].
    + rewrite R1. eapply linked_ext, Ht; [done|]. intros x Hx. destruct (Htaway x Hx) as [Hni Ha].
      unfold inside in Hni. cbn [fst snd] in Hni. apply R4. split; [lia|done].
    + intros x [Hni Ha]. unfold inside in Hni. cbn [fst snd] in Hni. apply R4. split; [lia|done].
Qed.

(** The loop is first fit on the list. *)
Lemma malloc_loop_run n l : MIN_BLOCK <= n -> n + MIN_BLOCK < 2 ^ 31 -> forall fuel prev curr h,
  Forall (Spec.block_ok (2 ^ 62)) l -> Spec.pairwise l -> off prev l -> linked (u_mem h) curr l ->
  cell prev h = curr -> (length l < fuel)%nat ->
  match Spec.fit n l with
  | None => malloc_loop fuel prev curr n h = Some None
  | Some (c, l') => exists h',
      malloc_loop fuel prev curr n h = Some (Some (c.1 + HEADER_SIZE, h'))
      /\ header (u_mem h') c MAGIC_USED /\ linked (u_mem h') (cell prev h') l'
      /\ same_on (fun x => ~ in_blocks l x /\ away prev x) (u_mem h) (u_mem h')
      /\ (prev <> 0 -> u_free_list h' = u_free_list h) /\ same_sys h h'
  end.
Proof.
  intros Hn Hn31. induction l as [|c t IH]; intros fuel prev curr h Ho Hp Hoff Hl Hcell Hfuel.
  - cbn [linked Spec.fit] in *. destruct fuel as [|fuel]; [cbn in Hfuel; lia|]. cbn [malloc_loop]. by rewrite Hl.
  - destruct fuel as [|fuel]; [cbn in Hfuel; lia|]. cbn [malloc_loop].
    pose proof Hl as (-> & [Hsz Hmag] & Ht). pose proof Ho as Hoo. apply Forall_cons in Hoo as [Hc Hot].
    pose proof Hc as (C1 & _ & C3 & _ & C5). destruct Hp as [Hcl Hpt].
    destruct (Z.eqb_spec c.1 0); [lia|]. rewrite Hmag, Z.eqb_refl. cbn [negb]. rewrite Hsz.
    destruct (Z.leb_spec n c.2) as [Hle|Hlt].
    + destruct (take_block_run prev c t n h Ho Hcl ltac:(lia) Hn31 Hoff Hl) as (c' & l' & h' & -> & -> & T1 & T2 & T3 & T4 & T5).
      exists h'. split_and!; try done. intros x [Hni Ha]. apply T3. split; [|done].
      intros Hx. apply Hni. exists c. by split; [left|].
    + assert (Hoff' : off c.1 t).
      { right. split; [lia|]. eapply Forall_impl; [exact Hcl|]. unfold Spec.apart, MIN_BLOCK in *. cbn. intros d Hd. lia. }
      assert (Hcell' : cell c.1 h = hb_next (u_mem h) c.1) by (unfold cell; destruct (Z.eqb_spec c.1 0); [lia|done]).
      specialize (IH fuel c.1 (hb_next (u_mem h) c.1) h Hot Hpt Hoff' Ht Hcell' ltac:(cbn in Hfuel; lia)).
      destruct c as [b sz]. cbn [fst snd Spec.fit] in *. destruct (Z.leb_spec n sz); [lia|].
      destruct (Spec.fit n t) as [[c' t']|]; [|done]. destruct IH as (h' & -> & I1 & I2 & I3 & I4 & I5).
      exists h'. specialize (I4 ltac:(lia)).
      assert (Hout : forall x, inside (b, sz) x -> ~ in_blocks t x).
      { intros x Hx Hb. by apply (clear_outside _ _ _ Hcl Hb). }
      assert (Hpc : cell prev h' = b).
      { rewrite <- Hcell. unfold cell. destruct (Z.eqb_spec prev 0); [done|]. apply next_ext. intros x Hx. apply I3.
        destruct Hoff as [|[_ Hoff]]; [done|]. unfold MIN_BLOCK in *. split.
        - intros (d & Hd & Hxd). pose proof (proj1 (Forall_forall _ _) Hoff d ltac:(by right)) as Hod.
          unfold inside in Hxd. cbn in Hod. lia.
        - apply Forall_cons in Hoff as [Hoff _]. cbn in Hoff. right. lia. }
      split_and!; [done|done| | |done|done].
      * rewrite Hpc. cbn [linked fst]. split; [done|]. split.
        -- eapply header_ext; [|by split]. intros x Hx. cbn [fst] in Hx. apply I3. unfold MIN_BLOCK in *. split.
           ++ apply Hout. unfold inside. cbn. lia.
           ++ right. lia.
        -- unfold cell in I2. destruct (Z.eqb_spec b 0); [lia|]. exact I2.
      * intros x [Hni Ha]. apply I3. split.
        -- intros (d & Hd & Hx). apply Hni. exists d. by split; [right|].
        -- destruct (decide (b <= x < b + sz)) as [Hx|Hx].
           ++ exfalso. apply Hni. exists (b, sz). split; [left|exact Hx].
           ++ right. unfold MIN_BLOCK in *. lia.
Qed.

(** ** The heap of a program *)

(** The blocks of the program: [fl] free, [ul] handed out. *)
Record uheap_is h (fl ul : list Spec.block) : Prop := {
  ui_linked : linked (u_mem h) (u_free_list h) fl;
  ui_used : Forall (fun c => header (u_mem h) c MAGIC_USED) ul;
  ui_ok : Forall (Spec.block_ok (brk (u_sys h))) (fl ++ ul);
  ui_apart : Spec.pairwise (fl ++ ul);
  ui_init : u_initialized h = 0 -> fl ++ ul = []
}.

Lemma block_ok_mono e e' c : e <= e' -> Spec.block_ok e c -> Spec.block_ok e' c.
Proof. unfold Spec.block_ok. intros. intuition lia. Qed.

Lemma blocks_ok_mono e e' l : e <= e' -> Forall (Spec.block_ok e) l -> Forall (Spec.block_ok e') l.
Proof. intros He Hl. eapply Forall_impl; [exact Hl|]. intros c. by apply block_ok_mono. Qed.

Lemma used_ext m m' ul :
  Forall (fun c => MIN_BLOCK <= c.2) ul -> same_on (in_blocks ul) m m' ->
  Forall (fun c => header m c MAGIC_USED) ul -> Forall (fun c => header m' c MAGIC_USED) ul.
Proof.
  intros Hs Hsame Hu. rewrite Forall_forall in Hu |- *. rewrite Forall_forall in Hs. intros c Hc.
  eapply header_ext, Hu, Hc. intros x Hx. apply Hsame. exists c. split; [done|].
  specialize (Hs c Hc). unfold MIN_BLOCK in Hs. cbn in Hs. unfold inside. lia.
Qed.

(** The largest request for which no [int] wraps. *)
Definition MALLOC_MAX : Z := 2 ^ 31 - 2 ^ 14.

Lemma request_size_spec size :
  0 < size <= MALLOC_MAX ->
  let n := request_size size in
  MIN_BLOCK <= n /\ n mod 8 = 0 /\ size + HEADER_SIZE <= n < 2 ^ 31 - 2 ^ 13.
Proof.
  unfold MALLOC_MAX. intros Hs. unfold request_size, HEADER_SIZE, MIN_BLOCK, HEAP_ALIGN.
  rewrite (i32_small (size + 16)) by lia.
  set (a := if size + 16 <? 32 then 32 else size + 16).
  assert (Ha : 32 <= a /\ size + 16 <= a < 2 ^ 31 - 2 ^ 13 - 8) by (subst a; destruct (Z.ltb_spec (size + 16) 32); lia).
  rewrite (i32_small (a + 8 - 1)) by lia. change (Z.lnot (8 - 1)) with (Z.lnot (Z.ones 3)).
  rewrite <- Z.ldiff_land, Z.ldiff_ones_r, Z.shiftl_mul_pow2, Z.shiftr_div_pow2 by lia. change (2 ^ 3) with 8.
  rewrite i32_small by zlia. zlia.
Qed.

Lemma in_blocks_app l1 l2 x : in_blocks (l1 ++ l2) x <-> in_blocks l1 x \/ in_blocks l2 x.
Proof. unfold in_blocks. setoid_rewrite elem_of_app. naive_solver. Qed.

Lemma in_blocks_below e l x : Forall (Spec.block_ok e) l -> in_blocks l x -> x < e.
Proof.
  intros Hl (c & Hc & Hx). destruct (proj1 (Forall_forall _ _) Hl c Hc) as (_ & _ & _ & _ & H5).
  unfold inside in Hx. lia.
Qed.

(** More pages: the new block is cut, its rest is the first free block. *)
(** A new area from [brk] on, cut into a used block and a free one. *)
Lemma uheap_carved h fl ul m2 u' n chunk :
  uheap_is h fl ul -> MIN_BLOCK <= n -> n + MIN_BLOCK <= chunk < 2 ^ 31 -> n mod 8 = 0 -> chunk mod 8 = 0 ->
  u_initialized h <> 0 -> brk (u_sys h) + chunk <= brk u' ->
  header m2 (brk (u_sys h) + n, chunk - n) MAGIC_FREE -> hb_next m2 (brk (u_sys h) + n) = u_free_list h ->
  let m3 := set_hb_magic (brk (u_sys h)) MAGIC_USED (set_hb_size (brk (u_sys h)) n m2) in
  (forall x, in_blocks (fl ++ ul) x -> load8 m3 x = load8 (u_mem h) x) ->
  uheap_is (UHeap m3 (brk (u_sys h) + n) (u_initialized h) u')
    ((brk (u_sys h) + n, chunk - n) :: fl) ((brk (u_sys h), n) :: ul).
Proof.
  intros [Hl Hu Ho Ha Hi] Hn Hc H8 Hc8 Hinit Hfit W W3 m3 Hbelow. set (b := brk (u_sys h)) in *.
  pose proof (brk_range (u_sys h)) as [Hb1 Hb2]. fold b in Hb1, Hb2. unfold MIN_BLOCK in Hn, Hc.
  pose proof (Spec.ok_sizes _ _ Ho) as Hs. apply Forall_app in Hs as [Hsf Hsu].
  assert (Hm3 : forall x, b + n <= x -> load8 m3 x = load8 m2 x).
  { intros x Hx. unfold m3. by rewrite load8_set_magic, load8_set_size by lia. }
  split; cbn [u_mem u_free_list u_sys u_initialized].
  - split; [done|]. split.
    + eapply header_ext, W. intros x Hx. cbn [fst] in Hx. apply Hm3. lia.
    + cbn [fst]. rewrite (next_ext m2 m3) by (intros x Hx; apply Hm3; lia). rewrite W3.
      eapply linked_ext, Hl; [done|]. intros x Hx. apply Hbelow, in_blocks_app. by left.
  - apply Forall_cons. split; [split; cbn [fst snd]; unfold m3; by hb|].
    eapply used_ext, Hu; [done|]. intros x Hx. apply Hbelow, in_blocks_app. by right.
  - rewrite <- app_comm_cons, <- Permutation_middle.
    apply Forall_cons. split; [unfold Spec.block_ok, MIN_BLOCK; cbn [fst snd]; zlia|].
    apply Forall_cons. split; [unfold Spec.block_ok, MIN_BLOCK; cbn [fst snd]; zlia|by apply (blocks_ok_mono b); [lia|]].
  - rewrite <- app_comm_cons, <- Permutation_middle. cbn [Spec.pairwise].
    assert (Hcl : forall k s, b <= k -> Spec.clear (k, s) (fl ++ ul)).
    { intros k s' Hk. unfold Spec.clear. eapply Forall_impl; [exact Ho|]. intros c (_ & _ & _ & _ & O5).
      unfold Spec.apart. cbn [fst snd]. lia. }
    split_and!; [|by apply Hcl; lia|done].
    apply Forall_cons. split; [unfold Spec.apart; cbn [fst snd]; lia|by apply Hcl; lia].
  - done.
Qed.

Lemma malloc_grow_run h fl ul n :
  uheap_is h fl ul -> MIN_BLOCK <= n < 2 ^ 31 - 2 ^ 13 -> n mod 8 = 0 -> u_initialized h <> 0 ->
  exists p h', malloc_grow n h = (p, h')
    /\ same_on (in_blocks ul) (u_mem h) (u_mem h')
    /\ (p = 0 /\ uheap_is h' fl ul
        \/ exists fl' c, p = c.1 + HEADER_SIZE /\ n <= c.2 /\ uheap_is h' fl' (c :: ul)).
Proof.
  intros [Hl Hu Ho Ha Hi] Hn H8 Hinit. unfold malloc_grow. unfold MIN_BLOCK in Hn.
  rewrite (i32_small (n + 0xFFF)) by lia. rewrite Z.quot_div_nonneg by lia.
  set (chunk := ((n + 0xFFF) / 0x1000 + 1) * 0x1000).
  assert (Hchunk : n + 4096 <= chunk < 2 ^ 31 /\ chunk mod 8 = 0) by (subst chunk; zlia).
  rewrite (i32_small (_ / _ + 1)) by zlia. rewrite (i32_small (_ * _)) by (subst chunk; lia). fold chunk.
  destruct (sbrk chunk (u_mem h) (u_sys h)) as [q [m u']] eqn:Es.
  apply sbrk_law in Es as (Hsame & Hgrow & Hq); [|lia].
  assert (Hold : same_on (in_blocks (fl ++ ul)) (u_mem h) m).
  { intros x Hx. apply Hsame. by eapply in_blocks_below. }
  assert (Hfree : same_on (in_blocks fl) (u_mem h) m) by (intros x Hx; apply Hold, in_blocks_app; by left).
  assert (Hused : same_on (in_blocks ul) (u_mem h) m) by (intros x Hx; apply Hold, in_blocks_app; by right).
  pose proof (Spec.ok_sizes _ _ Ho) as Hs. apply Forall_app in Hs as [Hsf Hsu].
  pose proof (brk_range (u_sys h)) as [Hb1 Hb2]. pose proof (brk_range u') as [Hb3 Hb4].
  destruct (Z.eqb_spec q SBRK_FAILED) as [->|Hne].
  - exists 0. eexists. split; [reflexivity|]. split; [done|]. left. split; [done|].
    split; cbn [u_mem u_free_list u_sys u_initialized]; try done.
    + by eapply linked_ext.
    + by eapply used_ext.
    + by eapply blocks_ok_mono.
  - destruct Hq as [|[-> Hfit]]; [done|]. set (b := brk (u_sys h)) in *.
    set (m1 := set_hb_next b (u_free_list h) (set_hb_magic b MAGIC_FREE (set_hb_size b chunk m))).
    assert (Hsz1 : hb_size m1 b = chunk) by (unfold m1; by hb).
    assert (Hfl : 0 <= u_free_list h < 2 ^ 64).
    { destruct fl as [|c t]; [cbn in Hl; rewrite Hl; lia|]. destruct Hl as (-> & _). apply Forall_app in Ho as [Ho _].
      apply Forall_cons in Ho as [(O1 & _ & O3 & _ & O5) _]. unfold MIN_BLOCK in *. lia. }
    change (u_mem (set_free_list b _)) with m1. rewrite Hsz1, (i32_small (n + MIN_BLOCK)) by (unfold MIN_BLOCK; lia).
    destruct (Z.leb_spec (n + MIN_BLOCK) chunk) as [_|]; [|unfold MIN_BLOCK in *; lia].
    assert (Hnx1 : hb_next m1 b = u_free_list h) by (unfold m1; by hb).
    destruct (write_rest_header b n chunk (u_free_list h) m1) as (W & W3 & W4); try lia.
    set (m2 := write_rest b n chunk (u_free_list h) m1) in *.
    set (m3 := set_hb_magic b MAGIC_USED (set_hb_size b n m2)).
    rewrite !u64_small by (unfold HEADER_SIZE; lia). set (h' := set_free_list (b + n) _).
    assert (Hh' : h' = UHeap m3 (b + n) (u_initialized h) u').
    { unfold h', set_free_list, on_umem, set_umem. cbn [u_mem u_free_list u_initialized u_sys]. fold m1.
      by rewrite Hsz1, Hnx1. }
    rewrite Hh'. clear h' Hh'.
    assert (Hsame3 : same_on (fun x => x < b) m m3).
    { intros x Hx. unfold m3. rewrite load8_set_magic, load8_set_size by lia. rewrite W4 by lia. unfold m1. by hb. }
    assert (Hbelow : forall x, in_blocks (fl ++ ul) x -> load8 m3 x = load8 (u_mem h) x).
    { intros x Hx. rewrite Hsame3 by (by eapply in_blocks_below). by apply Hold. }
    eexists _, _. split; [reflexivity|]. split; [intros x Hx; apply Hbelow, in_blocks_app; by right|].
    right. exists ((b + n, chunk - n) :: fl), (b, n). split; [done|]. split; [cbn; lia|].
    apply uheap_carved with (m2 := m2); try done; unfold MIN_BLOCK in *; try lia; by split.
Qed.

(** [malloc], on a request of any size that does not overflow. *)
Lemma malloc_run fuel h fl ul size :
  uheap_is h fl ul -> 0 < size <= MALLOC_MAX -> (length fl < fuel)%nat ->
  exists p h', malloc fuel size h = Some (p, h')
    /\ same_on (in_blocks ul) (u_mem h) (u_mem h')
    /\ (p = 0 /\ uheap_is h' fl ul
        \/ exists fl' c, p = c.1 + HEADER_SIZE /\ size + HEADER_SIZE <= c.2 /\ uheap_is h' fl' (c :: ul)).
Proof.
  intros Hh Hsize Hfuel. destruct (request_size_spec size Hsize) as (Hn & H8 & Hb).
  unfold malloc. destruct (Z.leb_spec size 0); [lia|]. set (n := request_size size) in *.
  set (h0 := if u_initialized h =? 0 then _ else h).
  assert (Hh0 : uheap_is h0 fl ul /\ u_initialized h0 <> 0 /\ u_mem h0 = u_mem h).
  { subst h0. destruct (Z.eqb_spec (u_initialized h) 0) as [E|E]; [|done].
    destruct Hh as [Hl Hu Ho Ha Hi]. apply app_eq_nil in Hi as [-> ->]; [|done]. by split_and!. }
  destruct Hh0 as (Hh0 & Hinit & Hmem). rewrite <- Hmem. clearbody h0. clear Hh Hmem h. destruct Hh0 as [Hl Hu Ho Ha Hi].
  pose proof (proj1 (Forall_app _ _ _) Ho) as [Hof Hou]. pose proof (proj1 (Spec.pairwise_app _ _) Ha) as (Hpf & Hpu & Hcl).
  pose proof (brk_range (u_sys h0)) as [Hbr _].
  assert (Hof62 : Forall (Spec.block_ok (2 ^ 62)) fl) by (eapply blocks_ok_mono, Hof; lia).
  pose proof (malloc_loop_run n fl Hn ltac:(unfold MIN_BLOCK; lia) fuel 0 (u_free_list h0) h0
    Hof62 Hpf ltac:(by left) Hl eq_refl Hfuel) as Hrun.
  destruct (Spec.fit n fl) as [[c l']|] eqn:Ef.
  - destruct Hrun as (h' & -> & R1 & R2 & R3 & _ & R5 & R6). exists (c.1 + HEADER_SIZE), h'. split; [done|].
    assert (Hsame : same_on (in_blocks ul) (u_mem h0) (u_mem h')).
    { intros x (d & Hd & Hx). apply R3. split; [|by left]. intros Hf.
      apply Spec.clear_swap in Hcl. pose proof (proj1 (Forall_forall _ _) Hcl d Hd) as Hcd.
      by apply (clear_outside _ _ _ Hcd Hf). }
    split; [done|]. right. exists l', c. split; [done|].
    split; [pose proof (Spec.fit_some_le _ _ _ _ Ef); lia|].
    destruct (Spec.fit_ok _ _ _ _ _ H8 Hn Ef Hof Hpf) as [Fo Fp]. apply Forall_cons in Fo as [Fc Fo].
    destruct Fp as [Fcl Fp].
    assert (Hul : Forall (fun d => Spec.apart d c /\ Spec.clear d l') ul).
    { apply Spec.clear_swap in Hcl. eapply Forall_impl; [exact Hcl|]. intros d Hd.
      unfold MIN_BLOCK in Hn. apply (Spec.fit_clear n fl c l' d ltac:(lia) Ef Hd). by eapply Spec.ok_sizes. }
    split; rewrite ?R5.
    + exact R2.
    + apply Forall_cons. split; [done|]. eapply used_ext, Hu; [|done]. by eapply Spec.ok_sizes.
    + apply Forall_app. split; [done|]. by apply Forall_cons.
    + rewrite <- Permutation_middle. cbn [Spec.pairwise]. split.
      * apply Forall_app. split; [done|]. eapply Forall_impl; [exact Hul|]. intros d [Hd _]. by apply Spec.apart_sym.
      * apply Spec.pairwise_app. split_and!; [done|done|]. apply Spec.clear_swap.
        eapply Forall_impl; [exact Hul|]. by intros d [_ Hd].
    + rewrite R6. done.
  - rewrite Hrun. destruct (malloc_grow_run h0 fl ul n) as (p & h' & -> & G1 & G2); [by split|lia|done|done|].
    exists p, h'. split; [done|]. split; [done|]. destruct G2 as [?|(fl' & c & -> & Hle & Hh')]; [by left|].
    right. exists fl', c. split_and!; [done|lia|done].
Qed.

(** [free] of a block that is handed out. *)
Lemma free_run h fl ul1 c ul2 :
  uheap_is h fl (ul1 ++ c :: ul2) ->
  uheap_is (free (c.1 + HEADER_SIZE) h) (c :: fl) (ul1 ++ ul2)
  /\ same_on (fun x => ~ inside c x) (u_mem h) (u_mem (free (c.1 + HEADER_SIZE) h)).
Proof.
  intros [Hl Hu Ho Ha Hi].
  assert (Hperm : fl ++ ul1 ++ c :: ul2 ≡ₚ c :: fl ++ ul1 ++ ul2) by (by rewrite !app_assoc, <- Permutation_middle).
  rewrite Hperm in Ho, Ha. apply Forall_cons in Ho as [Hc Ho]. destruct Ha as [Hcl Ha].
  pose proof (Spec.ok_sizes _ _ Ho) as Hs.
  apply Forall_app in Hu as [Hu1 Hu2]. apply Forall_cons in Hu2 as [[Hsz Hmag] Hu2].
  pose proof (brk_range (u_sys h)) as [Hbr _]. destruct Hc as (C1 & C2 & C3 & C4 & C5). unfold MIN_BLOCK in C3.
  assert (Hfl : 0 <= u_free_list h < 2 ^ 64).
  { destruct fl as [|d t]; [cbn in Hl; rewrite Hl; lia|]. destruct Hl as (-> & _).
    apply Forall_cons in Ho as [(O1 & _ & O3 & _ & O5) _]. unfold MIN_BLOCK in O3. lia. }
  unfold free, HEADER_SIZE. destruct (Z.eqb_spec (c.1 + 16) 0); [lia|].
  rewrite u64_small by lia. replace (c.1 + 16 - 16) with c.1 by lia. rewrite Hmag, Z.eqb_refl. cbn [negb].
  set (m' := set_hb_next c.1 (u_free_list h) (set_hb_magic c.1 MAGIC_FREE (u_mem h))).
  set (h' := set_free_list c.1 _). assert (Hh' : h' = UHeap m' c.1 (u_initialized h) (u_sys h)) by reflexivity.
  rewrite Hh'. clear h' Hh'.
  assert (Hsame : same_on (fun x => ~ inside c x) (u_mem h) m').
  { intros x Hx. unfold inside in Hx. unfold m'. rewrite load8_set_next, load8_set_magic by lia. done. }
  assert (Hblocks : same_on (in_blocks (fl ++ ul1 ++ ul2)) (u_mem h) m').
  { intros x Hx. apply Hsame. by eapply clear_outside. }
  apply Forall_app in Hs as [Hsf Hsu]. split; [|done]. split; cbn [u_mem u_free_list u_sys u_initialized].
  - split; [done|]. split; [split; unfold m'; by hb|]. replace (hb_next m' c.1) with (u_free_list h) by (unfold m'; by hb).
    eapply linked_ext, Hl; [done|]. intros x Hx. apply Hblocks, in_blocks_app. by left.
  - eapply used_ext; [exact Hsu| |by apply Forall_app]. intros x Hx. apply Hblocks, in_blocks_app. by right.
  - apply Forall_cons. by split.
  - by split.
  - intros E. specialize (Hi E). by destruct fl, ul1.
Qed.

(** ** Programs that use the heap

    A program calls [malloc] and [free] on what it owns and writes bytes of
    the blocks it owns; [own] lists its blocks with what it has written to
    them (and, at first, what was there). *)
Inductive client_reach : uheap U -> list (Z * list Z) -> Prop :=
| client_init m u : client_reach (UHeap m 0 0 u) []
| client_malloc h own fuel size p h' :
    client_reach h own -> 0 < size <= MALLOC_MAX -> malloc fuel size h = Some (p, h') ->
    client_reach h' (if p =? 0 then own else (p, load_bytes (u_mem h') p (Z.to_nat size)) :: own)
| client_free h own1 p bs own2 :
    client_reach h (own1 ++ (p, bs) :: own2) -> client_reach (free p h) (own1 ++ own2)
| client_write h own1 p bs own2 i v :
    client_reach h (own1 ++ (p, bs) :: own2) -> (i < length bs)%nat ->
    client_reach (on_umem (fun m => store8 m (p + Z.of_nat i) v) h) (own1 ++ (p, <[i := u8 v]> bs) :: own2).

(** A block of the program and the block of the allocator that holds it. *)
Definition held (m : mem) (o : Z * list Z) (c : Spec.block) : Prop :=
  o.1 = c.1 + HEADER_SIZE /\ Z.of_nat (length o.2) + HEADER_SIZE <= c.2
  /\ load_bytes m o.1 (length o.2) = o.2.

Lemma held_ext m m' o c : same_on (inside c) m m' -> held m o c -> held m' o c.
Proof.
  unfold HEADER_SIZE. intros Hs (H1 & H2 & H3). split_and!; [done|done|]. rewrite <- H3 at 2. apply load_bytes_ext.
  intros x Hx. apply Hs. unfold inside, HEADER_SIZE in *. lia.
Qed.

Lemma held_all_ext m m' own ul :
  same_on (in_blocks ul) m m' -> Forall2 (held m) own ul -> Forall2 (held m') own ul.
Proof.
  intros Hs Hf. induction Hf as [|o c own ul Hh Hf IH]; constructor.
  - eapply held_ext, Hh. intros x Hx. apply Hs. exists c. by split; [left|].
  - apply IH. intros x (d & Hd & Hx). apply Hs. exists d. by split; [right|].
Qed.

(** A write to a payload. *)
Lemma write_run h fl ul1 c ul2 x v :
  uheap_is h fl (ul1 ++ c :: ul2) -> c.1 + HEADER_SIZE <= x < c.1 + c.2 ->
  uheap_is (on_umem (fun m => store8 m x v) h) fl (ul1 ++ c :: ul2)
  /\ same_on (fun y => ~ inside c y) (u_mem h) (store8 (u_mem h) x v).
Proof.
  unfold HEADER_SIZE. intros [Hl Hu Ho Ha Hi] Hx.
  assert (Hperm : fl ++ ul1 ++ c :: ul2 ≡ₚ c :: fl ++ ul1 ++ ul2) by (by rewrite !app_assoc, <- Permutation_middle).
  pose proof Ha as Ha'. rewrite Hperm in Ha'. destruct Ha' as [Hcl _]. pose proof (Spec.ok_sizes _ _ Ho) as Hs.
  assert (Hsame : same_on (fun y => ~ inside c y) (u_mem h) (store8 (u_mem h) x v)).
  { intros y Hy. apply load8_store8_ne. unfold inside in Hy. lia. }
  assert (Hblocks : same_on (in_blocks (fl ++ ul1 ++ ul2)) (u_mem h) (store8 (u_mem h) x v)).
  { intros y Hy. apply Hsame. by eapply clear_outside. }
  split; [|done]. split; cbn [on_umem set_umem u_mem u_free_list u_sys u_initialized]; try done.
  - apply Forall_app in Hs as [Hsf _]. eapply linked_ext, Hl; [done|]. intros y Hy. apply Hblocks, in_blocks_app. by left.
  - apply Forall_app in Hu as [Hu1 Hu2]. apply Forall_cons in Hu2 as [Hc Hu2].
    rewrite !Forall_app, !Forall_cons in Hs. destruct Hs as (_ & Hs1 & _ & Hs2).
    apply Forall_app. split; [|apply Forall_cons; split].
    + eapply used_ext, Hu1; [done|]. intros y Hy. apply Hblocks, in_blocks_app. right. apply in_blocks_app. by left.
    + eapply header_ext, Hc. intros y Hy. apply load8_store8_ne. lia.
    + eapply used_ext, Hu2; [done|]. intros y Hy. apply Hblocks, in_blocks_app. right. apply in_blocks_app. by right.
Qed.

(** More fuel does not change a result. *)
Lemma malloc_loop_mono fuel fuel' prev curr n h r :
  malloc_loop fuel prev curr n h = Some r -> (fuel <= fuel')%nat -> malloc_loop fuel' prev curr n h = Some r.
Proof.
  revert fuel' prev curr. induction fuel as [|fuel IH]; intros fuel' prev curr Hr Hle; [done|].
  destruct fuel' as [|fuel']; [lia|]. cbn [malloc_loop] in *.
  destruct (curr =? 0); [done|]. destruct (negb _); [by apply IH; [|lia]|].
  destruct (n <=? _); [done|]. by apply IH; [|lia].
Qed.

Lemma malloc_mono fuel fuel' n h r : malloc fuel n h = Some r -> (fuel <= fuel')%nat -> malloc fuel' n h = Some r.
Proof.
  unfold malloc. destruct (n <=? 0); [done|]. set (h0 := if _ =? 0 then _ else _). intros Hr Hle.
  destruct (malloc_loop fuel 0 _ _ h0) as [o|] eqn:E; [|done]. by rewrite (malloc_loop_mono _ fuel' _ _ _ _ _ E Hle).
Qed.

Lemma client_inv h own :
  client_reach h own -> exists fl ul, uheap_is h fl ul /\ Forall2 (held (u_mem h)) own ul.
Proof.
  induction 1 as [m u|h own fuel size p h' _ IH Hsize Hm|h own1 p bs own2 _ IH|h own1 p bs own2 i v _ IH Hi].
  - exists [], []. split; [|constructor]. by split.
  - destruct IH as (fl & ul & Hh & Hf).
    destruct (malloc_run (Nat.max fuel (S (length fl))) h fl ul size Hh Hsize ltac:(lia)) as (q & h2 & Hrun & Hs & Hres).
    rewrite (malloc_mono _ _ _ _ _ Hm) in Hrun by lia. simplify_eq.
    pose proof (held_all_ext _ _ _ _ Hs Hf) as Hf'.
    destruct Hres as [[-> Hh']|(fl' & c & -> & Hc & Hh')]; [by exists fl, ul|].
    pose proof (ui_ok _ _ _ Hh') as Ho. apply Forall_app in Ho as [_ Ho]. apply Forall_cons in Ho as [(C1 & _) _].
    unfold HEADER_SIZE in *. destruct (Z.eqb_spec (c.1 + 16) 0); [lia|]. exists fl', (c :: ul). split; [done|].
    constructor; [|done]. unfold held, HEADER_SIZE. cbn [fst snd]. rewrite length_load_bytes. split_and!; [done|lia|done].
  - destruct IH as (fl & ul & Hh & Hf). apply Forall2_app_inv_l in Hf as (ul1 & ul' & Hf1 & Hf2 & ->).
    apply Forall2_cons_inv_l in Hf2 as (c & ul2 & (Hp & _) & Hf2 & ->). cbn [fst] in Hp. subst p.
    destruct (free_run _ _ _ _ _ Hh) as [Hh' Hs]. exists (c :: fl), (ul1 ++ ul2). split; [done|].
    apply (held_all_ext (u_mem h)); [|by apply Forall2_app]. intros x Hx. apply Hs.
    eapply clear_outside; [|exact Hx].
    pose proof (ui_apart _ _ _ Hh') as Ha. destruct Ha as [Ha _]. by apply Forall_app in Ha as [_ Ha].
  - destruct IH as (fl & ul & Hh & Hf). apply Forall2_app_inv_l in Hf as (ul1 & ul' & Hf1 & Hf2 & ->).
    apply Forall2_cons_inv_l in Hf2 as (c & ul2 & (Hp & Hlen & Hld) & Hf2 & ->). cbn [fst snd] in *.
    pose proof (ui_apart _ _ _ Hh) as Ha. rewrite app_assoc, <- Permutation_middle in Ha. destruct Ha as [Ha _].
    rewrite <- app_assoc in Ha. apply Forall_app in Ha as [_ Ha].
    destruct (write_run h fl ul1 c ul2 (p + Z.of_nat i) v Hh ltac:(unfold HEADER_SIZE in *; lia)) as [Hh' Hs].
    exists fl, (ul1 ++ c :: ul2). split; [done|]. cbn [on_umem set_umem u_mem].
    assert (Hkeep : forall own ul, (forall d, d ∈ ul -> d ∈ ul1 ++ ul2) -> Forall2 (held (u_mem h)) own ul ->
              Forall2 (held (store8 (u_mem h) (p + Z.of_nat i) v)) own ul).
    { intros own ul Hsub. apply held_all_ext. intros x (d & Hd & Hx). apply Hs.
      eapply clear_outside; [exact Ha|]. exists d. split; [by apply Hsub|done]. }
    apply Forall2_app; [|constructor].
    + apply Hkeep; [|done]. intros d Hd. apply elem_of_app. by left.
    + unfold held. cbn [fst snd]. rewrite length_insert. split_and!; [done|done|]. rewrite <- Hld at 2.
      apply list_eq. intros j. destruct (decide (j < length bs)%nat) as [Hj|Hj].
      * rewrite lookup_load_bytes, load8_store8 by done. rewrite list_lookup_insert, length_load_bytes.
        rewrite lookup_load_bytes by done. repeat case_decide; try lia; try done.
      * rewrite !lookup_ge_None_2; [done| |]; rewrite ?length_insert, length_load_bytes; lia.
    + apply Hkeep; [|done]. intros d Hd. apply elem_of_app. by right.
Qed.

(** C6: [malloc]'s blocks belong to their owner.  Whatever a program does with
    [malloc], [free] and writes to its own blocks, each block it owns is
    aligned to 8 bytes, overlaps no other, and holds what was last written
    to it; and [malloc] comes back for every request up to [MALLOC_MAX]. *)
Theorem malloc_blocks_hold h own :
  client_reach h own ->
  (forall p bs, (p, bs) ∈ own -> p mod 8 = 0 /\ load_bytes (u_mem h) p (length bs) = bs)
  /\ (forall i j p q bs cs, own !! i = Some (p, bs) -> own !! j = Some (q, cs) -> i <> j ->
        p + Z.of_nat (length bs) <= q \/ q + Z.of_nat (length cs) <= p)
  /\ (exists n, forall fuel size, (n <= fuel)%nat -> size <= MALLOC_MAX -> is_Some (malloc fuel size h)).
Proof.
  intros Hr. destruct (client_inv _ _ Hr) as (fl & ul & Hh & Hf).
  pose proof (ui_ok _ _ _ Hh) as Ho. apply Forall_app in Ho as [_ Ho].
  pose proof (ui_apart _ _ _ Hh) as Ha. apply Spec.pairwise_app in Ha as (_ & Ha & _). split_and!.
  - intros p bs Hin. apply list_elem_of_lookup in Hin as [i Hi].
    destruct (Forall2_lookup_l _ _ _ _ _ Hf Hi) as (c & Hc & Hp & _ & Hl). cbn [fst snd] in *. split; [|done].
    destruct (Forall_lookup_1 _ _ _ _ Ho Hc) as (_ & C2 & _). unfold HEADER_SIZE in Hp. zlia.
  - intros i j p q bs cs Hi Hj Hne.
    destruct (Forall2_lookup_l _ _ _ _ _ Hf Hi) as (c & Hc & Hp & Hlc & _).
    destruct (Forall2_lookup_l _ _ _ _ _ Hf Hj) as (d & Hd & Hq & Hld & _). cbn [fst snd] in *.
    pose proof (Spec.pairwise_lookup _ _ _ _ _ Ha Hc Hd Hne) as Hap. unfold Spec.apart, HEADER_SIZE in *. lia.
  - exists (S (length fl)). intros fuel size Hfuel Hsize. destruct (Z.leb_spec size 0) as [Hz|Hz].
    + unfold malloc. destruct (Z.leb_spec size 0); [done|lia].
    + destruct (malloc_run fuel h fl ul size Hh ltac:(lia) ltac:(lia)) as (p & h' & -> & _). done.
Qed.

End Refinement.

(** The area SYS_SBRK has for a program, from 0x510000 up to 0x600000, as a
    number of pages in use. *)
Definition HEAP_BASE : Z := 0x510000.
Definition HEAP_PAGES : nat := 240.

#[export] Instance area_sbrk : Sbrk nat := {
  sbrk n m u :=
    let new := (u + Z.to_nat ((n + 4095) / 4096))%nat in
    if (new <=? HEAP_PAGES)%nat then (HEAP_BASE + 4096 * Z.of_nat u, (m, new)) else (SBRK_FAILED, (m, u))
}.

#[export] Program Instance area_sbrk_laws : SbrkLaws nat := {
  brk u := HEAP_BASE + 4096 * Z.of_nat (Nat.min u HEAP_PAGES)
}.
Next Obligation. intros u. unfold HEAP_BASE, HEAP_PAGES. zlia. Qed.
Next Obligation.
  intros n m u p m' u' Hn Hs. cbn [sbrk area_sbrk] in Hs. unfold HEAP_BASE, HEAP_PAGES in *.
  destruct (Nat.leb_spec (u + Z.to_nat ((n + 4095) / 4096)) 240); simplify_eq.
  - split; [done|]. split; [zlia|]. right. zlia.
  - split; [done|]. split; [lia|]. by left.
Qed.

(** A program that allocates two blocks, fills a byte of the first and frees
    the second. *)
Lemma malloc_blocks_hold_witness :
  exists p q h3, client_reach h3 [(p, [0; 7; 0])] /\ p <> q /\ load_bytes (u_mem h3) p 3 = [0; 7; 0].
Proof.
  assert (H1 : exists h1, malloc 1 3 (UHeap ∅ 0 0 0%nat) = Some (HEAP_BASE + 16, h1)
            /\ load_bytes (u_mem h1) (HEAP_BASE + 16) 3 = [0; 0; 0]
            /\ exists h2, malloc 2 40 h1 = Some (HEAP_BASE + 48, h2)).
  { eexists. split; [vm_compute; reflexivity|]. split; [vm_compute; reflexivity|].
    eexists. vm_compute. reflexivity. }
  destruct H1 as (h1 & E1 & L1 & h2 & E2).
  pose proof (client_malloc _ _ _ 3 _ _ (client_init ∅ 0%nat) ltac:(unfold MALLOC_MAX; lia) E1) as R1.
  change (HEAP_BASE + 16 =? 0) with false in R1. cbn iota in R1. change (Z.to_nat 3) with 3%nat in R1. rewrite L1 in R1.
  pose proof (client_malloc _ _ _ 40 _ _ R1 ltac:(unfold MALLOC_MAX; lia) E2) as R3.
  change (HEAP_BASE + 48 =? 0) with false in R3. cbn iota in R3.
  pose proof (client_free _ [] _ _ _ R3) as R4. cbn [app] in R4.
  pose proof (client_write _ [] _ _ [] 1 7 R4 ltac:(cbn; lia)) as R5. cbn [app] in R5.
  exists (HEAP_BASE + 16), (HEAP_BASE + 48). eexists. split; [exact R5|]. split; [done|].
  destruct (malloc_blocks_hold _ _ R5) as (Hb & _ & _). apply (Hb _ _ ltac:(left)).
Defined.
