(* ===== verification/User.v ===== *)
(** * User programs as interaction trees

    A program of [src/userspace/] is a tree of calls: system calls and the
    calls of the C library that depend on them.  The programs loop for as
    long as they are talked to, so the trees are those of the ITree library.
    [run] plays a tree against a world that answers the calls, and [runs]
    says that it comes to an end with a result; the rules are one per way of
    building a program. *)

From S2P Require Import Prelude.
From S2P Require Import LibcStdio.
From ITree Require Export ITree.

Declare Scope prog_scope.
Delimit Scope prog_scope with prog.
Notation "'call*' x ':=' m 'in' k" := (ITree.bind m (fun x => k))
  (at level 10, x name, m at level 100, k at level 200) : prog_scope.
Notation "'call*' ' p ':=' m 'in' k" := (ITree.bind m (fun x => let 'p := x in k))
  (at level 10, p strict pattern, m at level 100, k at level 200) : prog_scope.
Notation "'then*' m 'in' k" := (ITree.bind m (fun _ => k))
  (at level 10, m at level 100, k at level 200) : prog_scope.
#[global] Open Scope prog_scope.

(** ** Playing a program *)

Section Run.
Context {E : Type -> Type} {W : Type} (answer : forall X, E X -> W -> X * W).

(** [fuel] bounds the nodes of the tree that are visited. *)
Fixpoint run {A} (fuel : nat) (t : itree E A) (w : W) : option (A * W) :=
  match fuel with
  | O => None
  | S f =>
      match observe t with
      | RetF a => Some (a, w)
      | TauF t' => run f t' w
      | VisF e k => let '(x, w') := answer _ e w in run f (k x) w'
      end
  end.

Definition runs {A} (t : itree E A) (w : W) (a : A) (w' : W) : Prop :=
  exists fuel, run fuel t w = Some (a, w').

Lemma run_mono {A} fuel fuel' (t : itree E A) w r :
  run fuel t w = Some r -> (fuel <= fuel')%nat -> run fuel' t w = Some r.
Proof.
  revert fuel' t w. induction fuel as [|f IH]; intros fuel' t w Hr Hle; [done|].
  destruct fuel' as [|f']; [lia|]. cbn [run] in *. destruct (observe t) as [a|t'|X e k].
  - done.
  - by apply IH; [|lia].
  - destruct (answer X e w) as [x w']. by apply IH; [|lia].
Qed.

(** A program has one run. *)
Lemma runs_det {A} (t : itree E A) w a w1 b w2 : runs t w a w1 -> runs t w b w2 -> a = b /\ w1 = w2.
Proof.
  intros [f Hf] [g Hg]. pose proof (run_mono _ (Nat.max f g) _ _ _ Hf ltac:(lia)) as H1.
  pose proof (run_mono _ (Nat.max f g) _ _ _ Hg ltac:(lia)) as H2. rewrite H1 in H2. by simplify_eq.
Qed.

Lemma runs_ret {A} (a : A) w : runs (Ret a) w a w.
Proof. by exists 1%nat. Qed.

Lemma runs_trigger {A} (e : E A) w : runs (ITree.trigger e) w (answer _ e w).1 (answer _ e w).2.
Proof. exists 2%nat. cbn. by destruct (answer A e w). Qed.

Lemma runs_bind {A B} (t : itree E A) (k : A -> itree E B) w a w1 b w2 :
  runs t w a w1 -> runs (k a) w1 b w2 -> runs (ITree.bind t k) w b w2.
Proof.
  intros [f Hf] [g Hg]. exists (f + g)%nat. revert t w Hf. induction f as [|f IH]; intros t w Hf; [done|].
  cbn [run] in Hf. cbn [Nat.add run].
  change (observe (ITree.bind t k)) with
    (observe (match observe t with RetF r => k r | TauF t' => Tau (ITree.bind t' k)
     | VisF e h => Vis e (fun x => ITree.bind (h x) k) end)).
  destruct (observe t) as [a'|t'|X e h].
  - simplify_eq. apply (run_mono g (S (f + g)) (k a) w1) in Hg; [|lia]. exact Hg.
  - change (run (f + g) (ITree.bind t' k) w = Some (b, w2)). by apply IH.
  - change ((let '(x, w') := answer X e w in run (f + g) (ITree.bind (h x) k) w') = Some (b, w2)).
    destruct (answer X e w) as [x w']. by apply IH.
Qed.

(** One call, whatever its answer, then the rest. *)
Lemma runs_call {A B} (e : E A) (k : A -> itree E B) w b :
  (forall a w1, exists w', runs (k a) w1 b w') -> exists w', runs (ITree.bind (ITree.trigger e) k) w b w'.
Proof.
  intros H. destruct (H (answer _ e w).1 (answer _ e w).2) as [w' Hw]. exists w'.
  eapply runs_bind; [apply runs_trigger|exact Hw].
Qed.

Lemma runs_observe {A} (t u : itree E A) w a w' : observe t = observe u -> runs t w a w' -> runs u w a w'.
Proof. intros Ho [[|f] Hf]; [done|]. exists (S f). cbn [run] in *. by rewrite <- Ho. Qed.

Lemma runs_iter_more {I R} (body : I -> itree E (I + R)) i j w w1 r w2 :
  runs (body i) w (inl j) w1 -> runs (ITree.iter body j) w1 r w2 -> runs (ITree.iter body i) w r w2.
Proof.
  intros H1 [g Hg].
  assert (H : runs (ITree.bind (body i) (fun lr => match lr with inl l => Tau (ITree.iter body l) | inr r => Ret r end)) w r w2).
  { eapply runs_bind; [exact H1|]. exists (S g). exact Hg. }
  by eapply runs_observe, H.
Qed.

Lemma runs_iter_done {I R} (body : I -> itree E (I + R)) i w r w1 :
  runs (body i) w (inr r) w1 -> runs (ITree.iter body i) w r w1.
Proof.
  intros H1.
  assert (H : runs (ITree.bind (body i) (fun lr => match lr with inl l => Tau (ITree.iter body l) | inr r => Ret r end)) w r w1).
  { eapply runs_bind; [exact H1|]. apply runs_ret. }
  by eapply runs_observe, H.
Qed.

(** ** Part of a run

    [steps t w t' w']: played from [w], the program [t] comes to a point where
    [t'] is left to do and the world is [w']. *)
Inductive steps {A} : itree E A -> W -> itree E A -> W -> Prop :=
| steps_here t w t' : observe t = observe t' -> steps t w t' w
| steps_tau t w u t' w' : observe t = TauF u -> steps u w t' w' -> steps t w t' w'
| steps_call t w X (e : E X) k t' w' :
    observe t = VisF e k -> steps (k (answer X e w).1) (answer X e w).2 t' w' -> steps t w t' w'.

Lemma observe_bind {A B} (t : itree E A) (k : A -> itree E B) :
  observe (ITree.bind t k) = observe (match observe t with RetF r => k r | TauF t' => Tau (ITree.bind t' k)
     | VisF e h => Vis e (fun x => ITree.bind (h x) k) end).
Proof. reflexivity. Qed.

Lemma steps_trans {A} (t u v : itree E A) w w1 w2 : steps t w u w1 -> steps u w1 v w2 -> steps t w v w2.
Proof.
  intros H1 H2. induction H1 as [t w u Ho|t w u0 u w1 Ho _ IH|t w X e k u w1 Ho _ IH].
  - destruct H2 as [u w v Ho'|u w u0 v w2 Ho' H|u w X e k v w2 Ho' H].
    + apply steps_here. congruence.
    + apply (steps_tau _ _ u0); [congruence|done].
    + apply (steps_call _ _ X e k); [congruence|done].
  - by apply (steps_tau _ _ u0), IH.
  - by apply (steps_call _ _ X e k), IH.
Qed.

Lemma steps_bind {A B} (t t' : itree E A) (k : A -> itree E B) w w' :
  steps t w t' w' -> steps (ITree.bind t k) w (ITree.bind t' k) w'.
Proof.
  induction 1 as [t w t' Ho|t w u t' w' Ho _ IH|t w X e h t' w' Ho _ IH].
  - apply steps_here. by rewrite !observe_bind, Ho.
  - eapply steps_tau; [by rewrite observe_bind, Ho|exact IH].
  - eapply steps_call; [by rewrite observe_bind, Ho|exact IH].
Qed.

(** A call, then the rest. *)
Lemma steps_trigger {A B} (e : E A) (k : A -> itree E B) w t' w' :
  steps (k (answer A e w).1) (answer A e w).2 t' w' -> steps (ITree.bind (ITree.trigger e) k) w t' w'.
Proof.
  intros H. apply (steps_call _ w A e (fun x => ITree.bind (Ret x) k)); [done|].
  eapply steps_trans; [|exact H]. by apply steps_here.
Qed.

(** To play the whole is to play the part that is left. *)
Lemma steps_runs {A} (t t' : itree E A) w w' a w2 : steps t w t' w' -> runs t' w' a w2 -> runs t w a w2.
Proof.
  induction 1 as [t w t' Ho|t w u t' w' Ho _ IH|t w X e h t' w' Ho _ IH]; intros Hr.
  - destruct Hr as [[|f] Hf]; [done|]. exists (S f). cbn [run] in *. by rewrite Ho.
  - destruct (IH Hr) as [f Hf]. exists (S f). cbn [run]. by rewrite Ho.
  - destruct (IH Hr) as [f Hf]. exists (S f). cbn [run]. rewrite Ho. by destruct (answer X e w).
Qed.

(** ** What a program can end with

    [ensures t Q]: if [t] comes to an end, in whatever world, its result is in
    [Q]. *)
Lemma runs_bind_inv {A B} (t : itree E A) (k : A -> itree E B) w b w2 :
  runs (ITree.bind t k) w b w2 -> exists a w1, runs t w a w1 /\ runs (k a) w1 b w2.
Proof.
  intros [f Hf]. revert t w Hf. induction f as [|f IH]; intros t w Hf; [done|]. cbn [run] in Hf.
  change (observe (ITree.bind t k)) with
    (observe (match observe t with RetF r => k r | TauF t' => Tau (ITree.bind t' k)
     | VisF e h => Vis e (fun x => ITree.bind (h x) k) end)) in Hf.
  destruct (observe t) as [a|t'|X e h] eqn:Eo.
  - exists a, w. split; [exists 1%nat; cbn; by rewrite Eo|]. by exists (S f).
  - change (run f (ITree.bind t' k) w = Some (b, w2)) in Hf. apply IH in Hf as (a & w1 & [g Hg] & Hk).
    exists a, w1. split; [|done]. exists (S g). cbn [run]. by rewrite Eo.
  - change ((let '(x, w') := answer X e w in run f (ITree.bind (h x) k) w') = Some (b, w2)) in Hf.
    destruct (answer X e w) as [x w'] eqn:Ea. apply IH in Hf as (a & w1 & [g Hg] & Hk).
    exists a, w1. split; [|done]. exists (S g). cbn [run]. by rewrite Eo, Ea.
Qed.

Definition ensures {A} (t : itree E A) (Q : A -> Prop) : Prop := forall w a w', runs t w a w' -> Q a.

Lemma ensures_ret {A} (a : A) (Q : A -> Prop) : Q a -> ensures (Ret a) Q.
Proof. intros HQ w b w' Hr. by destruct (runs_det _ _ _ _ _ _ (runs_ret a w) Hr) as [<- _]. Qed.

Lemma ensures_any {A} (t : itree E A) : ensures t (fun _ => True).
Proof. by intros w a w' _. Qed.

Lemma ensures_bind {A B} (t : itree E A) (k : A -> itree E B) P Q :
  ensures t P -> (forall a, P a -> ensures (k a) Q) -> ensures (ITree.bind t k) Q.
Proof.
  intros Ht Hk w b w2 Hr. apply runs_bind_inv in Hr as (a & w1 & H1 & H2).
  eapply Hk; [by eapply Ht|exact H2].
Qed.

(** A loop whose rounds keep [P] ends in [Q]. *)
Lemma ensures_iter {I R} (body : I -> itree E (I + R)) P Q i :
  P i -> (forall j, P j -> ensures (body j) (fun r => match r with inl j' => P j' | inr b => Q b end)) ->
  ensures (ITree.iter body i) Q.
Proof.
  intros Hi Hb w r w' [f Hf]. revert i w Hi Hf. induction f as [f IH] using lt_wf_ind. intros i w Hi Hf.
  assert (Hr : run f (ITree.bind (body i)
            (fun lr => match lr with inl l => Tau (ITree.iter body l) | inr r => Ret r end)) w = Some (r, w')).
  { destruct f as [|f]; [done|]. exact Hf. }
  clear Hf. assert (Hinv : exists a w1 g, runs (body i) w a w1 /\ (g <= f)%nat
    /\ run g (match a with inl l => Tau (ITree.iter body l) | inr r => Ret r end) w1 = Some (r, w')).
  { clear IH Hi. revert Hr. generalize (body i) as t. revert w. induction f as [|f IH]; intros w t Hr; [done|].
    cbn [run] in Hr.
    change (observe (ITree.bind t ?k)) with
      (observe (match observe t with RetF r => k r | TauF t' => Tau (ITree.bind t' k)
       | VisF e h => Vis e (fun x => ITree.bind (h x) k) end)) in Hr.
    destruct (observe t) as [a|t'|X e h] eqn:Eo.
    - exists a, w, (S f). split; [exists 1%nat; cbn; by rewrite Eo|]. by split.
    - change (run f (ITree.bind t' (fun lr => match lr with inl l => Tau (ITree.iter body l) | inr r => Ret r end)) w
        = Some (r, w')) in Hr.
      apply IH in Hr as (a & w1 & g & [n Hn] & Hg & Hk). exists a, w1, g. split; [|by split; [lia|]].
      exists (S n). cbn [run]. by rewrite Eo.
    - change ((let '(x, w2) := answer X e w in run f (ITree.bind (h x)
        (fun lr => match lr with inl l => Tau (ITree.iter body l) | inr r => Ret r end)) w2) = Some (r, w')) in Hr.
      destruct (answer X e w) as [x w2] eqn:Ea. apply IH in Hr as (a & w1 & g & [n Hn] & Hg & Hk).
      exists a, w1, g. split; [|by split; [lia|]]. exists (S n). cbn [run]. by rewrite Eo, Ea. }
  destruct Hinv as ([j|b] & w1 & g & H1 & Hg & Hk); pose proof (Hb i Hi w _ w1 H1) as HQ.
  - destruct g as [|g]; [done|]. cbn in Hk. eapply (IH g); [lia|exact HQ|exact Hk].
  - destruct g as [|g]; [done|]. cbn in Hk. by simplify_eq.
Qed.

End Run.

(** ** The calls of the programs *)

(** The numbers of [syscall.h] that the programs use. *)
Definition SYS_SLEEP : Z := 2.
Definition SYS_TICKS : Z := 3.
Definition SYS_CLEAR : Z := 4.
Definition SYS_LS : Z := 6.
Definition SYS_CD : Z := 7.
Definition SYS_CAT : Z := 8.
Definition SYS_REBOOT : Z := 9.
Definition SYS_SHUTDOWN : Z := 10.
Definition SYS_MKDIR : Z := 12.
Definition SYS_RMDIR : Z := 13.
Definition SYS_RM : Z := 14.
Definition SYS_MV : Z := 15.
Definition SYS_CP : Z := 16.
Definition SYS_EXEC : Z := 17.
Definition SYS_DATETIME : Z := 18.
Definition SYS_FORK : Z := 19.
Definition SYS_EXIT : Z := 20.
Definition SYS_WAITPID : Z := 21.
Definition SYS_PIPE : Z := 23.
Definition SYS_DUP2 : Z := 24.
Definition SYS_CLOSE : Z := 25.
Definition SYS_SIGACTION : Z := 26.
Definition SYS_KILL : Z := 27.
Definition SYS_SIGRETURN : Z := 28.
Definition SYS_TOUCH : Z := 29.
Definition SYS_GET_CURSOR : Z := 30.
Definition SYS_SET_CURSOR : Z := 31.
Definition SYS_WRITE_FILE : Z := 32.
Definition SYS_KEYDATA : Z := 33.

(** An argument: a number, or a string or buffer the call reads. *)
Inductive sysarg := Num (v : Z) | Bytes (s : list Z).

Variant sysE : Type -> Type :=
| Read (fd : Z) : sysE (Z * Z)                 (* [read(fd, &c, 1)]: the result, and [c] *)
| Write (fd : Z) (bs : list Z) : sysE Z        (* SYS_WRITE *)
| Fill (number : Z) (path : option (list Z)) (size : Z) : sysE (Z * list Z)
                                               (* a call that fills a buffer: the result and the buffer as a string *)
| Sys (number : Z) (args : list sysarg) : sysE Z
| SysPipe : sysE (Z * (Z * Z))                 (* SYS_PIPE: the result and [fds] *)
| Malloc (size : Z) : sysE Z
| Free (p : Z) : sysE unit
| Flag : sysE bool                             (* [got_sigint], which the signal handler sets *)
| ClearFlag : sysE unit.                       (* [got_sigint = 0] *)

Abbreviation prog := (itree sysE).

Definition sys (number : Z) (args : list sysarg) : prog Z := ITree.trigger (Sys number args).
Definition sys_path (number : Z) (path : list Z) : prog Z := sys number [Bytes path].

(** [stdio.c] on top of SYS_WRITE and SYS_READ. *)
Definition EOF : Z := -1.
Definition putchar (c : Z) : prog unit := then* ITree.trigger (Write 1 [u8 c]) in Ret tt.
Definition puts (s : list Z) : prog unit :=
  then* ITree.trigger (Write 1 s) in then* ITree.trigger (Write 1 [10]) in Ret tt.
Definition printf (fmt : list Z) (args : list LibcStdio.arg) : prog unit :=
  then* ITree.trigger (Write 1 (default [] (LibcStdio.printf fmt args))) in Ret tt.
Definition getchar : prog Z :=
  call* '(ret, c) := ITree.trigger (Read 0) in Ret (if ret <=? 0 then EOF else u8 c).

(** [read], [write], [pipe], [dup2], [close] and [kill], which only pass their
    arguments on. *)
Definition read_fd (fd : Z) : prog (Z * Z) := call* '(ret, c) := ITree.trigger (Read fd) in Ret (i32 ret, c).
Definition write_fd (fd : Z) (bs : list Z) : prog Z := call* ret := ITree.trigger (Write fd bs) in Ret (i32 ret).
Definition pipe_fds : prog (Z * (Z * Z)) := call* '(ret, fds) := ITree.trigger SysPipe in Ret (i32 ret, fds).
Definition dup2_fd (oldfd newfd : Z) : prog Z := call* ret := sys SYS_DUP2 [Num oldfd; Num newfd] in Ret (i32 ret).
Definition close_fd (fd : Z) : prog Z := call* ret := sys SYS_CLOSE [Num fd] in Ret (i32 ret).
Definition kill_pid (pid sig : Z) : prog Z := call* ret := sys SYS_KILL [Num pid; Num sig] in Ret (i32 ret).
Definition sigreturn : prog unit := then* sys SYS_SIGRETURN [] in Ret tt.

(** [getchar] when a key is there. *)
Definition getchar_nonblock : prog Z :=
  call* data := sys SYS_KEYDATA [] in
  if data =? 0 then Ret EOF else getchar.

(** [exit] and [halt] end in [while (1);]. *)
Definition exit {A} (code : Z) : prog A := then* sys SYS_EXIT [Num code] in ITree.spin.
Definition halt {A} : prog A := then* sys_path SYS_EXEC (str "shell") in ITree.spin.
(** [_start] of [crt0.c]. *)
Definition start {A} (main : prog Z) : prog A := call* code := main in exit code.

(** A message with its newline. *)
Definition say (s : list Z) : prog unit := printf (s ++ [10]) [].
Fixpoint say_all (ls : list (list Z)) : prog unit :=
  match ls with [] => Ret tt | l :: rest => then* say l in say_all rest end.

(** [for (i = 0; i < n; i++) putchar(s[i])]. *)
Fixpoint putchars (s : list Z) : prog unit :=
  match s with
  | [] => Ret tt
  | c :: rest => then* putchar c in putchars rest
  end.

(** [signal.c]: the table of handlers, and the calls that set it.  A handler
    is an address; [trampoline] is that of [signal_trampoline]. *)
Definition NSIGS : Z := 32.
Definition no_handlers : list Z := replicate 32 0.
Definition signal (trampoline signum handler : Z) (hs : list Z) : prog (Z * list Z) :=
  if (signum <? 1) || (NSIGS <=? signum) then Ret (-1, hs)
  else
    let old := default 0 (hs !! Z.to_nat signum) in
    then* sys SYS_SIGACTION [Num signum; Num handler; Num trampoline] in
    Ret (old, <[Z.to_nat signum := handler]> hs).
Definition sigaction (signum handler trampoline : Z) (hs : list Z) : prog (Z * list Z) :=
  if (signum <? 1) || (NSIGS <=? signum) then Ret (-1, hs)
  else
    call* r := sys SYS_SIGACTION [Num signum; Num handler; Num trampoline] in
    Ret (i32 r, <[Z.to_nat signum := handler]> hs).

(** ** Strings as values *)

(** What comes before the first [c], at most [n] characters, and what is left. *)
Fixpoint word (n : nat) (c : Z) (s : list Z) : list Z * list Z :=
  match n, s with
  | S n', x :: rest => if x =? c then ([], s) else let '(w, r) := word n' c rest in (x :: w, r)
  | _, _ => ([], s)
  end.

(** [strstr] on strings: the offset of the first occurrence. *)
Fixpoint find_sub (nd s : list Z) : option nat :=
  if prefixb nd s then Some 0%nat
  else match s with
       | [] => None
       | _ :: rest => S <$> find_sub nd rest
       end.

(** ** A world for the programs

    Standard input that is there in full, the bytes written to standard
    output, files by path, memory for [w_room] more blocks, and for the other
    calls the answers of a script; [w_log] lists those calls. *)
Record world := World {
  w_in : list Z; w_out : list Z; w_files : gmap (list Z) (list Z);
  w_room : nat; w_next : Z; w_script : list Z; w_log : list (Z * list sysarg)
}.

Definition set_in (v : list Z) (w : world) : world :=
  World v (w_out w) (w_files w) (w_room w) (w_next w) (w_script w) (w_log w).
Definition add_out (v : list Z) (w : world) : world :=
  World (w_in w) (w_out w ++ v) (w_files w) (w_room w) (w_next w) (w_script w) (w_log w).
Definition set_file (path bs : list Z) (w : world) : world :=
  World (w_in w) (w_out w) (<[path := bs]> (w_files w)) (w_room w) (w_next w) (w_script w) (w_log w).
Definition take_room (size : Z) (w : world) : Z * world :=
  match w_room w with
  | O => (0, w)
  | S n => (w_next w, World (w_in w) (w_out w) (w_files w) n (w_next w + 16 + Z.max 0 size) (w_script w) (w_log w))
  end.
Definition log_call (number : Z) (args : list sysarg) (w : world) : Z * world :=
  (default 0 (head (w_script w)),
   World (w_in w) (w_out w) (w_files w) (w_room w) (w_next w) (tail (w_script w)) (w_log w ++ [(number, args)])).

Definition answer (X : Type) (e : sysE X) (w : world) : X * world :=
  match e in sysE X return X * world with
  | Read fd => match w_in w with [] => ((0, 0), w) | c :: rest => ((1, c), set_in rest w) end
  | Write fd bs => (Z.of_nat (length bs), add_out bs w)
  | Fill number path size =>
      match path with
      | None => ((-1, []), w)
      | Some p =>
          match w_files w !! p with
          | None => ((-1, []), w)
          | Some bs => ((Z.of_nat (length (take (Z.to_nat (size - 1)) bs)), take (Z.to_nat (size - 1)) bs), w)
          end
      end
  | Sys number args =>
      match args with
      | [Bytes path; Bytes bs] =>
          if number =? SYS_WRITE_FILE then (0, set_file path bs w) else log_call number args w
      | _ => log_call number args w
      end
  | SysPipe => ((0, (3, 4)), (log_call SYS_PIPE [] w).2)
  | Malloc size => take_room size w
  | Free p => (tt, w)
  | Flag => (false, w)
  | ClearFlag => (tt, w)
  end.

(** [plays t w a w']: in the world [w] the program [t] ends with [a], and the
    world is then [w']. *)
Abbreviation plays := (runs answer).

Lemma plays_write fd bs w : plays (ITree.trigger (Write fd bs)) w (Z.of_nat (length bs)) (add_out bs w).
Proof. apply (runs_trigger answer (Write fd bs)). Qed.

Lemma plays_printf fmt args w : plays (printf fmt args) w tt (add_out (default [] (LibcStdio.printf fmt args)) w).
Proof. eapply runs_bind; [apply plays_write|apply runs_ret]. Qed.

Lemma plays_read fd c rest w : w_in w = c :: rest -> plays (ITree.trigger (Read fd)) w (1, c) (set_in rest w).
Proof. intros E. pose proof (runs_trigger answer (Read fd) w) as H. cbn in H. by rewrite E in H. Qed.

Lemma plays_read_end fd w : w_in w = [] -> plays (ITree.trigger (Read fd)) w (0, 0) w.
Proof. intros E. pose proof (runs_trigger answer (Read fd) w) as H. cbn in H. by rewrite E in H. Qed.

Create HintDb plays.
#[export] Hint Resolve runs_ret plays_write plays_printf : plays.
