(* ===== verification/LibcFile.v ===== *)
(** * The C library: files ([src/some-libc/file.c])

    [fopen] reads a whole file into a buffer from [malloc]; the other
    functions work on the buffer.  A [FILE] has the buffer's address and what
    was stored there.  The properties: positions stay inside the buffer, and,
    since [file_alloc] finds no slot in the table as it starts out, [fopen]
    opens nothing. *)

From S2P Require Import Prelude.
From S2P Require Import User.

Definition MAX_FILES : nat := 8.
Definition FD_STDIN : Z := 0.
Definition FD_STDOUT : Z := 1.
Definition FD_STDERR : Z := 2.

Record FILE := File { f_fd : Z; f_buf : Z; f_data : list Z; f_bufsize : Z; f_pos : Z; f_mode : Z }.

Definition stdin_file : FILE := File FD_STDIN 0 [] 0 0 0.
Definition stdout_file : FILE := File FD_STDOUT 0 [] 0 0 0.
Definition stderr_file : FILE := File FD_STDERR 0 [] 0 0 0.

(** [file_table] and [file_table_used]. *)
Record files := Files { file_table : list FILE; file_table_used : Z }.
Definition no_files : files := Files (replicate MAX_FILES (File 0 0 [] 0 0 0)) 0.
Definition set_slot (i : nat) (f : FILE) (t : files) : files := Files (<[i := f]> (file_table t)) (file_table_used t).

(** The slot, cleared, if there is one; [i] is the index of the head. *)
Fixpoint find_slot (i : nat) (fs : list FILE) : option nat :=
  match fs with
  | [] => None
  | f :: rest =>
      if (f_fd f =? 0) && (f_buf f =? 0) && (i =? 0)%nat then find_slot (S i) rest
      else if f_fd f =? -1 then Some i
      else find_slot (S i) rest
  end.
Definition file_alloc (t : files) : option nat := find_slot 0 (file_table t).

(** The result is the slot; [None] is NULL. *)
Definition fopen (path mode : option (list Z)) (t : files) : prog (option nat * files) :=
  match path, mode with
  | Some path, Some mode =>
      if char_at mode 0 =? 114 then
        call* buf := ITree.trigger (Malloc 4096) in
        if buf =? 0 then Ret (None, t)
        else
          call* '(n, data) := ITree.trigger (Fill SYS_CAT (Some path) 4096) in
          if n <=? 0 then then* ITree.trigger (Free buf) in Ret (None, t)
          else
            match file_alloc t with
            | None => then* ITree.trigger (Free buf) in Ret (None, t)
            | Some i =>
                let used := file_table_used t in
                Ret (Some i, Files (<[i := File (3 + used) buf data n 0 114]> (file_table t)) (used + 1))
            end
      else if char_at mode 0 =? 119 then
        then* sys_path SYS_MKDIR path in
        match file_alloc t with
        | None => Ret (None, t)
        | Some i =>
            let used := file_table_used t in
            call* buf := ITree.trigger (Malloc 1) in
            Ret (Some i, Files (<[i := File (3 + used) buf [0] 0 0 119]> (file_table t)) (used + 1))
        end
      else Ret (None, t)
  | _, _ => Ret (None, t)
  end.

(** On a [FILE]; the result and the [FILE] after. *)
Definition fclose (f : FILE) : prog (Z * FILE) :=
  if (f_fd f =? FD_STDIN) || (f_fd f =? FD_STDOUT) || (f_fd f =? FD_STDERR) then Ret (0, f)
  else
    then* (if f_buf f =? 0 then Ret tt else ITree.trigger (Free (f_buf f))) in
    Ret (0, File (-1) 0 [] 0 0 (f_mode f)).

Definition set_pos (p : Z) (f : FILE) : FILE := File (f_fd f) (f_buf f) (f_data f) (f_bufsize f) p (f_mode f).

(** The bytes stored, the result and the [FILE]; for [count] items of [size]. *)
Definition fread (size count : Z) (f : FILE) : list Z * Z * FILE :=
  let total := i32 (size * count) in
  let remaining := f_bufsize f - f_pos f in
  let total := if remaining <? total then remaining else total in
  if total <=? 0 then ([], 0, f)
  else (take (Z.to_nat total) (drop (Z.to_nat (f_pos f)) (f_data f)), Z.quot total size, set_pos (f_pos f + total) f).

Definition fwrite (buf : list Z) (size count : Z) (f : FILE) : prog Z :=
  let total := i32 (size * count) in
  if (f_fd f =? FD_STDOUT) || (f_fd f =? FD_STDERR) then
    then* ITree.trigger (Write (f_fd f) (take (Z.to_nat total) buf)) in Ret count
  else Ret 0.

(** The loop of [fgets] with [rounds = n - 1 - i] left. *)
Fixpoint fgets_loop (rounds : nat) (f : FILE) : list Z * FILE :=
  match rounds with
  | O => ([], f)
  | S r =>
      if f_pos f <? f_bufsize f then
        let c := char_at (f_data f) (Z.to_nat (f_pos f)) in
        let f := set_pos (f_pos f + 1) f in
        if c =? 10 then ([c], f) else let '(s, f) := fgets_loop r f in (c :: s, f)
      else ([], f)
  end.
Definition fgets (n : Z) (f : FILE) : option (list Z) * FILE :=
  if n <=? 0 then (None, f)
  else match fgets_loop (Z.to_nat (n - 1)) f with
       | ([], f) => (None, f)
       | (s, f) => (Some s, f)
       end.

Definition fgetc (f : FILE) : Z * FILE :=
  if f_bufsize f <=? f_pos f then (EOF, f)
  else (u8 (char_at (f_data f) (Z.to_nat (f_pos f))), set_pos (f_pos f + 1) f).

Definition SEEK_SET : Z := 0.
Definition SEEK_CUR : Z := 1.
Definition SEEK_END : Z := 2.

Definition fseek (offset whence : Z) (f : FILE) : Z * FILE :=
  let to p :=
    let p := if p <? 0 then 0 else p in
    (0, set_pos (if f_bufsize f <? p then f_bufsize f else p) f) in
  if whence =? SEEK_SET then to (i32 offset)
  else if whence =? SEEK_CUR then to (i32 (f_pos f + i32 offset))
  else if whence =? SEEK_END then to (i32 (f_bufsize f + i32 offset))
  else (-1, f).

(** ** Reading *)

(** A file that is open for reading: the buffer is there, the position in it. *)
Record file_ok (f : FILE) : Prop := {
  fo_data : Z.of_nat (length (f_data f)) = f_bufsize f;
  fo_pos : 0 <= f_pos f <= f_bufsize f
}.

(** What is left to read. *)
Definition unread (f : FILE) : list Z := drop (Z.to_nat (f_pos f)) (f_data f).

Lemma set_pos_ok p f : file_ok f -> 0 <= p <= f_bufsize f -> file_ok (set_pos p f).
Proof. intros [H1 H2] Hp. by split. Qed.

Lemma fread_reads size count f :
  file_ok f -> 0 < size -> 0 <= size * count < 2 ^ 31 ->
  let '(bs, n, f') := fread size count f in
  bs = take (Z.to_nat (size * count)) (unread f) /\ unread f = bs ++ unread f'
  /\ n = Z.of_nat (length bs) / size /\ file_ok f'.
Proof.
  intros Hf Hs Hc. pose proof Hf as [H1 H2]. unfold fread, unread. rewrite i32_small by lia.
  set (rem := f_bufsize f - f_pos f). set (total := if rem <? size * count then rem else size * count).
  assert (Ht : 0 <= total <= rem /\ (total = size * count \/ total = rem /\ rem < size * count))
    by (subst total rem; destruct (Z.ltb_spec (f_bufsize f - f_pos f) (size * count)); lia).
  assert (Hlen : Z.of_nat (length (unread f)) = rem) by (unfold unread; rewrite length_drop; subst rem; lia).
  unfold unread in Hlen. destruct (Z.leb_spec total 0).
  - split_and!; [|done|done|done]. destruct Ht as [Ht [E|[E ?]]].
    + replace (size * count) with 0 by lia. done.
    + symmetry. apply length_zero_iff_nil. rewrite length_take. lia.
  - assert (Etake : take (Z.to_nat total) (drop (Z.to_nat (f_pos f)) (f_data f))
             = take (Z.to_nat (size * count)) (drop (Z.to_nat (f_pos f)) (f_data f))).
    { destruct Ht as [Ht [->|[E ?]]]; [done|]. rewrite !take_ge by lia. done. }
    split_and!; [exact Etake| | |].
    + cbn [set_pos f_pos f_data]. rewrite <- (take_drop (Z.to_nat total) (drop (Z.to_nat (f_pos f)) (f_data f))) at 1.
      rewrite drop_drop. do 2 f_equal. lia.
    + rewrite length_take, Nat.min_l by lia. rewrite Z.quot_div_nonneg by lia. f_equal. lia.
    + apply set_pos_ok; [done|]. subst rem. lia.
Qed.

Lemma fgets_loop_reads rounds f :
  file_ok f -> let '(s, f') := fgets_loop rounds f in
  unread f = s ++ unread f' /\ (length s <= rounds)%nat /\ file_ok f' /\ 10 ∉ removelast s.
Proof.
  revert f. induction rounds as [|r IH]; intros f Hf; cbn [fgets_loop].
  - split_and!; [done|done|done|apply not_elem_of_nil].
  - destruct (Z.ltb_spec (f_pos f) (f_bufsize f)) as [Hlt|].
    2: { split_and!; [done|cbn; lia|done|apply not_elem_of_nil]. }
    pose proof Hf as [H1 H2]. set (f1 := set_pos (f_pos f + 1) f).
    assert (Hf1 : file_ok f1) by (apply set_pos_ok; [done|lia]).
    set (c := char_at (f_data f) (Z.to_nat (f_pos f))).
    assert (Hu : unread f = c :: unread f1).
    { unfold unread, f1, c, char_at. cbn [set_pos f_pos f_data].
      destruct (lookup_lt_is_Some_2 (f_data f) (Z.to_nat (f_pos f)) ltac:(lia)) as [x Hx]. rewrite Hx. cbn.
      rewrite (drop_S _ _ _ Hx). do 2 f_equal. lia. }
    destruct (Z.eqb_spec c 10) as [Ec|Ec].
    + split_and!; [exact Hu|cbn; lia|done|cbn; apply not_elem_of_nil].
    + specialize (IH f1 Hf1). destruct (fgets_loop r f1) as [s f2]. destruct IH as (I1 & I2 & I3 & I4).
      split_and!; [by rewrite Hu, I1|cbn; lia|done|].
      cbn [removelast]. destruct s as [|x s]; [apply not_elem_of_nil|]. apply not_elem_of_cons. done.
Qed.

Lemma fseek_ok offset whence f : file_ok f -> file_ok (fseek offset whence f).2.
Proof.
  intros Hf. pose proof Hf as [_ H2]. unfold fseek.
  assert (Hto : forall p, file_ok (set_pos (if f_bufsize f <? (if p <? 0 then 0 else p) then f_bufsize f
                                       else if p <? 0 then 0 else p) f)).
  { intros p. apply set_pos_ok; [done|]. destruct (Z.ltb_spec p 0).
    - destruct (Z.ltb_spec (f_bufsize f) 0); lia.
    - destruct (Z.ltb_spec (f_bufsize f) p); lia. }
  destruct (whence =? SEEK_SET); [apply Hto|]. destruct (whence =? SEEK_CUR); [apply Hto|].
  destruct (whence =? SEEK_END); [apply Hto|done].
Qed.

(** ** [fopen] opens nothing *)

(** No slot is marked as closed: so at the start, and for as long as no file
    has been opened. *)
Definition none_closed (t : files) : Prop := Forall (fun f => f_fd f <> -1) (file_table t).

Lemma find_slot_none i fs : Forall (fun f => f_fd f <> -1) fs -> find_slot i fs = None.
Proof.
  intros Hf. revert i. induction Hf as [|f fs Hf _ IH]; intros i; cbn [find_slot]; [done|].
  destruct (_ && _); [apply IH|]. destruct (Z.eqb_spec (f_fd f) (-1)); [done|apply IH].
Qed.

(** C36: [fopen] opens nothing.  With the table of a program that starts, and so
    after any number of calls, [fopen] comes back with NULL and leaves the
    table as it is, whatever the path, the mode, the file and the kernel's
    answers: [file_alloc] looks for a slot with descriptor -1, which only
    [fclose] of an open file makes. *)
Theorem fopen_never_opens {W} (answer : forall X, sysE X -> W -> X * W) t path mode w :
  none_closed no_files
  /\ (none_closed t -> exists w', runs answer (fopen path mode t) w (None, t) w').
Proof.
  split; [by repeat constructor|]. intros Ht. unfold fopen, file_alloc. rewrite find_slot_none by done.
  assert (Hnull : forall w, exists w', runs answer (Ret (None : option nat, t)) w (None, t) w')
    by (intros w1; exists w1; apply runs_ret).
  destruct path as [path|], mode as [mode|]; try apply Hnull.
  destruct (char_at mode 0 =? 114); [|destruct (char_at mode 0 =? 119); [|apply Hnull]].
  - apply runs_call. intros buf w1. destruct (buf =? 0); [apply Hnull|].
    apply runs_call. intros [n data] w2. destruct (n <=? 0); apply runs_call; intros _ w3; apply Hnull.
  - apply runs_call. intros _ w1. apply Hnull.
Qed.

Lemma fopen_never_opens_witness :
  exists w, runs answer (fopen (Some (str "f")) (Some (str "r")) no_files)
    (World [] [] {[str "f" := str "text"]} 1 16 [] []) (None, no_files) w.
Proof.
  destruct (fopen_never_opens answer no_files (Some (str "f")) (Some (str "r"))
    (World [] [] {[str "f" := str "text"]} 1 16 [] [])) as [H0 H].
  apply (H H0).
Defined.
