(* ===== verification/Ed.v ===== *)
(** * The line editor ([src/userspace/ed.c])

    The editor's static variables are a record that the commands pass on; a
    line is the pointer [malloc] gave and the string stored there (the null
    pointer, which a failed allocation leaves in the array, with the empty
    string).  [main] is the endless loop over commands.

    The characters of a line are what was typed up to the first NUL.  When
    standard input ends in the middle of a line, [read_line] leaves the buffer
    without a terminator; [junk] is what follows in it.

    A comment at the top of ed.c says that the command always ends in a general
    protection fault.  Nothing in the code below makes one when memory and the
    system calls answer as they should; what a wrong answer of the kernel would
    do to it is not part of the model. *)

From S2P Require Import Prelude.
From S2P Require Import LibcStdio.
From S2P Require Import User.

Definition MAX_LINES : nat := 512.
Definition MAX_LINE_LEN : nat := 256.

Record ed := Ed { lines : list (Z * list Z); current_line : Z; filename : list Z; modified : bool }.

Definition line_count (s : ed) : Z := Z.of_nat (length (lines s)).
Definition set_lines (v : list (Z * list Z)) (s : ed) : ed := Ed v (current_line s) (filename s) (modified s).
Definition set_current (v : Z) (s : ed) : ed := Ed (lines s) v (filename s) (modified s).
Definition set_filename (v : list Z) (s : ed) : ed := Ed (lines s) (current_line s) v (modified s).
Definition set_modified (v : bool) (s : ed) : ed := Ed (lines s) (current_line s) (filename s) v.

Section Ed.
Variable junk : list Z.

(** One round of [read_line]: [inl] the characters so far, or [inr] the
    result and the string in the buffer. *)
Definition read_round (max : nat) (buf : list Z) : prog (list Z + Z * list Z) :=
  if (max - 1 <=? length buf)%nat then Ret (inr (Z.of_nat (length buf), cstr buf))
  else
    call* '(ret, c) := ITree.trigger (Read 0) in
    if ret <=? 0 then Ret (inr (Z.of_nat (length buf), cstr (buf ++ junk)))
    else if c =? 10 then Ret (inr (Z.of_nat (length buf), cstr buf))
    else if c =? 8 then
      match buf with
      | [] => Ret (inl [])
      | _ => then* putchar 8 in then* putchar 32 in then* putchar 8 in Ret (inl (removelast buf))
      end
    else Ret (inl (buf ++ [c])).

Definition read_line (max : nat) : prog (Z * list Z) := ITree.iter (read_round max) [].

Fixpoint free_all (ls : list (Z * list Z)) : prog unit :=
  match ls with
  | [] => Ret tt
  | l :: rest => then* ITree.trigger (Free l.1) in free_all rest
  end.
Definition free_lines (s : ed) : prog ed :=
  then* free_all (lines s) in Ret (set_current 0 (set_lines [] s)).

(** The [while] loop of [load_file] at [p]; a round takes one line. *)
Fixpoint load_loop (fuel : nat) (p : list Z) (s : ed) : prog ed :=
  match fuel with
  | O => Ret s
  | S f =>
      match p with
      | [] => Ret s
      | _ =>
          if (MAX_LINES <=? length (lines s))%nat then Ret s
          else
            let '(l, rest) := word (length p) 10 p in
            call* q := ITree.trigger (Malloc (Z.of_nat (length l) + 1)) in
            if q =? 0 then Ret s
            else load_loop f (tail rest) (set_lines (lines s ++ [(q, l)]) s)
      end
  end.

(** The result, and the state. *)
Definition load_file (fname : list Z) (s : ed) : prog (Z * ed) :=
  call* '(n, buf) := ITree.trigger (Fill SYS_CAT (Some fname) 4095) in
  if n <? 0 then Ret (-1, s)
  else
    call* s := free_lines s in
    let text := cstr (take (Z.to_nat n) buf) in
    call* s := load_loop (S (length text)) text s in
    Ret (0, s).

(** What [save_file] puts into its buffer of 4096 bytes. *)
Fixpoint save_loop (ls : list (Z * list Z)) (buf : list Z) : list Z :=
  match ls with
  | [] => buf
  | l :: rest =>
      if 4096 <=? Z.of_nat (length buf) + Z.of_nat (length l.2) + 1 then buf
      else save_loop rest (buf ++ l.2 ++ [10])
  end.

Definition save_file (fname : list Z) (s : ed) : prog Z :=
  call* r := sys SYS_WRITE_FILE [Bytes fname; Bytes (save_loop (lines s) [])] in
  Ret (if r <? 0 then -1 else line_count s).

(** [for (i = from; i <= to; i++)], with [rounds] left. *)
Fixpoint print_loop (rounds : nat) (i : Z) (ls : list (Z * list Z)) : prog unit :=
  match rounds, ls with
  | S r, l :: rest =>
      then* printf (str "%d" ++ [9] ++ str "%s" ++ [10])
              [AInt i; AStr (if l.1 =? 0 then None else Some l.2)] in
      print_loop r (i + 1) rest
  | _, _ => Ret tt
  end.

Definition print_lines (from to : Z) (s : ed) : prog ed :=
  let from := if from <? 1 then 1 else from in
  let to := if line_count s <? to then line_count s else to in
  then* print_loop (Z.to_nat (to - from + 1)) from (drop (Z.to_nat (from - 1)) (lines s)) in
  Ret (if (from <=? to) && (0 <? line_count s) then set_current to s else s).

(** [parse_num]: the number, -1 without a digit, and the rest of the string. *)
Fixpoint parse_digits (n : Z) (s : list Z) : Z * list Z :=
  match s with
  | c :: rest => if (48 <=? c) && (c <=? 57) then parse_digits (i32 (i32 (n * 10) + (c - 48))) rest else (n, s)
  | [] => (n, [])
  end.
Definition is_digit (c : Z) : bool := (48 <=? c) && (c <=? 57).
Definition parse_num (s : list Z) : Z * list Z :=
  if is_digit (char_at s 0) then parse_digits 0 s else (-1, s).

(** One round of [do_insert]. *)
Definition insert_round (st : nat * ed) : prog (nat * ed + ed) :=
  let '(after, s) := st in
  then* printf (str "? ") [] in
  call* '(n, buf) := read_line MAX_LINE_LEN in
  if n <=? 0 then Ret (inr s)
  else if (char_at buf 0 =? 46) && (char_at buf 1 =? 0) then Ret (inr s)
  else if (MAX_LINES <=? length (lines s))%nat then Ret (inr s)
  else
    call* q := ITree.trigger (Malloc (n + 1)) in
    if q =? 0 then
      (* the lines have been moved up, [line_count] is what it was *)
      Ret (inr (set_lines (take (length (lines s)) (take after (lines s) ++ [(0, [])] ++ drop after (lines s))) s))
    else
      Ret (inl (S after, set_modified true (set_lines (take after (lines s) ++ [(q, buf)] ++ drop after (lines s)) s))).

Definition do_insert (after : Z) (s : ed) : prog ed :=
  let after := if after <? 0 then 0 else after in
  let after := if line_count s <? after then line_count s else after in
  ITree.iter insert_round (Z.to_nat after, s).

Definition do_delete (from to : Z) (s : ed) : prog ed :=
  let from := if from <? 1 then 1 else from in
  let to := if line_count s <? to then line_count s else to in
  if (to <? from) || (line_count s <? from) then Ret s
  else
    let a := Z.to_nat (from - 1) in
    let b := Z.to_nat to in
    then* free_all (take (b - a) (drop a (lines s))) in
    let s := set_modified true (set_lines (take a (lines s) ++ drop b (lines s)) s) in
    Ret (if (line_count s <? current_line s) && (0 <? line_count s) then set_current (line_count s) s else s).

(** The loop of [do_substitute], with [rounds] lines left from index [i]. *)
Fixpoint substitute_loop (rounds i : nat) (pattern replacement : list Z) (s : ed) : prog ed :=
  match rounds with
  | O => Ret s
  | S r =>
      match lines s !! i with
      | None => Ret s
      | Some (p, l) =>
          match find_sub pattern l with
          | None => substitute_loop r (S i) pattern replacement s
          | Some idx =>
              let nl := take idx l ++ replacement ++ drop (idx + length pattern) l in
              call* q := ITree.trigger (Malloc (Z.of_nat (length nl) + 1)) in
              if q =? 0 then substitute_loop r (S i) pattern replacement s
              else
                then* ITree.trigger (Free p) in
                substitute_loop r (S i) pattern replacement
                  (set_modified true (set_lines (<[i := (q, nl)]> (lines s)) s))
          end
      end
  end.

Definition do_substitute (pattern replacement : list Z) (from to : Z) (s : ed) : prog ed :=
  let from := if from <? 1 then 1 else from in
  let to := if line_count s <? to then line_count s else to in
  substitute_loop (Z.to_nat (to - (from - 1))) (Z.to_nat (from - 1)) pattern replacement s.

(** ** The commands *)

(** The next command, or the exit code. *)
Abbreviation next := (ed + Z)%type.
Definition again (s : ed) : prog next := Ret (inl s).
Definition question (s : ed) : prog next := then* say (str "?") in again s.
Definition then_again (m : prog ed) : prog next := call* s := m in again s.
Definition leave (s : ed) : prog next := then* free_lines s in Ret (inr 0).

Definition blank_or_end (c : Z) : bool := (c =? 32) || (c =? 0).

(** The first word of at most 255 characters. *)
Definition file_arg (p : list Z) : list Z := (word 255 32 p).1.

(** The pattern and the replacement of [s], from the character after it. *)
Definition sub_args (p : list Z) : list Z * list Z :=
  let '(pattern, rest) := word 127 47 p in
  let rest := if char_at rest 0 =? 47 then tail rest else rest in
  (pattern, (word 127 47 rest).1).

Definition cmd_quit (p : list Z) (s : ed) : prog next :=
  if char_at p 0 =? 33 then leave s
  else
    match skip 32 p with
    | [] => if modified s then question s else leave s
    | _ => question s
    end.

Definition help_lines : list (list Z) :=
  [str "Commands:"; str "  [addr]         print lines"; str "  [addr]a        append text after addr";
   str "  [addr]i        insert text before addr"; str "  [addr]d        delete lines";
   str "  [addr]s/pat/r/ substitute"; str "  w [file]       write to file"; str "  e [file]       load file";
   str "  f [file]       set/show filename"; str "  q              quit"; str "  q!             force quit";
   str "  ,p             print all"; str "  $              last line"; str "  .              current line";
   str "  ,d             delete all"].

Definition cmd_write (p : list Z) (s : ed) : prog next :=
  let write fname :=
    call* rc := save_file fname s in
    if 0 <=? rc then
      let s := match filename s with [] => set_filename fname s | _ => s end in
      then* printf (str "%d" ++ [10]) [AInt rc] in again (set_modified false s)
    else question s in
  match skip 32 p, filename s with
  | (_ :: _) as p, _ => write (file_arg p)
  | [], _ :: _ => write (filename s)
  | [], [] => question s
  end.

Definition cmd_edit (p : list Z) (s : ed) : prog next :=
  let load fname :=
    call* '(r, s) := load_file fname s in
    if r =? 0 then
      let s := set_modified false (set_filename fname s) in
      then* printf (str "%d" ++ [10]) [AInt (line_count s)] in again s
    else question s in
  if modified s then question s
  else
    match skip 32 p, filename s with
    | (_ :: _) as p, _ => load (file_arg p)
    | [], _ :: _ => load (filename s)
    | [], [] => question s
    end.

Definition cmd_file (p : list Z) (s : ed) : prog next :=
  let s := match skip 32 p with [] => s | p => set_filename (file_arg p) s end in
  then* printf (str "%s" ++ [10]) [AStr (Some (match filename s with [] => str "(no file)" | f => f end))] in
  again s.

(** [,] with what follows it. *)
Definition cmd_all (p : list Z) (s : ed) : prog next :=
  let c := char_at p 0 in
  if (c =? 97) && blank_or_end (char_at p 1) then
    match skip 32 (tail p) with [] => then_again (do_insert (line_count s) s) | _ => question s end
  else if (c =? 100) && blank_or_end (char_at p 1) then
    match skip 32 (tail p) with [] => then_again (do_delete 1 (line_count s) s) | _ => question s end
  else if (c =? 112) || (c =? 0) then then_again (print_lines 1 (line_count s) s)
  else question s.

Definition cmd_last (p : list Z) (s : ed) : prog next :=
  let c := char_at (skip 32 p) 0 in
  if (c =? 0) || (c =? 112) then
    if 0 <? line_count s then then_again (print_lines (line_count s) (line_count s) s) else question s
  else if c =? 100 then then_again (do_delete (line_count s) (line_count s) s)
  else if c =? 97 then then_again (do_insert (line_count s) s)
  else question s.

Definition cmd_current (p : list Z) (s : ed) : prog next :=
  let c := char_at (skip 32 p) 0 in
  let cur := current_line s in
  let valid := (1 <=? cur) && (cur <=? line_count s) in
  if (c =? 0) || (c =? 112) then if valid then then_again (print_lines cur cur s) else question s
  else if c =? 100 then if valid then then_again (do_delete cur cur s) else again s
  else if c =? 97 then then_again (do_insert (if 1 <=? cur then cur else line_count s) s)
  else if c =? 105 then then_again (do_insert (if 1 <? cur then cur - 1 else 0) s)
  else question s.

Definition cmd_substitute (p : list Z) (from : Z) (s : ed) : prog next :=
  let '(pattern, replacement) := sub_args p in
  match pattern with [] => again s | _ => then_again (do_substitute pattern replacement from from s) end.

(** A command with a line number. *)
Definition cmd_addr (p : list Z) (s : ed) : prog next :=
  let '(addr, p) := parse_num p in
  let p := skip 32 p in
  let c := char_at p 0 in
  if (c =? 0) || (c =? 112) then
    if (1 <=? addr) && (addr <=? line_count s) then then_again (print_lines addr addr s) else question s
  else if c =? 97 then
    match skip 32 (tail p) with [] => then_again (do_insert addr s) | _ => question s end
  else if c =? 105 then
    match skip 32 (tail p) with [] => then_again (do_insert (if 1 <? addr then addr - 1 else 0) s) | _ => question s end
  else if c =? 100 then
    let p := skip 32 (tail p) in
    let to := if char_at p 0 =? 44 then
                let '(n, _) := parse_num (skip 32 (tail p)) in if n <? 0 then addr else n
              else addr in
    then_again (do_delete addr to s)
  else if c =? 115 then cmd_substitute (tail p) addr s
  else question s.

Fixpoint skip_blanks (s : list Z) : list Z :=
  match s with
  | x :: rest => if (x =? 32) || (x =? 9) then skip_blanks rest else s
  | [] => []
  end.

(** The chain of tests on a command line. *)
Definition command (line : list Z) (s : ed) : prog next :=
  let p := skip_blanks line in
  let c := char_at p 0 in
  let c1 := char_at p 1 in
  if c =? 0 then again s
  else if c =? 113 then cmd_quit (tail p) s                                          (* q *)
  else if (c =? 104) && blank_or_end c1 then then* say_all help_lines in again s    (* h *)
  else if c =? 119 then cmd_write (tail p) s                                         (* w *)
  else if c =? 101 then cmd_edit (tail p) s                                          (* e *)
  else if c =? 102 then cmd_file (tail p) s                                          (* f *)
  else if (c =? 44) && ((c1 =? 97) || (c1 =? 100) || (c1 =? 112) || (c1 =? 0)) then cmd_all (tail p) s
  else if c =? 36 then cmd_last (tail p) s                                           (* $ *)
  else if c =? 46 then cmd_current (tail p) s                                        (* . *)
  else if is_digit c then cmd_addr p s
  else if (c =? 97) && blank_or_end c1 then then_again (do_insert (line_count s) s)  (* a *)
  else if (c =? 105) && blank_or_end c1 then then_again (do_insert 0 s)              (* i *)
  else if (c =? 100) && blank_or_end c1 then then_again (do_delete 1 (line_count s) s)
  else if c =? 115 then                                                              (* s *)
    cmd_substitute (tail p) (if 0 <? current_line s then current_line s else 1) s
  else if (c =? 112) || (c =? 110) then                                              (* p, n *)
    match skip 32 (tail p) with
    | [] => if 0 <? line_count s then then_again (print_lines 1 (line_count s) s) else question s
    | _ => question s
    end
  else question s.

(** One round of the loop of [main]. *)
Definition main_round (s : ed) : prog next :=
  then* printf (str "? ") [] in
  call* '(n, line) := read_line (MAX_LINE_LEN + 64) in
  if n <=? 0 then again s else command line s.

Definition main : prog Z := ITree.iter main_round (Ed [] 0 [] false).

End Ed.
