(* ===== verification/EdProps.v ===== *)
(** * The line editor: properties

    Whatever it is told, the editor keeps its array of lines within bounds;
    inserting, deleting and substituting do to the lines what the list
    operations do; and a text that is saved and loaded comes back. *)

From S2P Require Import Prelude.
From S2P Require Import LibcStdio.
From S2P Require Import User.
From S2P Require Import Ed.

(** ** The array of lines *)

Definition fits (s : ed) : Prop := (length (lines s) <= MAX_LINES)%nat.

Section Bounds.
Context {W : Type} (answer : forall X, sysE X -> W -> X * W) (junk : list Z).

Abbreviation keeps_fit t := (forall s : ed, fits s -> ensures answer (t s) fits).

Lemma fit_bind {A B} (t : prog A) (k : A -> prog B) Q :
  (forall a, ensures answer (k a) Q) -> ensures answer (ITree.bind t k) Q.
Proof. intros Hk. eapply ensures_bind; [apply ensures_any|]. intros a _. apply Hk. Qed.

Ltac fit := repeat first
  [ apply ensures_ret; unfold fits in *; cbn [lines set_lines set_current set_filename set_modified] in *
  | apply fit_bind; intros ?
  | case_match ].

Lemma free_lines_fits s : ensures answer (free_lines s) fits.
Proof. unfold free_lines. fit. cbn. lia. Qed.

Lemma load_loop_fits fuel p s : fits s -> ensures answer (load_loop fuel p s) fits.
Proof.
  revert p s. induction fuel as [|fuel IH]; intros p s Hs; cbn [load_loop]; [by apply ensures_ret|].
  destruct p as [|c p]; [by apply ensures_ret|].
  destruct (Nat.leb_spec MAX_LINES (length (lines s))); [by apply ensures_ret|].
  destruct (word _ 10 (c :: p)) as [l rest]. apply fit_bind. intros q. destruct (q =? 0); [by apply ensures_ret|].
  apply IH. unfold fits. cbn [set_lines lines]. rewrite length_app. cbn [length]. lia.
Qed.

Lemma load_file_fits fname s : fits s -> ensures answer (load_file fname s) (fun r => fits r.2).
Proof.
  intros Hs. unfold load_file. apply fit_bind. intros [n buf]. destruct (n <? 0); [by apply ensures_ret|].
  eapply ensures_bind; [apply free_lines_fits|]. intros s1 H1.
  eapply ensures_bind; [by apply load_loop_fits|]. intros s2 H2. by apply ensures_ret.
Qed.

Lemma print_lines_fits from to s : fits s -> ensures answer (print_lines from to s) fits.
Proof. intros Hs. unfold print_lines. fit; exact Hs. Qed.

Lemma insert_round_fits st :
  fits st.2 -> ensures answer (insert_round junk st) (fun r => match r with inl j => fits j.2 | inr s => fits s end).
Proof.
  destruct st as [after s]. cbn [snd]. intros Hs. unfold insert_round.
  apply fit_bind. intros _. apply fit_bind. intros [n buf].
  destruct (n <=? 0); [by apply ensures_ret|]. destruct (_ && _); [by apply ensures_ret|].
  destruct (Nat.leb_spec MAX_LINES (length (lines s))); [by apply ensures_ret|].
  apply fit_bind. intros q. destruct (q =? 0); apply ensures_ret; unfold fits in *; cbn [set_lines set_modified lines snd].
  - rewrite length_take. lia.
  - rewrite !length_app, length_take, length_drop. cbn [length]. lia.
Qed.

Lemma do_insert_fits after s : fits s -> ensures answer (do_insert junk after s) fits.
Proof.
  intros Hs. unfold do_insert. eapply (ensures_iter _ _ (fun j => fits j.2)); [exact Hs|].
  intros j Hj. by apply insert_round_fits.
Qed.

Lemma do_delete_fits from to s : fits s -> ensures answer (do_delete from to s) fits.
Proof.
  intros Hs. unfold do_delete. set (from' := if from <? 1 then 1 else from). set (to' := if _ <? to then _ else to).
  destruct (Z.ltb_spec to' from'); [by apply ensures_ret|]. destruct (_ <? from'); [by apply ensures_ret|]. cbn [orb].
  apply fit_bind. intros _. set (s1 := set_modified true _).
  assert (H1 : fits s1).
  { unfold fits, s1 in *. cbn [set_lines set_modified lines]. rewrite length_app, length_take, length_drop. lia. }
  destruct (_ && _); by apply ensures_ret.
Qed.

Lemma substitute_loop_fits rounds i pattern replacement s :
  fits s -> ensures answer (substitute_loop rounds i pattern replacement s) fits.
Proof.
  revert i s. induction rounds as [|r IH]; intros i s Hs; cbn [substitute_loop]; [by apply ensures_ret|].
  destruct (lines s !! i) as [[p l]|]; [|by apply ensures_ret]. destruct (find_sub pattern l) as [idx|]; [|by apply IH].
  apply fit_bind. intros q. destruct (q =? 0); [by apply IH|]. apply fit_bind. intros _. apply IH.
  unfold fits in *. cbn [set_lines set_modified lines]. by rewrite length_insert.
Qed.

#[local] Hint Resolve free_lines_fits load_file_fits print_lines_fits do_insert_fits do_delete_fits
  substitute_loop_fits : core.

Definition next_fits (r : ed + Z) : Prop := match r with inl s => fits s | inr _ => True end.

Lemma again_fits s : fits s -> ensures answer (again s) next_fits.
Proof. intros Hs. by apply ensures_ret. Qed.
Lemma question_fits s : fits s -> ensures answer (question s) next_fits.
Proof. intros Hs. apply fit_bind. intros _. by apply again_fits. Qed.
Lemma then_again_fits m : ensures answer m fits -> ensures answer (then_again m) next_fits.
Proof. intros Hm. eapply ensures_bind; [exact Hm|]. intros s. apply again_fits. Qed.
Lemma leave_fits s : ensures answer (leave s) next_fits.
Proof. apply fit_bind. intros s'. by apply ensures_ret. Qed.

Lemma do_substitute_fits pattern replacement from to s :
  fits s -> ensures answer (do_substitute pattern replacement from to s) fits.
Proof. intros Hs. unfold do_substitute. auto. Qed.

#[local] Hint Resolve again_fits question_fits then_again_fits leave_fits do_substitute_fits : core.

Lemma cmd_substitute_fits p from s : fits s -> ensures answer (cmd_substitute p from s) next_fits.
Proof. intros Hs. unfold cmd_substitute. destruct (sub_args p) as [[|c pat] rep]; auto. Qed.

Lemma cmd_write_fits p s : fits s -> ensures answer (cmd_write p s) next_fits.
Proof.
  intros Hs. unfold cmd_write.
  assert (Hw : forall fname, ensures answer (call* rc := save_file fname s in
    if 0 <=? rc then
      let s := match filename s with [] => set_filename fname s | _ => s end in
      then* printf (str "%d" ++ [10]) [AInt rc] in again (set_modified false s)
    else question s) next_fits).
  { intros fname. apply fit_bind. intros rc. destruct (0 <=? rc); [|auto]. apply fit_bind. intros _.
    apply again_fits. by destruct (filename s). }
  destruct (skip 32 p), (filename s); auto.
Qed.

Lemma cmd_edit_fits p s : fits s -> ensures answer (cmd_edit p s) next_fits.
Proof.
  intros Hs. unfold cmd_edit. destruct (modified s); [auto|].
  assert (Hl : forall fname, ensures answer (call* '(r, s) := load_file fname s in
    if r =? 0 then
      let s := set_modified false (set_filename fname s) in
      then* printf (str "%d" ++ [10]) [AInt (line_count s)] in again s
    else question s) next_fits).
  { intros fname. eapply ensures_bind; [by apply load_file_fits|]. intros [r s'] H'. cbn [snd] in H'.
    destruct (r =? 0); [|auto]. apply fit_bind. intros _. by apply again_fits. }
  destruct (skip 32 p), (filename s); auto.
Qed.

Ltac cases := repeat case_match; auto.

Lemma cmd_addr_fits p s : fits s -> ensures answer (cmd_addr junk p s) next_fits.
Proof.
  intros Hs. unfold cmd_addr. destruct (parse_num p) as [addr p1]. set (p2 := skip 32 p1).
  destruct (_ || _); [cases|]. destruct (char_at p2 0 =? 97); [cases|]. destruct (char_at p2 0 =? 105); [cases|].
  destruct (char_at p2 0 =? 100); [auto|]. destruct (char_at p2 0 =? 115); [by apply cmd_substitute_fits|auto].
Qed.

Lemma command_fits line s : fits s -> ensures answer (command junk line s) next_fits.
Proof.
  intros Hs. unfold command. set (p := skip_blanks line). set (c := char_at p 0). set (c1 := char_at p 1).
  destruct (c =? 0); [auto|]. destruct (c =? 113); [unfold cmd_quit; cases|].
  destruct (_ && _); [apply fit_bind; auto|]. destruct (c =? 119); [by apply cmd_write_fits|].
  destruct (c =? 101); [by apply cmd_edit_fits|].
  destruct (c =? 102); [unfold cmd_file; apply fit_bind; intros _; apply again_fits; by destruct (skip 32 (tail p))|].
  destruct (_ && _); [unfold cmd_all; cases|]. destruct (c =? 36); [unfold cmd_last; cases|].
  destruct (c =? 46); [unfold cmd_current; cases|]. destruct (is_digit c); [by apply cmd_addr_fits|].
  destruct (_ && _); [auto|]. destruct (_ && _); [auto|]. destruct (_ && _); [auto|].
  destruct (c =? 115); [by apply cmd_substitute_fits|]. destruct (_ || _); [cases|auto].
Qed.

(** C34: the editor stays inside its array.  Whatever is typed, whatever the
    files hold and whichever allocations fail, a round of the loop of [main]
    that comes back has left at most 512 lines. *)
Theorem ed_lines_bounded s :
  fits s -> ensures answer (main_round junk s) (fun r => match r with inl s' => fits s' | inr _ => True end).
Proof.
  intros Hs. unfold main_round. apply fit_bind. intros _. apply fit_bind. intros [n line].
  destruct (n <=? 0); [by apply again_fits|by apply command_fits].
Qed.

End Bounds.

Lemma ed_lines_bounded_witness :
  ensures answer (main_round [] (Ed (replicate 512 (1, [97])) 0 [] false))
    (fun r => match r with inl s' => fits s' | inr _ => True end).
Proof. apply ed_lines_bounded. unfold fits. cbn [lines]. rewrite length_replicate. unfold MAX_LINES. lia. Defined.

(** ** Typing lines *)

Definition text (s : ed) : list (list Z) := map snd (lines s).

Lemma length_text s : length (text s) = length (lines s).
Proof. apply length_map. Qed.

(** A character that goes into the line as it is typed. *)
Definition plain_char (c : Z) : Prop := 0 < c < 256 /\ c <> 10 /\ c <> 8.
#[export] Instance plain_char_dec c : Decision (plain_char c).
Proof. unfold plain_char. apply _. Defined.

Lemma plain_cstr l : Forall plain_char l -> cstr l = l.
Proof. intros Hl. apply cstr_id. eapply Forall_impl; [exact Hl|]. by intros c [Hc _]. Qed.

Lemma read_line_plays junk max l rest w :
  Forall plain_char l -> (S (length l) < max)%nat -> w_in w = l ++ 10 :: rest ->
  plays (read_line junk max) w (Z.of_nat (length l), l) (set_in rest w).
Proof.
  intros Hl. unfold read_line.
  assert (Hgen : forall buf w, Forall plain_char buf -> (S (length buf + length l) < max)%nat -> w_in w = l ++ 10 :: rest ->
    plays (ITree.iter (read_round junk max) buf) w (Z.of_nat (length (buf ++ l)), buf ++ l) (set_in rest w)).
  { clear w. induction Hl as [|c l Hc Hl IH]; intros buf w Hb Hmax Hin; cbn [length app] in *.
    - apply runs_iter_done. unfold read_round. destruct (Nat.leb_spec (max - 1) (length buf)); [lia|].
      eapply runs_bind; [by apply plays_read|]. cbn beta iota. change (1 <=? 0) with false. cbn iota.
      change (10 =? 10) with true. cbn iota. rewrite app_nil_r, plain_cstr by done. apply runs_ret.
    - destruct Hc as (Hc & H10 & H8).
      apply (runs_iter_more answer _ _ (buf ++ [c]) _ (set_in (l ++ 10 :: rest) w)).
      + unfold read_round. destruct (Nat.leb_spec (max - 1) (length buf)); [lia|].
        eapply runs_bind; [by apply plays_read|]. cbn beta iota. change (1 <=? 0) with false. cbn iota.
        destruct (Z.eqb_spec c 10); [done|]. destruct (Z.eqb_spec c 8); [done|]. apply runs_ret.
      + replace (buf ++ c :: l) with ((buf ++ [c]) ++ l) by (by rewrite <- app_assoc).
        change (set_in rest w) with (set_in rest (set_in (l ++ 10 :: rest) w)).
        apply IH; [|rewrite length_app; cbn [length]; lia|done].
        apply Forall_app. split; [done|]. apply Forall_cons. by split. }
  intros Hmax Hin. by apply (Hgen [] w).
Qed.

(** A line that [do_insert] takes: not empty, not the lone dot. *)
Record line_ok (l : list Z) : Prop := {
  lo_chars : Forall plain_char l;
  lo_nonempty : l <> [];
  lo_dot : l <> [46];
  lo_length : (length l < 255)%nat
}.

(** The lines, each with its newline. *)
Definition typed (ls : list (list Z)) : list Z := concat (map (fun l => l ++ [10]) ls).

Lemma not_dot l : line_ok l -> (char_at l 0 =? 46) && (char_at l 1 =? 0) = false.
Proof.
  intros [Hc Hne Hd _]. destruct l as [|a [|b l]]; [done| |].
  - cbn. destruct (Z.eqb_spec a 46); [congruence|done].
  - apply Forall_cons in Hc as [_ Hc]. apply Forall_cons in Hc as [[Hb _] _]. unfold char_at. cbn.
    destruct (Z.eqb_spec b 0); [lia|]. apply andb_false_r.
Qed.

(** What stays the same while lines are typed. *)
Definition same_files (w w' : world) : Prop := w_files w' = w_files w /\ w_script w' = w_script w /\ w_log w' = w_log w.

Lemma insert_loop_plays junk ls rest : Forall line_ok ls -> forall after s w,
  (after <= length (lines s))%nat -> (length (lines s) + length ls <= MAX_LINES)%nat ->
  w_in w = typed ls ++ [46; 10] ++ rest -> (length ls <= w_room w)%nat -> 0 < w_next w ->
  exists s' w', plays (ITree.iter (insert_round junk) (after, s)) w s' w'
    /\ text s' = take after (text s) ++ ls ++ drop after (text s)
    /\ current_line s' = current_line s /\ filename s' = filename s
    /\ modified s' = modified s || negb (bool_decide (ls = []))
    /\ w_in w' = rest /\ same_files w w'.
Proof.
  induction 1 as [|l ls Hl Hls IH]; intros after s w Ha Hmax Hin Hroom Hnext; cbn [length] in *.
  - exists s. eexists. split.
    + apply runs_iter_done. unfold insert_round. eapply runs_bind; [apply plays_printf|].
      eapply runs_bind; [apply (read_line_plays _ _ [46] rest); [by repeat constructor|cbn; unfold MAX_LINE_LEN; lia|exact Hin]|].
      cbn beta iota. change (Z.of_nat (length [46]) <=? 0) with false. cbn iota.
      change ((char_at [46] 0 =? 46) && (char_at [46] 1 =? 0)) with true. cbn iota. apply runs_ret.
    + rewrite app_nil_l, take_drop. split_and!; try done. by rewrite bool_decide_true, orb_false_r by done.
  - pose proof (lo_length _ Hl) as Hlen. set (w1 := add_out (str "? ") w).
    assert (Hin1 : w_in w1 = l ++ 10 :: typed ls ++ [46; 10] ++ rest).
    { cbn [w1 add_out w_in]. rewrite Hin. unfold typed. cbn [map concat]. by rewrite <- !app_assoc. }
    set (w2 := set_in (typed ls ++ [46; 10] ++ rest) w1).
    destruct (w_room w) as [|room] eqn:Er; [lia|].
    set (w3 := (take_room (Z.of_nat (length l) + 1) w2).2).
    assert (Ew3 : take_room (Z.of_nat (length l) + 1) w2 = (w_next w, w3)).
    { unfold w3, take_room. change (w_room w2) with (w_room w). by rewrite Er. }
    assert (Hw3 : w_in w3 = typed ls ++ [46; 10] ++ rest /\ w_room w3 = room /\ 0 < w_next w3 /\ same_files w w3).
    { unfold w3, take_room. change (w_room w2) with (w_room w). rewrite Er.
      cbn [snd w_in w_room w_next]. split_and!; [done|done|change (w_next w2) with (w_next w); lia|done]. }
    destruct Hw3 as (I1 & I2 & I3 & I4).
    set (s1 := set_modified true (set_lines (take after (lines s) ++ [(w_next w, l)] ++ drop after (lines s)) s)).
    assert (Hs1 : length (lines s1) = S (length (lines s))).
    { cbn [s1 set_modified set_lines lines]. rewrite !length_app, length_take, length_drop. cbn [length]. lia. }
    destruct (IH (S after) s1 w3) as (s' & w' & R & T & C & F & M & In & Sf); [lia|lia|done|lia|done|].
    exists s', w'. split; [|split_and!].
    + eapply runs_iter_more; [|exact R]. unfold insert_round. eapply runs_bind; [apply plays_printf|].
      eapply runs_bind; [apply (read_line_plays _ _ l (typed ls ++ [46; 10] ++ rest));
        [apply Hl|unfold MAX_LINE_LEN; lia|exact Hin1]|].
      cbn beta iota. destruct (Z.leb_spec (Z.of_nat (length l)) 0).
      { pose proof (lo_nonempty _ Hl). by destruct l. }
      rewrite not_dot by done. destruct (Nat.leb_spec MAX_LINES (length (lines s))); [lia|].
      eapply runs_bind; [exact (runs_trigger answer (Malloc (Z.of_nat (length l) + 1)) w2)|]. cbn [answer]. rewrite Ew3.
      cbn [fst snd]. destruct (Z.eqb_spec (w_next w) 0); [lia|]. apply runs_ret.
    + rewrite T. unfold text. cbn [s1 set_modified set_lines lines]. rewrite !map_app, <- !firstn_map, <- !skipn_map.
      cbn [map snd]. set (ts := map snd (lines s)).
      assert (Hlt : length (take after ts) = after) by (subst ts; rewrite length_take, length_map; lia).
      rewrite take_app, drop_app, Hlt.
      replace (S after - after)%nat with 1%nat by lia. cbn [take drop app].
      rewrite (take_ge (take after ts)), (drop_ge (take after ts)) by lia.
      by rewrite <- app_assoc.
    + by rewrite C.
    + by rewrite F.
    + rewrite M. cbn [s1 set_modified modified]. by rewrite (bool_decide_false (l :: ls = [])), !orb_true_r.
    + done.
    + destruct Sf as (F1 & F2 & F3), I4 as (G1 & G2 & G3). split_and!; congruence.
Qed.

(** ** Deleting *)

Lemma free_all_plays ls w : plays (free_all ls) w tt w.
Proof.
  induction ls as [|l ls IH]; cbn [free_all]; [apply runs_ret|].
  eapply runs_bind; [exact (runs_trigger answer (Free l.1) w)|exact IH].
Qed.

Lemma do_delete_plays from to s w :
  1 <= from <= to -> to <= line_count s ->
  exists s', plays (do_delete from to s) w s' w
    /\ text s' = take (Z.to_nat (from - 1)) (text s) ++ drop (Z.to_nat to) (text s)
    /\ modified s' = true /\ filename s' = filename s.
Proof.
  intros Hf Ht. unfold do_delete. destruct (Z.ltb_spec from 1); [lia|]. destruct (Z.ltb_spec (line_count s) to); [lia|].
  destruct (Z.ltb_spec to from); [lia|]. destruct (Z.ltb_spec (line_count s) from); [lia|]. cbn [orb].
  set (s1 := set_modified true _). eexists. split.
  - eapply runs_bind; [apply free_all_plays|apply runs_ret].
  - assert (Htext : text s1 = take (Z.to_nat (from - 1)) (text s) ++ drop (Z.to_nat to) (text s)).
    { unfold text. cbn [s1 set_modified set_lines lines]. by rewrite map_app, <- firstn_map, <- skipn_map. }
    by destruct (_ && _).
Qed.

(** ** Substituting *)

Lemma prefixb_spec nd s : prefixb nd s = true <-> exists t, s = nd ++ t.
Proof.
  revert s. induction nd as [|x nd IH]; intros s; cbn [prefixb app].
  - split; [by exists s|done].
  - destruct s as [|y s].
    + split; [done|]. by intros [t Ht].
    + rewrite andb_true_iff, Z.eqb_eq, IH. split.
      * intros [-> [t ->]]. by exists t.
      * intros [t [= -> ->]]. split; [done|]. by exists t.
Qed.

(** The first occurrence. *)
Lemma find_sub_spec nd s :
  match find_sub nd s with
  | Some i => (exists t, drop i s = nd ++ t) /\ (i <= length s)%nat
              /\ forall j, (j < i)%nat -> prefixb nd (drop j s) = false
  | None => forall j, (j <= length s)%nat -> prefixb nd (drop j s) = false
  end.
Proof.
  induction s as [|c s IH]; cbn [find_sub].
  - destruct (prefixb nd []) eqn:E.
    + apply prefixb_spec in E as [t E]. split_and!; [by exists t|cbn; lia|lia].
    + intros j Hj. by rewrite drop_nil.
  - destruct (prefixb nd (c :: s)) eqn:E.
    + apply prefixb_spec in E as [t E]. split_and!; [by exists t|lia|lia].
    + destruct (find_sub nd s) as [i|]; cbn [fmap option_fmap option_map].
      * destruct IH as (H1 & H2 & H3). split_and!; [done|cbn; lia|]. intros [|j] Hj; [done|]. apply H3. lia.
      * intros [|j] Hj; [done|]. apply IH. cbn in Hj. lia.
Qed.

(** A line with the first occurrence of the pattern replaced. *)
Definition substituted (pattern replacement l : list Z) : list Z :=
  match find_sub pattern l with
  | None => l
  | Some i => take i l ++ replacement ++ drop (i + length pattern) l
  end.

Lemma substitute_loop_plays pattern replacement rounds : forall i s w,
  (i + rounds <= length (lines s))%nat -> (rounds <= w_room w)%nat -> 0 < w_next w ->
  exists s' w', plays (substitute_loop rounds i pattern replacement s) w s' w'
    /\ text s' = take i (text s) ++ map (substituted pattern replacement) (take rounds (drop i (text s)))
                  ++ drop (i + rounds) (text s)
    /\ w_in w' = w_in w /\ same_files w w'.
Proof.
  induction rounds as [|r IH]; intros i s w Hi Hroom Hnext; cbn [substitute_loop].
  - exists s, w. split; [apply runs_ret|]. rewrite take_0, Nat.add_0_r. cbn [map app]. by rewrite take_drop.
  - destruct (lookup_lt_is_Some_2 (lines s) i ltac:(lia)) as [[p l] El]. rewrite El.
    assert (Et : text s !! i = Some l) by (unfold text; rewrite list_lookup_fmap, El; done).
    assert (Ed : drop i (text s) = l :: drop (S i) (text s)) by (by apply drop_S).
    assert (Enext : forall s1 w1, text s1 = <[i := substituted pattern replacement l]> (text s) ->
      w_in w1 = w_in w -> same_files w w1 -> (r <= w_room w1)%nat -> 0 < w_next w1 ->
      exists s' w', plays (substitute_loop r (S i) pattern replacement s1) w1 s' w'
        /\ text s' = take i (text s) ++ map (substituted pattern replacement) (take (S r) (drop i (text s)))
                      ++ drop (i + S r) (text s)
        /\ w_in w' = w_in w /\ same_files w w').
    { intros s1 w1 Ets Ein Esf Er En. 
      assert (Hlen : length (lines s1) = length (lines s)) by (rewrite <- !length_text, Ets; apply length_insert).
      destruct (IH (S i) s1 w1) as (s' & w' & R & T & In & (F1 & F2 & F3)); [lia|done|done|].
      exists s', w'. split; [done|]. split.
      - rewrite T, Ets, Ed. cbn [take map]. rewrite !drop_insert_lt by lia.
        rewrite (take_S_r _ i (substituted pattern replacement l))
          by (rewrite list_lookup_insert_eq; [done|]; rewrite length_text; lia).
        rewrite take_insert_ge by lia. rewrite <- app_assoc. cbn [app].
        by replace (S i + r)%nat with (i + S r)%nat by lia.
      - destruct Esf as (G1 & G2 & G3). split; [congruence|]. split_and!; congruence. }
    unfold substituted in Enext. destruct (find_sub pattern l) as [idx|].
    + set (nl := take idx l ++ replacement ++ drop (idx + length pattern) l) in *.
      destruct (w_room w) as [|room] eqn:Er; [lia|].
      set (w1 := (take_room (Z.of_nat (length nl) + 1) w).2).
      assert (Ew : take_room (Z.of_nat (length nl) + 1) w = (w_next w, w1)) by (unfold w1, take_room; by rewrite Er).
      assert (Hw1 : w_in w1 = w_in w /\ same_files w w1 /\ w_room w1 = room /\ 0 < w_next w1).
      { unfold w1, take_room. rewrite Er. cbn [snd w_in w_room w_next]. split_and!; [done|done|done|lia]. }
      destruct Hw1 as (I1 & I2 & I3 & I4).
      destruct (Enext (set_modified true (set_lines (<[i := (w_next w, nl)]> (lines s)) s)) w1)
        as (s' & w' & R & HR); [|done|done|lia|done|].
      * unfold text. cbn [set_modified set_lines lines]. by rewrite list_fmap_insert.
      * exists s', w'. split; [|exact HR].
        eapply runs_bind; [exact (runs_trigger answer (Malloc (Z.of_nat (length nl) + 1)) w)|]. cbn [answer]. rewrite Ew.
        cbn [fst snd]. destruct (Z.eqb_spec (w_next w) 0); [lia|].
        eapply runs_bind; [exact (runs_trigger answer (Free p) w1)|]. exact R.
    + apply (Enext s w); [|done|done|lia|done]. by rewrite list_insert_id.
Qed.

(** C10: the code of the editor edits its text.  Typing lines and a dot at a
    place puts those lines there; deleting a range takes it out; substituting
    on a range replaces the first occurrence of the pattern in each of its
    lines.  Every other line stays.  This is for an array with room,
    allocations that succeed, and system calls that answer as the world of
    User says: a comment at the top of ed.c reports that the command always
    ends in a general protection fault on this system, and these theorems show
    that the editor's own code is not what makes it. *)
Theorem ed_edits_text junk s w :
  0 < w_next w ->
  (forall ls rest after, Forall line_ok ls -> 0 <= after <= line_count s ->
     (length (text s) + length ls <= MAX_LINES)%nat -> (length ls <= w_room w)%nat ->
     w_in w = typed ls ++ [46; 10] ++ rest ->
     exists s' w', plays (do_insert junk after s) w s' w' /\ w_in w' = rest
       /\ text s' = take (Z.to_nat after) (text s) ++ ls ++ drop (Z.to_nat after) (text s))
  /\ (forall from to, 1 <= from <= to -> to <= line_count s ->
     exists s', plays (do_delete from to s) w s' w
       /\ text s' = take (Z.to_nat (from - 1)) (text s) ++ drop (Z.to_nat to) (text s))
  /\ (forall pattern replacement from to, 1 <= from <= to -> to <= line_count s ->
     (Z.to_nat (to - from + 1) <= w_room w)%nat ->
     exists s' w', plays (do_substitute pattern replacement from to s) w s' w'
       /\ text s' = take (Z.to_nat (from - 1)) (text s)
            ++ map (substituted pattern replacement)
                 (take (Z.to_nat (to - from + 1)) (drop (Z.to_nat (from - 1)) (text s)))
            ++ drop (Z.to_nat to) (text s)).
Proof.
  intros Hnext. split_and!.
  - intros ls rest after Hls Ha Hmax Hroom Hin. rewrite length_text in Hmax. unfold do_insert.
    destruct (Z.ltb_spec after 0); [lia|]. destruct (Z.ltb_spec (line_count s) after); [lia|].
    unfold line_count in *.
    destruct (insert_loop_plays junk ls rest Hls (Z.to_nat after) s w) as (s' & w' & R & T & _ & _ & _ & In & _);
      [lia|done|done|done|done|]. by exists s', w'.
  - intros from to Hf Ht. destruct (do_delete_plays from to s w Hf Ht) as (s' & R & T & _). by exists s'.
  - intros pattern replacement from to Hf Ht Hroom. unfold do_substitute.
    destruct (Z.ltb_spec from 1); [lia|]. destruct (Z.ltb_spec (line_count s) to); [lia|].
    replace (to - (from - 1)) with (to - from + 1) by lia. unfold line_count in *.
    destruct (substitute_loop_plays pattern replacement (Z.to_nat (to - from + 1)) (Z.to_nat (from - 1)) s w)
      as (s' & w' & R & T & _); [lia|done|done|]. exists s', w'. split; [done|]. rewrite T. do 3 f_equal. lia.
Qed.

Definition world_of (input : list Z) : world := World input [] ∅ 8 0x510010 [] [].

Lemma ed_edits_text_witness :
  exists s w', plays (do_insert [] 0 (Ed [] 0 [] false)) (world_of (str "hi" ++ [10; 46; 10])) s w'
    /\ text s = [str "hi"].
Proof.
  destruct (ed_edits_text [] (Ed [] 0 [] false) (world_of (str "hi" ++ [10; 46; 10])) eq_refl) as (Hi & _ & _).
  destruct (Hi [str "hi"] [] 0) as (s & w' & R & _ & T).
  - apply Forall_cons. split; [|by apply Forall_nil_2]. split; [|done|done|cbn; lia].
    apply (bool_decide_unpack _). by vm_compute.
  - vm_compute; split; discriminate.
  - cbn. unfold MAX_LINES. lia.
  - cbn. lia.
  - reflexivity.
  - by exists s, w'.
Defined.

(** ** Saving and loading *)

(** A character of a text line. *)
Definition text_char (c : Z) : Prop := 0 < c < 256 /\ c <> 10.
#[export] Instance text_char_dec c : Decision (text_char c).
Proof. unfold text_char. apply _. Defined.

Lemma typed_cons l ls : typed (l :: ls) = l ++ 10 :: typed ls.
Proof. unfold typed. cbn [map concat]. by rewrite <- app_assoc. Qed.

Lemma word_line l rest n : Forall text_char l -> (length l < n)%nat -> word n 10 (l ++ 10 :: rest) = (l, 10 :: rest).
Proof.
  intros Hl. revert n. induction Hl as [|c l Hc Hl IH]; intros [|n] Hn; cbn [length app word] in *; try lia; [done|].
  destruct Hc as [_ Hc]. destruct (Z.eqb_spec c 10); [done|]. by rewrite IH by lia.
Qed.

Lemma load_loop_plays ls : Forall (Forall text_char) ls -> forall fuel s w,
  (length ls < fuel)%nat -> (length (lines s) + length ls <= MAX_LINES)%nat -> (length ls <= w_room w)%nat ->
  0 < w_next w ->
  exists s' w', plays (load_loop fuel (typed ls) s) w s' w' /\ text s' = text s ++ ls.
Proof.
  induction 1 as [|l ls Hl Hls IH]; intros [|fuel] s w Hf Hmax Hroom Hnext; cbn [length] in *; try lia.
  - exists s, w. split; [apply runs_ret|]. by rewrite app_nil_r.
  - rewrite typed_cons. cbn [load_loop].
    destruct (l ++ 10 :: typed ls) as [|c p] eqn:Ep; [by destruct l|]. rewrite <- Ep.
    destruct (Nat.leb_spec MAX_LINES (length (lines s))); [lia|].
    rewrite word_line by (done || rewrite length_app; cbn [length]; lia). cbn [tail].
    destruct (w_room w) as [|room] eqn:Er; [lia|].
    set (w1 := (take_room (Z.of_nat (length l) + 1) w).2).
    assert (Ew : take_room (Z.of_nat (length l) + 1) w = (w_next w, w1)) by (unfold w1, take_room; by rewrite Er).
    set (s1 := set_lines (lines s ++ [(w_next w, l)]) s).
    destruct (IH fuel s1 w1) as (s' & w' & R & T); [lia| | | |].
    + cbn [s1 set_lines lines]. rewrite length_app. cbn [length]. lia.
    + unfold w1, take_room. rewrite Er. cbn [snd w_room]. lia.
    + unfold w1, take_room. rewrite Er. cbn [snd w_next]. lia.
    + exists s', w'. split.
      * eapply runs_bind; [exact (runs_trigger answer (Malloc (Z.of_nat (length l) + 1)) w)|]. cbn [answer]. rewrite Ew.
        cbn [fst snd]. destruct (Z.eqb_spec (w_next w) 0); [lia|]. exact R.
      * rewrite T. unfold text. cbn [s1 set_lines lines]. rewrite map_app, <- app_assoc. done.
Qed.

Lemma save_loop_text ls buf :
  (length buf + length (typed (map snd ls)) < 4096)%nat -> save_loop ls buf = buf ++ typed (map snd ls).
Proof.
  revert buf. induction ls as [|[p l] ls IH]; intros buf Hl; cbn [save_loop map snd]; [by rewrite app_nil_r|].
  cbn [map snd] in Hl. rewrite typed_cons, length_app in Hl. cbn [length] in Hl.
  destruct (Z.leb_spec 4096 (Z.of_nat (length buf) + Z.of_nat (length l) + 1)); [lia|].
  rewrite IH by (rewrite !length_app; cbn [length]; lia). rewrite typed_cons, <- !app_assoc. done.
Qed.

Lemma typed_cstr ls : Forall (Forall text_char) ls -> cstr (typed ls) = typed ls.
Proof.
  intros Hls. apply cstr_id. induction Hls as [|l ls Hl Hls IH]; [by constructor|]. rewrite typed_cons.
  apply Forall_app. split; [eapply Forall_impl; [exact Hl|]; by intros c [Hc _]|]. apply Forall_cons. split; [lia|done].
Qed.

Lemma typed_rows ls : (length ls <= length (typed ls))%nat.
Proof.
  induction ls as [|l ls IH]; [done|]. rewrite typed_cons, length_app. cbn [length]. lia.
Qed.

Lemma save_file_plays fname s w :
  (length (typed (text s)) <= 4094)%nat ->
  plays (save_file fname s) w (line_count s) (set_file fname (typed (text s)) w).
Proof.
  intros Hlen. unfold save_file. eapply runs_bind; [exact (runs_trigger answer (Sys SYS_WRITE_FILE _) w)|].
  cbn [answer]. change (SYS_WRITE_FILE =? SYS_WRITE_FILE) with true. cbn [fst snd].
  rewrite save_loop_text by (cbn [length]; unfold text in Hlen; lia). apply runs_ret.
Qed.

Lemma load_file_plays fname ls s w :
  Forall (Forall text_char) ls -> (length (typed ls) <= 4094)%nat ->
  (length ls <= MAX_LINES)%nat -> (length ls <= w_room w)%nat -> 0 < w_next w ->
  w_files w !! fname = Some (typed ls) ->
  exists s' w', plays (load_file fname s) w (0, s') w' /\ text s' = ls.
Proof.
  intros Hc Hlen Hmax Hroom Hnext Hfile. unfold load_file. set (t := typed ls) in *.
  assert (Hcat : take (Z.to_nat (4095 - 1)) t = t) by (apply take_ge; lia).
  destruct (load_loop_plays ls Hc (S (length t)) (set_current 0 (set_lines [] s)) w) as (s' & w2 & R & T);
    [pose proof (typed_rows ls); subst t; lia|exact Hmax|exact Hroom|exact Hnext|].
  exists s', w2. split; [|exact T].
  eapply runs_bind; [exact (runs_trigger answer (Fill SYS_CAT (Some fname) 4095) w)|]. cbn [answer].
  rewrite Hfile. cbn [fst snd]. rewrite Hcat. destruct (Z.ltb_spec (Z.of_nat (length t)) 0); [lia|].
  eapply runs_bind; [eapply runs_bind; [apply free_all_plays|apply runs_ret]|].
  rewrite Nat2Z.id, firstn_all. subst t. rewrite typed_cstr by done.
  eapply runs_bind; [exact R|apply runs_ret].
Qed.

(** A file name that [w] and [e] take whole. *)
Record name_ok (fname : list Z) : Prop := {
  no_blank : Forall (fun c => c <> 32) fname;
  no_nonempty : fname <> [];
  no_length : (length fname <= 255)%nat
}.

Lemma file_arg_plain fname : name_ok fname -> skip 32 (32 :: fname) = fname /\ file_arg fname = fname.
Proof.
  intros [Hb Hne Hlen]. split.
  - cbn [skip]. change (32 =? 32) with true. destruct Hb as [|c fname Hc Hb]; [done|]. cbn [skip].
    by destruct (Z.eqb_spec c 32).
  - unfold file_arg. clear Hne. revert Hlen. generalize 255%nat.
    induction Hb as [|c fname Hc Hb IH]; intros [|n] Hn; cbn [length word] in *; try done; [lia|].
    destruct (Z.eqb_spec c 32); [done|]. pose proof (IH n ltac:(lia)) as E. destruct (word n 32 fname) as [a r].
    cbn [fst] in *. by rewrite E.
Qed.

(** C11: a saved text loads again.  When the lines, each with its newline, take
    at most 4094 bytes, the command [w file] writes exactly them, keeps the
    text and marks it saved; and [e file], in an editor with any saved text,
    then brings those lines back.  The calls answer as the world of User says,
    where a file can be written, and there is memory for every line: when an
    allocation fails [load_file] drops the lines that are left and still
    reports success.  Like the theorem before, this is about the editor's
    code, not about the fault a comment in ed.c reports. *)
Theorem ed_save_load junk fname s s0 w :
  name_ok fname -> Forall (Forall text_char) (text s) -> (length (typed (text s)) <= 4094)%nat ->
  (length (text s) <= MAX_LINES)%nat -> (length (text s) <= w_room w)%nat -> 0 < w_next w -> modified s0 = false ->
  exists s1 w1, plays (command junk (str "w " ++ fname) s) w (inl s1) w1
    /\ text s1 = text s /\ modified s1 = false /\ w_files w1 = <[fname := typed (text s)]> (w_files w)
    /\ exists s' w2, plays (command junk (str "e " ++ fname) s0) w1 (inl s') w2
         /\ text s' = text s /\ modified s' = false /\ filename s' = fname.
Proof.
  intros Hn Hc Hlen Hmax Hroom Hnext Hm. destruct (file_arg_plain fname Hn) as [Hskip Harg].
  pose proof (no_nonempty _ Hn) as Hne. destruct fname as [|a fs] eqn:Ef; [done|]. rewrite <- Ef in *.
  set (s1 := set_modified false (match filename s with [] => set_filename fname s | _ => s end)).
  set (w1 := add_out (default [] (LibcStdio.printf (str "%d" ++ [10]) [AInt (line_count s)]))
               (set_file fname (typed (text s)) w)).
  exists s1, w1. split; [|split_and!; [by unfold s1; destruct (filename s)|done|done|]].
  - change (command junk (str "w " ++ fname) s) with (cmd_write (32 :: fname) s). unfold cmd_write. rewrite Hskip.
    rewrite Ef. cbn iota. rewrite <- Ef, Harg.
    eapply runs_bind; [by apply save_file_plays|]. destruct (Z.leb_spec 0 (line_count s)); [|unfold line_count in *; lia].
    eapply runs_bind; [apply plays_printf|apply runs_ret].
  - destruct (load_file_plays fname (text s) s0 w1 Hc Hlen Hmax Hroom Hnext) as (s' & w2 & R & T); [apply lookup_insert_eq|].
    exists (set_modified false (set_filename fname s')). eexists. split; [|by split_and!].
    change (command junk (str "e " ++ fname) s0) with (cmd_edit (32 :: fname) s0). unfold cmd_edit. rewrite Hm, Hskip.
    rewrite Ef. cbn iota. rewrite <- Ef, Harg.
    eapply runs_bind; [exact R|]. cbn beta iota. change (0 =? 0) with true. cbn iota.
    eapply runs_bind; [apply plays_printf|apply runs_ret].
Qed.

Lemma ed_save_load_witness :
  let s := Ed [(8, str "one"); (9, []); (10, str "two")] 0 [] true in
  exists s1 w1 s' w2, plays (command [] (str "w f") s) (world_of []) (inl s1) w1
    /\ plays (command [] (str "e f") (Ed [] 0 [] false)) w1 (inl s') w2 /\ text s' = [str "one"; []; str "two"].
Proof.
  intros s.
  destruct (ed_save_load [] (str "f") s (Ed [] 0 [] false) (world_of [])) as (s1 & w1 & R1 & _ & _ & _ & s' & w2 & R2 & T & _).
  - split; [apply (bool_decide_unpack _); by vm_compute|done|apply Nat.leb_le; reflexivity].
  - apply (bool_decide_unpack _). by vm_compute.
  - apply Nat.leb_le. reflexivity.
  - apply Nat.leb_le. reflexivity.
  - apply Nat.leb_le. reflexivity.
  - reflexivity.
  - reflexivity.
  - by exists s1, w1, s', w2.
Defined.

(** ** The documented form of substitution *)

(** [s/pat/r/] changes nothing.  In the form the help text gives, the
    pattern that [main] reads ends at the first slash, before it has begun:
    with or without a line number, the command does not touch the text and
    says nothing.  Without the leading slash the same command substitutes. *)
Theorem substitute_as_documented junk rest s w :
  plays (command junk (str "s/" ++ rest) s) w (inl s) w
  /\ plays (command junk (str "1s/" ++ rest) s) w (inl s) w
  /\ (forall l, text s = [l] -> (0 < w_room w)%nat -> 0 < w_next w ->
       exists s' w', plays (command junk (str "1sold/new/") s) w (inl s') w'
         /\ text s' = [substituted (str "old") (str "new") l]).
Proof.
  split_and!; [apply runs_ret|apply runs_ret|]. intros l Hl Hroom Hnext.
  assert (Hlen : length (lines s) = 1%nat) by (by rewrite <- length_text, Hl).
  destruct (substitute_loop_plays (str "old") (str "new") 1 0 s w) as (s' & w' & R & T & _); [lia|lia|done|].
  exists s', w'. split; [|by rewrite T, Hl].
  change (command junk (str "1sold/new/") s) with (then_again (do_substitute (str "old") (str "new") 1 1 s)).
  eapply runs_bind; [|apply runs_ret]. unfold do_substitute. change (1 <? 1) with false. cbn iota.
  unfold line_count. rewrite Hlen. change (Z.of_nat 1 <? 1) with false. exact R.
Qed.
