(* ===== verification/Programs.v ===== *)
(** * The small programs ([src/userspace/])

    [cat], [ls], [grep], [echo], [touch], [uname] and [shutdown].  [grep]
    reads its pattern as the first line of its input and prints the lines
    that contain it, up to an empty line or the end. *)

From S2P Require Import Prelude.
From S2P Require Import LibcStdio.
From S2P Require Import User.
From S2P Require Import Ed.
From S2P Require Import EdProps.

(** [read_line_from_fd] of [shell.c], [read_line] of [grep.c]: the number of
    characters and the string. *)
Definition read_fd_round (fd : Z) (max : nat) (buf : list Z) : prog (list Z + Z * list Z) :=
  if (max - 1 <=? length buf)%nat then Ret (inr (Z.of_nat (length buf), cstr buf))
  else
    call* '(ret, c) := ITree.trigger (Read fd) in
    if (ret <=? 0) || (c =? 10) then Ret (inr (Z.of_nat (length buf), cstr buf))
    else Ret (inl (buf ++ [c])).
Definition read_line_from_fd (fd : Z) (max : nat) : prog (Z * list Z) := ITree.iter (read_fd_round fd max) [].

(** The loop of [grep], for a pattern. *)
Definition grep_round (pattern : list Z) (_ : unit) : prog (unit + unit) :=
  call* '(len, line) := read_line_from_fd 0 256 in
  if len =? 0 then Ret (inr tt)
  else
    then* (match find_sub pattern line with Some _ => puts line | None => Ret tt end) in
    Ret (inl tt).

Definition grep_main : prog Z :=
  call* '(len, pattern) := read_line_from_fd 0 128 in
  if len =? 0 then Ret 1
  else then* ITree.iter (grep_round pattern) tt in Ret 0.

(** [cat]: one line of standard input. *)
Definition cat_round (_ : unit) : prog (unit + unit) :=
  call* '(ret, c) := ITree.trigger (Read 0) in
  if ret <=? 0 then Ret (inr tt)
  else
    then* ITree.trigger (Write 1 [c]) in
    Ret (if c =? 10 then inr tt else inl tt).
Definition cat_main : prog Z := then* ITree.iter cat_round tt in Ret 0.

Definition ls_main : prog Z :=
  call* '(n, buf) := ITree.trigger (Fill SYS_LS None 400) in
  if n <? 0 then then* say (str "ls: failed") in Ret 0
  else then* printf (str "%s") [AStr (Some (cstr (take (Z.to_nat n) buf)))] in Ret 0.

Definition echo_main : prog Z := then* say [] in Ret 0.
Definition touch_main : prog Z := Ret 0.
Definition uname_main : prog Z := then* say (str "some-tiny-os some-tiny-os 0.4.1 x86_64 some-tiny-os") in Ret 0.
Definition shutdown_main : prog Z :=
  then* say (str "Shutting down...") in then* sys SYS_SHUTDOWN [Num 0] in Ret 0.

(** ** [grep] is a filter *)

Lemma read_line_from_fd_plays fd max l rest w :
  Forall text_char l -> (S (length l) < max)%nat -> w_in w = l ++ 10 :: rest ->
  plays (read_line_from_fd fd max) w (Z.of_nat (length l), l) (set_in rest w).
Proof.
  intros Hl. unfold read_line_from_fd.
  assert (Hgen : forall buf w, Forall text_char buf -> (S (length buf + length l) < max)%nat -> w_in w = l ++ 10 :: rest ->
    plays (ITree.iter (read_fd_round fd max) buf) w (Z.of_nat (length (buf ++ l)), buf ++ l) (set_in rest w)).
  { clear w. induction Hl as [|c l Hc Hl IH]; intros buf w Hb Hmax Hin; cbn [length app] in *.
    - apply runs_iter_done. unfold read_fd_round. destruct (Nat.leb_spec (max - 1) (length buf)); [lia|].
      eapply runs_bind; [by apply plays_read|]. cbn beta iota.
      change ((1 <=? 0) || (10 =? 10)) with true. cbn iota. rewrite app_nil_r.
      rewrite cstr_id; [apply runs_ret|]. eapply Forall_impl; [exact Hb|]. by intros c [Hc _].
    - pose proof Hc as [Hc0 Hc10].
      apply (runs_iter_more answer _ _ (buf ++ [c]) _ (set_in (l ++ 10 :: rest) w)).
      + unfold read_fd_round. destruct (Nat.leb_spec (max - 1) (length buf)); [lia|].
        eapply runs_bind; [by apply plays_read|]. cbn beta iota. change (1 <=? 0) with false. cbn [orb].
        destruct (Z.eqb_spec c 10); [done|]. apply runs_ret.
      + replace (buf ++ c :: l) with ((buf ++ [c]) ++ l) by (by rewrite <- app_assoc).
        change (set_in rest w) with (set_in rest (set_in (l ++ 10 :: rest) w)).
        apply IH; [|rewrite length_app; cbn [length]; lia|done].
        apply Forall_app. split; [done|]. by apply Forall_cons. }
  intros Hmax Hin. by apply (Hgen [] w).
Qed.

(** A line that [grep] reads whole. *)
Record grep_line (l : list Z) : Prop := {
  gl_chars : Forall text_char l;
  gl_nonempty : l <> [];
  gl_length : (length l < 255)%nat
}.

Definition matching (pattern : list Z) (ls : list (list Z)) : list (list Z) :=
  filter (fun l => is_Some (find_sub pattern l)) ls.

Lemma grep_loop_plays pattern ls : Forall grep_line ls -> forall w,
  w_in w = typed ls ->
  exists w', plays (ITree.iter (grep_round pattern) tt) w tt w' /\ w_in w' = []
    /\ w_out w' = w_out w ++ typed (matching pattern ls).
Proof.
  unfold matching. induction 1 as [|l ls Hl Hls IH]; intros w Hin.
  - exists w. split; [|split; [done|by rewrite app_nil_r]]. apply runs_iter_done. unfold grep_round.
    assert (Hend : plays (read_line_from_fd 0 256) w (0, []) w).
    { apply (runs_iter_done answer (read_fd_round 0 256) []).
      apply (runs_bind answer _ _ _ _ _ _ _ (plays_read_end 0 w Hin)). apply runs_ret. }
    apply (runs_bind answer _ _ _ _ _ _ _ Hend). apply runs_ret.
  - destruct Hl as [Hc Hne Hlen]. rewrite typed_cons in Hin. set (w1 := set_in (typed ls) w).
    assert (Hread : plays (read_line_from_fd 0 256) w (Z.of_nat (length l), l) w1)
      by (apply read_line_from_fd_plays; [done|lia|done]).
    assert (Hlen0 : (Z.of_nat (length l) =? 0) = false)
      by (apply Z.eqb_neq; destruct l; [done|]; cbn [length]; lia).
    rewrite filter_cons. destruct (decide (is_Some (find_sub pattern l))) as [[i Ei]|Ei].
    + destruct (IH (add_out [10] (add_out l w1)) eq_refl) as (w' & R & In & Out). exists w'.
      split; [|split; [done|]].
      * eapply runs_iter_more; [|exact R]. unfold grep_round. eapply runs_bind; [exact Hread|]. cbn beta iota.
        rewrite Hlen0, Ei. eapply runs_bind; [|apply runs_ret].
        eapply runs_bind; [apply plays_write|]. eapply runs_bind; [apply plays_write|]. apply runs_ret.
      * rewrite Out, typed_cons. cbn [add_out w_out w1 set_in]. by rewrite <- !app_assoc.
    + destruct (IH w1 eq_refl) as (w' & R & In & Out). exists w'. split; [|done].
      eapply runs_iter_more; [|exact R]. unfold grep_round. eapply runs_bind; [exact Hread|]. cbn beta iota.
      rewrite Hlen0. destruct (find_sub pattern l) eqn:E; [by destruct Ei|].
      eapply runs_bind; [apply runs_ret|]. apply runs_ret.
Qed.

(** C35: [grep] is a filter.  On a pattern of at most 126 characters and lines
    that are not empty and fit the buffer, [grep] comes to an end, has read
    everything, and has written exactly the lines that contain the pattern,
    in order. *)
Theorem grep_filters pattern ls w :
  Forall text_char pattern -> pattern <> [] -> (length pattern <= 126)%nat -> Forall grep_line ls ->
  w_in w = typed (pattern :: ls) ->
  exists w', plays grep_main w 0 w' /\ w_in w' = [] /\ w_out w' = w_out w ++ typed (matching pattern ls)
    /\ (forall l, l ∈ matching pattern ls <-> l ∈ ls /\ exists a b, l = a ++ pattern ++ b).
Proof.
  intros Hp Hne Hlen Hls Hin. rewrite typed_cons in Hin.
  destruct (grep_loop_plays pattern ls Hls (set_in (typed ls) w) eq_refl) as (w' & R & In & Out).
  exists w'. split_and!; [|done|done|].
  - unfold grep_main. eapply runs_bind; [apply (read_line_from_fd_plays 0 128 pattern (typed ls)); [done|lia|done]|].
    cbn beta iota. destruct (Z.eqb_spec (Z.of_nat (length pattern)) 0); [by destruct pattern|].
    eapply runs_bind; [exact R|]. apply runs_ret.
  - intros l. unfold matching. rewrite list_elem_of_filter. split.
    + intros [[i Hi] Hl]. split; [done|]. pose proof (find_sub_spec pattern l) as Hs. rewrite Hi in Hs.
      destruct Hs as ([t Ht] & _). exists (take i l), t. by rewrite <- Ht, take_drop.
    + intros [Hl (a & b & ->)]. split; [|done]. pose proof (find_sub_spec pattern (a ++ pattern ++ b)) as Hs.
      destruct (find_sub pattern (a ++ pattern ++ b)); [done|]. exfalso.
      specialize (Hs (length a) ltac:(rewrite length_app; lia)). rewrite drop_app_length in Hs.
      assert (Ht : prefixb pattern (pattern ++ b) = true) by (apply prefixb_spec; by exists b). congruence.
Qed.

Lemma grep_filters_witness :
  exists w', plays grep_main (world_of (typed [str "b"; str "abc"; str "xyz"; str "b"])) 0 w'
    /\ w_out w' = typed [str "abc"; str "b"].
Proof.
  destruct (grep_filters (str "b") [str "abc"; str "xyz"; str "b"]
    (world_of (typed [str "b"; str "abc"; str "xyz"; str "b"]))) as (w' & R & _ & Out & _).
  - apply (bool_decide_unpack _). by vm_compute.
  - done.
  - cbn. lia.
  - repeat (apply Forall_cons; split; [split; [apply (bool_decide_unpack _); by vm_compute|done|cbn; lia]|]).
    apply Forall_nil_2.
  - reflexivity.
  - by exists w'.
Defined.
