(* ===== verification/Shell.v ===== *)
(** * The user shell ([src/userspace/shell.c])

    The static variables are the record [shell]; the strings of the history
    and of the environment are lists, the line being edited is the array of
    256 bytes that the code shifts about.  [main] reads a line and executes
    it, for ever.  [execute] calls itself through pipes and scripts; the
    argument [depth] bounds the nesting, and a program that would nest deeper
    (it runs out of stack) stays in [ITree.spin].

    A fork is a system call with an answer like any other: the tree is what
    one process does, the child being the run in which the answer is 0. *)

From S2P Require Import Prelude.
From S2P Require Import LibcStdio.
From S2P Require Import User.
From S2P Require Import LibcFile.
From S2P Require Import Programs.

Definition LINE_MAX : Z := 256.
Definition HIST_SIZE : Z := 64.
Definition HIST_FILE : list Z := str "/history".
Definition KEY_UP : Z := 0x80.
Definition KEY_DOWN : Z := 0x81.
Definition KEY_LEFT : Z := 0x82.
Definition KEY_RIGHT : Z := 0x83.
Definition KEY_HOME : Z := 0x84.
Definition KEY_END : Z := 0x85.
Definition KEY_DELETE : Z := 0x86.
Definition MAX_COMPLETIONS : nat := 32.
Definition ENV_MAX : nat := 32.
Definition ENV_KEY_MAX : nat := 32.
Definition ENV_VAL_MAX : nat := 96.
Definition ENV_FILE : list Z := str "/env".

(** A variable of the environment: its key and its value. *)
Abbreviation var := (list Z * list Z)%type.

Record shell := Shell {
  sh_line : list Z; line_pos : Z; line_len : Z; prompt_col : Z;
  hist_buf : list (list Z); hist_count : Z; hist_index : Z;
  sh_env : list var; sh_files : files; sh_handlers : list Z
}.

Definition shell_zero : shell :=
  Shell (replicate 256 0) 0 0 0 (replicate 64 []) 0 0 [] no_files no_handlers.

Definition set_line (b : list Z) (pos len : Z) (s : shell) : shell :=
  Shell b pos len (prompt_col s) (hist_buf s) (hist_count s) (hist_index s) (sh_env s) (sh_files s) (sh_handlers s).
Definition set_prompt_col (v : Z) (s : shell) : shell :=
  Shell (sh_line s) (line_pos s) (line_len s) v (hist_buf s) (hist_count s) (hist_index s) (sh_env s) (sh_files s)
    (sh_handlers s).
Definition set_hist (b : list (list Z)) (count index : Z) (s : shell) : shell :=
  Shell (sh_line s) (line_pos s) (line_len s) (prompt_col s) b count index (sh_env s) (sh_files s) (sh_handlers s).
Definition set_hist_index (v : Z) (s : shell) : shell := set_hist (hist_buf s) (hist_count s) v s.
Definition set_env (v : list var) (s : shell) : shell :=
  Shell (sh_line s) (line_pos s) (line_len s) (prompt_col s) (hist_buf s) (hist_count s) (hist_index s) v (sh_files s)
    (sh_handlers s).
Definition set_files (v : files) (s : shell) : shell :=
  Shell (sh_line s) (line_pos s) (line_len s) (prompt_col s) (hist_buf s) (hist_count s) (hist_index s) (sh_env s) v
    (sh_handlers s).
Definition set_handlers (v : list Z) (s : shell) : shell :=
  Shell (sh_line s) (line_pos s) (line_len s) (prompt_col s) (hist_buf s) (hist_count s) (hist_index s) (sh_env s)
    (sh_files s) v.

(** ** The environment *)

(** The buffer that [env_save] fills. *)
Fixpoint env_save_loop (vars : list var) (buf : list Z) : list Z :=
  match vars with
  | [] => buf
  | (k, v) :: rest =>
      if 4095 <=? Z.of_nat (length buf + length k + 1 + length v + 1) then buf
      else env_save_loop rest (buf ++ k ++ [61] ++ v ++ [10])
  end.
Definition env_save (s : shell) : prog unit :=
  then* sys SYS_WRITE_FILE [Bytes ENV_FILE; Bytes (env_save_loop (sh_env s) [])] in Ret tt.

(** A line of the file. *)
Definition env_entry (l : list Z) (vars : list var) : list var :=
  match index_of 61 l with
  | None => vars
  | Some eq =>
      if (0 <? eq)%nat && (eq <? ENV_KEY_MAX)%nat && (length l - eq - 1 <? ENV_VAL_MAX)%nat then
        vars ++ [(cstr (take eq l), cstr (drop (S eq) l))]
      else vars
  end.

(** The loop over the file with [rest] still to come; [l] is what the line has
    so far, from [start] on. *)
Fixpoint env_load_loop (l rest : list Z) (vars : list var) : list var :=
  if (ENV_MAX <=? length vars)%nat then vars
  else match rest with
       | [] => env_entry l vars
       | c :: rest' => if c =? 10 then env_load_loop [] rest' (env_entry l vars) else env_load_loop (l ++ [c]) rest' vars
       end.
Definition env_load (s : shell) : prog shell :=
  let s := set_env [] s in
  call* '(n, buf) := ITree.trigger (Fill SYS_CAT (Some ENV_FILE) 4096) in
  if i32 n <=? 0 then Ret s
  else Ret (set_env (env_load_loop [] (take (Z.to_nat (i32 n)) buf) []) s).

(** [strcmp(a, b) == 0]. *)
Definition streq (a b : list Z) : bool := bool_decide (a = b).

Fixpoint env_find (key : list Z) (vars : list var) : option nat :=
  match vars with
  | [] => None
  | (k, _) :: rest => if streq k key then Some 0%nat else S <$> env_find key rest
  end.
Definition env_get (key : list Z) (vars : list var) : option (list Z) :=
  match env_find key vars with None => None | Some i => snd <$> vars !! i end.

(** [env_vals[env_count - 1][ENV_VAL_MAX - 1] = 0], after the copy into an
    entry that is there, changes nothing: byte 95 of a value is 0 from the
    start, and nothing stores another byte there. *)
Definition env_set (key value : list Z) (s : shell) : prog shell :=
  let value := take (ENV_VAL_MAX - 1) value in
  match env_find key (sh_env s) with
  | Some i =>
      let s := set_env (alter (fun v => (v.1, value)) i (sh_env s)) s in
      then* env_save s in Ret s
  | None =>
      if (ENV_MAX <=? length (sh_env s))%nat then then* say (str "env: too many variables") in Ret s
      else
        let s := set_env (sh_env s ++ [(take (ENV_KEY_MAX - 1) key, value)]) s in
        then* env_save s in Ret s
  end.

Definition env_unset (key : list Z) (s : shell) : prog shell :=
  match env_find key (sh_env s) with
  | None => Ret s
  | Some i => let s := set_env (take i (sh_env s) ++ drop (S i) (sh_env s)) s in then* env_save s in Ret s
  end.

(** The key after a dollar sign: at most [n] characters. *)
Fixpoint env_key (n : nat) (src : list Z) : list Z * list Z :=
  match n, src with
  | S n', c :: rest =>
      if (c =? 32) || (c =? 36) then ([], src) else let '(k, r) := env_key n' rest in (c :: k, r)
  | _, _ => ([], src)
  end.

(** The loop of [expand_env]; [fuel] bounds the rounds, each of which takes a
    character of [src] at least. *)
Fixpoint expand_loop (fuel : nat) (vars : list var) (src dst : list Z) (max : nat) : list Z :=
  match fuel with
  | O => dst
  | S f =>
      match src with
      | [] => dst
      | c :: rest =>
          if (max - 1 <=? length dst)%nat then dst
          else if (c =? 36) && negb (char_at rest 0 =? 0) && negb (char_at rest 0 =? 32) then
            let '(key, rest) := env_key (ENV_KEY_MAX - 1) rest in
            match env_get key vars with
            | None => expand_loop f vars rest dst max
            | Some val =>
                if (max - 1 <=? length dst + length val)%nat then dst
                else expand_loop f vars rest (dst ++ val) max
            end
          else expand_loop f vars rest (dst ++ [c]) max
      end
  end.
Definition expand_env (vars : list var) (src : list Z) (max : nat) : list Z :=
  expand_loop (length src) vars src [] max.

(** ** The cursor and the history *)

Definition get_cursor : prog Z := call* c := sys SYS_GET_CURSOR [] in Ret (u32 c).
Definition set_cursor (row col : Z) : prog unit :=
  then* sys SYS_SET_CURSOR [Num (u64 row); Num (u64 col)] in Ret tt.

(** [hist_buf[i % HIST_SIZE]]. *)
Definition hist_slot (i : Z) : nat := Z.to_nat (Z.rem i HIST_SIZE).
Definition hist_at (s : shell) (i : Z) : list Z := default [] (hist_buf s !! hist_slot i).

Definition history_add (cmd : list Z) (s : shell) : shell :=
  if char_at cmd 0 =? 0 then s
  else if (0 <? hist_count s) && streq (hist_at s (hist_count s - 1)) cmd then s
  else
    let b := <[hist_slot (hist_count s) := take (Z.to_nat (LINE_MAX - 1)) cmd]> (hist_buf s) in
    let n := i32 (hist_count s + 1) in
    set_hist b n n s.

(** A line of the history file. *)
Definition hist_entry (l : list Z) (s : shell) : shell :=
  if (0 <? length l)%nat && (Z.of_nat (length l) <? LINE_MAX) then
    set_hist (<[hist_slot (hist_count s) := cstr l]> (hist_buf s)) (i32 (hist_count s + 1)) (hist_index s) s
  else s.
Fixpoint history_loop (l rest : list Z) (s : shell) : shell :=
  match rest with
  | [] => hist_entry l s
  | c :: rest' => if c =? 10 then history_loop [] rest' (hist_entry l s) else history_loop (l ++ [c]) rest' s
  end.
Definition history_load (s : shell) : prog shell :=
  call* '(n, buf) := ITree.trigger (Fill SYS_CAT (Some HIST_FILE) 4096) in
  if i32 n <=? 0 then Ret s
  else
    let s := history_loop [] (take (Z.to_nat (i32 n)) buf) (set_hist (hist_buf s) 0 0 s) in
    Ret (set_hist_index (hist_count s) s).

(** ** Editing the line *)

(** [line[i]].  A store past the array shows: the list becomes longer. *)
Definition at_ (b : list Z) (i : Z) : Z := default 0 (b !! Z.to_nat i).
Definition put (i v : Z) (b : list Z) : list Z :=
  if (0 <=? i) && (i <? Z.of_nat (length b)) then <[Z.to_nat i := v]> b else b ++ [v].

(** [for ( ; i < end; i++) line[i] = line[i + 1]], with [rounds = end - i]. *)
Fixpoint move_left (rounds : nat) (i : Z) (b : list Z) : list Z :=
  match rounds with
  | O => b
  | S r => move_left r (i + 1) (put i (at_ b (i + 1)) b)
  end.
(** [for ( ; i >= end; i--) line[i + by] = line[i]], with [rounds = i - end + 1]. *)
Fixpoint move_right (rounds : nat) (i by_ : Z) (b : list Z) : list Z :=
  match rounds with
  | O => b
  | S r => move_right r (i - 1) by_ (put (i + by_) (at_ b i) b)
  end.

Definition redraw_line (s : shell) : prog unit :=
  call* cursor := get_cursor in
  let row := Z.shiftr cursor 16 in
  then* set_cursor row (prompt_col s) in
  then* putchars (take (Z.to_nat (line_len s)) (sh_line s)) in
  then* putchar 32 in
  set_cursor row (prompt_col s + line_pos s).

Definition rubout : prog unit := then* putchar 8 in then* putchar 32 in putchar 8.

Definition key_backspace (s : shell) : prog shell :=
  if 0 <? line_pos s then
    let pos := line_pos s - 1 in
    let len := line_len s - 1 in
    let s := set_line (put len 0 (move_left (Z.to_nat (len - pos)) pos (sh_line s))) pos len s in
    then* (if pos =? len then rubout else redraw_line s) in Ret s
  else Ret s.

Definition key_delete (s : shell) : prog shell :=
  if line_pos s <? line_len s then
    let b := move_left (Z.to_nat (line_len s - 1 - line_pos s)) (line_pos s) (sh_line s) in
    let len := line_len s - 1 in
    let s := set_line (put len 0 b) (line_pos s) len s in
    then* redraw_line s in Ret s
  else Ret s.

(** The cursor one column to the left or to the right. *)
Definition move_cursor (by_ : Z) : prog unit :=
  call* cur := get_cursor in
  set_cursor (i32 (Z.shiftr cur 16)) (i32 (u32 (Z.land cur 0xFFFF + by_))).

Definition key_left (s : shell) : prog shell :=
  if 0 <? line_pos s then then* move_cursor (-1) in Ret (set_line (sh_line s) (line_pos s - 1) (line_len s) s)
  else Ret s.
Definition key_right (s : shell) : prog shell :=
  if line_pos s <? line_len s then then* move_cursor 1 in Ret (set_line (sh_line s) (line_pos s + 1) (line_len s) s)
  else Ret s.

(** Setting [line_pos] to [pos] and drawing the line. *)
Definition key_jump (pos : Z) (s : shell) : prog shell :=
  let s := set_line (sh_line s) pos (line_len s) s in then* redraw_line s in Ret s.

(** [strncpy(line, hist_buf[idx], LINE_MAX - 1)] and what follows. *)
Definition recall (i : Z) (s : shell) : shell :=
  let b := take 255 (hist_at s i ++ replicate 255 0) ++ [0] in
  let len := Z.of_nat (length (cstr b)) in
  set_line b len len s.

Definition key_up (s : shell) : prog shell :=
  if (0 <? hist_count s) && (0 <? hist_index s) then
    let i := hist_index s - 1 in
    let s := recall i (set_hist_index i s) in
    then* redraw_line s in Ret s
  else Ret s.
Definition key_down (s : shell) : prog shell :=
  if hist_index s <? hist_count s then
    let i := hist_index s + 1 in
    let s := set_hist_index i s in
    let s := if i =? hist_count s then set_line (put 0 0 (sh_line s)) 0 0 s else recall i s in
    then* redraw_line s in Ret s
  else Ret s.

Definition key_char (c : Z) (s : shell) : prog shell :=
  if (32 <=? c) && (c <? 127) && (line_len s <? LINE_MAX - 1) then
    let b := move_right (Z.to_nat (line_len s - line_pos s)) (line_len s - 1) 1 (sh_line s) in
    let b := put (line_pos s) c b in
    let pos := line_pos s + 1 in
    let len := line_len s + 1 in
    let s := set_line (put len 0 b) pos len s in
    then* (if pos =? len then putchar c else redraw_line s) in Ret s
  else Ret s.

(** ** Completion *)

Definition builtin_cmds : list (list Z) :=
  [str "cat"; str "cd"; str "clear"; str "cp"; str "date"; str "echo"; str "ed"; str "env"; str "exec"; str "export";
   str "grep"; str "help"; str "mkdir"; str "mv"; str "poweroff"; str "reboot"; str "rm"; str "rmdir";
   str "shutdown"; str "sh"; str "touch"; str "uname"; str "unset"; str "uptime"].

(** The last index of [c] in [l], -1 if there is none; [i] is that of the head. *)
Fixpoint last_index (c : Z) (l : list Z) (i last : Z) : Z :=
  match l with
  | [] => last
  | x :: rest => last_index c rest (i + 1) (if x =? c then i else last)
  end.

(** The commands that begin with [prefix], added to [ms]. *)
Fixpoint match_cmds (cmds : list (list Z)) (prefix : list Z) (ms : list (list Z)) : list (list Z) :=
  match cmds with
  | [] => ms
  | c :: rest =>
      if (MAX_COMPLETIONS <=? length ms)%nat then ms
      else match_cmds rest prefix (if prefixb prefix c then ms ++ [c] else ms)
  end.

(** The lines of a listing that begin with [prefix]; a round takes a line. *)
Fixpoint match_names (fuel : nat) (p prefix : list Z) (ms : list (list Z)) : list (list Z) :=
  match fuel with
  | O => ms
  | S f =>
      match p with
      | [] => ms
      | _ =>
          if (MAX_COMPLETIONS <=? length ms)%nat then ms
          else
            let '(name, rest) := word (length p) 10 p in
            let ms := match name with [] => ms | _ => if prefixb prefix name then ms ++ [name] else ms end in
            match_names f (tail rest) prefix ms
      end
  end.

(** The first index below [common] where the strings differ, else [common]. *)
Fixpoint agree (common : nat) (a b : list Z) : nat :=
  match common with
  | O => O
  | S n => if char_at a 0 =? char_at b 0 then S (agree n (tail a) (tail b)) else O
  end.
Fixpoint common_prefix (common : nat) (m : list Z) (ms : list (list Z)) : nat :=
  match ms with
  | [] => common
  | b :: rest => common_prefix (agree (if (length b <? common)%nat then length b else common) m b) m rest
  end.

(** The characters of [m] from [prefix_len] up to [common] go into the line. *)
Definition insert_rest (m : list Z) (common prefix_len : nat) (s : shell) : shell :=
  let add := Z.of_nat common - Z.of_nat prefix_len in
  if (0 <? add) && (line_len s + add <? LINE_MAX - 1) then
    let b := move_right (Z.to_nat (line_len s - line_pos s + 1)) (line_len s) add (sh_line s) in
    let b := take (Z.to_nat (line_pos s)) b ++ take (Z.to_nat add) (drop prefix_len m)
             ++ drop (Z.to_nat (line_pos s + add)) b in
    set_line (put (line_len s + add) 0 b) (line_pos s + add) (line_len s + add) s
  else s.

Fixpoint print_matches (ms : list (list Z)) : prog unit :=
  match ms with
  | [] => Ret tt
  | m :: rest => then* printf (str "%s  ") [AStr (Some m)] in print_matches rest
  end.

Definition show_matches (ms : list (list Z)) (s : shell) : prog unit :=
  call* cursor := get_cursor in
  then* set_cursor (Z.shiftr cursor 16) 0 in
  then* putchar 10 in
  then* print_matches ms in
  then* printf ([10] ++ str "some-tiny-os$ ") [] in
  then* putchars (take (Z.to_nat (line_len s)) (sh_line s)) in
  call* cursor := get_cursor in
  set_cursor (Z.shiftr cursor 16) (prompt_col s + line_pos s).

(** The directory and the prefix of the word at the cursor. *)
Definition completion_word (s : shell) : Z * list Z * list Z :=
  let head := take (Z.to_nat (line_pos s)) (sh_line s) in
  let token_start := last_index 32 head 0 (-1) + 1 in
  let last_sl := last_index 47 (drop (Z.to_nat token_start) head) token_start (-1) in
  if 0 <=? last_sl then
    (token_start, take (Z.to_nat (last_sl + 1)) head, drop (Z.to_nat (last_sl + 1)) head)
  else (token_start, [], drop (Z.to_nat token_start) head).

Definition tab_complete (s : shell) : prog shell :=
  let '(token_start, dir_path, file_prefix) := completion_word s in
  let ms := if token_start =? 0 then match_cmds builtin_cmds file_prefix [] else [] in
  call* '(n, list_buf) := ITree.trigger (Fill SYS_LS (Some dir_path) 400) in
  let n := i32 n in
  let p := cstr (take (Z.to_nat n) list_buf) in
  let ms := if 0 <? n then match_names (length p) p file_prefix ms else ms in
  match ms with
  | [] => Ret s
  | [m] =>
      let s := insert_rest m (length m) (length file_prefix) s in
      then* redraw_line s in Ret s
  | m :: rest =>
      let s := insert_rest m (common_prefix (length m) m rest) (length file_prefix) s in
      then* show_matches ms s in Ret s
  end.

(** ** Reading a line *)

Definition finish_line (s : shell) : prog (shell + shell) :=
  then* putchar 10 in Ret (inr (set_line (put (line_len s) 0 (sh_line s)) (line_pos s) (line_len s) s)).

(** One round: [inr] is the return. *)
Definition readline_round (s : shell) : prog (shell + shell) :=
  let next m := call* s := m in Ret (inl s) in
  call* c := getchar in
  call* got_sigint := ITree.trigger Flag in
  if got_sigint : bool then then* putchar 10 in Ret (inr (set_line (put 0 0 (sh_line s)) 0 0 s))
  else if c =? 10 then finish_line s
  else if c =? 8 then next (key_backspace s)
  else if c =? KEY_DELETE then next (key_delete s)
  else if c =? KEY_LEFT then next (key_left s)
  else if c =? KEY_RIGHT then next (key_right s)
  else if c =? KEY_HOME then next (key_jump 0 s)
  else if c =? KEY_END then next (key_jump (line_len s) s)
  else if c =? KEY_UP then next (key_up s)
  else if c =? KEY_DOWN then next (key_down s)
  else if c =? 9 then next (tab_complete s)
  else next (key_char c s).

Definition shell_readline (s : shell) : prog shell :=
  let s := set_hist_index (hist_count s) (set_line (put 0 0 (sh_line s)) 0 0 s) in
  then* ITree.trigger ClearFlag in
  call* cursor := get_cursor in
  ITree.iter readline_round (set_prompt_col (Z.land cursor 0xFFFF) s).

(** ** The commands *)

(** [printf(fmt "\n", arg)]. *)
Definition say_with (fmt arg : list Z) : prog unit := printf (fmt ++ [10]) [AStr (Some arg)].

Definition help_lines : list (list Z) :=
  [str "Available commands:"; str "  help"; str "  echo"; str "  clear"; str "  reboot"; str "  shutdown";
   str "  poweroff"; str "  cat"; str "  grep"; str "  uptime"; str "  date"; str "  mkdir"; str "  rmdir"; str "  rm";
   str "  cp"; str "  mv"; str "  cd"; str "  exec"; str "  touch"; str "  uname"; str "  ed"; str "  sh FILE";
   str "  export [KEY=VALUE]"; str "  unset KEY"; str "  env"].
Definition cmd_help : prog unit := say_all help_lines.

(** [cat] without a file: from standard input to standard output. *)
Definition copy_round (_ : unit) : prog (unit + unit) :=
  call* '(ret, c) := ITree.trigger (Read 0) in
  if ret <=? 0 then Ret (inr tt) else then* ITree.trigger (Write 1 [c]) in Ret (inl tt).
Definition cmd_cat (arg : list Z) : prog unit :=
  match skip 32 arg with
  | [] => ITree.iter copy_round tt
  | arg =>
      call* '(n, buf) := ITree.trigger (Fill SYS_CAT (Some arg) 256) in
      if i32 n <? 0 then say_with (str "cat: file not found: %s") arg
      else printf (str "%s") [AStr (Some (cstr (take (Z.to_nat (i32 n)) buf)))]
  end.

Definition cmd_echo (arg : list Z) : prog unit := say_with (str "%s") (skip 32 arg).

Definition cmd_uptime : prog unit :=
  call* ticks := sys SYS_TICKS [] in
  let sec := u64 ticks / 100 in
  let min := sec / 60 in
  let hr := min / 60 in
  let days := hr / 24 in
  printf (str "Up: %dd %dh %dm %ds" ++ [10]) [AInt (i32 days); AInt (hr mod 24); AInt (min mod 60); AInt (sec mod 60)].

Definition cmd_date : prog unit :=
  call* '(n, buf) := ITree.trigger (Fill SYS_DATETIME None 32) in
  if 0 <? i32 n then printf (str "%s") [AStr (Some (cstr (take (Z.to_nat (i32 n)) buf)))] else Ret tt.

Definition cmd_ls (arg : option (list Z)) : prog unit :=
  call* '(n, buf) := ITree.trigger (Fill SYS_LS arg 400) in
  if i32 n <? 0 then say (str "ls: no such directory")
  else printf (str "%s") [AStr (Some (cstr (take (Z.to_nat (i32 n)) buf)))].

(** [mkdir], [rmdir] and [rm]: one call on a path. *)
Definition cmd_path (name : list Z) (number : Z) (arg : list Z) : prog unit :=
  match skip 32 arg with
  | [] => say (name ++ str ": missing operand")
  | arg => call* r := sys_path number arg in if r <? 0 then say (name ++ str ": failed") else Ret tt
  end.
Definition cmd_mkdir : list Z -> prog unit := cmd_path (str "mkdir") SYS_MKDIR.
Definition cmd_rmdir : list Z -> prog unit := cmd_path (str "rmdir") SYS_RMDIR.
Definition cmd_rm : list Z -> prog unit := cmd_path (str "rm") SYS_RM.

Definition cmd_reboot : prog unit := then* say (str "Rebooting...") in then* sys SYS_REBOOT [Num 0] in Ret tt.

Fixpoint delay_digits (delay : Z) (p : list Z) : Z :=
  match p with
  | c :: rest => if (48 <=? c) && (c <=? 57) then delay_digits (u64 (delay * 10 + (c - 48))) rest else delay
  | [] => delay
  end.
Definition shut_down : prog unit := then* say (str "Shutting down...") in then* sys SYS_SHUTDOWN [Num 0] in Ret tt.
Definition cmd_shutdown (arg : list Z) : prog unit :=
  match skip 32 arg with
  | [] => shut_down
  | p =>
      let delay_ms := u64 (delay_digits 0 p * 1000) in
      then* (if 0 <? delay_ms then
               then* printf (str "Shutting down in %llu seconds..." ++ [10]) [AInt (i32 (delay_ms / 1000))] in
               then* sys SYS_SLEEP [Num delay_ms] in Ret tt
             else Ret tt) in
      shut_down
  end.

Definition cmd_cd (arg : list Z) : prog unit :=
  let path := match skip 32 arg with [] => str "/" | p => p end in
  call* r := sys SYS_CD [Num 0; Bytes path] in
  if r <? 0 then say (str "cd: no such directory") else Ret tt.

Definition cmd_grep (arg : list Z) : prog unit :=
  match skip 32 arg with
  | [] => say (str "grep: missing pattern")
  | arg => ITree.iter (grep_round (word 127 32 arg).1) tt
  end.

Definition cmd_exec (arg : list Z) : prog unit :=
  match skip 32 arg with
  | [] => say (str "exec: missing filename")
  | arg =>
      call* ret := sys_path SYS_EXEC (word (length arg) 32 arg).1 in
      if i32 ret <? 0 then say (str "exec: failed") else Ret tt
  end.

Fixpoint each_var (show : var -> prog unit) (vars : list var) : prog unit :=
  match vars with [] => Ret tt | v :: rest => then* show v in each_var show rest end.
Definition cmd_export (arg : list Z) (s : shell) : prog shell :=
  match skip 32 arg with
  | [] =>
      then* each_var (fun v => printf (str "declare -x %s=" ++ [34] ++ str "%s" ++ [34; 10])
                                 [AStr (Some v.1); AStr (Some v.2)]) (sh_env s) in
      Ret s
  | arg =>
      match index_of 61 arg with
      | None => then* say (str "export: usage: export KEY=VALUE") in Ret s
      | Some eq => env_set (take (ENV_KEY_MAX - 1) (take eq arg)) (drop (S eq) arg) s
      end
  end.
Definition cmd_unset (arg : list Z) (s : shell) : prog shell :=
  match skip 32 arg with
  | [] => then* say (str "unset: missing variable name") in Ret s
  | arg => env_unset arg s
  end.
Definition cmd_env_list (s : shell) : prog unit :=
  each_var (fun v => printf (str "%s=%s" ++ [10]) [AStr (Some v.1); AStr (Some v.2)]) (sh_env s).

(** [cp] and [mv]. *)
Definition cmd_two_paths (name : list Z) (number : Z) (arg : list Z) : prog unit :=
  match skip 32 arg with
  | [] => say (name ++ str ": missing file arguments")
  | args =>
      match index_of 32 args with
      | None => say (name ++ str ": missing destination")
      | Some i =>
          call* ret := sys number [Bytes (take i args); Bytes (skip 32 (drop (S i) args))] in
          if i32 ret <? 0 then say (name ++ str ": failed") else Ret tt
      end
  end.

Definition cmd_touch (arg : list Z) : prog unit :=
  match skip 32 arg with
  | [] => say (str "touch: missing file operand")
  | arg => then* sys_path SYS_TOUCH arg in Ret tt
  end.

(** [ed] runs in a child. *)
Definition cmd_ed : prog unit :=
  call* pid := sys SYS_FORK [] in
  let pid := i32 pid in
  then* (if pid =? 0 then
           then* sys_path SYS_EXEC (str "/bin/ed") in
           then* say (str "ed: not found") in
           then* sys SYS_EXIT [Num 127] in Ret tt
         else Ret tt) in
  then* sys SYS_WAITPID [Num (u64 pid)] in Ret tt.

(** The directories of PATH one after the other, then the name alone: each
    call that comes back has failed.  [dir] is the directory so far.  The
    buffer of the code for a full path has 320 bytes. *)
Fixpoint path_loop (dir rest name : list Z) : prog unit :=
  let try_dir := match dir with [] => Ret tt | _ => then* sys_path SYS_EXEC (dir ++ [47] ++ name) in Ret tt end in
  match rest with
  | [] => try_dir
  | c :: rest' => if c =? 58 then then* try_dir in path_loop [] rest' name else path_loop (dir ++ [c]) rest' name
  end.
Definition try_path_exec (cmd : list Z) (s : shell) : prog unit :=
  match env_get (str "PATH") (sh_env s) with
  | None => then* sys_path SYS_EXEC cmd in Ret tt
  | Some path =>
      then* path_loop [] (take 255 path) (word (length cmd) 32 cmd).1 in
      then* sys_path SYS_EXEC cmd in Ret tt
  end.

Section Execute.
(** The calls of [execute] inside. *)
Variable call : list Z -> bool -> shell -> prog shell.

(** [while (len > 0 && (buf[len - 1] == '\n' || buf[len - 1] == '\r')) buf[--len] = 0]. *)
Fixpoint drop_eol (s : list Z) : list Z :=
  match s with
  | x :: rest => if (x =? 10) || (x =? 13) then drop_eol rest else s
  | [] => []
  end.
Definition strip_eol (s : list Z) : list Z := rev (drop_eol (rev s)).

Fixpoint skip_blank (s : list Z) : list Z :=
  match s with
  | x :: rest => if (x =? 32) || (x =? 9) then skip_blank rest else s
  | [] => []
  end.

(** One line of the script in slot [i]. *)
Definition sh_round (i : nat) (s : shell) : prog (shell + shell) :=
  let f := default stdin_file (file_table (sh_files s) !! i) in
  let '(r, f) := fgets LINE_MAX f in
  let s := set_files (set_slot i f (sh_files s)) s in
  match r with
  | None => Ret (inr s)
  | Some buf =>
      let p := skip_blank (strip_eol (cstr buf)) in
      if (char_at p 0 =? 0) || (char_at p 0 =? 35) then Ret (inl s)
      else call* s := call p true s in Ret (inl s)
  end.
Definition cmd_sh (arg : list Z) (s : shell) : prog shell :=
  match skip 32 arg with
  | [] => then* say (str "sh: missing filename") in Ret s
  | arg =>
      call* '(r, t) := fopen (Some arg) (Some (str "r")) (sh_files s) in
      let s := set_files t s in
      match r with
      | None => then* say_with (str "sh: cannot open: %s") arg in Ret s
      | Some i =>
          call* s := ITree.iter (sh_round i) s in
          call* '(_, f) := fclose (default stdin_file (file_table (sh_files s) !! i)) in
          Ret (set_files (set_slot i f (sh_files s)) s)
      end
  end.

(** One side of a pipe: [end_] takes the place of descriptor [fd], the
    command runs, and the process ends. *)
Definition pipe_child (end_ fd : Z) (fds : Z * Z) (cmd : list Z) (s : shell) : prog shell :=
  then* sys SYS_DUP2 [Num end_; Num fd] in
  then* sys SYS_CLOSE [Num fds.1] in
  then* sys SYS_CLOSE [Num fds.2] in
  call* s := call cmd true s in
  then* sys SYS_EXIT [Num 0] in
  Ret s.

Definition cmd_pipe (left right : list Z) (s : shell) : prog shell :=
  match skip 32 left, skip 32 right with
  | (_ :: _) as left, (_ :: _) as right =>
      call* '(r, fds) := ITree.trigger SysPipe in
      if r <? 0 then then* say (str "pipe: failed to create pipe") in Ret s
      else
        call* pid1 := sys SYS_FORK [] in
        call* s := (if i32 pid1 =? 0 then pipe_child fds.2 1 fds left s else Ret s) in
        call* pid2 := sys SYS_FORK [] in
        call* s := (if i32 pid2 =? 0 then pipe_child fds.1 0 fds right s else Ret s) in
        then* sys SYS_CLOSE [Num fds.1] in
        then* sys SYS_CLOSE [Num fds.2] in
        then* sys SYS_WAITPID [Num (u64 (i32 pid1))] in
        then* sys SYS_WAITPID [Num (u64 (i32 pid2))] in
        Ret s
  | _, _ => then* say (str "pipe: missing command") in Ret s
  end.

(** A command that is not built in. *)
Definition run_program (cmd : list Z) (allow_exec : bool) (s : shell) : prog shell :=
  let name := (word (length cmd) 32 cmd).1 in
  match index_of 47 name with
  | Some _ =>
      call* pid := sys SYS_FORK [] in
      let pid := i32 pid in
      then* (if pid =? 0 then
               then* sys_path SYS_EXEC cmd in then* sys SYS_EXIT [Num 127] in Ret tt
             else Ret tt) in
      call* ret := sys SYS_WAITPID [Num (u64 pid)] in
      if i32 ret =? 127 then cmd_sh cmd s else Ret s
  | None =>
      then* (if allow_exec then try_path_exec name s else Ret tt) in
      then* say_with (str "unknown command: %s") cmd in
      Ret s
  end.

(** The chain of tests on the expanded command. *)
Definition run_command (cmd : list Z) (allow_exec : bool) (s : shell) : prog shell :=
  let same := streq cmd in
  let starts p := prefixb p cmd in
  let just m := then* (m : prog unit) in Ret s in
  if same (str "help") then just cmd_help
  else if same (str "clear") then just (then* sys SYS_CLEAR [] in Ret tt)
  else if same (str "uptime") then just cmd_uptime
  else if same (str "date") then just cmd_date
  else if same (str "reboot") then just cmd_reboot
  else if starts (str "shutdown ") then just (cmd_shutdown (drop 8 cmd))
  else if same (str "shutdown") || same (str "poweroff") || same (str "exit") then just (cmd_shutdown [])
  else if starts (str "echo ") then just (cmd_echo (drop 5 cmd))
  else if same (str "echo") then just (say [])
  else if starts (str "cat ") then just (cmd_cat (drop 4 cmd))
  else if same (str "cat") then just (cmd_cat [])
  else if starts (str "ls") then
    just (cmd_ls (if char_at cmd 2 =? 32 then Some (drop 3 cmd)
                  else if char_at cmd 2 =? 0 then None else Some (drop 2 cmd)))
  else if starts (str "mkdir ") then just (cmd_mkdir (drop 6 cmd))
  else if starts (str "rmdir ") then just (cmd_rmdir (drop 6 cmd))
  else if starts (str "rm ") then just (cmd_rm (drop 3 cmd))
  else if starts (str "cd ") then just (cmd_cd (drop 3 cmd))
  else if same (str "cd") then just (cmd_cd [])
  else if starts (str "grep ") then just (cmd_grep (drop 5 cmd))
  else if same (str "grep") then just (cmd_grep [])
  else if starts (str "exec ") then just (cmd_exec (drop 5 cmd))
  else if starts (str "cp ") then just (cmd_two_paths (str "cp") SYS_CP (drop 3 cmd))
  else if starts (str "mv ") then just (cmd_two_paths (str "mv") SYS_MV (drop 3 cmd))
  else if starts (str "touch ") then just (cmd_touch (drop 6 cmd))
  else if same (str "touch") then just (say (str "touch: missing file operand"))
  else if same (str "uname") then just (say (str "some-tiny-os some-tiny-os 0.4 x86_64 some-tiny-os"))
  else if starts (str "export") then cmd_export (drop 6 cmd) s
  else if starts (str "unset ") then cmd_unset (drop 6 cmd) s
  else if starts (str "sh ") then cmd_sh (drop 3 cmd) s
  else if same (str "sh") then cmd_sh [] s
  else if starts (str "ed") then just cmd_ed
  else if same (str "env") then just (cmd_env_list s)
  else run_program cmd allow_exec s.

Definition execute_body (cmd : list Z) (allow_exec : bool) (s : shell) : prog shell :=
  match skip 32 cmd with
  | [] => Ret s
  | cmd =>
      let cmd := expand_env (sh_env s) cmd (Z.to_nat LINE_MAX) in
      match index_of 124 cmd with
      | Some i => cmd_pipe (take i cmd) (drop (S i) cmd) s
      | None => run_command cmd allow_exec s
      end
  end.

End Execute.

Fixpoint execute (depth : nat) (cmd : list Z) (allow_exec : bool) (s : shell) : prog shell :=
  match depth with
  | O => ITree.spin
  | S d => execute_body (execute d) cmd allow_exec s
  end.

Definition main_round (depth : nat) (s : shell) : prog (shell + Z) :=
  then* printf (str "some-tiny-os$ ") [] in
  call* s := shell_readline s in
  let line := cstr (sh_line s) in
  let s := if char_at (sh_line s) 0 =? 0 then s else history_add line s in
  call* s := execute depth line false s in
  Ret (inl s).

(** [trampoline] and [handler]: the addresses of [signal_trampoline] and
    [sigint_handler]. *)
Definition main (depth : nat) (trampoline handler : Z) : prog Z :=
  call* '(_, hs) := signal trampoline 2 handler (sh_handlers shell_zero) in
  call* s := history_load (set_handlers hs shell_zero) in
  call* s := env_load s in
  then* say (str "Welcome to some-tiny-os!") in
  then* printf (str "Type 'help' for commands" ++ [10; 10]) [] in
  ITree.iter (main_round depth) s.
