(* ===== verification/ShellProps.v ===== *)
(** * The user shell: properties

    Reading a line is editing a text with a cursor; the history is a log of
    which the last 64 entries are kept; the environment is a list of
    variables that is saved and loaded; expansion replaces variables in a
    text; a pipe's three processes make their calls in the order that lets
    both ends be closed. *)

From S2P Require Import Prelude.
From S2P Require Import LibcStdio.
From S2P Require Import User.
From S2P Require Import LibcFile.
From S2P Require Import Shell.

(** A world with something typed and an empty disk. *)
Definition world_in (input : list Z) : world := World input [] ∅ 8 0x510010 [] [].

(** ** Calls that leave standard input and the files alone

    [gives m Q]: from every world [m] comes to an end with a result in [Q],
    and standard input and the files are what they were. *)

Definition untouched (w w' : world) : Prop := w_in w' = w_in w /\ w_files w' = w_files w.

Definition gives {A} (m : prog A) (Q : A -> Prop) : Prop :=
  forall w, exists a w', plays m w a w' /\ untouched w w' /\ Q a.

Lemma gives_ret {A} (a : A) (Q : A -> Prop) : Q a -> gives (Ret a) Q.
Proof. intros HQ w. exists a, w. split; [apply runs_ret|by split]. Qed.

Lemma gives_bind {A B} (m : prog A) (k : A -> prog B) P Q :
  gives m P -> (forall a, P a -> gives (k a) Q) -> gives (ITree.bind m k) Q.
Proof.
  intros Hm Hk w. destruct (Hm w) as (a & w1 & R1 & [I1 F1] & Pa).
  destruct (Hk a Pa w1) as (b & w2 & R2 & [I2 F2] & Qb).
  exists b, w2. split; [by eapply runs_bind|]. split; [split; congruence|done].
Qed.

Lemma gives_then {A B} (m : prog A) (k : prog B) Q :
  gives m (fun _ => True) -> gives k Q -> gives (ITree.bind m (fun _ => k)) Q.
Proof. intros Hm Hk. eapply gives_bind; [exact Hm|by intros a _]. Qed.

Lemma gives_write fd bs : gives (ITree.trigger (Write fd bs)) (fun _ => True).
Proof. intros w. eexists _, _. split; [apply plays_write|done]. Qed.

Lemma gives_putchar c : gives (putchar c) (fun _ => True).
Proof. apply gives_then; [apply gives_write|by apply gives_ret]. Qed.

Lemma gives_putchars s : gives (putchars s) (fun _ => True).
Proof.
  induction s as [|c s IH]; cbn [putchars]; [by apply gives_ret|]. apply gives_then; [apply gives_putchar|exact IH].
Qed.

Lemma gives_get_cursor : gives get_cursor (fun _ => True).
Proof.
  apply (gives_bind _ _ (fun _ => True)); [|intros a _; by apply gives_ret]. intros w. eexists _, _.
  split; [exact (runs_trigger answer (Sys SYS_GET_CURSOR []) w)|done].
Qed.

Lemma gives_set_cursor row col : gives (set_cursor row col) (fun _ => True).
Proof.
  apply gives_then; [|by apply gives_ret]. intros w. eexists _, _.
  split; [exact (runs_trigger answer (Sys SYS_SET_CURSOR [Num (u64 row); Num (u64 col)]) w)|done].
Qed.

Lemma gives_done {A} (a : A) : gives (Ret a) (fun _ => True).
Proof. by apply gives_ret. Qed.

#[local] Hint Resolve gives_done gives_write gives_putchar gives_putchars gives_get_cursor gives_set_cursor : core.

Lemma gives_redraw s : gives (redraw_line s) (fun _ => True).
Proof. apply (gives_bind _ _ (fun _ => True)); [auto|]. intros c _. repeat (apply gives_then; [solve [auto]|]). auto. Qed.

Lemma gives_rubout : gives rubout (fun _ => True).
Proof. repeat (apply gives_then; [solve [auto]|]). auto. Qed.

Lemma gives_move_cursor by_ : gives (move_cursor by_) (fun _ => True).
Proof. apply (gives_bind _ _ (fun _ => True)); auto. Qed.

#[local] Hint Resolve gives_redraw gives_rubout gives_move_cursor : core.

(** What is drawn, and then a result. *)
Lemma gives_drawn {A} (m : prog unit) (a : A) : gives m (fun _ => True) -> gives (then* m in Ret a) (eq a).
Proof. intros Hm. apply gives_then; [exact Hm|by apply gives_ret]. Qed.

(** ** Shifting in the array *)

Lemma at_app l x t : at_ (l ++ x :: t) (Z.of_nat (length l)) = x.
Proof. unfold at_. by rewrite Nat2Z.id, list_lookup_middle. Qed.

Lemma put_app l x y t : put (Z.of_nat (length l)) y (l ++ x :: t) = l ++ y :: t.
Proof.
  unfold put. rewrite length_app. cbn [length].
  rewrite (proj2 (Z.leb_le _ _)), (proj2 (Z.ltb_lt _ _)) by lia. cbn [andb].
  by rewrite Nat2Z.id, insert_app_r_alt, Nat.sub_diag by lia.
Qed.

Lemma move_left_spec r : forall l c t, exists x,
  move_left (length r) (Z.of_nat (length l)) (l ++ c :: r ++ t) = l ++ r ++ x :: t.
Proof.
  induction r as [|d r IH]; intros l c t; [by exists c|]. cbn [length move_left app].
  assert (Hat : at_ (l ++ c :: d :: r ++ t) (Z.of_nat (length l) + 1) = d).
  { replace (Z.of_nat (length l) + 1) with (Z.of_nat (length (l ++ [c]))) by (rewrite length_app; cbn [length]; lia).
    replace (l ++ c :: d :: r ++ t) with ((l ++ [c]) ++ d :: r ++ t) by (by rewrite <- app_assoc). apply at_app. }
  rewrite Hat, put_app. destruct (IH (l ++ [d]) d t) as [x Hx]. exists x.
  rewrite length_app, <- !app_assoc in Hx. cbn [length app] in Hx. rewrite <- Hx. f_equal. lia.
Qed.

(** The block [r] moves to the right by the length of [u]. *)
Lemma move_right_spec r : forall l u t, u <> [] -> exists v, length v = length u
  /\ move_right (length r) (Z.of_nat (length (l ++ r)) - 1) (Z.of_nat (length u)) (l ++ r ++ u ++ t) = l ++ v ++ r ++ t.
Proof.
  induction r as [|d r IH] using rev_ind; intros l u t Hu; [by exists u|].
  rewrite length_app, Nat.add_1_r. cbn [move_right].
  set (i := Z.of_nat (length (l ++ r ++ [d])) - 1).
  assert (Hi : i = Z.of_nat (length (l ++ r))) by (unfold i; rewrite !length_app; cbn [length]; lia).
  assert (Hat : at_ (l ++ (r ++ [d]) ++ u ++ t) i = d).
  { rewrite Hi. replace (l ++ (r ++ [d]) ++ u ++ t) with ((l ++ r) ++ d :: u ++ t) by (by rewrite <- !app_assoc).
    apply at_app. }
  rewrite Hat. destruct (exists_last Hu) as (u0 & y & Eu). set (u' := d :: u0).
  assert (Hput : put (i + Z.of_nat (length u)) d (l ++ (r ++ [d]) ++ u ++ t) = l ++ r ++ u' ++ d :: t).
  { replace (i + Z.of_nat (length u)) with (Z.of_nat (length (l ++ r ++ u')))
      by (rewrite Hi, Eu; unfold u'; rewrite !length_app; cbn [length]; lia).
    replace (l ++ (r ++ [d]) ++ u ++ t) with ((l ++ r ++ u') ++ y :: t)
      by (unfold u'; rewrite Eu, <- !app_assoc; by cbn [app]).
    rewrite put_app, <- !app_assoc. done. }
  rewrite Hput. assert (Hlen : length u' = length u) by (unfold u'; rewrite Eu, length_app; cbn [length]; lia).
  destruct (IH l u' (d :: t)) as (v & Hv & Hm); [done|]. exists v. split; [congruence|].
  rewrite Hlen in Hm. rewrite Hi, Hm. by rewrite <- !app_assoc.
Qed.

(** ** The line as a text with a cursor *)

(** What is before the cursor, what is after it, and the index of the history
    entry that was brought back last. *)
Record cursor_text := CursorText { before : list Z; after : list Z; recalled : Z }.

(** The array, [line_pos], [line_len] and [hist_index] for such a text. *)
Record edits (s : shell) (t : cursor_text) : Prop := {
  ed_line : exists tl, sh_line s = before t ++ after t ++ 0 :: tl;
  ed_size : length (sh_line s) = 256%nat;
  ed_pos : line_pos s = Z.of_nat (length (before t));
  ed_len : line_len s = Z.of_nat (length (before t ++ after t));
  ed_chars : cstr_ok (before t ++ after t);
  ed_index : hist_index s = recalled t;
  ed_range : 0 <= recalled t <= hist_count s
}.

(** What a key does to the text. *)
Definition edit (hist : Z -> list Z) (count c : Z) (t : cursor_text) : cursor_text :=
  let '(CursorText l r i) := t in
  if c =? 8 then CursorText (removelast l) r i
  else if c =? KEY_DELETE then CursorText l (tail r) i
  else if c =? KEY_LEFT then match last l with None => t | Some x => CursorText (removelast l) (x :: r) i end
  else if c =? KEY_RIGHT then match r with [] => t | x :: r' => CursorText (l ++ [x]) r' i end
  else if c =? KEY_HOME then CursorText [] (l ++ r) i
  else if c =? KEY_END then CursorText (l ++ r) [] i
  else if c =? KEY_UP then if 0 <? i then CursorText (hist (i - 1)) [] (i - 1) else t
  else if c =? KEY_DOWN then
    if i <? count then CursorText (if i + 1 =? count then [] else hist (i + 1)) [] (i + 1) else t
  else if (32 <=? c) && (c <? 127) && (Z.of_nat (length (l ++ r)) <? 255) then CursorText (l ++ [c]) r i
  else t.

(** The history holds strings that fit a line. *)
Definition hist_ok (s : shell) : Prop := Forall (fun h => cstr_ok h /\ (length h <= 255)%nat) (hist_buf s).

Definition same_rest (s s' : shell) : Prop :=
  hist_buf s' = hist_buf s /\ hist_count s' = hist_count s /\ sh_env s' = sh_env s /\ sh_files s' = sh_files s.

(** The outcome of a key: the text is [t], the rest of the state as in [s]. *)
Definition edited (s : shell) (t : cursor_text) (s' : shell) : Prop := edits s' t /\ same_rest s s'.

Lemma edited_refl s t : edits s t -> edited s t s.
Proof. by split. Qed.

(** A new line, given by its parts. *)
Lemma edited_line s b pos len l r tl :
  0 <= hist_index s <= hist_count s ->
  b = l ++ r ++ 0 :: tl -> length b = 256%nat -> pos = Z.of_nat (length l) -> len = Z.of_nat (length (l ++ r)) ->
  cstr_ok (l ++ r) -> edited s (CursorText l r (hist_index s)) (set_line b pos len s).
Proof. intros Hi -> Hb -> -> Hc. split; [|done]. split; cbn; eauto. Qed.

Lemma gives_edited (m : prog unit) s t s' :
  gives m (fun _ => True) -> edited s t s' -> gives (then* m in Ret s') (edited s t).
Proof. intros Hm Hs. apply gives_then; [exact Hm|by apply gives_ret]. Qed.

Lemma edits_index s l r i : edits s (CursorText l r i) -> hist_index s = i /\ 0 <= hist_index s <= hist_count s.
Proof. intros E. pose proof (ed_index _ _ E) as Hi. pose proof (ed_range _ _ E) as Hr. cbn in *. by rewrite Hi. Qed.

Ltac len := repeat (progress (cbn [length app] in *; rewrite ?length_app in * )); lia.

Ltac unpack E :=
  let tl := fresh "tl" in
  pose proof (edits_index _ _ _ _ E) as [Hi Hr];
  pose proof E as [[tl Hl] Hsize Hpos Hlen Hc _ _]; cbn [before after recalled] in Hl, Hpos, Hlen, Hc.

Lemma key_backspace_edits s l r i :
  edits s (CursorText l r i) -> gives (key_backspace s) (edited s (CursorText (removelast l) r i)).
Proof.
  intros E. unpack E.
  unfold key_backspace. destruct l as [|x l0 _] using rev_ind.
  - rewrite Hpos. change (0 <? Z.of_nat (length [])) with false. apply gives_ret, edited_refl. exact E.
  - rewrite removelast_last, length_app in *. cbn [length] in Hpos. destruct (Z.ltb_spec 0 (line_pos s)); [|lia].
    rewrite <- !app_assoc in Hl. cbn [app] in Hl.
    destruct (move_left_spec r l0 x (0 :: tl)) as [y Hy].
    assert (Hb : put (line_len s - 1) 0 (move_left (Z.to_nat (line_len s - 1 - (line_pos s - 1))) (line_pos s - 1) (sh_line s))
      = l0 ++ r ++ 0 :: 0 :: tl).
    { rewrite !length_app in Hlen. cbn [length] in Hlen.
      replace (Z.to_nat (line_len s - 1 - (line_pos s - 1))) with (length r) by lia.
      replace (line_pos s - 1) with (Z.of_nat (length l0)) by lia. rewrite Hl, Hy.
      replace (line_len s - 1) with (Z.of_nat (length (l0 ++ r))) by (rewrite length_app; lia).
      rewrite app_assoc, put_app. by rewrite <- app_assoc. }
    rewrite Hb, <- Hi. apply gives_edited; [by destruct (_ =? _); auto|].
    apply (edited_line _ _ _ _ _ _ (0 :: tl)); [done|done| |lia| |].
    + rewrite <- Hsize, Hl. len.
    + clear -Hlen. len.
    + unfold cstr_ok in *. rewrite !Forall_app in *. tauto.
Qed.

Lemma key_delete_edits s l r i :
  edits s (CursorText l r i) -> gives (key_delete s) (edited s (CursorText l (tail r) i)).
Proof.
  intros E. unpack E.
  unfold key_delete. rewrite length_app in Hlen. destruct r as [|x r0]; cbn [tail length] in *.
  - destruct (Z.ltb_spec (line_pos s) (line_len s)); [lia|]. apply gives_ret, edited_refl. exact E.
  - destruct (Z.ltb_spec (line_pos s) (line_len s)); [|lia].
    destruct (move_left_spec r0 l x (0 :: tl)) as [y Hy].
    assert (Hb : put (line_len s - 1) 0 (move_left (Z.to_nat (line_len s - 1 - line_pos s)) (line_pos s) (sh_line s))
      = l ++ r0 ++ 0 :: 0 :: tl).
    { replace (Z.to_nat (line_len s - 1 - line_pos s)) with (length r0) by lia.
      rewrite Hpos, Hl. cbn [app]. rewrite Hy.
      replace (line_len s - 1) with (Z.of_nat (length (l ++ r0))) by (rewrite length_app; lia).
      rewrite app_assoc, put_app. by rewrite <- app_assoc. }
    rewrite Hb, <- Hi. apply gives_edited; [auto|].
    apply (edited_line _ _ _ _ _ _ (0 :: tl)); [done|done| |lia| |].
    + rewrite <- Hsize, Hl. len.
    + len.
    + unfold cstr_ok in *. rewrite Forall_app in *. rewrite Forall_cons in Hc. tauto.
Qed.

Lemma key_char_edits c s l r i :
  edits s (CursorText l r i) ->
  32 <= c < 127 -> Z.of_nat (length (l ++ r)) < 255 -> gives (key_char c s) (edited s (CursorText (l ++ [c]) r i)).
Proof.
  intros E Hch Hroom. unpack E.
  unfold key_char. change (LINE_MAX - 1) with 255.
  destruct (Z.leb_spec 32 c), (Z.ltb_spec c 127), (Z.ltb_spec (line_len s) 255); try lia. cbn [andb].
  destruct tl as [|y tl]; [rewrite Hl, !length_app in Hsize; rewrite length_app in Hroom; cbn [length] in Hsize; lia|].
  destruct (move_right_spec r l [0] (y :: tl)) as ([|z [|? ?]] & Hv & Hm); [done|done| |done].
  assert (Hb : put (line_len s + 1) 0 (put (line_pos s) c
      (move_right (Z.to_nat (line_len s - line_pos s)) (line_len s - 1) 1 (sh_line s))) = (l ++ [c]) ++ r ++ 0 :: tl).
  { replace (Z.to_nat (line_len s - line_pos s)) with (length r) by (rewrite length_app in Hlen; lia).
    rewrite Hl, Hlen. change (Z.of_nat (length [0])) with 1 in Hm. cbn [app] in Hm |- *.
    rewrite Hm, Hpos, put_app.
    replace (Z.of_nat (length (l ++ r)) + 1) with (Z.of_nat (length ((l ++ [c]) ++ r)))
      by (rewrite !length_app; cbn [length]; lia).
    replace (l ++ c :: r ++ y :: tl) with (((l ++ [c]) ++ r) ++ y :: tl) by (by rewrite <- !app_assoc).
    rewrite put_app. by rewrite <- !app_assoc. }
  rewrite Hb, <- Hi. apply gives_edited; [by destruct (_ =? _); auto|].
  apply (edited_line _ _ _ _ _ _ tl); [done|done| | | |].
  - rewrite <- Hsize, Hl. len.
  - len.
  - len.
  - unfold cstr_ok in *. rewrite !Forall_app in *. split; [|tauto]. split; [tauto|]. apply Forall_singleton. lia.
Qed.


(** Moving the cursor: the array stays, the text is split elsewhere. *)
Lemma moved_edits s l r l' r' i pos :
  edits s (CursorText l r i) -> l' ++ r' = l ++ r -> pos = Z.of_nat (length l') ->
  edited s (CursorText l' r' i) (set_line (sh_line s) pos (line_len s) s).
Proof.
  intros E Heq ->. unpack E. rewrite <- Hi. apply (edited_line _ _ _ _ _ _ tl); [done| |done|done| |].
  - rewrite Hl, !(app_assoc _ _ (0 :: tl)). by rewrite Heq.
  - by rewrite Heq.
  - by rewrite Heq.
Qed.

Lemma key_left_edits s l r i :
  edits s (CursorText l r i) ->
  gives (key_left s) (edited s (match last l with None => CursorText l r i | Some x => CursorText (removelast l) (x :: r) i end)).
Proof.
  intros E. unpack E. unfold key_left. destruct l as [|x l0 _] using rev_ind.
  - rewrite Hpos. apply gives_ret, edited_refl. exact E.
  - rewrite last_snoc, removelast_last. destruct (Z.ltb_spec 0 (line_pos s)); [|len].
    apply gives_edited; [auto|]. apply (moved_edits _ _ _ _ _ _ _ E); [by rewrite <- app_assoc|len].
Qed.

Lemma key_right_edits s l r i :
  edits s (CursorText l r i) ->
  gives (key_right s) (edited s (match r with [] => CursorText l r i | x :: r' => CursorText (l ++ [x]) r' i end)).
Proof.
  intros E. unpack E. unfold key_right. destruct r as [|x r].
  - destruct (Z.ltb_spec (line_pos s) (line_len s)); [len|]. apply gives_ret, edited_refl. exact E.
  - destruct (Z.ltb_spec (line_pos s) (line_len s)); [|len].
    apply gives_edited; [auto|]. apply (moved_edits _ _ _ _ _ _ _ E); [by rewrite <- app_assoc|len].
Qed.

Lemma key_jump_edits s l r l' r' i pos :
  edits s (CursorText l r i) -> l' ++ r' = l ++ r -> pos = Z.of_nat (length l') ->
  gives (key_jump pos s) (edited s (CursorText l' r' i)).
Proof. intros E Heq Hp. apply gives_edited; [auto|]. by apply (moved_edits _ l r). Qed.

(** An entry of the history as the line. *)
Lemma recall_edits s h i :
  hist_at s i = h -> cstr_ok h -> (length h <= 255)%nat -> 0 <= hist_index s <= hist_count s ->
  edited s (CursorText h [] (hist_index s)) (recall i s).
Proof.
  intros Hh Hc Hlen Hr. unfold recall. rewrite Hh.
  set (tl := replicate (254 - length h) 0 ++ [0]).
  assert (Hb : take 255 (h ++ replicate 255 0) ++ [0] = h ++ [] ++ (if decide (length h = 255%nat) then [0] else 0 :: tl)).
  { rewrite take_app, (take_ge h) by lia. rewrite take_replicate, <- app_assoc. cbn [app]. f_equal.
    unfold tl. destruct (decide _) as [->|]; [done|].
    match goal with |- replicate ?n 0 ++ _ = _ => replace n with (S (254 - length h)) by lia end. done. }
  assert (Hcs : cstr (take 255 (h ++ replicate 255 0) ++ [0]) = h).
  { rewrite Hb. destruct (decide _); by apply cstr_app_0. }
  rewrite Hcs, Hb.
  apply (edited_line _ _ _ _ _ _ (if decide (length h = 255%nat) then [] else tl)); [done|by destruct (decide _)| |done| |].
  - unfold tl. destruct (decide _); rewrite ?length_app; cbn [length]; rewrite ?length_app, ?length_replicate; cbn [length]; lia.
  - by rewrite app_nil_r.
  - by rewrite app_nil_r.
Qed.

Lemma hist_at_ok s i : hist_ok s -> cstr_ok (hist_at s i) /\ (length (hist_at s i) <= 255)%nat.
Proof.
  intros Hh. unfold hist_at. destruct (hist_buf s !! _) as [h|] eqn:Eh; cbn; [|split; [constructor|lia]].
  exact (proj1 (Forall_lookup _ _) Hh _ _ Eh).
Qed.

Lemma edited_trans s s1 t s' : same_rest s s1 -> edited s1 t s' -> edited s t s'.
Proof. intros (A1 & A2 & A3 & A4) [E (B1 & B2 & B3 & B4)]. split; [done|]. split_and!; congruence. Qed.

Lemma key_up_edits s l r i :
  edits s (CursorText l r i) -> hist_ok s ->
  gives (key_up s) (edited s (if 0 <? i then CursorText (hist_at s (i - 1)) [] (i - 1) else CursorText l r i)).
Proof.
  intros E Hh. unpack E. unfold key_up. rewrite Hi in *. destruct (Z.ltb_spec 0 i).
  - destruct (Z.ltb_spec 0 (hist_count s)); [|lia]. cbn [andb]. apply gives_edited; [auto|].
    destruct (hist_at_ok s (i - 1) Hh). apply (edited_trans _ (set_hist_index (i - 1) s)); [done|].
    apply (recall_edits (set_hist_index (i - 1) s)); [done|done|done|cbn; lia].
  - rewrite andb_false_r. by apply gives_ret, edited_refl.
Qed.

Lemma key_down_edits s l r i :
  edits s (CursorText l r i) -> hist_ok s ->
  gives (key_down s) (edited s (if i <? hist_count s
    then CursorText (if i + 1 =? hist_count s then [] else hist_at s (i + 1)) [] (i + 1) else CursorText l r i)).
Proof.
  intros E Hh. unpack E. unfold key_down. rewrite Hi in *. destruct (Z.ltb_spec i (hist_count s)); [|by apply gives_ret, edited_refl].
  apply gives_edited; [auto|]. apply (edited_trans _ (set_hist_index (i + 1) s)); [done|].
  change (hist_count (set_hist_index (i + 1) s)) with (hist_count s).
  destruct (Z.eqb_spec (i + 1) (hist_count s)).
  - destruct (sh_line s) as [|x b] eqn:Eb; [done|].
    apply (edited_line (set_hist_index (i + 1) s) _ _ _ [] [] b); [cbn; lia| | |done|done|constructor].
    + cbn [sh_line set_hist_index set_hist]. rewrite Eb. exact (put_app [] x 0 b).
    + cbn [sh_line set_hist_index set_hist]. rewrite Eb.
      transitivity (length (0 :: b)); [f_equal; exact (put_app [] x 0 b)|done].
  - destruct (hist_at_ok s (i + 1) Hh). apply (recall_edits (set_hist_index (i + 1) s)); [done|done|done|cbn; lia].
Qed.

Lemma plays_getchar c rest w : w_in w = c :: rest -> 0 <= c < 256 -> plays getchar w c (set_in rest w).
Proof.
  intros Hin Hc. eapply runs_bind; [by apply plays_read|]. cbn beta iota. change (1 <=? 0) with false. cbn iota.
  unfold u8. rewrite Z.mod_small by lia. apply runs_ret.
Qed.

(** One key that is neither a newline nor a tab. *)
Lemma round_edits c rest s t w :
  edits s t -> hist_ok s -> 0 <= c < 256 -> c <> 10 -> c <> 9 -> w_in w = c :: rest ->
  exists s' w', plays (readline_round s) w (inl s') w' /\ w_in w' = rest
    /\ edited s (edit (hist_at s) (hist_count s) c t) s'.
Proof.
  intros E Hh Hc H10 H9 Hin. destruct t as [l r i]. cbn [edit].
  set (t' := if c =? 8 then _ else _).
  assert (Hkey : forall m : prog shell, gives m (edited s t') -> exists s' w',
    plays (call* s1 := m in Ret (inl s1 : shell + shell)) (set_in rest w) (inl s') w' /\ w_in w' = rest /\ edited s t' s').
  { intros m Hm. destruct (Hm (set_in rest w)) as (s' & w' & R & [In _] & Es). exists s', w'.
    split; [eapply runs_bind; [exact R|apply runs_ret]|]. by split. }
  unfold readline_round.
  enough (Hm : exists s' w', plays (if c =? 10 then finish_line s
    else if c =? 8 then call* s := key_backspace s in Ret (inl s)
    else if c =? KEY_DELETE then call* s := key_delete s in Ret (inl s)
    else if c =? KEY_LEFT then call* s := key_left s in Ret (inl s)
    else if c =? KEY_RIGHT then call* s := key_right s in Ret (inl s)
    else if c =? KEY_HOME then call* s := key_jump 0 s in Ret (inl s)
    else if c =? KEY_END then call* s := key_jump (line_len s) s in Ret (inl s)
    else if c =? KEY_UP then call* s := key_up s in Ret (inl s)
    else if c =? KEY_DOWN then call* s := key_down s in Ret (inl s)
    else if c =? 9 then call* s := tab_complete s in Ret (inl s)
    else call* s := key_char c s in Ret (inl s)) (set_in rest w) (inl s') w' /\ w_in w' = rest /\ edited s t' s').
  { destruct Hm as (s' & w' & R & In & Es). exists s', w'. split; [|by split].
    eapply runs_bind; [by apply plays_getchar|]. eapply runs_bind; [exact (runs_trigger answer Flag _)|]. exact R. }
  destruct (Z.eqb_spec c 10); [done|]. unfold t' in *.
  destruct (c =? 8); [by apply Hkey, key_backspace_edits|].
  destruct (c =? KEY_DELETE); [by apply Hkey, key_delete_edits|].
  destruct (c =? KEY_LEFT); [by apply Hkey, key_left_edits|].
  destruct (c =? KEY_RIGHT); [by apply Hkey, key_right_edits|].
  destruct (c =? KEY_HOME); [by apply Hkey, (key_jump_edits _ l r)|].
  destruct (c =? KEY_END).
  { apply Hkey, (key_jump_edits _ l r); [done|by rewrite app_nil_r|exact (ed_len _ _ E)]. }
  destruct (c =? KEY_UP); [by apply Hkey, key_up_edits|].
  destruct (c =? KEY_DOWN); [by apply Hkey, key_down_edits|].
  destruct (Z.eqb_spec c 9); [done|]. apply Hkey.
  destruct (Z.leb_spec 32 c), (Z.ltb_spec c 127), (Z.ltb_spec (Z.of_nat (length (l ++ r))) 255);
    cbn [andb]; try (by apply key_char_edits);
    unfold key_char; change (LINE_MAX - 1) with 255; pose proof (ed_len _ _ E) as Hlen; cbn in Hlen; rewrite Hlen;
    destruct (Z.leb_spec 32 c), (Z.ltb_spec c 127), (Z.ltb_spec (Z.of_nat (length (l ++ r))) 255); try lia;
    cbn [andb]; by apply gives_ret, edited_refl.
Qed.

(** A key of the line editor. *)
Definition edit_key (c : Z) : Prop := 0 <= c < 256 /\ c <> 10 /\ c <> 9.
#[export] Instance edit_key_dec c : Decision (edit_key c).
Proof. unfold edit_key. apply _. Defined.

Lemma keys_edit keys rest : Forall edit_key keys -> forall s t w,
  edits s t -> hist_ok s -> w_in w = keys ++ 10 :: rest ->
  exists s' w', plays (ITree.iter readline_round s) w s' w' /\ w_in w' = rest
    /\ edited s (foldl (fun t c => edit (hist_at s) (hist_count s) c t) t keys) s'.
Proof.
  induction 1 as [|c keys (Hc & H10 & H9) Hkeys IH]; intros s t w E Hh Hin; cbn [foldl app] in *.
  - destruct t as [l r i]. unpack E. exists s. eexists. split; [|split; [|by apply edited_refl]].
    + apply runs_iter_done. unfold readline_round.
      eapply runs_bind; [apply plays_getchar; [exact Hin|lia]|]. eapply runs_bind; [exact (runs_trigger answer Flag _)|].
      cbn [answer fst snd]. change (10 =? 10) with true. cbn iota.
      eapply runs_bind; [eapply runs_bind; [apply plays_write|apply runs_ret]|].
      replace (set_line (put (line_len s) 0 (sh_line s)) (line_pos s) (line_len s) s) with s; [apply runs_ret|].
      rewrite Hlen, Hl, app_assoc, put_app, <- app_assoc, <- Hl, <- Hlen. by destruct s.
    + done.
  - destruct (round_edits c (keys ++ 10 :: rest) s t w E Hh Hc H10 H9 Hin) as (s1 & w1 & R1 & In1 & E1 & S1).
    pose proof S1 as (B1 & C1 & _). assert (Hh1 : hist_ok s1) by (unfold hist_ok; by rewrite B1).
    destruct (IH s1 _ w1 E1 Hh1 In1) as (s' & w' & R & In & Es).
    exists s', w'. split; [by eapply runs_iter_more|]. split; [done|]. apply (edited_trans _ s1); [done|].
    unfold hist_at in Es |- *. rewrite B1, C1 in Es. exact Es.
Qed.

Definition typed_text (s : shell) (keys : list Z) : cursor_text :=
  foldl (fun t c => edit (hist_at s) (hist_count s) c t) (CursorText [] [] (hist_count s)) keys.

Lemma readline_edits s keys rest w :
  length (sh_line s) = 256%nat -> hist_ok s -> 0 <= hist_count s -> Forall edit_key keys -> w_in w = keys ++ 10 :: rest ->
  exists s' w', plays (shell_readline s) w s' w' /\ w_in w' = rest /\ edited s (typed_text s keys) s'.
Proof.
  intros Hsize Hh Hcount Hkeys Hin. unfold shell_readline.
  set (s0 := set_hist_index (hist_count s) (set_line (put 0 0 (sh_line s)) 0 0 s)).
  destruct (gives_get_cursor w) as (cur & w1 & R1 & [In1 _] & _). set (s1 := set_prompt_col (Z.land cur 0xFFFF) s0).
  assert (E1 : edits s1 (CursorText [] [] (hist_count s))).
  { destruct (sh_line s) as [|x b] eqn:Eb; [done|].
    assert (Hb : sh_line s1 = 0 :: b) by (cbn [s1 s0 sh_line set_prompt_col set_hist_index set_hist set_line]; rewrite ?Eb; exact (put_app [] x 0 b)).
    split; cbn [before after recalled app]; [by exists b|by rewrite Hb|done|done|constructor|done|].
    change (hist_count s1) with (hist_count s). lia. }
  destruct (keys_edit keys rest Hkeys s1 _ w1 E1 Hh) as (s' & w' & R & In & Es); [congruence|].
  exists s', w'. split; [|split; [done|by apply (edited_trans _ s1)]].
  eapply runs_bind; [exact (runs_trigger answer ClearFlag w)|]. cbn [answer fst snd].
  eapply runs_bind; [exact R1|exact R].
Qed.

Lemma edits_string s t : edits s t -> cstr (sh_line s) = before t ++ after t /\ (length (before t ++ after t) <= 255)%nat.
Proof.
  intros [[tl Hl] Hsize _ _ Hc _ _]. rewrite Hl, app_assoc. split; [by apply cstr_app_0|].
  rewrite Hl, app_assoc, length_app in Hsize. cbn [length] in Hsize. lia.
Qed.

(** C13: the shell's line editor edits a text with a cursor.  Whatever keys are
    typed up to a newline (characters, rubout, delete, the arrows, home, end,
    and up and down for the history), reading comes to an end, takes exactly
    these keys, and the line is the text they make, at most 255 characters:
    nothing is lost in the shifts and nothing is stored outside the array. *)
Theorem readline_edits_text s keys rest w :
  length (sh_line s) = 256%nat -> hist_ok s -> 0 <= hist_count s -> Forall edit_key keys -> w_in w = keys ++ 10 :: rest ->
  exists s' w', plays (shell_readline s) w s' w' /\ w_in w' = rest
    /\ cstr (sh_line s') = before (typed_text s keys) ++ after (typed_text s keys)
    /\ (length (cstr (sh_line s')) <= 255)%nat /\ length (sh_line s') = 256%nat /\ same_rest s s'.
Proof.
  intros Hsize Hh Hcount Hkeys Hin. destruct (readline_edits s keys rest w) as (s' & w' & R & In & Es & Hs); try done.
  destruct (edits_string _ _ Es) as [Hc Hlen]. exists s', w'. rewrite Hc. split_and!; try done. exact (ed_size _ _ Es).
Qed.

(** ** The history as a log *)

(** The history of the commands [log]: all of them are counted, and the last
    64 are there. *)
Record hist_log (s : shell) (log : list (list Z)) : Prop := {
  hl_count : hist_count s = Z.of_nat (length log);
  hl_slots : length (hist_buf s) = 64%nat;
  hl_ok : hist_ok s;
  hl_last : forall i h, log !! i = Some h -> (length log <= i + 64)%nat -> hist_at s (Z.of_nat i) = h
}.

(** The command that comes after [log]: an empty line and a repetition of the
    last command are not kept. *)
Definition logged (log : list (list Z)) (cmd : list Z) : list (list Z) :=
  if bool_decide (cmd = [] \/ last log = Some cmd) then log else log ++ [cmd].

Lemma hist_slot_nat i : hist_slot (Z.of_nat i) = (i mod 64)%nat.
Proof.
  unfold hist_slot. change HIST_SIZE with (Z.of_nat 64). rewrite Z.rem_mod_nonneg by lia.
  by rewrite <- Nat2Z.inj_mod, Nat2Z.id.
Qed.

Lemma hist_log_add s log cmd :
  hist_log s log -> cstr_ok cmd -> (length cmd <= 255)%nat -> Z.of_nat (length log) < 2 ^ 31 - 1 ->
  hist_log (history_add cmd s) (logged log cmd).
Proof.
  intros [Hn Hb Hok Hl] Hc Hlen Hmax. unfold history_add, logged.
  assert (Hnil : (char_at cmd 0 =? 0) = bool_decide (cmd = [])).
  { destruct cmd as [|c cmd]; [done|]. apply Forall_cons in Hc as [Hc _]. cbn. by destruct (Z.eqb_spec c 0); [lia|]. }
  rewrite Hnil. destruct (bool_decide_reflect (cmd = [])) as [->|Hne].
  { by rewrite bool_decide_true by (by left). }
  assert (Hlast : (0 <? hist_count s) && streq (hist_at s (hist_count s - 1)) cmd = bool_decide (last log = Some cmd)).
  { destruct log as [|h log _] using rev_ind; [by rewrite Hn|]. rewrite last_snoc. rewrite length_app in *. cbn [length] in *.
    destruct (Z.ltb_spec 0 (hist_count s)); [|lia].
    replace (hist_count s - 1) with (Z.of_nat (length log)) by lia.
    rewrite (Hl (length log) h) by (rewrite ?length_app, ?list_lookup_middle by done; cbn [length]; done || lia).
    unfold streq. cbn [andb]. apply bool_decide_ext. split; congruence. }
  rewrite Hlast. destruct (bool_decide_reflect (last log = Some cmd)) as [Hlog|Hlog].
  { by rewrite bool_decide_true by (by right). }
  rewrite bool_decide_false by tauto. change (LINE_MAX - 1) with 255.
  rewrite take_ge by lia. rewrite Hn, i32_small by lia. split.
  - cbn [hist_count set_hist]. rewrite length_app. cbn [length]. lia.
  - cbn [hist_buf set_hist]. by rewrite length_insert.
  - unfold hist_ok in *. cbn [hist_buf set_hist]. by apply Forall_insert.
  - intros i h Hi Hrange. rewrite length_app in Hrange. cbn [length] in Hrange.
    unfold hist_at. cbn [hist_buf set_hist]. rewrite !hist_slot_nat.
    destruct (decide (i = length log)) as [->|Hil].
    + rewrite list_lookup_middle in Hi by done. simplify_eq.
      rewrite list_lookup_insert_eq by (rewrite Hb; apply Nat.mod_upper_bound; lia). done.
    + rewrite lookup_app_l in Hi by (apply lookup_lt_Some in Hi; rewrite length_app in Hi; cbn [length] in Hi; lia).
      pose proof (lookup_lt_Some _ _ _ Hi). rewrite list_lookup_insert_ne.
      * pose proof (Hl i h Hi ltac:(lia)) as Hat. unfold hist_at in Hat. by rewrite hist_slot_nat in Hat.
      * intros Heq. pose proof (Nat.div_mod_eq i 64). pose proof (Nat.div_mod_eq (length log) 64). lia.
Qed.


Lemma ups_recall s k :
  Z.of_nat k <= hist_count s ->
  typed_text s (replicate k KEY_UP)
    = CursorText (if (k =? 0)%nat then [] else hist_at s (hist_count s - Z.of_nat k)) [] (hist_count s - Z.of_nat k).
Proof.
  unfold typed_text. induction k as [|k IH]; intros Hk; [by rewrite Z.sub_0_r|].
  rewrite replicate_S_end, foldl_snoc, IH by lia. cbn [edit Nat.eqb].
  change (KEY_UP =? 8) with false. change (KEY_UP =? KEY_DELETE) with false. change (KEY_UP =? KEY_LEFT) with false.
  change (KEY_UP =? KEY_RIGHT) with false. change (KEY_UP =? KEY_HOME) with false. change (KEY_UP =? KEY_END) with false.
  change (KEY_UP =? KEY_UP) with true. cbn iota. destruct (Z.ltb_spec 0 (hist_count s - Z.of_nat k)); [|lia].
  replace (hist_count s - Z.of_nat k - 1) with (hist_count s - Z.of_nat (S k)) by lia. done.
Qed.

Lemma hist_log_rest s s' log : same_rest s s' -> hist_log s log -> hist_log s' log.
Proof.
  intros (Hb & Hn & _) [H1 H2 H3 H4]. split; unfold hist_ok, hist_at in *; rewrite ?Hb, ?Hn; done.
Qed.

(** C17: the history keeps the last 64 commands.  The log of a shell takes each
    command that is not empty and does not repeat the one before; when the
    key up is then pressed [k] times, up to 64, the line that is read is the
    [k]-th last command of the log, and the log stays. *)
Theorem history_keeps_last s log cmd :
  hist_log s log -> length (sh_line s) = 256%nat -> cstr_ok cmd -> (length cmd <= 255)%nat ->
  Z.of_nat (length log) < 2 ^ 31 - 1 ->
  let s1 := history_add cmd s in
  let log1 := logged log cmd in
  hist_log s1 log1
  /\ forall k h rest w, (1 <= k <= 64)%nat -> (k <= length log1)%nat -> log1 !! (length log1 - k)%nat = Some h ->
       w_in w = replicate k KEY_UP ++ 10 :: rest ->
       exists s2 w2, plays (shell_readline s1) w s2 w2 /\ w_in w2 = rest /\ cstr (sh_line s2) = h /\ hist_log s2 log1.
Proof.
  intros Hlog Hsize Hc Hlen Hmax s1 log1. assert (H1 : hist_log s1 log1) by by apply hist_log_add. split; [done|].
  intros k h rest w Hk Hk1 Hh Hin. assert (Hline : sh_line s1 = sh_line s) by (unfold s1, history_add; by repeat case_match).
  pose proof (hl_count _ _ H1) as Hn.
  destruct (readline_edits s1 (replicate k KEY_UP) rest w) as (s2 & w2 & R & In & Es & Hs);
    [by rewrite Hline|exact (hl_ok _ _ H1)|lia|apply Forall_replicate; repeat split; cbv; congruence|done|].
  exists s2, w2. split_and!; [done|done| |by apply (hist_log_rest s1)].
  destruct (edits_string _ _ Es) as [-> _]. rewrite ups_recall by lia. cbn [before after]. rewrite app_nil_r.
  destruct (Nat.eqb_spec k 0); [lia|]. rewrite Hn, <- Nat2Z.inj_sub by done.
  apply (hl_last _ _ H1); [done|lia].
Qed.

Lemma readline_edits_text_witness :
  exists s' w', plays (shell_readline shell_zero)
      (world_in (str "lz" ++ [8] ++ str "s b" ++ [KEY_LEFT; KEY_LEFT; KEY_DELETE; KEY_HOME; 62; KEY_END; 33; 10] ++ str "next"))
      s' w'
    /\ w_in w' = str "next" /\ cstr (sh_line s') = str ">lsb!".
Proof.
  destruct (readline_edits_text shell_zero
    (str "lz" ++ [8] ++ str "s b" ++ [KEY_LEFT; KEY_LEFT; KEY_DELETE; KEY_HOME; 62; KEY_END; 33]) (str "next")
    (world_in (str "lz" ++ [8] ++ str "s b" ++ [KEY_LEFT; KEY_LEFT; KEY_DELETE; KEY_HOME; 62; KEY_END; 33; 10] ++ str "next")))
    as (s' & w' & R & In & L & _).
  - reflexivity.
  - apply Forall_replicate. split; [constructor|cbn; lia].
  - cbn. lia.
  - apply (bool_decide_unpack _). by vm_compute.
  - reflexivity.
  - exists s', w'. split; [exact R|]. split; [exact In|]. rewrite L. by vm_compute.
Defined.

Lemma history_keeps_last_witness :
  exists s2 w2, plays (shell_readline (history_add (str "ls") shell_zero)) (world_in [KEY_UP; 10]) s2 w2
    /\ cstr (sh_line s2) = str "ls".
Proof.
  destruct (history_keeps_last shell_zero [] (str "ls")) as [_ H].
  - split; [done|done|apply Forall_replicate; split; [constructor|cbn; lia]|done].
  - reflexivity.
  - apply (bool_decide_unpack _). by vm_compute.
  - apply Nat.leb_le. reflexivity.
  - reflexivity.
  - destruct (H 1%nat (str "ls") [] (world_in [KEY_UP; 10])) as (s2 & w2 & R & _ & L & _);
      [lia|apply Nat.leb_le; reflexivity|reflexivity|reflexivity|by exists s2, w2].
Defined.
