(* ===== verification/ShellEnv.v ===== *)
(** * The user shell: the environment, expansion and pipes

    The variables as a finite map that is saved with every change and read
    back by the next shell; [expand_env] against its meaning on a text made of
    characters and variables; and the calls of a pipe's three processes. *)

From S2P Require Import Prelude.
From S2P Require Import LibcStdio.
From S2P Require Import User.
From S2P Require Import LibcFile.
From S2P Require Import Shell.

(** ** The variables as a map *)

Definition env_map (vars : list var) : gmap (list Z) (list Z) := list_to_map vars.

(** A character that can stand in a variable and in its line of the file. *)
Definition var_char (c : Z) : Prop := 0 < c < 256 /\ c <> 10.
#[export] Instance var_char_dec c : Decision (var_char c).
Proof. unfold var_char. apply _. Defined.

Record key_ok (k : list Z) : Prop := {
  k_chars : Forall var_char k;
  k_equals : 61 ∉ k;
  k_nonempty : k <> [];
  k_length : (length k <= 31)%nat
}.
Record value_ok (v : list Z) : Prop := { v_chars : Forall var_char v; v_length : (length v <= 95)%nat }.

(** The invariant of the environment. *)
Record env_ok (vars : list var) : Prop := {
  e_nodup : NoDup vars.*1;
  e_keys : Forall key_ok vars.*1;
  e_values : Forall value_ok vars.*2;
  e_count : (length vars <= 32)%nat
}.

Lemma env_find_spec key vars :
  match env_find key vars with
  | Some i => exists v, vars !! i = Some (key, v) /\ key ∉ (take i vars).*1
  | None => key ∉ vars.*1
  end.
Proof.
  induction vars as [|[k v] vars IH]; cbn [env_find]; [apply not_elem_of_nil|].
  unfold streq. destruct (bool_decide_reflect (k = key)) as [->|Hne].
  - exists v. split; [done|apply not_elem_of_nil].
  - destruct (env_find key vars) as [i|]; cbn [fmap option_fmap option_map].
    + destruct IH as (u & Hi & Ht). exists u. split; [done|]. cbn. rewrite not_elem_of_cons. by split.
    + cbn. rewrite not_elem_of_cons. by split.
Qed.

Lemma env_get_map key vars : env_get key vars = env_map vars !! key.
Proof.
  unfold env_get, env_map. pose proof (env_find_spec key vars) as Hf. destruct (env_find key vars) as [i|].
  - destruct Hf as (v & Hi & Ht). rewrite Hi. cbn. symmetry.
    rewrite <- (take_drop_middle vars i (key, v) Hi). rewrite list_to_map_app. rewrite lookup_union_r.
    + cbn. by rewrite lookup_insert_eq.
    + by apply not_elem_of_list_to_map_1.
  - symmetry. by apply not_elem_of_list_to_map_1.
Qed.

(** Changing the value in place, and taking the variable out. *)
Lemma env_map_alter vars i key v v' :
  vars !! i = Some (key, v) -> key ∉ (take i vars).*1 ->
  env_map (alter (fun p : var => (p.1, v')) i vars) = <[key := v']> (env_map vars).
Proof.
  intros Hi Ht. rewrite <- (take_drop_middle vars i (key, v) Hi) at 1 2.
  assert (Hlen : length (take i vars) = i) by (rewrite length_take; apply lookup_lt_Some in Hi; lia).
  rewrite alter_app_r_alt, Hlen, Nat.sub_diag by lia. cbn [alter list_alter fst].
  unfold env_map. rewrite !list_to_map_app. cbn [list_to_map foldr uncurry]. 
  rewrite insert_union_r by (by apply not_elem_of_list_to_map_1).
  by rewrite <- insert_union_r, insert_insert_eq, insert_union_r by (by apply not_elem_of_list_to_map_1).
Qed.

Lemma env_map_remove vars i key v :
  NoDup vars.*1 -> vars !! i = Some (key, v) -> env_map (take i vars ++ drop (S i) vars) = delete key (env_map vars).
Proof.
  intros Hnd Hi. pose proof (take_drop_middle vars i (key, v) Hi) as Hsplit.
  rewrite <- Hsplit in Hnd. rewrite fmap_app, fmap_cons in Hnd. cbn [fst] in Hnd.
  rewrite <- Hsplit at 3. unfold env_map. rewrite !list_to_map_app. cbn [list_to_map foldr uncurry].
  apply NoDup_app in Hnd as (_ & Hd & Hnd). apply NoDup_cons in Hnd as [Hn _].
  rewrite delete_union, delete_insert_eq, (delete_id (list_to_map (take i vars))), (delete_id (list_to_map (drop _ _))).
  - done.
  - by apply not_elem_of_list_to_map_1.
  - apply not_elem_of_list_to_map_1. intros Hk. by apply (Hd key Hk), list_elem_of_here.
Qed.

Lemma take_value v : Forall var_char v -> value_ok (take 95 v).
Proof. intros Hv. split; [by apply Forall_take|]. rewrite length_take. lia. Qed.

Lemma alter_keys (vars : list var) i v : (alter (fun p : var => (p.1, v)) i vars).*1 = vars.*1.
Proof. revert i. induction vars as [|[a b] vars IH]; intros [|i]; cbn; [done|done|done|f_equal; apply IH]. Qed.

Lemma alter_values (vars : list var) i v : (alter (fun p : var => (p.1, v)) i vars).*2 = <[i := v]> vars.*2.
Proof. revert i. induction vars as [|[a b] vars IH]; intros [|i]; cbn; [done|done|done|f_equal; apply IH]. Qed.

Lemma env_ok_alter vars i v : env_ok vars -> value_ok v -> env_ok (alter (fun p : var => (p.1, v)) i vars).
Proof.
  intros [H1 H2 H3 H4] Hv. split; rewrite ?alter_keys; [done|done| |by rewrite length_alter].
  rewrite alter_values. by apply Forall_insert.
Qed.

Lemma env_ok_snoc vars k v :
  env_ok vars -> k ∉ vars.*1 -> key_ok k -> value_ok v -> (length vars < 32)%nat -> env_ok (vars ++ [(k, v)]).
Proof.
  intros [H1 H2 H3 H4] Hk Ok Ov Hlen. split.
  - rewrite fmap_app. apply NoDup_app. split; [done|]. split; [|by apply NoDup_singleton].
    intros x Hx Hx'. apply list_elem_of_singleton in Hx' as ->. done.
  - rewrite fmap_app. apply Forall_app. by split; [|apply Forall_singleton].
  - rewrite fmap_app. apply Forall_app. by split; [|apply Forall_singleton].
  - rewrite length_app. cbn [length]. lia.
Qed.

Lemma env_ok_remove vars i : env_ok vars -> env_ok (take i vars ++ drop (S i) vars).
Proof.
  intros [H1 H2 H3 H4]. rewrite <- (take_drop i vars) in H1, H2, H3. rewrite !fmap_app in H1, H2, H3.
  apply NoDup_app in H1 as (N1 & N2 & N3). apply Forall_app in H2 as [K1 K2], H3 as [V1 V2].
  assert (Hsub : forall A (f : var -> A), f <$> drop (S i) vars = drop 1 (f <$> drop i vars))
    by (intros A f; rewrite <- !fmap_drop, drop_drop; by rewrite Nat.add_1_r).
  split; rewrite ?fmap_app, ?Hsub.
  - apply NoDup_app. split; [done|]. split.
    + intros x Hx Hx'. apply (N2 x Hx). destruct (_ <$> drop i vars); [done|by right].
    + destruct (_ <$> drop i vars); [done|]. by apply NoDup_cons in N3 as [_ N3].
  - apply Forall_app. by split; [|apply Forall_drop].
  - apply Forall_app. by split; [|apply Forall_drop].
  - rewrite length_app, length_take, length_drop. lia.
Qed.

(** ** The file of the environment *)

Definition env_bytes (vars : list var) : list Z := concat (map (fun v => v.1 ++ [61] ++ v.2 ++ [10]) vars).

Lemma env_bytes_cons k v vars : env_bytes ((k, v) :: vars) = k ++ 61 :: v ++ 10 :: env_bytes vars.
Proof. unfold env_bytes. cbn [map concat fst snd]. rewrite <- !app_assoc. done. Qed.

Lemma env_save_loop_bytes vars buf :
  (length (buf ++ env_bytes vars) < 4095)%nat -> env_save_loop vars buf = buf ++ env_bytes vars.
Proof.
  revert buf. induction vars as [|[k v] vars IH]; intros buf Hlen; cbn [env_save_loop]; [by rewrite app_nil_r|].
  rewrite env_bytes_cons in *. rewrite ?length_app in Hlen. cbn [length] in Hlen. rewrite ?length_app in Hlen. cbn [length] in Hlen.
  destruct (Z.leb_spec 4095 (Z.of_nat (length buf + length k + 1 + length v + 1))); [lia|].
  rewrite IH; [|rewrite ?length_app; cbn [length]; rewrite ?length_app; cbn [length]; lia].
  rewrite <- !app_assoc. done.
Qed.

Lemma index_of_app c k rest : c ∉ k -> index_of c (k ++ c :: rest) = Some (length k).
Proof.
  induction k as [|x k IH]; intros Hk; cbn [app index_of].
  - by rewrite Z.eqb_refl.
  - apply not_elem_of_cons in Hk as [Hx Hk]. destruct (Z.eqb_spec x c); [done|]. by rewrite IH.
Qed.

Lemma env_entry_var k v vars : key_ok k -> value_ok v -> env_entry (k ++ 61 :: v) vars = vars ++ [(k, v)].
Proof.
  intros [Hk He Hne Hl] [Hv Hlv]. unfold env_entry. rewrite index_of_app by done.
  assert (H0 : (0 < length k)%nat) by (destruct k; [done|cbn; lia]). change ENV_KEY_MAX with 32%nat. change ENV_VAL_MAX with 96%nat.
  destruct (Nat.ltb_spec 0 (length k)), (Nat.ltb_spec (length k) 32); try lia.
  assert (Hrest : (length (k ++ 61%Z :: v) - length k - 1 = length v)%nat) by (rewrite length_app; cbn [length]; lia).
  rewrite Hrest. destruct (Nat.ltb_spec (length v) 96); [|lia]. cbn [andb].
  rewrite take_app_length, drop_app_ge by lia. replace (S (length k) - length k)%nat with 1%nat by lia. cbn [drop].
  rewrite !cstr_id; [done| |]; (eapply Forall_impl; [eassumption|]; by intros c [Hc _]).
Qed.

Lemma env_load_line l vars line rest : (length vars < 32)%nat -> 10 ∉ line ->
  env_load_loop l (line ++ 10 :: rest) vars = env_load_loop [] rest (env_entry (l ++ line) vars).
Proof.
  intros Hv. assert (Hguard : (ENV_MAX <=? length vars)%nat = false) by (apply Nat.leb_gt; exact Hv).
  revert l. induction line as [|c line IH]; intros l Hline; cbn [app env_load_loop]; rewrite Hguard.
  - change (10 =? 10) with true. cbn iota. by rewrite app_nil_r.
  - apply not_elem_of_cons in Hline as [Hc Hline]. destruct (Z.eqb_spec c 10); [done|].
    rewrite IH by done. by rewrite <- app_assoc.
Qed.

Lemma var_char_10 l : Forall var_char l -> 10 ∉ l.
Proof. intros Hl Hin. apply list_elem_of_lookup in Hin as [i Hi]. by destruct (proj1 (Forall_lookup _ _) Hl _ _ Hi). Qed.

Lemma env_load_bytes vars0 vars : env_ok (vars0 ++ vars) ->
  env_load_loop [] (env_bytes vars) vars0 = vars0 ++ vars.
Proof.
  revert vars0. induction vars as [|[k v] vars IH]; intros vars0 Hok; pose proof (e_count _ Hok) as Hn;
    rewrite length_app in Hn; cbn [length] in Hn.
  - rewrite app_nil_r. unfold env_bytes. cbn [map concat env_load_loop]. by destruct (ENV_MAX <=? length vars0)%nat.
  - pose proof (e_keys _ Hok) as Hk. pose proof (e_values _ Hok) as Hv. rewrite fmap_app in Hk, Hv.
    apply Forall_app in Hk as [_ Hk], Hv as [_ Hv]. apply Forall_cons in Hk as [Hk _], Hv as [Hv _]. cbn [fst snd] in Hk, Hv.
    rewrite env_bytes_cons. replace (k ++ 61 :: v ++ 10 :: env_bytes vars) with ((k ++ 61 :: v) ++ 10 :: env_bytes vars)
      by (by rewrite <- app_assoc).
    rewrite env_load_line; [|lia|].
    + rewrite app_nil_l, env_entry_var by done. rewrite IH by (by rewrite <- app_assoc). by rewrite <- app_assoc.
    + rewrite not_elem_of_app, not_elem_of_cons. split; [apply var_char_10, Hk|]. split; [done|]. apply var_char_10, Hv.
Qed.

Lemma env_save_plays s w :
  (length (env_bytes (sh_env s)) <= 4094)%nat ->
  plays (env_save s) w tt (set_file ENV_FILE (env_bytes (sh_env s)) w).
Proof.
  intros Hlen. unfold env_save. rewrite env_save_loop_bytes by (cbn [app]; lia).
  eapply runs_bind; [exact (runs_trigger answer (Sys SYS_WRITE_FILE _) w)|]. cbn [answer app].
  change (SYS_WRITE_FILE =? SYS_WRITE_FILE) with true. apply runs_ret.
Qed.

Lemma env_load_plays vars s w :
  env_ok vars -> (length (env_bytes vars) <= 4094)%nat -> w_files w !! ENV_FILE = Some (env_bytes vars) ->
  exists s', plays (env_load s) w s' w /\ sh_env s' = vars.
Proof.
  intros Hok Hlen Hf. unfold env_load. set (t := env_bytes vars) in *.
  assert (Hcat : take (Z.to_nat (4096 - 1)) t = t) by (apply take_ge; lia).
  exists (set_env vars s). split; [|done].
  eapply runs_bind; [exact (runs_trigger answer (Fill SYS_CAT (Some ENV_FILE) 4096) w)|]. cbn [answer].
  rewrite Hf. cbn [fst snd]. rewrite Hcat, i32_small by lia. destruct (Z.leb_spec (Z.of_nat (length t)) 0) as [H0|H0].
  - assert (vars = []) as ->; [|apply runs_ret]. destruct vars as [|[k v] vars]; [done|].
    exfalso. unfold t in H0. rewrite env_bytes_cons, length_app in H0. cbn [length] in H0. lia.
  - rewrite Nat2Z.id, firstn_all. unfold t. rewrite (env_load_bytes [] vars Hok). apply runs_ret.
Qed.

(** What a change leaves behind: the variables [m] in the shell, in the file,
    and in a shell that starts from the file. *)
Definition env_becomes (s' : shell) (w' : world) (m : gmap (list Z) (list Z)) : Prop :=
  env_ok (sh_env s') /\ env_map (sh_env s') = m
  /\ ((length (env_bytes (sh_env s')) <= 4094)%nat ->
      forall s0, exists s1, plays (env_load s0) w' s1 w' /\ sh_env s1 = sh_env s').

Lemma env_saved s w : env_ok (sh_env s) -> exists w', plays (env_save s) w tt w' /\ env_becomes s w' (env_map (sh_env s)).
Proof.
  intros Hok. exists (set_file ENV_FILE (env_save_loop (sh_env s) []) w). split.
  - eapply runs_bind; [exact (runs_trigger answer (Sys SYS_WRITE_FILE _) w)|]. cbn [answer].
    change (SYS_WRITE_FILE =? SYS_WRITE_FILE) with true. apply runs_ret.
  - split; [done|]. split; [done|]. intros Hlen s0. apply env_load_plays; [done|done|].
    cbn [w_files set_file]. rewrite lookup_insert_eq, env_save_loop_bytes by (cbn [app]; lia). done.
Qed.

(** C15: the environment is a persistent map.  Looking a variable up, setting it
    (values are cut to 95 characters; a new one needs a free place among the
    32) and unsetting it are the operations on a finite map; each change is
    written to the file.  Names have 1 to 31 characters and no equals sign, as
    the file needs them.  As long as the variables take at most 4094 bytes
    there, a shell that starts later has exactly these variables. *)
Theorem environment_is_a_map s key value w :
  env_ok (sh_env s) -> key_ok key -> Forall var_char value ->
  let m := env_map (sh_env s) in
  env_get key (sh_env s) = m !! key
  /\ (is_Some (m !! key) \/ (length (sh_env s) < 32)%nat -> exists s' w',
       plays (env_set key value s) w s' w' /\ env_becomes s' w' (<[key := take 95 value]> m))
  /\ (is_Some (m !! key) -> exists s' w', plays (env_unset key s) w s' w' /\ env_becomes s' w' (delete key m)).
Proof.
  intros Hok Hk Hv m. pose proof (take_value value Hv) as Hval. split; [apply env_get_map|].
  pose proof (env_find_spec key (sh_env s)) as Hf. pose proof (env_get_map key (sh_env s)) as Hg.
  unfold env_set, env_unset. change (ENV_VAL_MAX - 1)%nat with 95%nat. change (ENV_KEY_MAX - 1)%nat with 31%nat.
  unfold env_get in Hg. fold m in Hg. destruct (env_find key (sh_env s)) as [i|].
  - destruct Hf as (v & Hi & Ht). split; intros _.
    + set (s1 := set_env _ s). destruct (env_saved s1 w) as (w' & R & Hb); [by apply env_ok_alter|].
      exists s1, w'. split; [eapply runs_bind; [exact R|apply runs_ret]|].
      cbn [s1 sh_env set_env] in Hb. by rewrite (env_map_alter _ _ key v) in Hb.
    + set (s1 := set_env _ s). destruct (env_saved s1 w) as (w' & R & Hb); [by apply env_ok_remove|].
      exists s1, w'. split; [eapply runs_bind; [exact R|apply runs_ret]|].
      cbn [s1 sh_env set_env] in Hb. by rewrite (env_map_remove _ _ key v) in Hb by (done || apply Hok).
  - split; [|intros [x Hx]; congruence]. intros [[x Hx]|Hroom]; [congruence|].
    change ENV_MAX with 32%nat. destruct (Nat.leb_spec 32 (length (sh_env s))); [lia|].
    rewrite (take_ge key) by apply Hk. set (s1 := set_env _ s).
    destruct (env_saved s1 w) as (w' & R & Hb); [by apply env_ok_snoc|].
    exists s1, w'. split; [eapply runs_bind; [exact R|apply runs_ret]|].
    cbn [s1 sh_env set_env] in Hb. unfold env_map in Hb. rewrite list_to_map_snoc in Hb by done. exact Hb.
Qed.

Lemma environment_is_a_map_witness :
  exists s' w' s1, plays (env_set (str "HOME") (str "/home") shell_zero) (World [] [] ∅ 0 0 [] []) s' w'
    /\ plays (env_load shell_zero) w' s1 w' /\ env_get (str "HOME") (sh_env s1) = Some (str "/home").
Proof.
  destruct (environment_is_a_map shell_zero (str "HOME") (str "/home") (World [] [] ∅ 0 0 [] [])) as (_ & H & _).
  - split; [apply NoDup_nil_2|apply Forall_nil_2|apply Forall_nil_2|cbn; lia].
  - split; [apply (bool_decide_unpack _); by vm_compute|apply (bool_decide_unpack _); by vm_compute|done|cbn; lia].
  - apply (bool_decide_unpack _). by vm_compute.
  - destruct H as (s' & w' & R & Hok & Hm & Hb); [right; cbn; lia|].
    assert (Hs : sh_env s' = [(str "HOME", str "/home")]).
    { destruct R as [f R]. pose proof (run_mono answer _ (Nat.max f 50) _ _ _ R ltac:(lia)) as R1.
      assert (R2 : run answer 50 (env_set (str "HOME") (str "/home") shell_zero) (World [] [] ∅ 0 0 [] [])
        = Some (set_env [(str "HOME", str "/home")] shell_zero,
            World [] [] {[ENV_FILE := str "HOME=/home" ++ [10]]} 0 0 [] [])) by (vm_compute; reflexivity).
      apply (run_mono answer _ (Nat.max f 50)) in R2; [|lia]. rewrite R1 in R2. apply Some_inj, pair_equal_spec in R2 as [-> _].
      reflexivity. }
    destruct (Hb ltac:(rewrite Hs; cbn; lia) shell_zero) as (s1 & R1 & E1).
    exists s', w', s1. split; [exact R|]. split; [exact R1|]. rewrite E1, Hs. reflexivity.
Defined.

(** ** Expansion *)

(** A text as characters and references to variables. *)
Inductive piece := Lit (c : Z) | Ref (key : list Z).

Definition piece_text (p : piece) : list Z := match p with Lit c => [c] | Ref k => 36 :: k end.
Definition text_of (ps : list piece) : list Z := concat (map piece_text ps).
Definition piece_value (vars : list var) (p : piece) : list Z :=
  match p with Lit c => [c] | Ref k => default [] (env_get k vars) end.
Definition value_of (vars : list var) (ps : list piece) : list Z := concat (map (piece_value vars) ps).

(** A reference ends at a blank, at a dollar sign or at the end. *)
Definition stops (t : list Z) : Prop := match t with [] => True | c :: _ => c = 32 \/ c = 36 end.
Definition ref_char (c : Z) : Prop := c <> 0 /\ c <> 32 /\ c <> 36.

(** The text reads as these pieces only. *)
Fixpoint pieces_ok (ps : list piece) : Prop :=
  match ps with
  | [] => True
  | Lit c :: rest => c <> 0 /\ (c = 36 -> match text_of rest with [] => True | d :: _ => d = 32 end) /\ pieces_ok rest
  | Ref k :: rest => Forall ref_char k /\ k <> [] /\ (length k <= 31)%nat /\ stops (text_of rest) /\ pieces_ok rest
  end.

Lemma env_key_stops n k t : Forall ref_char k -> (length k <= n)%nat -> stops t -> env_key n (k ++ t) = (k, t).
Proof.
  intros Hk. revert n. induction Hk as [|c k (H0 & H32 & H36) Hk IH]; intros n Hn Ht; cbn [app].
  - destruct n as [|n]; [done|]. destruct t as [|c t]; [done|]. cbn [env_key]. cbn in Ht.
    by destruct (Z.eqb_spec c 32), (Z.eqb_spec c 36); try tauto.
  - destruct n as [|n]; [cbn in Hn; lia|]. cbn [env_key].
    destruct (Z.eqb_spec c 32), (Z.eqb_spec c 36); try done. cbn [orb]. rewrite IH by (done || cbn in Hn; lia). done.
Qed.

Lemma expand_loop_pieces vars max ps : pieces_ok ps -> forall fuel dst,
  (length (text_of ps) <= fuel)%nat -> (length (dst ++ value_of vars ps) < max - 1)%nat ->
  expand_loop fuel vars (text_of ps) dst max = dst ++ value_of vars ps.
Proof.
  unfold text_of, value_of. induction ps as [|[c|k] ps IH]; intros Hok fuel dst Hf Hmax; cbn [map concat piece_text piece_value] in *.
  - rewrite app_nil_r. by destruct fuel.
  - destruct Hok as (Hc & H36 & Hok). cbn [app length] in Hf. destruct fuel as [|fuel]; [lia|].
    cbn [expand_loop app]. rewrite !length_app in Hmax. cbn [length] in Hmax.
    destruct (Nat.leb_spec (max - 1) (length dst)); [lia|].
    replace ((c =? 36) && negb (char_at (concat (map piece_text ps)) 0 =? 0) && negb (char_at (concat (map piece_text ps)) 0 =? 32))
      with false.
    + rewrite IH; [by rewrite <- app_assoc|done|lia|]. rewrite !length_app. cbn [length]. lia.
    + destruct (Z.eqb_spec c 36) as [->|]; [|done]. specialize (H36 eq_refl). unfold text_of in H36.
      destruct (concat (map piece_text ps)) as [|d t]; [done|]. by subst d.
  - destruct Hok as (Hk & Hne & Hlen & Hs & Hok). destruct k as [|x k]; [done|].
    cbn [app length] in Hf. destruct fuel as [|fuel]; [lia|]. cbn [expand_loop app].
    rewrite !length_app in Hmax. rewrite length_app in Hf.
    destruct (Nat.leb_spec (max - 1) (length dst)); [lia|].
    pose proof Hk as Hk'. apply Forall_cons in Hk as [(H0 & H32 & _) _].
    replace ((36 =? 36) && negb (char_at (x :: k ++ concat (map piece_text ps)) 0 =? 0)
      && negb (char_at (x :: k ++ concat (map piece_text ps)) 0 =? 32)) with true.
    2: { cbn. by destruct (Z.eqb_spec x 0), (Z.eqb_spec x 32). }
    change (x :: k ++ concat (map piece_text ps)) with ((x :: k) ++ concat (map piece_text ps)).
    rewrite env_key_stops by done. destruct (env_get (x :: k) vars) as [v|]; cbn [default] in *.
    + destruct (Nat.leb_spec (max - 1) (length dst + length v)); [cbn in Hmax; lia|].
      rewrite IH; [by rewrite <- app_assoc|done|lia|]. rewrite !length_app. cbn in Hmax. lia.
    + apply IH; [done|lia|]. rewrite length_app. cbn in Hmax. lia.
Qed.

Lemma expand_env_pieces vars ps max :
  pieces_ok ps -> (length (value_of vars ps) < max - 1)%nat -> expand_env vars (text_of ps) max = value_of vars ps.
Proof. intros Hok Hmax. unfold expand_env. by rewrite expand_loop_pieces. Qed.

Lemma printf_line s : (length s <= 510)%nat -> LibcStdio.printf (str "%s" ++ [10]) [AStr (Some s)] = Some (s ++ [10]).
Proof.
  intros Hs. assert (Hc : convert 115 [AStr (Some s)] [] = Some (s, [])).
  { change (convert 115 [AStr (Some s)] []) with (Some ([] ++ take (511 - 0) s, @nil arg)). by rewrite take_ge by lia. }
  change (LibcStdio.printf (str "%s" ++ [10]) [AStr (Some s)]) with
    (match convert 115 [AStr (Some s)] [] with None => None | Some (o, a) => printf_loop [10] a o end).
  rewrite Hc. cbn [printf_loop]. unfold PRINTF_END. destruct (Nat.leb_spec 511 (length s)); [lia|done].
Qed.

Lemma index_of_none c l : c ∉ l -> index_of c l = None.
Proof.
  induction l as [|x l IH]; intros Hl; cbn [index_of]; [done|]. apply not_elem_of_cons in Hl as [Hx Hl].
  destruct (Z.eqb_spec x c); [done|]. by rewrite IH.
Qed.

Lemma run_command_echo call t b s :
  run_command call (str "echo " ++ t) b s = (then* (cmd_echo t : prog unit) in Ret s).
Proof. reflexivity. Qed.

(** C16: a command line is expanded as it reads.  For a text in which every
    reference to a variable has at most 31 characters and ends at a blank, a
    dollar sign or the end, [echo]
    of the text prints it with the references replaced by the values
    (nothing for a variable that is not set), without the leading blanks,
    whatever the shell's nesting; the result must fit the line and hold no
    bar. *)
Theorem echo_prints_expansion depth ps b s w :
  pieces_ok ps -> (length (value_of (sh_env s) ps) <= 249)%nat -> 124 ∉ value_of (sh_env s) ps ->
  plays (execute (S depth) (str "echo " ++ text_of ps) b s) w s
    (add_out (skip 32 (value_of (sh_env s) ps) ++ [10]) w).
Proof.
  intros Hok Hlen Hbar. cbn [execute]. unfold execute_body.
  change (skip 32 (str "echo " ++ text_of ps)) with (str "echo " ++ text_of ps).
  set (ps' := map Lit (str "echo ") ++ ps).
  assert (Ht : str "echo " ++ text_of ps = text_of ps') by (unfold ps', text_of; by rewrite map_app, concat_app).
  assert (Hv : value_of (sh_env s) ps' = str "echo " ++ value_of (sh_env s) ps)
    by (unfold ps', value_of; by rewrite map_app, concat_app).
  assert (Hok' : pieces_ok ps') by (cbn; repeat split; try done).
  rewrite Ht. assert (Hne : text_of ps' <> []) by done. destruct (text_of ps') as [|x t] eqn:Et; [done|]. rewrite <- Et.
  rewrite expand_env_pieces; [|done|rewrite Hv, length_app; change (length (str "echo ")) with 5%nat;
    change (Z.to_nat LINE_MAX) with 256%nat; lia].
  rewrite Hv, index_of_none, run_command_echo.
  - eapply runs_bind; [|apply runs_ret]. unfold cmd_echo, say_with.
    pose proof (plays_printf (str "%s" ++ [10]) [AStr (Some (skip 32 (value_of (sh_env s) ps)))] w) as Hp.
    rewrite printf_line in Hp; [exact Hp|]. clear -Hlen. revert Hlen. generalize (value_of (sh_env s) ps) as l. intros l Hlen.
    assert (length (skip 32 l) <= length l)%nat by (induction l as [|y l IH]; cbn; [lia|destruct (_ =? _); cbn in *; lia]). lia.
  - rewrite not_elem_of_app. split; [|done]. apply (bool_decide_unpack _). by vm_compute.
Qed.

Lemma echo_prints_expansion_witness :
  plays (execute 1 (str "echo from $HOME to $WORK $ !") false (set_env [(str "HOME", str "/home")] shell_zero))
    (World [] [] ∅ 0 0 [] []) (set_env [(str "HOME", str "/home")] shell_zero)
    (World [] (str "from /home to  $ !" ++ [10]) ∅ 0 0 [] []).
Proof.
  apply (echo_prints_expansion 0 (map Lit (str "from ") ++ [Ref (str "HOME")] ++ map Lit (str " to ")
    ++ [Ref (str "WORK")] ++ map Lit (str " $ !")) false (set_env [(str "HOME", str "/home")] shell_zero)).
  - cbn. unfold ref_char. repeat split; try done; try (by left); try (by right); try lia; try (by repeat constructor).
  - apply Nat.leb_le. reflexivity.
  - apply (bool_decide_unpack _). by vm_compute.
Defined.

(** ** Pipes *)

(** The world after the calls [cs], whose answers the script gave. *)
Definition called (cs : list (Z * list sysarg)) (w : world) : world :=
  World (w_in w) (w_out w) (w_files w) (w_room w) (w_next w) (drop (length cs) (w_script w)) (w_log w ++ cs).

Lemma called_nil w : called [] w = w.
Proof. destruct w. unfold called. cbn. by rewrite app_nil_r. Qed.

Lemma called_snoc cs c w : (log_call c.1 c.2 (called cs w)).2 = called (cs ++ [c]) w.
Proof.
  unfold log_call, called. cbn [snd w_in w_out w_files w_room w_next w_script w_log]. destruct c as [n args]. cbn [fst snd].
  rewrite length_app. cbn [length]. f_equal; [|by rewrite <- app_assoc].
  rewrite <- drop_drop. by destruct (drop (length cs) (w_script w)).
Qed.

Definition answered (i : nat) (w : world) : Z := default 0 (w_script w !! i).

Lemma called_answer cs n args w : (log_call n args (called cs w)).1 = answered (length cs) w.
Proof. unfold log_call, called, answered. cbn [fst w_script]. by rewrite head_lookup, lookup_drop, Nat.add_0_r. Qed.

Lemma steps_sys {B} n args cs w (k : Z -> prog B) t' w' :
  answer Z (Sys n args) = log_call n args ->
  steps answer (k (answered (length cs) w)) (called (cs ++ [(n, args)]) w) t' w' ->
  steps answer (ITree.bind (sys n args) k) (called cs w) t' w'.
Proof.
  intros Ha H. apply steps_trigger. rewrite Ha, called_answer. pose proof (called_snoc cs (n, args) w) as E. cbn [fst snd] in E.
  by rewrite E.
Qed.

Lemma steps_refl {A} (t : prog A) w : steps answer t w t w.
Proof. by apply steps_here. Qed.

Lemma steps_ret {A B} (a : A) (k : A -> prog B) w t' w' : steps answer (k a) w t' w' -> steps answer (ITree.bind (Ret a) k) w t' w'.
Proof. intros H. eapply steps_trans; [|exact H]. by apply steps_here. Qed.

(** One side of a pipe: the command, and the end of the process. *)
Definition pipe_side (depth : nat) (cmd : list Z) (s : shell) : prog shell :=
  call* s := execute depth cmd true s in then* sys SYS_EXIT [Num 0] in Ret s.

(** The calls a process makes before its side of the pipe runs: [end_] becomes
    its descriptor [fd], and both ends are closed. *)
Definition plug (end_ fd : Z) : list (Z * list sysarg) :=
  [(SYS_DUP2, [Num end_; Num fd]); (SYS_CLOSE, [Num 3]); (SYS_CLOSE, [Num 4])].

Lemma pipe_child_steps depth end_ fd cmd s (k : shell -> prog shell) cs w :
  steps answer (ITree.bind (pipe_child (execute depth) end_ fd (3, 4) cmd s) k) (called cs w)
    (ITree.bind (pipe_side depth cmd s) k) (called (cs ++ plug end_ fd) w).
Proof.
  apply steps_bind. unfold pipe_child. cbn [fst snd].
  apply steps_sys; [done|]. apply steps_sys; [done|]. apply steps_sys; [done|].
  rewrite <- !app_assoc. apply steps_refl.
Qed.

Lemma skip_plain l : skip 32 l <> [] -> exists x t, skip 32 l = x :: t.
Proof. destruct (skip 32 l) as [|x t]; [done|]. by exists x, t. Qed.

Lemma expand_plain vars l max :
  Forall (fun c => c <> 0 /\ c <> 36) l -> (length l < max - 1)%nat -> expand_env vars l max = l.
Proof.
  intros Hl Hmax. assert (Ht : text_of (map Lit l) = l /\ value_of vars (map Lit l) = l /\ pieces_ok (map Lit l)).
  { unfold text_of, value_of. clear Hmax.
    induction Hl as [|c l [H0 H36] Hl (T & V & P)]; [done|]. cbn [map concat piece_text piece_value app].
    rewrite T, V. by split_and!. }
  destruct Ht as (T & V & P). rewrite <- T at 1. rewrite expand_env_pieces; [done|done|by rewrite V].
Qed.

(** A command line [l | r] that is executed as it is typed. *)
Record pipe_line (l r : list Z) : Prop := {
  pl_chars : Forall (fun c => c <> 0 /\ c <> 36) (l ++ 124 :: r);
  pl_left : skip 32 l <> [];
  pl_right : skip 32 r <> [];
  pl_bar : 124 ∉ l;
  pl_length : (length (l ++ 124%Z :: r) <= 254)%nat
}.

Lemma skip_app l r : skip 32 l <> [] -> skip 32 (l ++ r) = skip 32 l ++ r.
Proof. induction l as [|c l IH]; intros Hl; [done|]. cbn [skip app] in *. destruct (c =? 32); [by apply IH|done]. Qed.

Lemma skip_suffix l : exists p, l = p ++ skip 32 l.
Proof.
  induction l as [|c l [p IH]]; [by exists []|]. cbn [skip]. destruct (c =? 32); [|by exists []].
  exists (c :: p). cbn [app]. by rewrite <- IH.
Qed.

Lemma skip_idem l : skip 32 (skip 32 l) = skip 32 l.
Proof. induction l as [|c l IH]; [done|]. cbn [skip]. destruct (c =? 32) eqn:E; [done|]. cbn [skip]. by rewrite E. Qed.

Lemma execute_pipe depth l r b s :
  pipe_line l r ->
  execute (S (S depth)) (l ++ 124 :: r) b s = cmd_pipe (execute (S depth)) (skip 32 l) r s.
Proof.
  intros [Hc Hl Hr Hb Hlen]. change (execute (S (S depth)) (l ++ 124 :: r) b s) with
    (execute_body (execute (S depth)) (l ++ 124 :: r) b s).
  unfold execute_body. rewrite skip_app by done. destruct (skip_suffix l) as [p Hp].
  destruct (skip_plain l Hl) as (x & t & Ht). rewrite Ht in *. cbn [app].
  assert (Hxt : Forall (fun c => c <> 0 /\ c <> 36) (x :: t ++ 124 :: r)).
  { rewrite Hp, <- app_assoc in Hc. by apply Forall_app in Hc as [_ Hc]. }
  rewrite expand_plain; [|done|].
  2: { rewrite Hp, <- app_assoc, length_app in Hlen. cbn [app] in Hlen. change (Z.to_nat LINE_MAX) with 256%nat. lia. }
  change (x :: t ++ 124 :: r) with ((x :: t) ++ 124 :: r). rewrite index_of_app.
  - rewrite take_app_length, drop_app_ge by lia. replace (S (length (x :: t)) - length (x :: t))%nat with 1%nat by lia. done.
  - rewrite Hp, not_elem_of_app in Hb. by destruct Hb.
Qed.

(** C14: a pipe connects its two sides.  On [l | r] the process that the first
    fork makes comes to run the left command with its output on the write end
    and neither end of the pipe left open beside it, and then exits; the one
    of the second fork runs the right command with its input on the read end
    in the same way; and the shell itself makes the pipe, forks twice, closes
    both ends and waits for both processes, in this order. *)
Theorem pipe_connects_sides depth l r b s w :
  pipe_line l r ->
  let t := execute (S (S depth)) (l ++ 124 :: r) b s in
  let p1 := i32 (answered 1 w) in
  let start := [(SYS_PIPE, []); (SYS_FORK, [])] in
  (p1 = 0 -> exists k, steps answer t w (ITree.bind (pipe_side (S depth) (skip 32 l) s) k) (called (start ++ plug 4 1) w))
  /\ (p1 <> 0 -> i32 (answered 2 w) = 0 -> exists k,
      steps answer t w (ITree.bind (pipe_side (S depth) (skip 32 r) s) k)
        (called (start ++ [(SYS_FORK, [])] ++ plug 3 0) w))
  /\ (p1 <> 0 -> i32 (answered 2 w) <> 0 ->
      plays t w s (called (start ++ [(SYS_FORK, []); (SYS_CLOSE, [Num 3]); (SYS_CLOSE, [Num 4]);
        (SYS_WAITPID, [Num (u64 p1)]); (SYS_WAITPID, [Num (u64 (i32 (answered 2 w)))])]) w)).
Proof.
  intros Hlr t p1 start. unfold t. rewrite execute_pipe by done. unfold cmd_pipe. rewrite skip_idem.
  destruct (skip_plain l (pl_left _ _ Hlr)) as (x & tl & El), (skip_plain r (pl_right _ _ Hlr)) as (y & tr & Er).
  rewrite El, Er. rewrite <- El, <- Er. set (L := skip 32 l). set (R := skip 32 r).
  assert (Hstart : forall k t' w', steps answer (k (0, (3, 4))) (called [(SYS_PIPE, [])] w) t' w' ->
    steps answer (ITree.bind (ITree.trigger SysPipe) k : prog shell) w t' w').
  { intros k t' w' H. apply steps_trigger. cbn [answer fst snd]. rewrite <- (called_nil w) at 1.
    by rewrite (called_snoc [] (SYS_PIPE, [])). }
  split_and!.
  - intros H1. eexists. apply Hstart. cbn beta iota. change (0 <? 0) with false. cbn iota.
    apply steps_sys; [done|]. cbn [length app]. fold p1. rewrite H1. change (0 =? 0) with true. cbn iota.
    apply (pipe_child_steps (S depth) 4 1 L s _ start).
  - intros H1 H2. eexists. apply Hstart. cbn beta iota. change (0 <? 0) with false. cbn iota.
    apply steps_sys; [done|]. cbn [length app]. fold p1. destruct (Z.eqb_spec p1 0); [done|].
    apply steps_ret, steps_sys; [done|]. cbn [length app]. rewrite H2. change (0 =? 0) with true. cbn iota.
    apply (pipe_child_steps (S depth) 3 0 R s _ (start ++ [(SYS_FORK, [])])).
  - intros H1 H2. eapply steps_runs; [|apply runs_ret]. apply Hstart. cbn beta iota. change (0 <? 0) with false. cbn iota.
    apply steps_sys; [done|]. cbn [length app]. fold p1. destruct (Z.eqb_spec p1 0); [done|].
    apply steps_ret, steps_sys; [done|]. cbn [length app]. destruct (Z.eqb_spec (i32 (answered 2 w)) 0); [done|].
    apply steps_ret. do 4 (apply steps_sys; [done|]). cbn [length app]. apply steps_refl.
Qed.

Lemma pipe_connects_sides_witness :
  plays (execute 3 (str "cat f | grep x") false shell_zero) (World [] [] ∅ 0 0 [0; 8; 9] []) shell_zero
    (World [] [] ∅ 0 0 [] [(23, []); (19, []); (19, []); (25, [Num 3]); (25, [Num 4]); (21, [Num 8]); (21, [Num 9])]).
Proof.
  destruct (pipe_connects_sides 1 (str "cat f ") (str " grep x") false shell_zero (World [] [] ∅ 0 0 [0; 8; 9] []))
    as (_ & _ & H).
  - split; try done; [apply (bool_decide_unpack _); by vm_compute|apply (bool_decide_unpack _); by vm_compute|cbn; lia].
  - apply H; by vm_compute.
Defined.
