(* ===== verification/Userland.v ===== *)
(** * Programs on the kernel

    The programs of [src/userspace/] are proved against a [world] of their
    own (User).  Here the same trees run on the kernel: a call is the
    interrupt 0x80 with its registers, its buffer lies in user memory, and
    [handle_interrupt] answers.  A run that reads standard input while there
    is some and writes to standard output goes on the kernel as it does in
    the world: it reads what is in the keyboard's queue and its output is on
    the screen. *)

From S2P Require Import Prelude.
From S2P Require Import ByteMem.
From S2P Require Import Kmem.
From S2P Require Import Heap.
From S2P Require Import Paging.
From S2P Require Import Alloc.
From S2P Require Import Cow.
From S2P Require Import Pipe.
From S2P Require Import Io.
From S2P Require Import Vga.
From S2P Require Import Disk.
From S2P Require Import TinyFS.
From S2P Require Import Vfs.
From S2P Require Import FsHeap.
From S2P Require Import Task.
From S2P Require Import Fd.
From S2P Require Import Keyboard.
From S2P Require Import Signal.
From S2P Require Import Elf.
From S2P Require Import Syscall.
From S2P Require Import Idt.
From S2P Require Import Kernel.
From S2P Require Import User.
From S2P Require Import Programs.

(** What the console shows after a text. *)
Definition shown (s : list Z) (v : vga) : vga := foldl (fun v c => scroll_up (wrap (Vga.put (i8 c) v))) v s.

Lemma shown_app s t v : shown (s ++ t) v = shown t (shown s v).
Proof. apply foldl_app. Qed.

Lemma shown_u8 s v : shown (map u8 s) v = shown s v.
Proof.
  revert v. induction s as [|c s IH]; intros v; [done|]. cbn [map]. unfold shown in *. cbn [foldl].
  replace (i8 (u8 c)) with (i8 c) by cint. apply IH.
Qed.

Section Userland.
Context {P D : Type} {io : PortIO P} {disk : Disk D} {mmu : Mmu} {umem : UserMem}.

(** The program's task and address space; a buffer of its memory; and the
    kernel's fuel, with the addresses that only other calls look at. *)
Context (c : nat) (root buf room : Z) (fuel : nat) (cr2 ksp frame : Z).

(** The serial port's transmitter is always ready. *)
Hypothesis serial_ready : forall p : P, z_true (serial_tx_empty p).1 = true.
Hypothesis fuel_enough : (0 < fuel)%nat.
(** [mapped k]: in the kernel memory [k] the buffer is mapped, writable and not
    aliased.  A store to it keeps that so, and reads back. *)
Hypothesis room_range : 0 <= buf /\ 0 < room /\ buf + room < 2 ^ 31.
Context (mapped : kmem -> Prop).
Hypothesis mapped_store : forall k b v, mapped k -> buf <= b < buf + room -> mapped (ustore8 root b v k).
Hypothesis buffer_mapped : forall k a b v, mapped k -> buf <= a < buf + room -> buf <= b < buf + room ->
  u8 (uload8 root a (ustore8 root b v k)) = if decide (a = b) then u8 v else u8 (uload8 root a k).

(** [int 0x80]. *)
Definition syscall (rax rdi rsi rdx : Z) (m : machine P D) : outcome * machine P D :=
  handle_interrupt fuel cr2 ksp frame (call_frame rax rdi rsi rdx) m.

(** A program that reads and writes, on the kernel. *)
Inductive on_kernel {A} : prog A -> machine P D -> A -> machine P D -> Prop :=
| ok_ret t m a : observe t = RetF a -> on_kernel t m a m
| ok_tau t u m a m' : observe t = TauF u -> on_kernel u m a m' -> on_kernel t m a m'
| ok_write t fd bs k m r m1 a m' :
    observe t = VisF (Write fd bs) k ->
    syscall 0 (u64 fd) buf (Z.of_nat (length bs)) (ustore_bytes c buf bs m).2 = (Returns r, m1) ->
    on_kernel (k (i32 (r_rax r))) m1 a m' -> on_kernel t m a m'
| ok_read t fd k m r m1 a m' :
    observe t = VisF (Read fd) k ->
    syscall 1 (u64 fd) buf 1 m = (Returns r, m1) ->
    on_kernel (k (i32 (r_rax r), (uload c buf m1).1)) m1 a m' -> on_kernel t m a m'.

(** The calls this is about. *)
Definition console {X} (e : sysE X) (w : world) : bool :=
  match e with
  | Write fd bs => (fd =? 1) && (Z.of_nat (length bs) <=? room)
  | Read fd => (fd =? 0) && match w_in w with [] => false | _ => true end
  | _ => false
  end.

(** No other call in a run. *)
Fixpoint run_console {A} (n : nat) (t : prog A) (w : world) : bool :=
  match n with
  | O => true
  | S n' =>
      match observe t with
      | RetF _ => true
      | TauF u => run_console n' u w
      | VisF e k => console e w && (let '(x, w') := answer _ e w in run_console n' (k x) w')
      end
  end.

(** The task runs in its address space, where the buffer is mapped, has no
    signal to handle and has not redirected its input or output; the queue holds the input, and the screen
    shows the output since it looked like [v0]. *)
Record agrees (v0 : vga) (w : world) (m : machine P D) : Prop := {
  ag_current : current_task (tasks m) = Some c;
  ag_root : cr3 (task_at (tasks m) c) = root;
  ag_signals : signal_pending (sig (task_at (tasks m) c)) = 0;
  ag_in : (fd_at (tasks m) c 0).1 <> FD_PIPE_READ;
  ag_out : (fd_at (tasks m) c 1).1 <> FD_PIPE_WRITE;
  ag_queue : kwf (m_kbd m) /\ kcontent (m_kbd m) = w_in w;
  ag_screen : m_vga m = shown (w_out w) v0;
  ag_mapped : mapped (km (tasks m))
}.

(** ** User memory *)

Implicit Types m : machine P D.

Definition with_km (k : kmem) (m : machine P D) : machine P D :=
  (on_tasks (modify (set_km k)) m).2.

Lemma with_km_tasks k m : tasks (with_km k m) = set_km k (tasks m).
Proof. by destruct m as [[]]. Qed.

Lemma agrees_with_km v0 w k m : agrees v0 w m -> mapped k -> agrees v0 w (with_km k m).
Proof. intros [] ?. destruct m as [[]]. by split. Qed.

Lemma ustore_run a v m : ustore c a v m = (tt, with_km (ustore8 (cr3 (task_at (tasks m) c)) (u64 a) (u8 v) (km (tasks m))) m).
Proof. by destruct m as [[]]. Qed.

Lemma uload_run a m : uload c a m = (u8 (uload8 (cr3 (task_at (tasks m) c)) (u64 a) (km (tasks m))), m).
Proof. by destruct m as [[]]. Qed.

Lemma ustore_bytes_run bs : forall a m,
  cr3 (task_at (tasks m) c) = root -> mapped (km (tasks m)) ->
  buf <= a -> a + Z.of_nat (length bs) <= buf + room ->
  exists k, ustore_bytes c a bs m = (tt, with_km k m) /\ mapped k
    /\ forall x, buf <= x < buf + room -> u8 (uload8 root x k)
         = if decide (a <= x < a + Z.of_nat (length bs)) then u8 (default 0 (bs !! Z.to_nat (x - a)))
           else u8 (uload8 root x (km (tasks m))).
Proof.
  induction bs as [|b bs IH]; intros a m Hr Hm Ha Hb; cbn [ustore_bytes length] in *.
  - exists (km (tasks m)). split_and!; [by destruct m as [[[]]]|done|]. intros x Hx. by rewrite decide_False by lia.
  - unfold bind. rewrite ustore_run, Hr. set (k1 := ustore8 _ _ _ _).
    assert (Hk1 : mapped k1) by (unfold k1; rewrite u64_small by lia; apply mapped_store; [done|lia]).
    destruct (IH (a + 1) (with_km k1 m)) as (k & E & Hk & H); [by rewrite with_km_tasks..|lia|lia|].
    exists k. split_and!; [rewrite E; by destruct m as [[]]|done|]. intros x Hx. rewrite H by done. rewrite with_km_tasks.
    destruct (decide (a + 1 <= x < a + 1 + Z.of_nat (length bs))) as [Hin|Hout].
    + rewrite decide_True by lia. by replace (Z.to_nat (x - a)) with (S (Z.to_nat (x - (a + 1)))) by lia.
    + cbn [km set_km]. unfold k1. rewrite u64_small by lia. rewrite buffer_mapped by (done || lia).
      destruct (decide (x = a)) as [->|Hne].
      * rewrite decide_True by lia. rewrite Z.sub_diag. cbn. apply u8_idemp.
      * by rewrite decide_False by lia.
Qed.

Lemma uload_bytes_run n : forall a m,
  uload_bytes c n a m = (map (fun i => u8 (uload8 (cr3 (task_at (tasks m) c)) (u64 (a + Z.of_nat i)) (km (tasks m)))) (seq 0 n), m).
Proof.
  induction n as [|n IH]; intros a m; [done|]. cbn [uload_bytes]. unfold bind. rewrite uload_run, IH. unfold ret.
  cbn [seq map]. rewrite <- seq_shift, map_map, Z.add_0_r. do 2 f_equal. apply map_ext. intros i.
  do 3 f_equal. lia.
Qed.

Lemma stored_back bs m :
  cr3 (task_at (tasks m) c) = root -> mapped (km (tasks m)) -> Z.of_nat (length bs) <= room ->
  exists k, (ustore_bytes c buf bs m).2 = with_km k m /\ mapped k
    /\ uload_bytes c (length bs) buf (with_km k m) = (map u8 bs, with_km k m).
Proof.
  intros Hr Hm Hb. destruct (ustore_bytes_run bs buf m Hr Hm) as (k & -> & Hk & H); [lia|lia|].
  exists k. split_and!; [done|done|]. rewrite uload_bytes_run, with_km_tasks. f_equal. apply list_eq. intros i.
  rewrite !list_lookup_fmap. destruct (decide (i < length bs)%nat) as [Hi|Hi].
  - destruct (lookup_lt_is_Some_2 bs i Hi) as [b Eb]. rewrite lookup_seq_lt, Eb by done. cbn [fmap option_fmap option_map].
    change (cr3 (task_at (set_km k (tasks m)) c)) with (cr3 (task_at (tasks m) c)). rewrite Hr. cbn [km set_km].
    rewrite Nat.add_0_l, u64_small by lia. rewrite H, decide_True by lia.
    replace (Z.to_nat (buf + Z.of_nat i - buf)) with i by lia. by rewrite Eb.
  - rewrite (lookup_ge_None_2 bs) by lia. by rewrite (lookup_ge_None_2 (seq _ _)) by (rewrite length_seq; lia).
Qed.

(** ** The kernel's answers *)

Lemma serial_putchar_run x p : exists p', serial_putchar fuel x p = (Some tt, p').
Proof.
  destruct fuel as [|f]; [lia|]. cbn [serial_putchar]. unfold bind. pose proof (serial_ready p) as H.
  destruct (serial_tx_empty p) as [e p1]. cbn in H. rewrite H. unfold ret. by destruct (outb COM1 (u8 x) p1) as [[] p2]; exists p2.
Qed.

Lemma serial_write_run s : forall p, exists p', Io.serial_write fuel s p = (Some tt, p').
Proof.
  induction s as [|x s IH]; intros p; cbn [Io.serial_write]; [by exists p|]. unfold bind.
  assert (H : exists p1, (if x =? CHAR_NL then serial_putchar fuel CHAR_CR else ret (Some tt)) p = (Some tt, p1)).
  { destruct (x =? CHAR_NL); [apply serial_putchar_run|by exists p]. }
  destruct H as [p1 ->]. destruct (serial_putchar_run x p1) as [p2 ->]. apply IH.
Qed.

(** Back to user mode, when there is no signal. *)
Lemma end_quiet v0 w r m : agrees v0 w m -> r_int_no r = 0x80 -> r_cs r = 0x1B ->
  interrupt_end r m = (Returns r, m).
Proof.
  intros [Hc Hr Hs _ _ _ _ _] Hn Hcs. unfold interrupt_end, bind. rewrite Hn, Hcs, Z.eqb_refl. cbn [Z.leb Z.compare Pos.compare Pos.compare_cont andb].
  unfold ret at 1. cbn iota. unfold on_tasks, on_os, on_sched.
  assert (E : signal_deliver r (tasks m) = Resumes r (tasks m)).
  { unfold signal_deliver. rewrite Hc, Hs. destruct (_ =? 0); [done|]. change (has 0 (sig_bit SIGKILL)) with false.
    cbn iota. by destruct (in_signal _). }
  unfold tasks in E. rewrite E. by destruct m as [[]].
Qed.

Lemma syscall_run rax rdi rsi rdx m r' m1 v0 w :
  current_task (tasks m) = Some c ->
  syscall_switch fuel c ksp frame (call_frame rax rdi rsi rdx) m = (Returns r', m1) ->
  agrees v0 w m1 -> r_int_no r' = 0x80 -> r_cs r' = 0x1B -> syscall rax rdi rsi rdx m = (Returns r', m1).
Proof.
  intros Hc E A Hn Hcs. unfold syscall, handle_interrupt.
  change (handlers !! r_int_no (call_frame rax rdi rsi rdx)) with (Some Idt.Syscall). cbn [run_handler].
  unfold then_end, syscall_handler. rewrite (bind_run _ _ m (Returns r') m1); [by eapply end_quiet|].
  unfold bind. rewrite gets_run, Hc. exact E.
Qed.

Lemma write_switch v0 w bs m : agrees v0 w m -> Z.of_nat (length bs) <= room ->
  uload_bytes c (length bs) buf m = (map u8 bs, m) ->
  exists m1, syscall_switch fuel c ksp frame (call_frame 0 (u64 1) buf (Z.of_nat (length bs))) m
      = (Returns (set_rax (Z.of_nat (length bs)) (call_frame 0 (u64 1) buf (Z.of_nat (length bs)))), m1)
    /\ m_os m1 = m_os m /\ m_kbd m1 = m_kbd m /\ m_vga m1 = shown bs (m_vga m).
Proof.
  intros A Hb Hl. unfold syscall_switch. cbn [r_rax call_frame]. unfold write_call. cbn [r_rdi r_rdx r_rsi call_frame].
  change (i32 (u64 1)) with 1. unfold bind at 1. rewrite gets_run. change (Z.to_nat 1) with 1%nat.
  rewrite (proj2 (Z.eqb_neq _ _) (ag_out _ _ _ A)), andb_false_r. cbn [Z.eqb Pos.eqb orb].
  rewrite Nat2Z.id, (bind_run _ _ _ _ _ Hl). unfold bind at 1, on_console at 1.
  destruct (vga_write_run (map u8 bs) (m_vga m) (m_port m)) as [p1 ->]. fold (shown (map u8 bs) (m_vga m)). rewrite shown_u8.
  unfold bind, on_ports. cbn [m_port]. destruct (serial_write_run (map u8 bs) p1) as [p2 ->].
  eexists. split; [reflexivity|done].
Qed.

Lemma write_answer v0 w bs m : agrees v0 w m -> Z.of_nat (length bs) <= room ->
  exists r m1, syscall 0 (u64 1) buf (Z.of_nat (length bs)) (ustore_bytes c buf bs m).2 = (Returns r, m1)
    /\ i32 (r_rax r) = Z.of_nat (length bs) /\ agrees v0 (add_out bs w) m1.
Proof.
  intros A Hb. destruct (stored_back bs m (ag_root _ _ _ A) (ag_mapped _ _ _ A) Hb) as (k & -> & Hm & Hl).
  pose proof (agrees_with_km v0 w k m A Hm) as A0.
  destruct (write_switch v0 w bs (with_km k m) A0 Hb Hl) as (m1 & E & Ho & Hk & Hv).
  assert (A1 : agrees v0 (add_out bs w) m1).
  { destruct A0 as [B1 B2 B3 B4 B5 B6 B7 B8]. assert (Ht : tasks m1 = tasks (with_km k m)) by (unfold tasks; by rewrite Ho).
    split; rewrite ?Ht, ?Hk; try done. rewrite Hv, B7. cbn [w_out add_out]. by rewrite shown_app. }
  eexists _, m1. split; [eapply syscall_run; [apply A0|exact E|exact A1|done|done]|]. split; [|exact A1].
  cbn [r_rax set_rax]. apply i32_small. lia.
Qed.

Lemma kcontent_byte k x : x ∈ kcontent k -> u8 x = x.
Proof. unfold kcontent. intros (i & -> & _)%list_elem_of_fmap. apply u8_idemp. Qed.

Lemma read_answer v0 w x rest m : agrees v0 w m -> w_in w = x :: rest ->
  exists r m1, syscall 1 (u64 0) buf 1 m = (Returns r, m1)
    /\ i32 (r_rax r) = 1 /\ (uload c buf m1).1 = x /\ agrees v0 (set_in rest w) m1.
Proof.
  intros A Hin. destruct (ag_queue _ _ _ A) as [Hw Hq]. rewrite Hin in Hq.
  destruct (keyboard_read_head fuel (KState (m_port m) (m_kbd m) (o_sched (m_os m))) x rest Hw Hq)
    as ([p1 k1 s1] & E & W1 & C1 & _ & Ep & Es). cbn [kb kb_port kb_tasks] in *. subst p1 s1.
  set (m0 := Machine (m_os m) (m_port m) (m_vga m) k1 (m_ticks m) (m_break m)).
  assert (A0 : agrees v0 (set_in rest w) m0) by (destruct A; by split).
  set (km1 := ustore8 root (u64 buf) (u8 x) (km (tasks m0))).
  assert (Hm1 : mapped km1).
  { unfold km1. rewrite u64_small by lia. apply mapped_store; [apply A0|lia]. }
  pose proof (agrees_with_km _ _ km1 _ A0 Hm1) as A1.
  assert (Esw : syscall_switch fuel c ksp frame (call_frame 1 (u64 0) buf 1) m
    = (Returns (set_rax 1 (call_frame 1 (u64 0) buf 1)), with_km km1 m0)).
  { unfold syscall_switch. cbn [r_rax call_frame]. unfold read_call. cbn [r_rdi r_rdx r_rsi call_frame].
    change (i32 (u64 0)) with 0. unfold bind at 1. rewrite gets_run. change (Z.to_nat 0) with 0%nat.
    rewrite (proj2 (Z.eqb_neq _ _) (ag_in _ _ _ A)), andb_false_r. cbn [Z.eqb].
    unfold read_key. rewrite E. cbn [kb kb_port]. fold m0. unfold bind. rewrite ustore_run, (ag_root _ _ _ A0). done. }
  eexists _, _. split; [eapply syscall_run; [apply A|exact Esw|exact A1|done|done]|]. split_and!; [done| |exact A1].
  rewrite uload_run, with_km_tasks. cbn [fst].
  change (cr3 (task_at (set_km km1 (tasks m0)) c)) with (cr3 (task_at (tasks m0) c)). rewrite (ag_root _ _ _ A0).
  cbn [km set_km]. unfold km1. rewrite u64_small by lia. rewrite buffer_mapped by (apply A0 || lia). rewrite decide_True by done.
  rewrite u8_idemp. apply (kcontent_byte (m_kbd m)). rewrite Hq. by left.
Qed.

(** C12: programs that talk to the console behave on the kernel as in the
    world.  Take a run of a program whose calls write to descriptor 1, no more
    bytes than its buffer holds, or read descriptor 0 while there is input; a
    machine whose keyboard queue holds that input and whose serial transmitter
    is always ready; and a task that has not redirected the two descriptors,
    has no signal pending, and whose buffer is mapped in its page tables.
    Then the same program with each call made as interrupt 0x80 comes to the
    same result: what it reads is the queue, character by character through
    its buffer in user memory, and at the end the screen is the old one with
    the output written on it, the queue holds what was not read, and the
    buffer is still mapped.  The memory law holds for the walk of the page
    tables ([walk_umem]). *)
Theorem console_programs_on_kernel {A} n (t : prog A) w a w' v0 m :
  run answer n t w = Some (a, w') -> run_console n t w = true -> agrees v0 w m ->
  exists m', on_kernel t m a m' /\ agrees v0 w' m'.
Proof.
  revert t w m. induction n as [|n IH]; intros t w m Hr Hc Ag; [done|]. cbn [run run_console] in *.
  destruct (observe t) as [b|u|X e k] eqn:Ot.
  - injection Hr as -> ->. exists m. split; [by apply ok_ret|done].
  - destruct (IH u w m Hr Hc Ag) as (m' & R & A'). exists m'. split; [by eapply ok_tau|done].
  - apply andb_true_iff in Hc as [He Hc]. destruct e as [fd|fd bs| | | | | | |]; try done; cbn [console] in He;
      apply andb_true_iff in He as [->%Z.eqb_eq He].
    + destruct (w_in w) as [|x rest] eqn:Ein; [done|]. cbn [answer] in Hr, Hc. rewrite Ein in Hr, Hc.
      destruct (read_answer v0 w x rest m Ag Ein) as (r & m1 & E & Hx & Hl & A1).
      destruct (IH _ _ m1 Hr Hc A1) as (m' & R & A'). exists m'. split; [|done].
      eapply ok_read; [exact Ot|exact E|]. by rewrite Hx, Hl.
    + apply Z.leb_le in He. cbn [answer] in Hr, Hc.
      destruct (write_answer v0 w bs m Ag He) as (r & m1 & E & Hx & A1).
      destruct (IH _ _ m1 Hr Hc A1) as (m' & R & A'). exists m'. split; [|done].
      eapply ok_write; [exact Ot|exact E|]. by rewrite Hx.
Qed.

End Userland.

(** ** User memory through the page tables

    The processor's access to an address is to the byte of the frame that the
    tables map its page to (the rights in the entries are not looked at).  The
    laws above hold for it as long as the tables
    are well formed, and the buffer's pages are mapped to frames that are
    neither tables nor free, one each. *)

Definition walk_umem : UserMem := {|
  uload8 := fun root a k =>
    match phys_of k root a with Some p => load8 (phys k) (p + a mod 4096) | None => 0 end;
  ustore8 := fun root a v k =>
    match phys_of k root a with Some p => set_phys (store8 (phys k) (p + a mod 4096) v) k | None => k end
|}.

Section Walk.
Context (root buf room : Z).

Record buffer_walks (own : gmap Z (nat * Z)) (k : kmem) : Prop := {
  bw_kmem : kmem_wf k;
  bw_wf : pt_wf k root own;
  bw_frame a : buf <= a < buf + room -> exists p, phys_of k root a = Some p /\ user_frame k own p;
  bw_inj a b p : buf <= a < buf + room -> buf <= b < buf + room ->
    phys_of k root a = Some p -> phys_of k root b = Some p -> a / 4096 = b / 4096
}.

Lemma walk_store_same own k b v p :
  buffer_walks own k -> buf <= b < buf + room -> phys_of k root b = Some p ->
  let k' := set_phys (store8 (phys k) (p + b mod 4096) v) k in
  tables_same (phys k) (phys k') own /\ forall w, phys_of k' root w = phys_of k root w.
Proof.
  intros B Hb Hp k'. destruct (bw_frame _ _ B b Hb) as (p' & Hp' & Hu).
  rewrite Hp in Hp'. injection Hp' as <-.
  assert (Hs : tables_same (phys k) (phys k') own).
  { apply tables_same_bytes. intros t lx a Ht Ha. apply load8_store8_ne.
    pose proof (user_frame_apart _ _ _ _ _ _ (bw_wf _ _ B) Hu Ht). zlia. }
  split; [exact Hs|]. intros w. eapply phys_of_same; [exact (bw_wf _ _ B)|exact Hs].
Qed.

Lemma walk_mapped own k b v :
  buffer_walks own k -> buf <= b < buf + room -> buffer_walks own (ustore8 (UserMem := walk_umem) root b v k).
Proof.
  intros B Hb. cbn [ustore8 walk_umem]. destruct (bw_frame _ _ B b Hb) as (p & Hp & _). rewrite Hp.
  destruct (walk_store_same own k b v p B Hb Hp) as [Hs Hw]. cbv zeta in Hw.
  split.
  - apply set_phys_wf, B.
  - eapply pt_wf_same; [exact (bw_wf _ _ B)|exact Hs|]. cbn. lia.
  - intros a Ha. rewrite Hw. exact (bw_frame _ _ B a Ha).
  - intros a a' q. rewrite !Hw. apply (bw_inj _ _ B).
Qed.

Lemma walk_load_store own k a b v :
  buffer_walks own k -> buf <= a < buf + room -> buf <= b < buf + room ->
  u8 (uload8 (UserMem := walk_umem) root a (ustore8 (UserMem := walk_umem) root b v k))
  = if decide (a = b) then u8 v else u8 (uload8 (UserMem := walk_umem) root a k).
Proof.
  intros B Ha Hb. cbn [uload8 ustore8 walk_umem].
  destruct (bw_frame _ _ B b Hb) as (p & Hp & Hu). destruct (bw_frame _ _ B a Ha) as (q & Hq & Hu').
  rewrite Hp. destruct (walk_store_same own k b v p B Hb Hp) as [_ Hw]. cbv zeta in Hw. rewrite Hw, Hq.
  cbn [phys set_phys]. rewrite load8_store8.
  assert (Hiff : p + b mod 4096 = q + a mod 4096 <-> a = b).
  { split; [|intros ->; congruence]. intros E. destruct (decide (p = q)) as [->|Hne].
    - pose proof (bw_inj _ _ B a b q Ha Hb Hq Hp). zlia.
    - pose proof (aligned_apart _ _ (proj1 Hu) (proj1 Hu') Hne). zlia. }
  rewrite (decide_ext _ _ _ _ Hiff). destruct (decide (a = b)); [apply u8_idemp|done].
Qed.

End Walk.

(** ** [cat] on the line that was typed *)

(** Ports whose devices are always ready. *)
Definition ready_ports : PortIO unit :=
  {| inb := fun _ p => (0x20, p); outb := fun _ _ p => (tt, p); inw := fun _ p => (0, p); outw := fun _ _ p => (tt, p) |}.

(** The line hi is in the keyboard's queue; the tables are those of the boot. *)
Definition cat_machine : machine unit ramdisk :=
  Machine (Os (set_km boot_tables (scheduler_init no_tasks)) ∅ blank_sb 0 [] false) tt (Vga 0 0 7 ∅)
    (feed [0x23; 0xA3; 0x17; 0x97; 0x1C; 0x9C] kbd_zero) 0 0.
Definition cat_world : world := World (str "hi" ++ [10]) [] ∅ 0 0 [] [].

(** The page at 0x401000 as the buffer. *)
Lemma cat_buffer : buffer_walks KERNEL_CR3 0x401000 4096 boot_own boot_tables.
Proof.
  destruct boot_tables_wf as [Hk Hw].
  assert (Hpage : forall a, 0x401000 <= a < 0x402000 -> phys_of boot_tables KERNEL_CR3 a = Some 0x401000).
  { intros a Ha. rewrite (phys_of_page_no _ _ a 0x401000); [vm_compute; reflexivity|].
    unfold page_no. assert (a / 4096 = 0x401) as -> by zlia. reflexivity. }
  split; [exact Hk|exact Hw| |intros; zlia].
  intros a Ha. exists 0x401000. split; [apply Hpage; lia|].
  split_and!; [reflexivity|lia|lia|vm_compute; reflexivity|].
  unfold pool_free. change (page_alloc_cur boot_tables) with 0x600000. lia.
Qed.

Lemma console_programs_on_kernel_witness :
  exists m', on_kernel (io := ready_ports) (mmu := identity_mmu) (umem := walk_umem) 0 0x401000 1 0 0 0
      cat_main cat_machine 0 m'
    /\ m_vga m' = shown (str "hi" ++ [10]) (Vga 0 0 7 ∅) /\ kcontent (m_kbd m') = [].
Proof.
  assert (Hr : run answer 30 cat_main cat_world = Some (0, World [] (str "hi" ++ [10]) ∅ 0 0 [] [])) by (vm_compute; reflexivity).
  assert (Hc : run_console 4096 30 cat_main cat_world = true) by (vm_compute; reflexivity).
  assert (Ag : agrees 0 KERNEL_CR3 (buffer_walks KERNEL_CR3 0x401000 4096 boot_own) (Vga 0 0 7 ∅) cat_world cat_machine).
  { split; [reflexivity|reflexivity|reflexivity|vm_compute; discriminate|vm_compute; discriminate| |reflexivity|exact cat_buffer].
    split; [split; [reflexivity|vm_compute; split; [discriminate|reflexivity]..]|vm_compute; reflexivity]. }
  destruct (console_programs_on_kernel (io := ready_ports) (mmu := identity_mmu) (umem := walk_umem)
              0 KERNEL_CR3 0x401000 4096 1 0 0 0 ltac:(intros []; reflexivity) ltac:(lia) ltac:(lia)
              (buffer_walks KERNEL_CR3 0x401000 4096 boot_own)
              (fun k b v => walk_mapped KERNEL_CR3 0x401000 4096 boot_own k b v)
              (fun k a b v => walk_load_store KERNEL_CR3 0x401000 4096 boot_own k a b v)
              30 cat_main _ _ _ _ _ Hr Hc Ag) as (m' & R & A').
  exists m'. split; [exact R|]. split; [exact (ag_screen _ _ _ _ _ _ A')|exact (proj2 (ag_queue _ _ _ _ _ _ A'))].
Defined.
